(** * Demonbane level system (LVLSystem.py): a shallow embedding and its properties

    The embedding follows [src/LVLSystem.py] function by function.

    - Python integers are [Z]; [//] by a positive constant is [Z.div].
    - A call that raises (ValueError of [random.randint] on an empty range,
      IndexError of an array or list access, TypeError of subscripting
      [None]) yields [None]; a call that returns yields [Some].
    - The module [random] of Python is an oracle: a tape of integers read
      from left to right.  Every theorem quantifies over the tape, i.e. over
      every outcome of the random draws.
    - The numpy array [grid] is a finite map from in-range (x, y) to tile
      kinds, read and written through numpy's index rule (a negative index
      counts from the end, anything else out of range raises).
    - Enemy dicts are shared by reference between [room.enemies] and
      [dungeon.enemies] and mutated in place by the heat modifiers: the
      dungeon carries the [heap] of its enemy dicts and the two lists hold
      references (positions in the heap). *)

From stdpp Require Import base option list gmap strings relations.
From Stdlib Require Import ZArith Lia.

Local Open Scope Z_scope.

Definition coord : Type := Z * Z.

(** [range(a, b)] *)
Definition range (a b : Z) : list Z := seqZ a (b - a).

(** [l[i]] on a Python list: a negative index counts from the end. *)
Definition py_index {A} (l : list A) (i : Z) : option A :=
  let n := Z.of_nat (length l) in
  if bool_decide (0 ≤ i < n) then l !! Z.to_nat i
  else if bool_decide (- n ≤ i < 0) then l !! Z.to_nat (i + n)
  else None.

(** [a[i]] on a numpy axis of length [n]: the position that is accessed. *)
Definition np_index (n i : Z) : option Z :=
  if bool_decide (0 ≤ i < n) then Some i
  else if bool_decide (- n ≤ i < 0) then Some (i + n)
  else None.

(** ** The random source *)
Module random.

Record state := { tape : N → Z; cursor : N }.

Definition next (g : state) : Z * state :=
  (tape g (cursor g), {| tape := tape g; cursor := N.succ (cursor g) |}).

(** [random.randint(a, b)]: any integer of [a..b]; ValueError when empty. *)
Definition randint (a b : Z) (g : state) : option (Z * state) :=
  if bool_decide (b < a) then None
  else let '(r, g) := next g in Some (a + r `mod` (b - a + 1), g).

(** [random.randrange(n)] *)
Definition randrange (n : Z) (g : state) : option (Z * state) :=
  if bool_decide (n ≤ 0) then None
  else let '(r, g) := next g in Some (r `mod` n, g).

(** [random.random()], in hundredths: every threshold the source compares
    it with (0.2, 0.3, 0.6, 0.7, 0.8, 0.85, 0.95, 0.99, 1.0) is a whole
    number of hundredths. *)
Definition random (g : state) : Z * state :=
  let '(r, g) := next g in (r `mod` 100, g).

(** [random.choice(l)] *)
Definition choice {A} (l : list A) (g : state) : option (A * state) :=
  '(i, g) ← randrange (Z.of_nat (length l)) g;
  x ← l !! Z.to_nat i;
  Some (x, g).

(** A tape that repeats one value. *)
Definition const (r : Z) : state := {| tape := λ _, r; cursor := 0 |}.

(** A tape that starts with [l] and goes on with [r]. *)
Definition of_list (l : list Z) (r : Z) : state :=
  {| tape := λ n, default r (l !! N.to_nat n); cursor := 0 |}.

End random.

(** ** Tiles and records *)

Inductive TileType :=
  | WALL | FLOOR | DOOR | STAIRS_UP | STAIRS_DOWN
  | PLAYER | BOSS | CHEST | TRAP | SPECIAL.

Global Instance TileType_eq_dec : EqDecision TileType.
Proof. solve_decision. Defined.

Definition value (t : TileType) : Z :=
  match t with
  | WALL => 0 | FLOOR => 1 | DOOR => 2 | STAIRS_UP => 3 | STAIRS_DOWN => 4
  | PLAYER => 5 | BOSS => 6 | CHEST => 7 | TRAP => 8 | SPECIAL => 9
  end.

(** [room_type]: "normal", "boss", "special", "entrance", "exit" *)
Inductive RoomType := Normal | Boss | Special | Entrance | Exit.

Global Instance RoomType_eq_dec : EqDecision RoomType.
Proof. solve_decision. Defined.

Inductive EnemyType := enemy_normal | enemy_boss | enemy_elite.

Global Instance EnemyType_eq_dec : EqDecision EnemyType.
Proof. solve_decision. Defined.

Inductive Rarity := common | uncommon | rare | epic | legendary.

Global Instance Rarity_eq_dec : EqDecision Rarity.
Proof. solve_decision. Defined.

Inductive FeatureType := altar | shrine | fountain | statue | library.

Inductive DoorState := closed | open.

Global Instance DoorState_eq_dec : EqDecision DoorState.
Proof. solve_decision. Defined.

(** [{"type": .., "pos": .., "level": ..}] of an enemy *)
Record Enemy := { e_type : EnemyType; e_pos : coord; e_level : Z }.

(** [{"type": .., "pos": .., "level": ..}] of an item *)
Record Item := { i_type : Rarity; i_pos : coord; i_level : Z }.

(** [{"type": .., "pos": .., "area": ..}] of a feature *)
Record Feature := { f_type : FeatureType; f_pos : coord; f_area : Z }.

(** [{"type": "door", "pos": .., "state": ..}]: doors are the only objects. *)
Record Door := { o_pos : coord; o_state : DoorState }.

Global Instance Item_eq_dec : EqDecision Item.
Proof. solve_decision. Defined.

Global Instance Enemy_eq_dec : EqDecision Enemy.
Proof. solve_decision. Defined.

Global Instance Door_eq_dec : EqDecision Door.
Proof. solve_decision. Defined.

(** Constants *)
Definition ROOM_MIN_SIZE : Z := 5.
Definition ROOM_MAX_SIZE : Z := 10.
Definition MIN_ROOMS : Z := 8.
Definition MAX_ROOMS : Z := 12.
Definition MONSTER_CHANCE : Z := 80.
Definition ITEM_CHANCE : Z := 30.

(** ** class Room *)
Module Room.

Record t := {
  x : Z; y : Z; width : Z; height : Z;
  room_type : RoomType;
  connected : bool;
  enemies : list nat;          (* references into the enemy heap *)
  items : list Item;
  features : list Feature }.

(** [Room(x, y, width, height, room_type)] *)
Definition new (x y width height : Z) (room_type : RoomType) : t :=
  {| x := x; y := y; width := width; height := height;
     room_type := room_type; connected := false;
     enemies := []; items := []; features := [] |}.

Definition set_connected (b : bool) (r : t) : t :=
  {| x := x r; y := y r; width := width r; height := height r;
     room_type := room_type r; connected := b;
     enemies := enemies r; items := items r; features := features r |}.

Definition set_enemies (l : list nat) (r : t) : t :=
  {| x := x r; y := y r; width := width r; height := height r;
     room_type := room_type r; connected := connected r;
     enemies := l; items := items r; features := features r |}.

Definition set_items (l : list Item) (r : t) : t :=
  {| x := x r; y := y r; width := width r; height := height r;
     room_type := room_type r; connected := connected r;
     enemies := enemies r; items := l; features := features r |}.

Definition set_features (l : list Feature) (r : t) : t :=
  {| x := x r; y := y r; width := width r; height := height r;
     room_type := room_type r; connected := connected r;
     enemies := enemies r; items := items r; features := l |}.

Definition center (self : t) : coord :=
  (x self + width self / 2, y self + height self / 2).

Definition intersects (self other : t) : bool :=
  bool_decide (x self ≤ x other + width other) &&
  bool_decide (x self + width self >= x other) &&
  bool_decide (y self ≤ y other + height other) &&
  bool_decide (y self + height self >= y other).

(** The body of [for _ in range(num_enemies)] of [place_enemies]. *)
Fixpoint place_enemies_loop (n : nat) (self : t) (dungeon_level : Z)
    (heap : list Enemy) (g : random.state)
    : option (t * list Enemy * random.state) :=
  match n with
  | O => Some (self, heap, g)
  | S n =>
      '(ex, g) ← random.randint (x self + 1) (x self + width self - 2) g;
      '(ey, g) ← random.randint (y self + 1) (y self + height self - 2) g;
      '(dl, g) ← random.randint (-1) 1 g;
      let e := {| e_type := enemy_normal; e_pos := (ex, ey);
                  e_level := Z.max 1 (dungeon_level + dl) |} in
      place_enemies_loop n
        (set_enemies (enemies self ++ [length heap]) self)
        dungeon_level (heap ++ [e]) g
  end.

Definition place_enemies (self : t) (dungeon_level area_index : Z)
    (heap : list Enemy) (g : random.state)
    : option (t * list Enemy * random.state) :=
  if decide (room_type self = Boss) then
    let e := {| e_type := enemy_boss; e_pos := center self;
                e_level := dungeon_level + 2 + area_index |} in
    Some (set_enemies (enemies self ++ [length heap]) self, heap ++ [e], g)
  else
    let room_area := width self * height self in
    let base_enemies := Z.max 1 (room_area / 25) in
    let difficulty_mod := Z.min 3 (Z.max 0 (dungeon_level + area_index / 2)) in
    '(num_enemies, g) ←
      random.randint (Z.max 0 (base_enemies - 1))
                     (base_enemies + difficulty_mod) g;
    place_enemies_loop (Z.to_nat num_enemies) self dungeon_level heap g.

Definition place_items (self : t) (dungeon_level : Z) (g : random.state)
    : option (t * random.state) :=
  let item_chance :=
    if decide (room_type self = Boss) then 100
    else if decide (room_type self = Special) then 60
    else ITEM_CHANCE in
  let '(roll, g) := random.random g in
  if bool_decide (roll < item_chance) then
    '(ix, g) ← random.randint (x self + 1) (x self + width self - 2) g;
    '(iy, g) ← random.randint (y self + 1) (y self + height self - 2) g;
    let '(rarity_roll, g) := random.random g in
    let item_type :=
      if bool_decide (rarity_roll < 60) then common
      else if bool_decide (rarity_roll < 85) then uncommon
      else if bool_decide (rarity_roll < 95) then rare
      else if bool_decide (rarity_roll < 99) then epic
      else legendary in
    let it := {| i_type := item_type; i_pos := (ix, iy);
                 i_level := dungeon_level |} in
    Some (set_items (items self ++ [it]) self, g)
  else Some (self, g).

Definition add_special_feature (self : t) (area_index : Z) (g : random.state)
    : option (t * random.state) :=
  if decide (room_type self = Special) then
    let feature_types := [altar; shrine; fountain; statue; library] in
    '(feature_type, g) ← random.choice feature_types g;
    let f := {| f_type := feature_type; f_pos := center self;
                f_area := area_index |} in
    Some (set_features (features self ++ [f]) self, g)
  else Some (self, g).

(** The cell [(cx, cy)] lies strictly inside the room: not on its first
    or last row or column. *)
Definition interior (self : t) (p : coord) : Prop :=
  x self + 1 ≤ p.1 ≤ x self + width self - 2 ∧
  y self + 1 ≤ p.2 ≤ y self + height self - 2.

End Room.

(** [for a in l: s = body(a, s)], stopping at the first exception. *)
Fixpoint for_each {A S} (l : list A) (body : A → S → option S) (s : S)
    : option S :=
  match l with
  | [] => Some s
  | a :: l => s ← body a s; for_each l body s
  end.

(** [l.remove(a)]: drops the first occurrence. *)
Fixpoint list_remove_first (a : nat) (l : list nat) : list nat :=
  match l with
  | [] => []
  | b :: l => if decide (a = b) then l else b :: list_remove_first a l
  end.

(** Squared distance of two cells.  The source compares
    [((dx)**2 + (dy)**2) ** 0.5] with an integer or with another such
    value; on integers these comparisons are those of the squares. *)
Definition dist2 (c1 c2 : coord) : Z :=
  (c1.1 - c2.1) * (c1.1 - c2.1) + (c1.2 - c2.2) * (c1.2 - c2.2).

(** ** class Dungeon *)
Module Dungeon.

Record t := {
  width : Z; height : Z; player_level : Z; area_index : Z;
  grid : gmap coord TileType;      (* absent: 0, a wall *)
  rooms : list Room.t;
  entrance : option coord;
  exit : option coord;
  objects : list Door;
  heap : list Enemy;               (* the enemy dicts of this level *)
  enemies : list nat;              (* references into [heap] *)
  items : list Item;
  theme : Z }.

Definition set_grid (v : gmap coord TileType) (d : t) : t :=
  {| width := width d; height := height d; player_level := player_level d;
     area_index := area_index d; grid := v; rooms := rooms d;
     entrance := entrance d; exit := exit d; objects := objects d;
     heap := heap d; enemies := enemies d; items := items d;
     theme := theme d |}.

Definition set_rooms (v : list Room.t) (d : t) : t :=
  {| width := width d; height := height d; player_level := player_level d;
     area_index := area_index d; grid := grid d; rooms := v;
     entrance := entrance d; exit := exit d; objects := objects d;
     heap := heap d; enemies := enemies d; items := items d;
     theme := theme d |}.

Definition set_entrance (v : option coord) (d : t) : t :=
  {| width := width d; height := height d; player_level := player_level d;
     area_index := area_index d; grid := grid d; rooms := rooms d;
     entrance := v; exit := exit d; objects := objects d;
     heap := heap d; enemies := enemies d; items := items d;
     theme := theme d |}.

Definition set_exit (v : option coord) (d : t) : t :=
  {| width := width d; height := height d; player_level := player_level d;
     area_index := area_index d; grid := grid d; rooms := rooms d;
     entrance := entrance d; exit := v; objects := objects d;
     heap := heap d; enemies := enemies d; items := items d;
     theme := theme d |}.

Definition set_objects (v : list Door) (d : t) : t :=
  {| width := width d; height := height d; player_level := player_level d;
     area_index := area_index d; grid := grid d; rooms := rooms d;
     entrance := entrance d; exit := exit d; objects := v;
     heap := heap d; enemies := enemies d; items := items d;
     theme := theme d |}.

Definition set_heap (v : list Enemy) (d : t) : t :=
  {| width := width d; height := height d; player_level := player_level d;
     area_index := area_index d; grid := grid d; rooms := rooms d;
     entrance := entrance d; exit := exit d; objects := objects d;
     heap := v; enemies := enemies d; items := items d;
     theme := theme d |}.

Definition set_enemies (v : list nat) (d : t) : t :=
  {| width := width d; height := height d; player_level := player_level d;
     area_index := area_index d; grid := grid d; rooms := rooms d;
     entrance := entrance d; exit := exit d; objects := objects d;
     heap := heap d; enemies := v; items := items d;
     theme := theme d |}.

Definition set_items (v : list Item) (d : t) : t :=
  {| width := width d; height := height d; player_level := player_level d;
     area_index := area_index d; grid := grid d; rooms := rooms d;
     entrance := entrance d; exit := exit d; objects := objects d;
     heap := heap d; enemies := enemies d; items := v;
     theme := theme d |}.

(** [_get_theme_for_area]: the theme is opaque here; what is kept is the
    position read in the table of seven themes. *)
Definition _get_theme_for_area (area_index : Z) : option Z :=
  np_index 7 (Z.min area_index (7 - 1)).

(** [Dungeon(width, height, player_level, area_index)]; [np.zeros] raises
    on a negative dimension. *)
Definition new (width height player_level area_index : Z) : option t :=
  if bool_decide (width < 0 ∨ height < 0) then None
  else
    th ← _get_theme_for_area area_index;
    Some {| width := width; height := height;
            player_level := player_level; area_index := area_index;
            grid := ∅; rooms := []; entrance := None; exit := None;
            objects := []; heap := []; enemies := []; items := [];
            theme := th |}.

(** [self.grid[y][x]] *)
Definition get (self : t) (x y : Z) : option TileType :=
  j ← np_index (height self) y;
  i ← np_index (width self) x;
  Some (default WALL (grid self !! (i, j))).

(** [self.grid[y][x] = v] *)
Definition put (x y : Z) (v : TileType) (self : t) : option t :=
  j ← np_index (height self) y;
  i ← np_index (width self) x;
  Some (set_grid (<[(i, j) := v]> (grid self)) self).

(** [self.grid.fill(TileType.WALL.value)] *)
Definition fill_wall (self : t) : t := set_grid ∅ self.

(** The two nested loops that write floor over a rectangle. *)
Definition fill_floor (x y w h : Z) (self : t) : option t :=
  for_each (range y (y + h)) (λ room_y,
    for_each (range x (x + w)) (λ room_x, put room_x room_y FLOOR)) self.

(** The same loops with the bounds guard of [_generate_final_area]. *)
Definition fill_floor_guarded (x y w h : Z) (self : t) : option t :=
  for_each (range y (y + h)) (λ cy,
    for_each (range x (x + w)) (λ cx s,
      if bool_decide (0 ≤ cx < width s) && bool_decide (0 ≤ cy < height s)
      then put cx cy FLOOR s else Some s)) self.

(** The scan [for room in self.rooms] of a candidate room: [true] when it
    ends without [break] (the [else] branch of the loop is taken). *)
Definition fits (self : t) (new_room : Room.t) (min_distance : Z) : bool :=
  forallb (λ room,
    negb (Room.intersects new_room room) &&
    negb (bool_decide (min_distance > 0) &&
          bool_decide (dist2 (Room.center new_room) (Room.center room)
                       < min_distance * min_distance)))
    (rooms self).

(** "Add enemies and items" for the room just appended, [self.rooms[idx]]. *)
Definition populate_new_room (idx : nat) (room_type : RoomType) (self : t)
    (g : random.state) : option (t * random.state) :=
  if decide (room_type ≠ Entrance) then
    new_room ← rooms self !! idx;
    let '(roll, g) := random.random g in
    '(new_room, hp, g) ←
      (if bool_decide (roll < MONSTER_CHANCE)
       then Room.place_enemies new_room (player_level self)
              (area_index self) (heap self) g
       else Some (new_room, heap self, g));
    '(new_room, g) ← Room.place_items new_room (player_level self) g;
    '(new_room, g) ←
      (if decide (room_type = Special)
       then Room.add_special_feature new_room (area_index self) g
       else Some (new_room, g));
    Some (set_heap hp (set_rooms (<[idx := new_room]> (rooms self)) self), g)
  else Some (self, g).

(** [for attempt in range(100)]; the result is the reference of the room
    that was placed, if one was. *)
Fixpoint _add_room_attempts (n : nat) (w h min_distance : Z)
    (room_type : RoomType) (self : t) (g : random.state)
    : option (option nat * t * random.state) :=
  match n with
  | O => Some (None, self, g)
  | S n =>
      '(x, g) ← random.randint 1 (width self - w - 1) g;
      '(y, g) ← random.randint 1 (height self - h - 1) g;
      let new_room := Room.new x y w h room_type in
      if fits self new_room min_distance then
        self ← fill_floor x y w h self;
        let idx := length (rooms self) in
        let self := set_rooms (rooms self ++ [new_room]) self in
        '(self, g) ← populate_new_room idx room_type self g;
        Some (Some idx, self, g)
      else _add_room_attempts n w h min_distance room_type self g
  end.

(** [for x, y in corner_options] *)
Fixpoint _add_room_corners (corners : list coord) (fallback_size : Z)
    (room_type : RoomType) (self : t) : option (option nat * t) :=
  match corners with
  | [] => Some (None, self)
  | (x, y) :: corners =>
      let new_room := Room.new x y fallback_size fallback_size room_type in
      if forallb (λ room, negb (Room.intersects new_room room)) (rooms self)
      then
        self ← fill_floor x y fallback_size fallback_size self;
        let idx := length (rooms self) in
        Some (Some idx, set_rooms (rooms self ++ [new_room]) self)
      else _add_room_corners corners fallback_size room_type self
  end.

(** [_add_room(min_distance, room_type)]; returns the reference (position
    in [self.rooms]) of the new room. *)
Definition _add_room (min_distance : Z) (room_type : RoomType) (self : t)
    (g : random.state) : option (nat * t * random.state) :=
  '(w, h, g) ←
    (if decide (room_type = Entrance ∨ room_type = Exit) then
       '(w, g) ← random.randint (ROOM_MIN_SIZE + 1) (ROOM_MAX_SIZE + 1) g;
       '(h, g) ← random.randint (ROOM_MIN_SIZE + 1) (ROOM_MAX_SIZE + 1) g;
       Some (w, h, g)
     else
       '(w, g) ← random.randint ROOM_MIN_SIZE ROOM_MAX_SIZE g;
       '(h, g) ← random.randint ROOM_MIN_SIZE ROOM_MAX_SIZE g;
       Some (w, h, g));
  '(placed, self, g) ←
    _add_room_attempts 100 w h min_distance room_type self g;
  match placed with
  | Some idx => Some (idx, self, g)
  | None =>
      let fallback_size := ROOM_MIN_SIZE in
      let corner_options :=
        [ (1, 1);
          (1, height self - fallback_size - 1);
          (width self - fallback_size - 1, 1);
          (width self - fallback_size - 1,
           height self - fallback_size - 1) ] in
      '(placed, self) ←
        _add_room_corners corner_options fallback_size room_type self;
      match placed with
      | Some idx => Some (idx, self, g)
      | None =>
          let x := width self / 2 - fallback_size / 2 in
          let y := height self / 2 - fallback_size / 2 in
          let new_room :=
            Room.new x y fallback_size fallback_size room_type in
          self ← fill_floor x y fallback_size fallback_size self;
          let idx := length (rooms self) in
          Some (idx, set_rooms (rooms self ++ [new_room]) self, g)
      end
  end.

(** The two straight runs of a corridor. *)
Definition carve_h (y xa xb : Z) (self : t) : option t :=
  for_each (range (Z.min xa xb) (Z.max xa xb + 1))
           (λ x, put x y FLOOR) self.

Definition carve_v (x ya yb : Z) (self : t) : option t :=
  for_each (range (Z.min ya yb) (Z.max ya yb + 1))
           (λ y, put x y FLOOR) self.

(** [for dx, dy in [(0, 1), (1, 0), (0, -1), (-1, 0)]] of the door step:
    the first neighbour that is floor becomes a closed door. *)
Fixpoint place_door (dirs : list coord) (x1 y1 : Z) (self : t) : option t :=
  match dirs with
  | [] => Some self
  | (dx, dy) :: dirs =>
      let nx := x1 + dx in
      let ny := y1 + dy in
      if bool_decide (0 ≤ nx < width self) && bool_decide (0 ≤ ny < height self)
      then
        tile ← get self nx ny;
        if decide (tile = FLOOR) then
          self ← put nx ny DOOR self;
          Some (set_objects
                  (objects self ++ [{| o_pos := (nx, ny); o_state := closed |}])
                  self)
        else place_door dirs x1 y1 self
      else place_door dirs x1 y1 self
  end.

Definition directions : list coord := [(0, 1); (1, 0); (0, -1); (-1, 0)].

(** [_create_corridor(point1, point2)].  The door step runs once, for the
    first room that holds [point1], when there is one. *)
Definition _create_corridor (point1 point2 : coord) (self : t)
    (g : random.state) : option (t * random.state) :=
  let '(x1, y1) := point1 in
  let '(x2, y2) := point2 in
  let '(roll, g) := random.random g in
  self ←
    (if bool_decide (roll < 70) then
       self ← carve_h y1 x1 x2 self; carve_v x2 y1 y2 self
     else
       self ← carve_v x1 y1 y2 self; carve_h y2 x1 x2 self);
  let '(roll, g) := random.random g in
  if bool_decide (roll < 20) then
    if existsb (λ room,
         bool_decide (Room.x room ≤ x1 ≤ Room.x room + Room.width room) &&
         bool_decide (Room.y room ≤ y1 ≤ Room.y room + Room.height room))
         (rooms self)
    then self ← place_door directions x1 y1 self; Some (self, g)
    else Some (self, g)
  else Some (self, g).

(** References of the rooms that satisfy [p], in list order. *)
Definition room_refs (p : Room.t → bool) (rs : list Room.t) : list nat :=
  List.filter (λ i, from_option p false (rs !! i)) (seq 0 (length rs)).

(** One comparison of the closest-pair scan.  [None] is
    [float('inf')] with the pair [(None, None)]. *)
Definition closest_step (rs : list Room.t)
    (best : option (Z * (nat * nat))) (uc : nat * nat)
    : option (Z * (nat * nat)) :=
  match rs !! uc.1, rs !! uc.2 with
  | Some uncon_room, Some con_room =>
      let distance := dist2 (Room.center uncon_room) (Room.center con_room) in
      match best with
      | None => Some (distance, uc)
      | Some (closest_distance, _) =>
          if bool_decide (distance < closest_distance)
          then Some (distance, uc) else best
      end
  | _, _ => best
  end.

Definition closest_pair (rs : list Room.t) (unconnected : list nat)
    : option (nat * nat) :=
  snd <$> foldl (closest_step rs) None
            (list_prod unconnected (room_refs Room.connected rs)).

(** [while unconnected].  An iteration that finds no pair changes nothing
    in the source, so the loop would not end: no result.  [fuel] is the
    length of [unconnected], which every other iteration shortens. *)
Fixpoint connect_loop (fuel : nat) (unconnected : list nat) (self : t)
    (g : random.state) : option (t * random.state) :=
  match unconnected with
  | [] => Some (self, g)
  | _ :: _ =>
      match fuel with
      | O => None
      | S fuel =>
          '(u, c) ← closest_pair (rooms self) unconnected;
          uncon_room ← rooms self !! u;
          con_room ← rooms self !! c;
          '(self, g) ← _create_corridor (Room.center uncon_room)
                         (Room.center con_room) self g;
          let self :=
            set_rooms (alter (Room.set_connected true) u (rooms self)) self in
          connect_loop fuel (list_remove_first u unconnected) self g
      end
  end.

Definition _connect_rooms (self : t) (g : random.state)
    : option (t * random.state) :=
  entrance_room ←
    match room_refs (λ r, bool_decide (Room.room_type r = Entrance))
                    (rooms self) with
    | i :: _ => Some i
    | [] => if decide (rooms self = []) then None else Some O
    end;
  let self :=
    set_rooms (alter (Room.set_connected true) entrance_room (rooms self))
              self in
  let unconnected := room_refs (λ r, negb (Room.connected r)) (rooms self) in
  connect_loop (length unconnected) unconnected self g.

(** The enemy dicts a list of references stands for. *)
Definition deref (hp : list Enemy) (refs : list nat) : list Enemy :=
  omap (λ i, hp !! i) refs.

Definition _populate_dungeon (self : t) : t :=
  set_items (concat (Room.items <$> rooms self))
    (set_enemies (concat (Room.enemies <$> rooms self)) self).

(** The first loop over [side_rooms] of [_generate_final_area]. *)
Definition add_side_room (room : Room.t) (st : t * random.state)
    : option (t * random.state) :=
  let '(self, g) := st in
  let idx := length (rooms self) in
  let self := set_rooms (rooms self ++ [room]) self in
  self ← fill_floor_guarded (Room.x room) (Room.y room)
           (Room.width room) (Room.height room) self;
  if decide (Room.room_type room ≠ Entrance) then
    room ← rooms self !! idx;
    '(room, hp, g) ← Room.place_enemies room (player_level self)
                       (area_index self) (heap self) g;
    '(room, g) ← Room.place_items room (player_level self) g;
    '(room, g) ← Room.add_special_feature room (area_index self) g;
    Some (set_heap hp (set_rooms (<[idx := room]> (rooms self)) self), g)
  else Some (self, g).

Definition _generate_final_area (self : t) (g : random.state)
    : option (t * random.state) :=
  let throne_room :=
    Room.new (width self / 2 - 5) (height self / 2 - 5) 10 10 Boss in
  let throne_idx := length (rooms self) in
  let self := set_rooms (rooms self ++ [throne_room]) self in
  self ← fill_floor_guarded (Room.x throne_room) (Room.y throne_room)
           (Room.width throne_room) (Room.height throne_room) self;
  let the_boss := {| e_type := enemy_boss; e_pos := Room.center throne_room;
                     e_level := player_level self + 5 |} in
  let self :=
    set_heap (heap self ++ [the_boss])
      (set_rooms
         (alter (λ r, Room.set_enemies (Room.enemies r ++ [length (heap self)]) r)
                throne_idx (rooms self)) self) in
  let side_rooms :=
    [ Room.new (Room.x throne_room - 8) (Room.y throne_room) 6 6 Special;
      Room.new (Room.x throne_room + Room.width throne_room + 2)
               (Room.y throne_room) 6 6 Special;
      Room.new (Room.x throne_room) (Room.y throne_room - 8) 6 6 Entrance ] in
  '(self, g) ← for_each side_rooms add_side_room (self, g);
  '(self, g) ← for_each side_rooms (λ room '(self, g),
                 _create_corridor (Room.center room)
                   (Room.center throne_room) self g) (self, g);
  side2 ← side_rooms !! 2%nat;
  let e := Room.center side2 in
  let self := set_entrance (Some e) self in
  self ← put e.1 e.2 STAIRS_UP self;
  Some (_populate_dungeon self, g).

(** [generate()] *)
Definition generate (self : t) (g : random.state)
    : option (t * random.state) :=
  let self := fill_wall self in
  if decide (area_index self = 6) then _generate_final_area self g
  else
    '(num_rooms, g) ← random.randint MIN_ROOMS MAX_ROOMS g;
    '(entrance_room, self, g) ← _add_room 0 Entrance self g;
    r ← rooms self !! entrance_room;
    let self := set_entrance (Some (Room.center r)) self in
    '(self, g) ← for_each (range 1 (num_rooms - 1)) (λ _ '(self, g),
                   let '(roll, g) := random.random g in
                   let room_type :=
                     if bool_decide (roll < 20) then Special else Normal in
                   '(_, self, g) ← _add_room 0 room_type self g;
                   Some (self, g)) (self, g);
    '(exit_room, self, g) ←
      _add_room (Z.max (width self) (height self) / 3) Exit self g;
    r ← rooms self !! exit_room;
    let self := set_exit (Some (Room.center r)) self in
    '(self, g) ← _connect_rooms self g;
    en ← entrance self;
    self ← put en.1 en.2 STAIRS_UP self;
    ex ← exit self;
    self ← put ex.1 ex.2 STAIRS_DOWN self;
    Some (_populate_dungeon self, g).

(** [for enemy in self.enemies: if enemy["pos"] == p] finds one *)
Definition enemy_at (self : t) (p : coord) : bool :=
  existsb (λ e, bool_decide (e_pos e = p)) (deref (heap self) (enemies self)).

Definition item_at (self : t) (p : coord) : bool :=
  existsb (λ it, bool_decide (i_pos it = p)) (items self).

(** [for _ in range(50)] of [add_traps]: stops at the first trap placed. *)
Fixpoint add_trap_attempts (n : nat) (self : t) (g : random.state)
    : option (t * random.state) :=
  match n with
  | O => Some (self, g)
  | S n =>
      '(x, g) ← random.randint 1 (width self - 2) g;
      '(y, g) ← random.randint 1 (height self - 2) g;
      tile ← get self x y;
      if decide (tile = FLOOR) then
        if bool_decide (Some (x, y) ≠ entrance self) &&
           bool_decide (Some (x, y) ≠ exit self) then
          if enemy_at self (x, y) then add_trap_attempts n self g
          else if item_at self (x, y) then add_trap_attempts n self g
          else self ← put x y TRAP self; Some (self, g)
        else add_trap_attempts n self g
      else add_trap_attempts n self g
  end.

(** [for _ in range(num_traps)] *)
Fixpoint add_traps_loop (n : nat) (self : t) (g : random.state)
    : option (t * random.state) :=
  match n with
  | O => Some (self, g)
  | S n => '(self, g) ← add_trap_attempts 50 self g; add_traps_loop n self g
  end.

Definition add_traps (self : t) (g : random.state)
    : option (t * random.state) :=
  let num_traps := 2 + area_index self in
  add_traps_loop (Z.to_nat num_traps) self g.

Definition walkable (v : TileType) : bool :=
  match v with
  | FLOOR | DOOR | STAIRS_UP | STAIRS_DOWN => true
  | _ => false
  end.

Definition get_walkable_neighbors (self : t) (x y : Z) : list coord :=
  omap (λ '(dx, dy),
    let nx := x + dx in
    let ny := y + dy in
    if bool_decide (0 ≤ nx < width self) && bool_decide (0 ≤ ny < height self)
    then tile ← get self nx ny;
         if walkable tile then Some (nx, ny) else None
    else None) directions.

(** *** A* search

    A priority [(g, d)] stands for the number [g + sqrt d], the
    [f_score] of the source ([(0, 0)] is the [0] of the start entry).
    [prio_lt] compares two such numbers exactly; the rounding of the
    floating-point [f_score] is not modelled.  The search itself takes the
    comparison as a parameter, and what is proved about it holds for every
    comparison. *)
Definition prio : Type := Z * Z.

Definition prio_lt (p q : prio) : bool :=
  let k := q.1 - p.1 in
  (* sqrt p.2 < k + sqrt q.2 *)
  if bool_decide (0 ≤ k) then
    let c := p.2 - q.2 - k * k in
    bool_decide (c < 0) || bool_decide (c * c < 4 * k * k * q.2)
  else
    let c := q.2 - p.2 - k * k in
    bool_decide (0 < c) && bool_decide (4 * k * k * p.2 < c * c).

Section astar.
Variable lt : prio → prio → bool.

(** [open_set.sort(key=lambda x: x[1])]: a stable sort, by insertion
    behind the entries that are not greater. *)
Fixpoint insert_by (e : coord * prio) (l : list (coord * prio))
    : list (coord * prio) :=
  match l with
  | [] => [e]
  | e' :: l' => if lt e.2 e'.2 then e :: l else e' :: insert_by e l'
  end.

Definition sort_by (l : list (coord * prio)) : list (coord * prio) :=
  foldl (λ acc e, insert_by e acc) [] l.

(** The three dictionaries and lists of the search. *)
Record search := {
  open_set : list (coord * prio);
  came_from : gmap coord coord;
  g_score : gmap coord Z }.

(** The body of [for neighbor in ...]; [None] is a KeyError. *)
Definition relax (current end_ : coord) (st : search) (neighbor : coord)
    : option search :=
  gc ← g_score st !! current;
  let tentative_g := gc + 1 in
  if match g_score st !! neighbor with
     | None => true
     | Some gn => bool_decide (tentative_g < gn)
     end
  then
    Some {| came_from := <[neighbor := current]> (came_from st);
            g_score := <[neighbor := tentative_g]> (g_score st);
            open_set := open_set st ++
              [(neighbor, (tentative_g, dist2 neighbor end_))] |}
  else Some st.

(** "Reconstruct path": the inner [while current in came_from]. *)
Fixpoint reconstruct (fuel : nat) (cf : gmap coord coord)
    (current : coord) (path : list coord) : option (list coord) :=
  match cf !! current with
  | None => Some path
  | Some prev =>
      match fuel with
      | O => None
      | S fuel => reconstruct fuel cf prev (path ++ [prev])
      end
  end.

(** What a run of the search loop gives: the path returned, the [None]
    returned after the loop, or no result (a KeyError or a loop that
    uses up its fuel; shown below not to happen). *)
Inductive outcome := Found (path : list coord) | NoPath | NoResult.

Fixpoint search_loop (fuel : nat) (self : t) (end_ : coord) (st : search)
    : outcome :=
  match sort_by (open_set st) with
  | [] => NoPath
  | (current, _) :: rest =>
      match fuel with
      | O => NoResult
      | S fuel =>
          if decide (current = end_) then
            match reconstruct (Z.to_nat (width self * height self))
                    (came_from st) current [current] with
            | Some path => Found (reverse path)
            | None => NoResult
            end
          else
            match foldl (λ st neighbor, st ← st; relax current end_ st neighbor)
                    (Some {| open_set := rest; came_from := came_from st;
                             g_score := g_score st |})
                    (get_walkable_neighbors self current.1 current.2) with
            | Some st => search_loop fuel self end_ st
            | None => NoResult
            end
      end
  end.

Definition find_path_outcome (self : t) (start end_ : coord) : outcome :=
  if bool_decide (start.1 < 0) || bool_decide (start.1 >= width self) ||
     bool_decide (start.2 < 0) || bool_decide (start.2 >= height self) ||
     bool_decide (end_.1 < 0) || bool_decide (end_.1 >= width self) ||
     bool_decide (end_.2 < 0) || bool_decide (end_.2 >= height self) ||
     bool_decide (get self start.1 start.2 = Some WALL) ||
     bool_decide (get self end_.1 end_.2 = Some WALL)
  then NoPath
  else
    let cells := Z.to_nat (width self * height self) in
    search_loop (S (cells * cells)) self end_
      {| open_set := [(start, (0, 0))]; came_from := ∅;
         g_score := {[ start := 0 ]} |}.

(** [find_path(start, end)]: the path, or [None]. *)
Definition find_path_by (self : t) (start end_ : coord)
    : option (list coord) :=
  match find_path_outcome self start end_ with
  | Found path => Some path
  | _ => None
  end.
End astar.

Definition find_path : t → coord → coord → option (list coord) :=
  find_path_by prio_lt.

End Dungeon.

(** [{"name": .., "effect": .., "min_heat": ..}] *)
Record Modifier := { name : string; effect : string; min_heat : Z }.

Global Instance Modifier_eq_dec : EqDecision Modifier.
Proof. solve_decision. Defined.

(** What [move_player] returns: [True], [False], [("item", item)],
    [("enemy", enemy)], [("trap", None)]. *)
Inductive move_result :=
  | Moved | Blocked | ItemEvent (it : Item) | EnemyEvent (e : Enemy) | TrapEvent.

(** [n] times [body], stopping at the first exception. *)
Fixpoint repeat_m {S} (n : nat) (body : S → option S) (s : S) : option S :=
  match n with
  | O => Some s
  | S n => s ← body s; repeat_m n body s
  end.

(** [l.pop(i)] for an index in range *)
Definition list_pop {A} (i : nat) (l : list A) : list A := take i l ++ drop (S i) l.

(** ** class DungeonManager *)
Module DungeonManager.

Record t := {
  width : Z; height : Z;
  dungeons : list Dungeon.t;
  current_area : Z;
  player_pos : option coord;
  player_level : Z;
  heat_level : Z;
  active_modifiers : list Modifier }.

Definition set_dungeons (v : list Dungeon.t) (m : t) : t :=
  {| width := width m; height := height m; dungeons := v;
     current_area := current_area m; player_pos := player_pos m;
     player_level := player_level m; heat_level := heat_level m;
     active_modifiers := active_modifiers m |}.

Definition set_current_area (v : Z) (m : t) : t :=
  {| width := width m; height := height m; dungeons := dungeons m;
     current_area := v; player_pos := player_pos m;
     player_level := player_level m; heat_level := heat_level m;
     active_modifiers := active_modifiers m |}.

Definition set_player_pos (v : option coord) (m : t) : t :=
  {| width := width m; height := height m; dungeons := dungeons m;
     current_area := current_area m; player_pos := v;
     player_level := player_level m; heat_level := heat_level m;
     active_modifiers := active_modifiers m |}.

Definition set_player_level (v : Z) (m : t) : t :=
  {| width := width m; height := height m; dungeons := dungeons m;
     current_area := current_area m; player_pos := player_pos m;
     player_level := v; heat_level := heat_level m;
     active_modifiers := active_modifiers m |}.

Definition set_heat_level (v : Z) (m : t) : t :=
  {| width := width m; height := height m; dungeons := dungeons m;
     current_area := current_area m; player_pos := player_pos m;
     player_level := player_level m; heat_level := v;
     active_modifiers := active_modifiers m |}.

Definition set_active_modifiers (v : list Modifier) (m : t) : t :=
  {| width := width m; height := height m; dungeons := dungeons m;
     current_area := current_area m; player_pos := player_pos m;
     player_level := player_level m; heat_level := heat_level m;
     active_modifiers := v |}.

(** [DungeonManager(width, height)] *)
Definition new (width height : Z) : t :=
  {| width := width; height := height; dungeons := []; current_area := 0;
     player_pos := None; player_level := 1; heat_level := 0;
     active_modifiers := [] |}.

(** "increase_enemies": one more enemy, in the first room that is neither
    the entrance nor the exit room. *)
Definition add_enemy (dungeon : Dungeon.t) (g : random.state)
    : option (Dungeon.t * random.state) :=
  match List.find (λ room,
          bool_decide (Room.room_type room ≠ Entrance) &&
          bool_decide (Room.room_type room ≠ Exit)) (Dungeon.rooms dungeon) with
  | Some room =>
      '(x, g) ← random.randint (Room.x room + 1)
                  (Room.x room + Room.width room - 2) g;
      '(y, g) ← random.randint (Room.y room + 1)
                  (Room.y room + Room.height room - 2) g;
      '(dl, g) ← random.randint (-1) 1 g;
      let e := {| e_type := enemy_normal; e_pos := (x, y);
                  e_level := Z.max 1 (Dungeon.player_level dungeon + dl) |} in
      Some (Dungeon.set_enemies
              (Dungeon.enemies dungeon ++ [length (Dungeon.heap dungeon)])
              (Dungeon.set_heap (Dungeon.heap dungeon ++ [e]) dungeon), g)
  | None => Some (dungeon, g)
  end.

(** [for enemy in dungeon.enemies: enemy["level"] += k] *)
Definition raise_levels (k : Z) (dungeon : Dungeon.t) : Dungeon.t :=
  Dungeon.set_heap
    (foldl (λ hp ref,
       alter (λ e, {| e_type := e_type e; e_pos := e_pos e;
                      e_level := e_level e + k |}) ref hp)
       (Dungeon.heap dungeon) (Dungeon.enemies dungeon))
    dungeon.

(** [if dungeon.items: dungeon.items.pop(random.randrange(len(..)))] *)
Definition remove_item (st : Dungeon.t * random.state)
    : option (Dungeon.t * random.state) :=
  let '(dungeon, g) := st in
  match Dungeon.items dungeon with
  | [] => Some (dungeon, g)
  | _ :: _ =>
      '(i, g) ← random.randrange (Z.of_nat (length (Dungeon.items dungeon))) g;
      Some (Dungeon.set_items (list_pop (Z.to_nat i) (Dungeon.items dungeon))
              dungeon, g)
  end.

(** One round of "elite_enemies". *)
Definition make_elite (st : Dungeon.t * random.state)
    : option (Dungeon.t * random.state) :=
  let '(dungeon, g) := st in
  match Dungeon.enemies dungeon with
  | [] => Some (dungeon, g)
  | _ :: _ =>
      '(idx, g) ← random.randrange
                    (Z.of_nat (length (Dungeon.enemies dungeon))) g;
      ref ← Dungeon.enemies dungeon !! Z.to_nat idx;
      enemy ← Dungeon.heap dungeon !! ref;
      if decide (e_type enemy ≠ enemy_boss) then
        Some (Dungeon.set_heap
                (<[ref := {| e_type := enemy_elite; e_pos := e_pos enemy;
                             e_level := e_level enemy + 3 |}]>
                   (Dungeon.heap dungeon)) dungeon, g)
      else Some (dungeon, g)
  end.

(** "double_bosses", for one room. *)
Definition second_boss (room : Room.t) (st : Dungeon.t * random.state)
    : option (Dungeon.t * random.state) :=
  let '(dungeon, g) := st in
  if decide (Room.room_type room = Boss) then
    match List.find (λ e, bool_decide (e_type e = enemy_boss))
            (Dungeon.deref (Dungeon.heap dungeon) (Room.enemies room)) with
    | Some enemy =>
        let '(center_x, center_y) := Room.center room in
        '(offset_x, g) ← random.randint (-2) 2 g;
        '(offset_y, g) ← random.randint (-2) 2 g;
        let pos := (center_x + offset_x, center_y + offset_y) in
        let e := {| e_type := enemy_boss; e_pos := pos;
                    e_level := e_level enemy - 1 |} in
        Some (Dungeon.set_enemies
                (Dungeon.enemies dungeon ++ [length (Dungeon.heap dungeon)])
                (Dungeon.set_heap (Dungeon.heap dungeon ++ [e]) dungeon), g)
    | None => Some (dungeon, g)
    end
  else Some (dungeon, g).

(** The branch of [_apply_heat_modifiers] for one modifier. *)
Definition apply_modifier (modifier : Modifier)
    (st : Dungeon.t * random.state) : option (Dungeon.t * random.state) :=
  let '(dungeon, g) := st in
  if decide (effect modifier = "increase_enemies") then
    let additional_enemies :=
      (length (Dungeon.enemies dungeon) `div` 2)%nat in
    repeat_m additional_enemies (λ '(d, g), add_enemy d g) (dungeon, g)
  else if decide (effect modifier = "stronger_enemies") then
    Some (raise_levels 2 dungeon, g)
  else if decide (effect modifier = "more_traps") then
    '(dungeon, g) ← Dungeon.add_traps dungeon g;
    Dungeon.add_traps dungeon g
  else if decide (effect modifier = "less_items") then
    let num_to_remove := (length (Dungeon.items dungeon) `div` 2)%nat in
    repeat_m num_to_remove remove_item (dungeon, g)
  else if decide (effect modifier = "elite_enemies") then
    let num_to_convert :=
      Nat.max 1 (length (Dungeon.enemies dungeon) `div` 4) in
    repeat_m num_to_convert make_elite (dungeon, g)
  else if decide (effect modifier = "double_bosses") then
    for_each (Dungeon.rooms dungeon) second_boss (dungeon, g)
  else if decide (effect modifier = "extreme_mode") then
    '(dungeon, g) ← Dungeon.add_traps dungeon g;
    '(dungeon, g) ← Dungeon.add_traps dungeon g;
    let dungeon := raise_levels 3 dungeon in
    let num_to_remove := ((length (Dungeon.items dungeon) * 3) `div` 4)%nat in
    repeat_m num_to_remove remove_item (dungeon, g)
  else Some (dungeon, g).

Definition _apply_heat_modifiers (self : t) (dungeon : Dungeon.t)
    (g : random.state) : option (Dungeon.t * random.state) :=
  for_each (active_modifiers self) apply_modifier (dungeon, g).

Definition generate_area (area_index player_level : Z) (self : t)
    (g : random.state) : option (Dungeon.t * random.state) :=
  dungeon ← Dungeon.new (width self) (height self) player_level area_index;
  '(dungeon, g) ← Dungeon.generate dungeon g;
  _apply_heat_modifiers self dungeon g.

Definition generate_all_areas (player_level : Z) (self : t)
    (g : random.state) : option (t * random.state) :=
  let self := set_dungeons [] self in
  let self := set_player_level player_level self in
  '(self, g) ← for_each (range 0 7) (λ i '(self, g),
                 '(dungeon, g) ← generate_area i player_level self g;
                 Some (set_dungeons (dungeons self ++ [dungeon]) self, g))
                 (self, g);
  let self := set_current_area 0 self in
  d0 ← py_index (dungeons self) 0;
  Some (set_player_pos (Dungeon.entrance d0) self, g).

Definition enter_area (area_index : Z) (self : t) : option (bool * t) :=
  if bool_decide (0 ≤ area_index < Z.of_nat (length (dungeons self))) then
    let self := set_current_area area_index self in
    target ← py_index (dungeons self) area_index;
    if bool_decide (area_index = 0) || bool_decide (player_pos self = None)
    then Some (true, set_player_pos (Dungeon.entrance target) self)
    else if bool_decide (area_index > current_area self)
    then Some (true, set_player_pos (Dungeon.entrance target) self)
    else Some (true, set_player_pos (Dungeon.exit target) self)
  else Some (false, self).

(** The door branch of [move_player]: the first object at the cell, when
    it is closed, is opened and the tile becomes floor. *)
Definition open_door (p : coord) (dungeon : Dungeon.t) : option Dungeon.t :=
  match list_find (λ obj, o_pos obj = p) (Dungeon.objects dungeon) with
  | Some (i, obj) =>
      if decide (o_state obj = closed) then
        let dungeon :=
          Dungeon.set_objects
            (<[i := {| o_pos := o_pos obj; o_state := open |}]>
               (Dungeon.objects dungeon)) dungeon in
        Dungeon.put p.1 p.2 FLOOR dungeon
      else Some dungeon
  | None => Some dungeon
  end.

(** [self.dungeons[i] = dungeon] for the list position [self.dungeons[i]]
    was read from. *)
Definition store_dungeon (i : Z) (dungeon : Dungeon.t) (self : t) : t :=
  match np_index (Z.of_nat (length (dungeons self))) i with
  | Some k => set_dungeons (<[Z.to_nat k := dungeon]> (dungeons self)) self
  | None => self
  end.

(** "Move player" and what follows it in [move_player]. *)
Definition resolve_move (new_x new_y : Z) (tile_type : TileType)
    (dungeon : Dungeon.t) (self : t) : option (move_result * t) :=
  let area := current_area self in
  let self := set_player_pos (Some (new_x, new_y)) self in
  match list_find (λ it, i_pos it = (new_x, new_y)) (Dungeon.items dungeon) with
  | Some (i, picked_item) =>
      let dungeon :=
        Dungeon.set_items (list_pop i (Dungeon.items dungeon)) dungeon in
      Some (ItemEvent picked_item, store_dungeon area dungeon self)
  | None =>
      match List.find (λ e, bool_decide (e_pos e = (new_x, new_y)))
              (Dungeon.deref (Dungeon.heap dungeon) (Dungeon.enemies dungeon)) with
      | Some encountered_enemy =>
          Some (EnemyEvent encountered_enemy, store_dungeon area dungeon self)
      | None =>
          if decide (tile_type = TRAP) then
            dungeon ← Dungeon.put new_x new_y FLOOR dungeon;
            Some (TrapEvent, store_dungeon area dungeon self)
          else Some (Moved, store_dungeon area dungeon self)
      end
  end.

Definition move_player (dx dy : Z) (self : t) : option (move_result * t) :=
  dungeon ← py_index (dungeons self) (current_area self);
  pos ← player_pos self;
  let new_x := pos.1 + dx in
  let new_y := pos.2 + dy in
  if bool_decide (0 ≤ new_x < Dungeon.width dungeon) &&
     bool_decide (0 ≤ new_y < Dungeon.height dungeon) &&
     bool_decide (Dungeon.get dungeon new_x new_y ≠ Some WALL)
  then
    tile_type ← Dungeon.get dungeon new_x new_y;
    if decide (tile_type = DOOR) then
      dungeon ← open_door (new_x, new_y) dungeon;
      resolve_move new_x new_y tile_type dungeon self
    else if decide (tile_type = STAIRS_UP) then
      if bool_decide (current_area self > 0) then
        '(_, self) ← enter_area (current_area self - 1) self;
        Some (Moved, self)
      else resolve_move new_x new_y tile_type dungeon self
    else if decide (tile_type = STAIRS_DOWN) then
      if bool_decide (current_area self < Z.of_nat (length (dungeons self)) - 1)
      then
        '(_, self) ← enter_area (current_area self + 1) self;
        Some (Moved, self)
      else resolve_move new_x new_y tile_type dungeon self
    else resolve_move new_x new_y tile_type dungeon self
  else Some (Blocked, self).

Definition get_current_dungeon (self : t) : option Dungeon.t :=
  py_index (dungeons self) (current_area self).

Definition potential_modifiers : list Modifier :=
  [ {| name := "More Enemies"; effect := "increase_enemies"; min_heat := 1 |};
    {| name := "Stronger Enemies"; effect := "stronger_enemies"; min_heat := 2 |};
    {| name := "Less Health"; effect := "less_health"; min_heat := 3 |};
    {| name := "More Traps"; effect := "more_traps"; min_heat := 4 |};
    {| name := "Less Items"; effect := "less_items"; min_heat := 5 |};
    {| name := "Elite Enemies"; effect := "elite_enemies"; min_heat := 6 |};
    {| name := "No Healing"; effect := "no_healing"; min_heat := 7 |};
    {| name := "Time Limit"; effect := "time_limit"; min_heat := 8 |};
    {| name := "Double Bosses"; effect := "double_bosses"; min_heat := 9 |};
    {| name := "Extreme Mode"; effect := "extreme_mode"; min_heat := 10 |} ].

(** The modifier the scan of [increase_heat] stops at, if any. *)
Definition first_new_modifier (heat : Z) (active : list Modifier)
    : option Modifier :=
  List.find (λ modifier,
     bool_decide (min_heat modifier ≤ heat) &&
     bool_decide (modifier ∉ active)) potential_modifiers.

Definition increase_heat (amount : Z) (self : t) (g : random.state)
    : option (t * random.state) :=
  let self := set_heat_level (heat_level self + amount) self in
  match first_new_modifier (heat_level self) (active_modifiers self) with
  | Some modifier =>
      let self :=
        set_active_modifiers (active_modifiers self ++ [modifier]) self in
      generate_all_areas (player_level self) self g
  | None => Some (self, g)
  end.

End DungeonManager.

(** * Vocabulary of the properties *)

(** The cell lies on the grid of the level. *)
Definition in_bounds (d : Dungeon.t) (c : coord) : Prop :=
  0 ≤ c.1 < Dungeon.width d ∧ 0 ≤ c.2 < Dungeon.height d.

(** The tile kind of a cell of the grid. *)
Definition tile (d : Dungeon.t) (c : coord) : TileType :=
  default WALL (Dungeon.grid d !! c).

(** A cell of the grid that is floor, door or stairs. *)
Definition walkable_cell (d : Dungeon.t) (c : coord) : Prop :=
  in_bounds d c ∧ Dungeon.walkable (tile d c) = true.

(** Two cells next to each other in one of the four directions. *)
Definition adjacent (a b : coord) : Prop :=
  Z.abs (a.1 - b.1) + Z.abs (a.2 - b.2) = 1.

(** One move of four-directional movement: from [a] onto a neighbouring
    walkable cell [b]. *)
Definition step (d : Dungeon.t) (a b : coord) : Prop :=
  adjacent a b ∧ walkable_cell d b.

(** [b] can be reached from [a] by such moves. *)
Definition reachable (d : Dungeon.t) : coord → coord → Prop := rtc (step d).

(** A sequence of cells in which every cell after the first is a move away
    from the one before it. *)
Fixpoint is_walk (d : Dungeon.t) (p : list coord) : Prop :=
  match p with
  | [] => True
  | a :: p' =>
      match p' with
      | [] => True
      | b :: _ => step d a b ∧ is_walk d p'
      end
  end.

(** A run of calls [increase_heat(a)] for the amounts [a] of a list. *)
Fixpoint increase_heat_seq (amounts : list Z) (m : DungeonManager.t)
    (g : random.state) : option (DungeonManager.t * random.state) :=
  match amounts with
  | [] => Some (m, g)
  | a :: amounts =>
      '(m, g) ← DungeonManager.increase_heat a m g;
      increase_heat_seq amounts m g
  end.

(** A cell on which [add_traps] may put a trap: a floor tile of the grid
    that is neither the entrance nor the exit and holds no enemy and no
    item. *)
Definition trap_site (d : Dungeon.t) (c : coord) : Prop :=
  in_bounds d c ∧ tile d c = FLOOR ∧
  Some c ≠ Dungeon.entrance d ∧ Some c ≠ Dungeon.exit d ∧
  (∀ e, e ∈ Dungeon.deref (Dungeon.heap d) (Dungeon.enemies d) → e_pos e ≠ c) ∧
  (∀ it, it ∈ Dungeon.items d → i_pos it ≠ c).

(** The enemy dicts keep their place and position from one heap to the
    other (levels and kinds may change, and dicts may be added). *)
Definition heap_ext (hp hp' : list Enemy) : Prop :=
  ∀ i e, hp !! i = Some e → ∃ e', hp' !! i = Some e' ∧ e_pos e' = e_pos e.

(** Every enemy, item and feature of the room lies strictly inside it. *)
Definition room_spawns_inside (hp : list Enemy) (room : Room.t) : Prop :=
  (∀ ref, ref ∈ Room.enemies room →
     ∃ e, hp !! ref = Some e ∧ Room.interior room (e_pos e)) ∧
  (∀ it, it ∈ Room.items room → Room.interior room (i_pos it)) ∧
  (∀ f, f ∈ Room.features room → Room.interior room (f_pos f)).

(** The sizes the rooms of this program have: at least 5 x 5, and a boss
    room 10 x 10. *)
Definition room_size_ok (room : Room.t) : Prop :=
  5 ≤ Room.width room ∧ 5 ≤ Room.height room ∧
  (Room.room_type room = Boss → Room.width room = 10 ∧ Room.height room = 10).

(** The two rooms differ at most in their spawn lists and [connected]. *)
Definition same_place (r r' : Room.t) : Prop :=
  Room.x r' = Room.x r ∧ Room.y r' = Room.y r ∧
  Room.width r' = Room.width r ∧ Room.height r' = Room.height r ∧
  Room.room_type r' = Room.room_type r.

(** What a population step does to a room: place, kind and [connected]
    stay; the heap grows at its end; the spawns stay inside. *)
Definition room_step (room : Room.t) (hp : list Enemy)
    (room' : Room.t) (hp' : list Enemy) : Prop :=
  same_place room room' ∧ Room.connected room' = Room.connected room ∧
  (∃ new, hp' = hp ++ new) ∧
  (room_spawns_inside hp room → room_spawns_inside hp' room').

(** The cell belongs to the rectangle of the room. *)
Definition in_rect (room : Room.t) (c : coord) : Prop :=
  Room.x room ≤ c.1 < Room.x room + Room.width room ∧
  Room.y room ≤ c.2 < Room.y room + Room.height room.

(** From [d] to [d'] the grid keeps its size and every cell keeps its tile
    or gets a tile of kind [A]. *)
Definition grid_grows (A : TileType → Prop) (d d' : Dungeon.t) : Prop :=
  Dungeon.width d' = Dungeon.width d ∧ Dungeon.height d' = Dungeon.height d ∧
  ∀ c, tile d' c = tile d c ∨ (in_bounds d c ∧ A (tile d' c)).

(** Every cell of the room that lies on the grid holds a tile of kind [A]. *)
Definition rect_carved (A : TileType → Prop) (d : Dungeon.t) (room : Room.t)
    : Prop :=
  ∀ c, in_rect room c → in_bounds d c → A (tile d c).

(** The room [r'] is [r] with, at most, another [connected] flag. *)
Definition room_le (r r' : Room.t) : Prop :=
  r' = Room.set_connected (Room.connected r') r.

(** The fields no step of the generation touches but [generate] itself. *)
Definition gen_frame (d d' : Dungeon.t) : Prop :=
  Dungeon.width d' = Dungeon.width d ∧ Dungeon.height d' = Dungeon.height d ∧
  Dungeon.player_level d' = Dungeon.player_level d ∧
  Dungeon.area_index d' = Dungeon.area_index d ∧
  Dungeon.entrance d' = Dungeon.entrance d ∧ Dungeon.exit d' = Dungeon.exit d ∧
  Dungeon.enemies d' = Dungeon.enemies d ∧ Dungeon.items d' = Dungeon.items d.

(** What every step of the generation does to a level: cells keep their
    tile or become walkable; the heap and the list of rooms grow at their
    end, the rooms already there keeping place and spawns. *)
Definition gen_rel (d d' : Dungeon.t) : Prop :=
  gen_frame d d' ∧
  grid_grows (λ v, Dungeon.walkable v = true) d d' ∧
  (∃ new, Dungeon.heap d' = Dungeon.heap d ++ new) ∧
  (∃ rs1 rs2, Dungeon.rooms d' = rs1 ++ rs2 ∧
              Forall2 room_le (Dungeon.rooms d) rs1).

(** What [_add_room] leaves behind: one more room, of the kind asked for,
    at least 5 x 5, on the grid, floor all over; its spawns inside. *)
Definition room_added (rt : RoomType) (d d' : Dungeon.t) (idx : nat)
    (room : Room.t) : Prop :=
  Room.connected room = false ∧
  idx = length (Dungeon.rooms d) ∧
  Dungeon.rooms d' = Dungeon.rooms d ++ [room] ∧
  Room.room_type room = rt ∧
  (0 ≤ Room.x room ∧ Room.x room + Room.width room ≤ Dungeon.width d ∧
   0 ≤ Room.y room ∧ Room.y room + Room.height room ≤ Dungeon.height d) ∧
  (5 ≤ Room.width room ∧ 5 ≤ Room.height room) ∧
  (∀ c, in_rect room c → tile d' c = FLOOR) ∧
  grid_grows (eq FLOOR) d d' ∧
  (∃ new, Dungeon.heap d' = Dungeon.heap d ++ new) ∧
  room_spawns_inside (Dungeon.heap d') room ∧
  gen_frame d d'.

(** The invariant of the loop of [_connect_rooms]: a room is still in
    [unconnected] or it is marked connected; the centre of every room marked
    connected can be reached from [root]; all centres lie on the grid. *)
Definition connect_inv (root : coord) (d : Dungeon.t) (unconnected : list nat)
    : Prop :=
  (∀ i r, Dungeon.rooms d !! i = Some r →
          i ∈ unconnected ∨ Room.connected r = true) ∧
  (∀ i r, Dungeon.rooms d !! i = Some r → Room.connected r = true →
          reachable d root (Room.center r)) ∧
  (∀ r, r ∈ Dungeon.rooms d → in_bounds d (Room.center r)).

(** The invariant of the rooms of a level while it is generated. *)
Definition room_ok (d : Dungeon.t) (room : Room.t) : Prop :=
  room_size_ok room ∧ room_spawns_inside (Dungeon.heap d) room ∧
  rect_carved (λ v, Dungeon.walkable v = true) d room.

(** The rectangle of the room lies on the grid. *)
Definition room_in_grid (d : Dungeon.t) (room : Room.t) : Prop :=
  0 ≤ Room.x room ∧ Room.x room + Room.width room ≤ Dungeon.width d ∧
  0 ≤ Room.y room ∧ Room.y room + Room.height room ≤ Dungeon.height d.

(** The invariant of [generate] while it places rooms. *)
Definition rooms_inv (d : Dungeon.t) : Prop :=
  ∀ r, r ∈ Dungeon.rooms d →
    Room.connected r = false ∧ room_ok d r ∧ room_in_grid d r.

(** The invariant of a generated level under the heat modifiers: the rooms
    have the sizes of this program, their spawns lie inside them, no cell of
    a room is a wall; every enemy and item of the level lies inside some
    room. *)
Definition spawns_inv (d : Dungeon.t) : Prop :=
  (∀ room, room ∈ Dungeon.rooms d →
     room_size_ok room ∧ room_spawns_inside (Dungeon.heap d) room ∧
     rect_carved (λ v, v ≠ WALL) d room) ∧
  (∀ ref, ref ∈ Dungeon.enemies d →
     ∃ e room, Dungeon.heap d !! ref = Some e ∧ room ∈ Dungeon.rooms d ∧
               Room.interior room (e_pos e)) ∧
  (∀ it, it ∈ Dungeon.items d →
     ∃ room, room ∈ Dungeon.rooms d ∧ Room.interior room (i_pos it)).

Definition same_rooms (d d' : Dungeon.t) : Prop :=
  Dungeon.rooms d' = Dungeon.rooms d ∧
  Dungeon.width d' = Dungeon.width d ∧ Dungeon.height d' = Dungeon.height d.

(** What the modifiers keep, as an invariant of their loops. *)
Definition modifier_inv (d : Dungeon.t) (s : Dungeon.t * random.state) : Prop :=
  spawns_inv s.1 ∧ same_rooms d s.1.

(** The cells of the grid. *)
Definition cells (d : Dungeon.t) : list coord :=
  list_prod (seqZ 0 (Dungeon.width d)) (seqZ 0 (Dungeon.height d)).

Fixpoint sum_over (f : coord → Z) (l : list coord) : Z :=
  match l with
  | [] => 0
  | c :: l => f c + sum_over f l
  end.

(** The number of cells that have a score. *)
Definition seen (d : Dungeon.t) (g : gmap coord Z) : Z :=
  sum_over (λ c, match g !! c with Some _ => 1 | None => 0 end) (cells d).

(** What the scores can still lose: the score of a cell that has one, the
    number of cells for a cell that has none. *)
Definition potential (d : Dungeon.t) (g : gmap coord Z) : Z :=
  sum_over (λ c, default (Dungeon.width d * Dungeon.height d) (g !! c))
    (cells d).

(** The measure of the search loop: every round takes one entry from the
    open set, and adds an entry only for a score that is new or lower. *)
Definition search_measure (d : Dungeon.t) (st : Dungeon.search) : Z :=
  Z.of_nat (length (Dungeon.open_set st)) + potential d (Dungeon.g_score st).

(** The invariant of the search loop, from [start] towards [end_]; [busy]
    is the cell whose neighbours are being visited, if any. *)
Record search_inv (d : Dungeon.t) (start end_ : coord) (busy : option coord)
    (st : Dungeon.search) : Prop := {
  inv_start : Dungeon.g_score st !! start = Some 0;
  inv_score : ∀ c v, Dungeon.g_score st !! c = Some v →
    in_bounds d c ∧ 0 ≤ v < seen d (Dungeon.g_score st);
  inv_open : ∀ c p, (c, p) ∈ Dungeon.open_set st →
    is_Some (Dungeon.g_score st !! c);
  inv_from : ∀ n c, Dungeon.came_from st !! n = Some c →
    step d c n ∧
    ∃ vn vc, Dungeon.g_score st !! n = Some vn ∧
             Dungeon.g_score st !! c = Some vc ∧ vc < vn;
  inv_root : ∀ c, is_Some (Dungeon.g_score st !! c) →
    c = start ∨ is_Some (Dungeon.came_from st !! c);
  inv_closed : ∀ c, is_Some (Dungeon.g_score st !! c) →
    (∃ p, (c, p) ∈ Dungeon.open_set st) ∨
    (∀ n, step d c n → is_Some (Dungeon.g_score st !! n)) ∨
    busy = Some c;
  inv_end : is_Some (Dungeon.g_score st !! end_) →
    ∃ p, (end_, p) ∈ Dungeon.open_set st }.

(** A tape whose draws vary: the value at position n is
    (31 n^2 + 17 n + 5) mod 1009. *)
Definition mixed_tape : random.state :=
  {| random.tape := λ n, (Z.of_N n * Z.of_N n * 31 + Z.of_N n * 17 + 5) `mod` 1009;
     random.cursor := 0 |}.

(** The cell a move by [(dx, dy)] goes to. *)
Definition target (pos : coord) (dx dy : Z) : coord := (pos.1 + dx, pos.2 + dy).

(** What the heat modifiers leave of a level: its size, parameters, rooms,
    doors, entrance and exit; on the grid they only turn floor cells other
    than the entrance and the exit into traps. *)
Definition level_frame (d d' : Dungeon.t) : Prop :=
  Dungeon.width d' = Dungeon.width d ∧ Dungeon.height d' = Dungeon.height d ∧
  Dungeon.player_level d' = Dungeon.player_level d ∧
  Dungeon.area_index d' = Dungeon.area_index d ∧
  Dungeon.entrance d' = Dungeon.entrance d ∧ Dungeon.exit d' = Dungeon.exit d ∧
  Dungeon.rooms d' = Dungeon.rooms d ∧ Dungeon.objects d' = Dungeon.objects d ∧
  ∀ c, tile d' c = tile d c ∨
       (tile d c = FLOOR ∧ tile d' c = TRAP ∧
        Some c ≠ Dungeon.entrance d ∧ Some c ≠ Dungeon.exit d).

(** No room of the list overlaps or touches a room before it, the 5 x 5
    fallback rooms aside. *)
Definition rooms_apart (rooms : list Room.t) : Prop :=
  ∀ i j ri rj, (i < j)%nat → rooms !! i = Some ri → rooms !! j = Some rj →
    Room.width rj ≠ 5 → Room.intersects rj ri = false.

(** The modifier of the table with the given effect. *)
Definition modifier_of (eff : string) : Modifier :=
  default {| name := eff; effect := eff; min_heat := 0 |}
    (List.find (λ md, bool_decide (effect md = eff))
       DungeonManager.potential_modifiers).

(** [enemy["level"] += k] *)
Definition bump (k : Z) (e : Enemy) : Enemy :=
  {| e_type := e_type e; e_pos := e_pos e; e_level := e_level e + k |}.

(** How an enemy may differ after "Elite Enemies": not at all, or it has
    become elite and gained at least 3 levels; a boss never changes. *)
Definition elite_step (e e' : Enemy) : Prop :=
  e_pos e' = e_pos e ∧
  (e' = e ∨
   e_type e ≠ enemy_boss ∧ e_type e' = enemy_elite ∧ e_level e + 3 ≤ e_level e').

(** [TILE_SIZE] of src/LVLSystem.py. *)
Definition TILE_SIZE : Z := 32.

(** [SCREEN_WIDTH] and [SCREEN_HEIGHT] of src/GameState.py, the size of the
    viewport of [EnhancedExplorationState]. *)
Definition SCREEN_WIDTH : Z := 800.

Definition SCREEN_HEIGHT : Z := 600.

(** A shape [render] draws: the square of a tile, the circle of the player
    or of an enemy, the square of an item, each with the screen position
    of its cell.  Colours and the decoration of doors and stairs follow
    from the tile, the enemy or the item and are left out. *)
Inductive Draw :=
  | draw_tile (tile_type : TileType) (screen : coord)
  | draw_player (screen : coord)
  | draw_enemy (enemy : Enemy) (screen : coord)
  | draw_item (item : Item) (screen : coord).

(** [Dungeon.render(surface, viewport, player_pos)], without a tileset as
    [EnhancedExplorationState.draw] calls it: the shapes in drawing order,
    or [None] where the code raises. *)
Definition render (self : Dungeon.t) (viewport : Z * Z * Z * Z)
    (player_pos : option coord) : option (list Draw) :=
  let '(viewport_x, viewport_y, viewport_width, viewport_height) := viewport in
  let start_x := Z.max 0 (viewport_x / TILE_SIZE) in
  let end_x := Z.min (Dungeon.width self)
                 ((viewport_x + viewport_width) / TILE_SIZE + 1) in
  let start_y := Z.max 0 (viewport_y / TILE_SIZE) in
  let end_y := Z.min (Dungeon.height self)
                 ((viewport_y + viewport_height) / TILE_SIZE + 1) in
  let screen (c : coord) : coord :=
    (c.1 * TILE_SIZE - viewport_x, c.2 * TILE_SIZE - viewport_y) in
  tiles ← mapM (λ c : coord,
             tile_type ← Dungeon.get self c.1 c.2;
             Some (draw_tile tile_type (screen c)))
           (y ← range start_y end_y; x ← range start_x end_x; [(x, y)]);
  player ← player_pos;
  let enemies :=
    omap (λ enemy : Enemy,
      if bool_decide (start_x ≤ (e_pos enemy).1 < end_x ∧
                      start_y ≤ (e_pos enemy).2 < end_y)
      then Some (draw_enemy enemy (screen (e_pos enemy))) else None)
      (Dungeon.deref (Dungeon.heap self) (Dungeon.enemies self)) in
  let items :=
    omap (λ item : Item,
      if bool_decide (start_x ≤ (i_pos item).1 < end_x ∧
                      start_y ≤ (i_pos item).2 < end_y)
      then Some (draw_item item (screen (i_pos item))) else None)
      (Dungeon.items self) in
  Some (tiles ++ [draw_player (screen player)] ++ enemies ++ items).

(** The camera step at the end of [EnhancedExplorationState.update]: the
    new [(viewport_x, viewport_y)]. *)
Definition update_camera (dungeon_manager : DungeonManager.t)
    (viewport_width viewport_height : Z) : option (Z * Z) :=
  dungeon ← DungeonManager.get_current_dungeon dungeon_manager;
  '(player_x, player_y) ← DungeonManager.player_pos dungeon_manager;
  let viewport_x := Z.max 0 (player_x * TILE_SIZE - viewport_width / 2) in
  let viewport_y := Z.max 0 (player_y * TILE_SIZE - viewport_height / 2) in
  let max_viewport_x := Dungeon.width dungeon * TILE_SIZE - viewport_width in
  let max_viewport_y :=
    Dungeon.height dungeon * TILE_SIZE - viewport_height in
  Some (Z.min max_viewport_x (Z.max 0 viewport_x),
        Z.min max_viewport_y (Z.max 0 viewport_y)).

(** The screen position of a cell under a camera. *)
Definition screen_pos (camera c : coord) : coord :=
  (c.1 * TILE_SIZE - camera.1, c.2 * TILE_SIZE - camera.2).

(** The cell is on the grid and its square lies within one tile of the
    viewport: it starts less than a tile before the viewport and not after
    its far edge. *)
Definition in_view (d : Dungeon.t) (camera : coord) (vw vh : Z) (c : coord)
    : Prop :=
  in_bounds d c ∧
  - TILE_SIZE < (screen_pos camera c).1 ≤ vw ∧
  - TILE_SIZE < (screen_pos camera c).2 ≤ vh.

(** The random state after [n] more draws. *)
Definition skip (n : N) (g : random.state) : random.state :=
  {| random.tape := random.tape g; random.cursor := (random.cursor g + n)%N |}.

(** The cell the [k]-th attempt of a round of [add_traps] draws, when the
    round starts in the random state [g]: [x = random.randint(1, width - 2)]
    then [y = random.randint(1, height - 2)], two draws per attempt. *)
Definition drawn_cell (d : Dungeon.t) (g : random.state) (k : nat) : coord :=
  (1 + random.tape g (random.cursor g + 2 * N.of_nat k)%N
         `mod` (Dungeon.width d - 2),
   1 + random.tape g (random.cursor g + 2 * N.of_nat k + 1)%N
         `mod` (Dungeon.height d - 2)).

(** The test of the specification for a candidate cell: a floor tile that
    is not the entrance, not the exit, and holds no enemy and no item. *)
Definition is_trap_site (d : Dungeon.t) (c : coord) : bool :=
  bool_decide (tile d c = FLOOR) &&
  bool_decide (Some c ≠ Dungeon.entrance d) &&
  bool_decide (Some c ≠ Dungeon.exit d) &&
  negb (Dungeon.enemy_at d c) && negb (Dungeon.item_at d c).

(** One round of trap placement, in the words of the specification: of the
    cells its 50 attempts would draw, the first that passes the test becomes
    a trap, and the later attempts are not made; when none of the 50
    passes, the round places nothing.  The result is the cell converted,
    if any, with the level and the random state after the round. *)
Definition trap_round_spec (s : Dungeon.t * random.state)
    : option coord * (Dungeon.t * random.state) :=
  let '(d, g) := s in
  match list_find (λ c, is_trap_site d c = true)
          (drawn_cell d g <$> seq 0 50) with
  | Some (k, c) =>
      (Some c, (Dungeon.set_grid (<[c := TRAP]> (Dungeon.grid d)) d,
                skip (2 * N.of_nat (S k)) g))
  | None => (None, (d, skip 100 g))
  end.

(** A pass of [n] rounds, in the words of the specification: what each
    round converted, in order, and the level and random state at the end. *)
Fixpoint trap_pass_spec (n : nat) (s : Dungeon.t * random.state)
    : list (option coord) * (Dungeon.t * random.state) :=
  match n with
  | O => ([], s)
  | S n =>
      let '(r, s) := trap_round_spec s in
      let '(rs, s) := trap_pass_spec n s in
      (r :: rs, s)
  end.

(** The modifiers whose threshold a call [increase_heat(amount)] reaches
    and that are not active yet, in table order. *)
Definition newly_crossed (m : DungeonManager.t) (amount : Z) : list Modifier :=
  List.filter (λ modifier,
     bool_decide (min_heat modifier ≤ DungeonManager.heat_level m + amount) &&
     bool_decide (modifier ∉ DungeonManager.active_modifiers m))
    DungeonManager.potential_modifiers.

(** ** Concrete inputs *)

(** A level with nothing on it, the default of the lookups below. *)
Definition blank : Dungeon.t :=
  {| Dungeon.width := 0; Dungeon.height := 0; Dungeon.player_level := 1;
     Dungeon.area_index := 0; Dungeon.grid := ∅; Dungeon.rooms := [];
     Dungeon.entrance := None; Dungeon.exit := None; Dungeon.objects := [];
     Dungeon.heap := []; Dungeon.enemies := []; Dungeon.items := [];
     Dungeon.theme := 0 |}.

(** The manager of the game, [DungeonManager(50, 50)]. *)
Abbreviation manager0 := (DungeonManager.new 50 50).

(** The world of seven areas generated from a tape that repeats 7. *)
Abbreviation world7_run :=
  (DungeonManager.generate_all_areas 1 manager0 (random.const 7)).
Abbreviation world7 :=
  (from_option id (manager0, random.const 7) world7_run).1.

(** The level of area 0 generated on the 50 x 50 grid from the tape that
    repeats 7. *)
Abbreviation level7 :=
  (from_option id (blank, random.const 7)
     (d ← Dungeon.new 50 50 1 0; Dungeon.generate d (random.const 7))).1.

(** The same level after a pass of trap placement whose draws are all 40. *)
Abbreviation trapped40 :=
  (from_option id (blank, random.const 40)
     (Dungeon.add_traps level7 (random.const 40))).

(** The level of area 0 after a pass of trap placement whose draws are
    all 9. *)
Abbreviation trapped9 :=
  (from_option id (blank, random.const 9)
     (Dungeon.add_traps level7 (random.const 9))).1.

(** The world generated from that tape, and its first level. *)
Abbreviation world_mix :=
  (from_option id (manager0, random.const 0)
     (DungeonManager.generate_all_areas 1 manager0 mixed_tape)).1.

(** The same world generated at heat 4, with the first four modifiers
    active ("More Traps" among them). *)
Abbreviation world_hot :=
  (from_option id (manager0, random.const 0)
     (DungeonManager.generate_all_areas 1
        (DungeonManager.set_active_modifiers
           (take 4 DungeonManager.potential_modifiers)
           (DungeonManager.set_heat_level 4 manager0))
        mixed_tape)).1.

(** The empty level of area 0 on the 50 x 50 grid, filled with walls. *)
Abbreviation empty50 :=
  (Dungeon.fill_wall (from_option id blank (Dungeon.new 50 50 1 0))).

(** The level the player of a manager is on. *)
Abbreviation level_of m :=
  (from_option id blank (DungeonManager.get_current_dungeon m)).

(** * Properties *)

(** ** Equations of the loops and of the random draws

    The loops and the draws are opaque to [simpl] below; they are unfolded
    by these equations. *)

Lemma for_each_nil {A S} (body : A → S → option S) s :
  for_each [] body s = Some s.
Proof. reflexivity. Qed.

Lemma for_each_cons {A S} a l (body : A → S → option S) s :
  for_each (a :: l) body s = body a s ≫= for_each l body.
Proof. reflexivity. Qed.

Lemma repeat_m_S {S} n (body : S → option S) s :
  repeat_m (Datatypes.S n) body s = body s ≫= repeat_m n body.
Proof. reflexivity. Qed.

Lemma repeat_m_O {S} (body : S → option S) s : repeat_m O body s = Some s.
Proof. reflexivity. Qed.

Lemma place_enemies_loop_O self dl hp g :
  Room.place_enemies_loop O self dl hp g = Some (self, hp, g).
Proof. reflexivity. Qed.

Lemma place_enemies_loop_S n self dl hp g :
  Room.place_enemies_loop (S n) self dl hp g =
    '(ex, g) ← random.randint (Room.x self + 1)
                 (Room.x self + Room.width self - 2) g;
    '(ey, g) ← random.randint (Room.y self + 1)
                 (Room.y self + Room.height self - 2) g;
    '(dl', g) ← random.randint (-1) 1 g;
    Room.place_enemies_loop n
      (Room.set_enemies (Room.enemies self ++ [length hp]) self) dl
      (hp ++ [{| e_type := enemy_normal; e_pos := (ex, ey);
                 e_level := Z.max 1 (dl + dl') |}]) g.
Proof. reflexivity. Qed.

Lemma add_trap_attempts_O d g :
  Dungeon.add_trap_attempts O d g = Some (d, g).
Proof. reflexivity. Qed.

Lemma add_trap_attempts_S n d g :
  Dungeon.add_trap_attempts (S n) d g =
    '(x, g) ← random.randint 1 (Dungeon.width d - 2) g;
    '(y, g) ← random.randint 1 (Dungeon.height d - 2) g;
    tile ← Dungeon.get d x y;
    if decide (tile = FLOOR) then
      if bool_decide (Some (x, y) ≠ Dungeon.entrance d) &&
         bool_decide (Some (x, y) ≠ Dungeon.exit d) then
        if Dungeon.enemy_at d (x, y) then Dungeon.add_trap_attempts n d g
        else if Dungeon.item_at d (x, y) then Dungeon.add_trap_attempts n d g
        else d ← Dungeon.put x y TRAP d; Some (d, g)
      else Dungeon.add_trap_attempts n d g
    else Dungeon.add_trap_attempts n d g.
Proof. reflexivity. Qed.

Lemma add_traps_loop_O d g : Dungeon.add_traps_loop O d g = Some (d, g).
Proof. reflexivity. Qed.

Lemma add_traps_loop_S n d g :
  Dungeon.add_traps_loop (S n) d g =
    '(d, g) ← Dungeon.add_trap_attempts 50 d g; Dungeon.add_traps_loop n d g.
Proof. reflexivity. Qed.

Lemma _add_room_attempts_O w h md rt d g :
  Dungeon._add_room_attempts O w h md rt d g = Some (None, d, g).
Proof. reflexivity. Qed.

Lemma _add_room_attempts_S n w h md rt d g :
  Dungeon._add_room_attempts (S n) w h md rt d g =
    '(x, g) ← random.randint 1 (Dungeon.width d - w - 1) g;
    '(y, g) ← random.randint 1 (Dungeon.height d - h - 1) g;
    let new_room := Room.new x y w h rt in
    if Dungeon.fits d new_room md then
      d ← Dungeon.fill_floor x y w h d;
      let idx := length (Dungeon.rooms d) in
      let d := Dungeon.set_rooms (Dungeon.rooms d ++ [new_room]) d in
      '(d, g) ← Dungeon.populate_new_room idx rt d g;
      Some (Some idx, d, g)
    else Dungeon._add_room_attempts n w h md rt d g.
Proof. reflexivity. Qed.

Lemma _add_room_corners_nil size rt d :
  Dungeon._add_room_corners [] size rt d = Some (None, d).
Proof. reflexivity. Qed.

Lemma _add_room_corners_cons x y corners size rt d :
  Dungeon._add_room_corners ((x, y) :: corners) size rt d =
    let new_room := Room.new x y size size rt in
    if forallb (λ room, negb (Room.intersects new_room room)) (Dungeon.rooms d)
    then
      d ← Dungeon.fill_floor x y size size d;
      let idx := length (Dungeon.rooms d) in
      Some (Some idx, Dungeon.set_rooms (Dungeon.rooms d ++ [new_room]) d)
    else Dungeon._add_room_corners corners size rt d.
Proof. reflexivity. Qed.

Lemma place_door_nil x1 y1 d : Dungeon.place_door [] x1 y1 d = Some d.
Proof. reflexivity. Qed.

Lemma place_door_cons dx dy dirs x1 y1 d :
  Dungeon.place_door ((dx, dy) :: dirs) x1 y1 d =
    if bool_decide (0 ≤ x1 + dx < Dungeon.width d) &&
       bool_decide (0 ≤ y1 + dy < Dungeon.height d)
    then
      tile ← Dungeon.get d (x1 + dx) (y1 + dy);
      if decide (tile = FLOOR) then
        d ← Dungeon.put (x1 + dx) (y1 + dy) DOOR d;
        Some (Dungeon.set_objects
                (Dungeon.objects d ++
                 [{| o_pos := (x1 + dx, y1 + dy); o_state := closed |}]) d)
      else Dungeon.place_door dirs x1 y1 d
    else Dungeon.place_door dirs x1 y1 d.
Proof. reflexivity. Qed.

Lemma connect_loop_nil fuel d g : Dungeon.connect_loop fuel [] d g = Some (d, g).
Proof. by destruct fuel. Qed.

Lemma connect_loop_O u0 unc d g :
  Dungeon.connect_loop O (u0 :: unc) d g = None.
Proof. reflexivity. Qed.

Lemma connect_loop_S fuel u0 unc d g :
  Dungeon.connect_loop (S fuel) (u0 :: unc) d g =
    '(u, c) ← Dungeon.closest_pair (Dungeon.rooms d) (u0 :: unc);
    uncon_room ← Dungeon.rooms d !! u;
    con_room ← Dungeon.rooms d !! c;
    '(d, g) ← Dungeon._create_corridor (Room.center uncon_room)
                (Room.center con_room) d g;
    let d :=
      Dungeon.set_rooms (alter (Room.set_connected true) u (Dungeon.rooms d)) d in
    Dungeon.connect_loop fuel (list_remove_first u (u0 :: unc)) d g.
Proof. reflexivity. Qed.

Lemma elem_of_range a b k : k ∈ range a b ↔ a ≤ k < b.
Proof. unfold range. rewrite elem_of_seqZ. lia. Qed.

(** The draws of [randint] lie in the range asked for. *)
Lemma randint_range a b g r g' :
  random.randint a b g = Some (r, g') → a ≤ r ≤ b.
Proof.
  unfold random.randint. case_bool_decide; [done|].
  destruct (random.next g) as [v g1]. intros Hr. simplify_eq.
  pose proof (Z.mod_pos_bound v (b - a + 1)). lia.
Qed.

Lemma randrange_range n g r g' :
  random.randrange n g = Some (r, g') → 0 ≤ r < n.
Proof.
  unfold random.randrange. case_bool_decide; [done|].
  destruct (random.next g) as [v g1]. intros Hr. simplify_eq.
  pose proof (Z.mod_pos_bound v n). lia.
Qed.

Global Opaque random.randint random.randrange random.random random.choice.
Global Opaque for_each repeat_m range.
Global Opaque Room.place_enemies_loop.
Global Opaque Dungeon.add_trap_attempts Dungeon.add_traps_loop.
Global Opaque Dungeon._add_room_attempts Dungeon._add_room_corners.
Global Opaque Dungeon.place_door Dungeon.connect_loop.

(** An invariant of the loop body is an invariant of the loop. *)
Lemma for_each_inv {A S} (P : S → Prop) (l : list A)
    (body : A → S → option S) s s' :
  (∀ a s s', a ∈ l → body a s = Some s' → P s → P s') →
  P s → for_each l body s = Some s' → P s'.
Proof.
  revert s. induction l as [|a l IH]; intros s Hb Hs Hr.
  - rewrite for_each_nil in Hr. by simplify_eq.
  - rewrite for_each_cons in Hr.
    destruct (body a s) as [s1|] eqn:E; simplify_eq/=.
    apply (IH s1); eauto using list_elem_of_further.
    eapply Hb; eauto. apply list_elem_of_here.
Qed.

Lemma repeat_m_inv {S} (P : S → Prop) n (body : S → option S) s s' :
  (∀ s s', body s = Some s' → P s → P s') →
  P s → repeat_m n body s = Some s' → P s'.
Proof.
  revert s. induction n as [|n IH]; intros s Hb Hs Hr.
  - rewrite repeat_m_O in Hr. by simplify_eq.
  - rewrite repeat_m_S in Hr.
    destruct (body s) as [s1|] eqn:E; simplify_eq/=. eauto.
Qed.

Lemma get_in_bounds d x y :
  in_bounds d (x, y) → Dungeon.get d x y = Some (tile d (x, y)).
Proof.
  intros [Hx Hy]; simpl in *. unfold Dungeon.get, np_index.
  rewrite !bool_decide_eq_true_2 by done. done.
Qed.

(** ** Helpers for closed instances *)
Lemma some_eta {A B} (o : option (A * B)) (dflt : A * B) :
  bool_decide (is_Some o) = true →
  o = Some ((from_option id dflt o).1, (from_option id dflt o).2).
Proof.
  destruct o as [[a b]|]; [reflexivity|]. intros H.
  apply bool_decide_eq_true_1 in H. by destruct H.
Qed.

Lemma some_eta1 {A} (o : option A) (dflt : A) :
  bool_decide (is_Some o) = true → o = Some (from_option id dflt o).
Proof.
  destruct o as [a|]; [reflexivity|]. intros H.
  apply bool_decide_eq_true_1 in H. by destruct H.
Qed.

(** ** The area manager: heat *)

Lemma generate_all_areas_fields pl m g m' g' :
  DungeonManager.generate_all_areas pl m g = Some (m', g') →
  DungeonManager.active_modifiers m' = DungeonManager.active_modifiers m ∧
  DungeonManager.heat_level m' = DungeonManager.heat_level m.
Proof.
  unfold DungeonManager.generate_all_areas. intros H.
  destruct (for_each _ _ _) as [[m1 g1]|] eqn:E; simplify_eq/=.
  destruct (py_index _ _) eqn:E2; simplify_eq/=.
  eapply (for_each_inv (λ s,
    DungeonManager.active_modifiers s.1 = DungeonManager.active_modifiers m ∧
    DungeonManager.heat_level s.1 = DungeonManager.heat_level m))
    in E; [done| |done].
  intros a [s1 g2] [s2 g3] _ Hb Hs. simpl in *.
  destruct (DungeonManager.generate_area _ _ _ _) as [[dd gg]|]; simplify_eq/=.
  done.
Qed.

Lemma first_new_modifier_head m amount :
  DungeonManager.first_new_modifier (DungeonManager.heat_level m + amount)
    (DungeonManager.active_modifiers m) = head (newly_crossed m amount).
Proof.
  unfold DungeonManager.first_new_modifier, newly_crossed.
  induction DungeonManager.potential_modifiers as [|a l IH]; simpl; [done|].
  destruct (_ && _); [done|]. apply IH.
Qed.

Lemma increase_heat_prefix a m g m' g' :
  DungeonManager.increase_heat a m g = Some (m', g') →
  DungeonManager.active_modifiers m `prefix_of` DungeonManager.active_modifiers m'.
Proof.
  unfold DungeonManager.increase_heat. intros H.
  destruct (DungeonManager.first_new_modifier _ _) as [md|] eqn:E.
  - apply generate_all_areas_fields in H as [-> _]. simpl. by apply prefix_app_r.
  - by simplify_eq/=.
Qed.

(** C4: after any run of [increase_heat] calls the active modifiers of the
    start are still active, in the same order at the front of the list, and
    their number has not gone down. *)
Theorem heat_monotone amounts m g m' g' :
  increase_heat_seq amounts m g = Some (m', g') →
  DungeonManager.active_modifiers m `prefix_of` DungeonManager.active_modifiers m' ∧
  (∀ md, md ∈ DungeonManager.active_modifiers m →
         md ∈ DungeonManager.active_modifiers m') ∧
  (length (DungeonManager.active_modifiers m)
   ≤ length (DungeonManager.active_modifiers m'))%nat.
Proof.
  intros H.
  assert (Hp : DungeonManager.active_modifiers m
               `prefix_of` DungeonManager.active_modifiers m').
  { revert m g H. induction amounts as [|a l IH]; simpl; intros m g H.
    - by simplify_eq.
    - destruct (DungeonManager.increase_heat a m g) as [[m1 g1]|] eqn:E;
        simplify_eq/=.
      etrans; [by eapply increase_heat_prefix|]. eauto. }
  split; [done|]. split.
  - intros md Hmd. destruct Hp as [k ->]. apply elem_of_app; auto.
  - by apply prefix_length.
Qed.

Lemma heat_monotone_witness :
  let m := (from_option id (manager0, random.const 0)
              (increase_heat_seq [1; 1] manager0 mixed_tape)).1 in
  let run := increase_heat_seq [1; 0; 3] m mixed_tape in
  let m' := (from_option id (manager0, random.const 0) run).1 in
  (name <$> DungeonManager.active_modifiers m
     = ["More Enemies"; "Stronger Enemies"] ∧
   name <$> DungeonManager.active_modifiers m'
     = ["More Enemies"; "Stronger Enemies"; "Less Health"; "More Traps"]) ∧
  DungeonManager.active_modifiers m
    `prefix_of` DungeonManager.active_modifiers m' ∧
  (∀ md, md ∈ DungeonManager.active_modifiers m →
         md ∈ DungeonManager.active_modifiers m') ∧
  (length (DungeonManager.active_modifiers m)
   ≤ length (DungeonManager.active_modifiers m'))%nat.
Proof.
  intros m run m'. split; [split; vm_compute; reflexivity|].
  apply (heat_monotone [1; 0; 3] m mixed_tape m'
           (from_option id (manager0, random.const 0) run).2).
  apply (some_eta run (manager0, random.const 0)).
  vm_compute. reflexivity.
Defined.

(** C3, as amended: a call [increase_heat(amount)] that reaches the
    threshold of some modifier not yet active is one regeneration of the
    world with the first such modifier (in table order) added, and nothing
    else is added by that call. *)
Theorem increase_heat_unlocks_first m amount g md :
  head (newly_crossed m amount) = Some md →
  DungeonManager.increase_heat amount m g =
    DungeonManager.generate_all_areas (DungeonManager.player_level m)
      (DungeonManager.set_active_modifiers
         (DungeonManager.active_modifiers m ++ [md])
         (DungeonManager.set_heat_level (DungeonManager.heat_level m + amount) m))
      g ∧
  ∀ m' g', DungeonManager.increase_heat amount m g = Some (m', g') →
    DungeonManager.active_modifiers m' = DungeonManager.active_modifiers m ++ [md] ∧
    DungeonManager.heat_level m' = DungeonManager.heat_level m + amount.
Proof.
  intros Hh. rewrite <- first_new_modifier_head in Hh.
  assert (Heq : DungeonManager.increase_heat amount m g =
    DungeonManager.generate_all_areas (DungeonManager.player_level m)
      (DungeonManager.set_active_modifiers
         (DungeonManager.active_modifiers m ++ [md])
         (DungeonManager.set_heat_level (DungeonManager.heat_level m + amount) m))
      g).
  { unfold DungeonManager.increase_heat. simpl. by rewrite Hh. }
  split; [done|]. intros m' g' H. rewrite Heq in H.
  apply generate_all_areas_fields in H. done.
Qed.

Lemma increase_heat_unlocks_first_witness :
  let md := {| name := "More Enemies"; effect := "increase_enemies"; min_heat := 1 |} in
  DungeonManager.increase_heat 2 manager0 (random.const 7) =
    DungeonManager.generate_all_areas (DungeonManager.player_level manager0)
      (DungeonManager.set_active_modifiers
         (DungeonManager.active_modifiers manager0 ++ [md])
         (DungeonManager.set_heat_level (DungeonManager.heat_level manager0 + 2) manager0))
      (random.const 7) ∧
  ∀ m' g', DungeonManager.increase_heat 2 manager0 (random.const 7) = Some (m', g') →
    DungeonManager.active_modifiers m' = DungeonManager.active_modifiers manager0 ++ [md] ∧
    DungeonManager.heat_level m' = DungeonManager.heat_level manager0 + 2.
Proof.
  intros md. apply (increase_heat_unlocks_first manager0 2 (random.const 7) md).
  reflexivity.
Defined.

(** C3 as stated fails: raising the heat of a fresh manager by 2 crosses
    two thresholds, and "Stronger Enemies" is not active afterwards. *)
Lemma increase_heat_all_crossed_counterexample :
  ¬ (∀ m amount g m' g',
       (2 ≤ length (newly_crossed m amount))%nat →
       DungeonManager.increase_heat amount m g = Some (m', g') →
       ∀ md, md ∈ newly_crossed m amount →
             md ∈ DungeonManager.active_modifiers m').
Proof.
  intros H.
  pose (run := DungeonManager.increase_heat 2 manager0 (random.const 7)).
  pose (r := from_option id (manager0, random.const 7) run).
  assert (Hrun : run = Some (r.1, r.2)).
  { apply (some_eta run (manager0, random.const 7)). vm_compute. reflexivity. }
  specialize (H manager0 2 (random.const 7) r.1 r.2).
  assert (Hlen : (2 ≤ length (newly_crossed manager0 2))%nat) by (vm_compute; lia).
  specialize (H Hlen Hrun
    {| name := "Stronger Enemies"; effect := "stronger_enemies"; min_heat := 2 |}).
  assert (Hin : {| name := "Stronger Enemies"; effect := "stronger_enemies"; min_heat := 2 |}
                ∈ newly_crossed manager0 2).
  { vm_compute. apply list_elem_of_further, list_elem_of_here. }
  specialize (H Hin).
  destruct (increase_heat_unlocks_first manager0 2 (random.const 7)
    {| name := "More Enemies"; effect := "increase_enemies"; min_heat := 1 |}
    eq_refl) as [_ Hact].
  destruct (Hact r.1 r.2 Hrun) as [Ha _]. rewrite Ha in H. simpl in H.
  apply list_elem_of_singleton in H. discriminate H.
Qed.

(** ** The area manager: entering an area and moving *)

(** What [enter_area] does for any index but 0 once the player has a
    position: [self.current_area] is assigned before it is compared with
    [area_index], so the branch "going down" is never taken. *)
Lemma enter_area_lands_on_exit m idx p d :
  DungeonManager.player_pos m = Some p →
  0 < idx < Z.of_nat (length (DungeonManager.dungeons m)) →
  py_index (DungeonManager.dungeons m) idx = Some d →
  DungeonManager.enter_area idx m =
    Some (true, DungeonManager.set_player_pos (Dungeon.exit d)
                  (DungeonManager.set_current_area idx m)).
Proof.
  intros Hp Hi Hd. unfold DungeonManager.enter_area.
  rewrite bool_decide_eq_true_2 by lia. simpl. rewrite Hd. simpl.
  rewrite (bool_decide_eq_false_2 (idx = 0)) by lia.
  rewrite Hp. rewrite (bool_decide_eq_false_2 (Some p = None)) by done. simpl.
  rewrite bool_decide_eq_false_2 by lia. done.
Qed.

(** C2, at a failing input: in the world generated from the tape that
    repeats 7 the player stands in area 0; entering area 1 (a higher index)
    puts the player on the exit (25, 25) of area 1, not on its entrance
    (11, 11). *)
Theorem enter_area_descending_lands_on_exit :
  DungeonManager.current_area world7 = 0 ∧
  DungeonManager.player_pos world7 = Some (11, 11) ∧
  (d ← DungeonManager.dungeons world7 !! 1%nat;
   Some (Dungeon.entrance d, Dungeon.exit d))
    = Some (Some (11, 11), Some (25, 25)) ∧
  (r ← DungeonManager.enter_area 1 world7;
   Some (r.1, DungeonManager.current_area r.2, DungeonManager.player_pos r.2))
    = Some (true, 1, Some (25, 25)).
Proof. vm_compute. done. Qed.

(** C5: a move whose target cell is off the grid or a wall returns
    [False] ("blocked") and leaves the manager, with all its levels, as it
    was. *)
Theorem move_player_blocked m dx dy d pos :
  DungeonManager.get_current_dungeon m = Some d →
  DungeonManager.player_pos m = Some pos →
  (¬ in_bounds d (pos.1 + dx, pos.2 + dy) ∨
   tile d (pos.1 + dx, pos.2 + dy) = WALL) →
  DungeonManager.move_player dx dy m = Some (Blocked, m).
Proof.
  intros Hd Hp Ht. unfold DungeonManager.move_player.
  unfold DungeonManager.get_current_dungeon in Hd. rewrite Hd, Hp. simpl.
  destruct (decide (in_bounds d (pos.1 + dx, pos.2 + dy))) as [Hin|Hout].
  - destruct Ht as [?|Ht]; [done|].
    rewrite (get_in_bounds _ _ _ Hin), Ht.
    rewrite (bool_decide_eq_false_2 (Some WALL ≠ Some WALL)) by naive_solver.
    by rewrite andb_false_r.
  - unfold in_bounds in Hout. simpl in Hout.
    destruct (bool_decide (0 ≤ pos.1 + dx < Dungeon.width d)) eqn:E1; [|done].
    destruct (bool_decide (0 ≤ pos.2 + dy < Dungeon.height d)) eqn:E2; [|done].
    apply bool_decide_eq_true_1 in E1, E2. tauto.
Qed.

Lemma move_player_blocked_witness :
  let m := DungeonManager.set_player_pos (Some (6, 6)) world7 in
  DungeonManager.move_player (-1) 0 m = Some (Blocked, m).
Proof.
  intros m.
  apply (move_player_blocked m (-1) 0 (level_of m) (6, 6)).
  - apply (some_eta1 (DungeonManager.get_current_dungeon m) blank).
    vm_compute. reflexivity.
  - reflexivity.
  - right. vm_compute. reflexivity.
Defined.

Lemma store_dungeon_fields i d m :
  DungeonManager.current_area (DungeonManager.store_dungeon i d m)
    = DungeonManager.current_area m ∧
  DungeonManager.player_pos (DungeonManager.store_dungeon i d m)
    = DungeonManager.player_pos m.
Proof. unfold DungeonManager.store_dungeon. by destruct (np_index _ _). Qed.

Lemma put_in_bounds d x y v :
  in_bounds d (x, y) →
  Dungeon.put x y v d = Some (Dungeon.set_grid (<[(x, y) := v]> (Dungeon.grid d)) d).
Proof.
  intros [Hx Hy]; simpl in *. unfold Dungeon.put, np_index.
  rewrite !bool_decide_eq_true_2 by done. done.
Qed.

(** Ordinary movement onto a cell of the grid keeps the area and puts the
    player on the cell. *)
Lemma resolve_move_spec x y v d m :
  in_bounds d (x, y) →
  ∃ r m', DungeonManager.resolve_move x y v d m = Some (r, m') ∧
    DungeonManager.current_area m' = DungeonManager.current_area m ∧
    DungeonManager.player_pos m' = Some (x, y).
Proof.
  intros Hin. unfold DungeonManager.resolve_move.
  destruct (list_find _ _) as [[i it]|].
  { eexists _, _. split; [done|]. by destruct (store_dungeon_fields
      (DungeonManager.current_area m)
      (Dungeon.set_items (list_pop i (Dungeon.items d)) d)
      (DungeonManager.set_player_pos (Some (x, y)) m)) as [-> ->]. }
  destruct (List.find _ _).
  { eexists _, _. split; [done|]. by destruct (store_dungeon_fields
      (DungeonManager.current_area m) d
      (DungeonManager.set_player_pos (Some (x, y)) m)) as [-> ->]. }
  destruct (decide (v = TRAP)).
  - rewrite (put_in_bounds _ _ _ _ Hin). simpl.
    eexists _, _. split; [done|].
    by destruct (store_dungeon_fields (DungeonManager.current_area m)
      (Dungeon.set_grid (<[(x, y):=FLOOR]> (Dungeon.grid d)) d)
      (DungeonManager.set_player_pos (Some (x, y)) m)) as [-> ->].
  - eexists _, _. split; [done|]. by destruct (store_dungeon_fields
      (DungeonManager.current_area m) d
      (DungeonManager.set_player_pos (Some (x, y)) m)) as [-> ->].
Qed.

(** C10: stepping onto the stairs up in area 0, or onto stairs down in the
    last area, is ordinary movement: no area is entered, the area index
    stays and the player stands on the stairs cell. *)
Theorem move_player_stairs_at_the_ends m dx dy d pos :
  DungeonManager.get_current_dungeon m = Some d →
  DungeonManager.player_pos m = Some pos →
  in_bounds d (pos.1 + dx, pos.2 + dy) →
  (tile d (pos.1 + dx, pos.2 + dy) = STAIRS_UP ∧
   DungeonManager.current_area m = 0) ∨
  (tile d (pos.1 + dx, pos.2 + dy) = STAIRS_DOWN ∧
   DungeonManager.current_area m
     = Z.of_nat (length (DungeonManager.dungeons m)) - 1) →
  DungeonManager.move_player dx dy m =
    DungeonManager.resolve_move (pos.1 + dx) (pos.2 + dy)
      (tile d (pos.1 + dx, pos.2 + dy)) d m ∧
  ∃ r m', DungeonManager.move_player dx dy m = Some (r, m') ∧
    DungeonManager.current_area m' = DungeonManager.current_area m ∧
    DungeonManager.player_pos m' = Some (pos.1 + dx, pos.2 + dy).
Proof.
  intros Hd Hp Hin Ht.
  assert (Heq : DungeonManager.move_player dx dy m =
    DungeonManager.resolve_move (pos.1 + dx) (pos.2 + dy)
      (tile d (pos.1 + dx, pos.2 + dy)) d m).
  { unfold DungeonManager.move_player.
    unfold DungeonManager.get_current_dungeon in Hd. rewrite Hd, Hp. simpl.
    rewrite (get_in_bounds _ _ _ Hin). destruct Hin as [Hx Hy]. simpl in *.
    rewrite !bool_decide_eq_true_2 by done. simpl.
    destruct Ht as [[Ht Ha]|[Ht Ha]]; rewrite Ht.
    - rewrite bool_decide_eq_true_2 by done. simpl.
      rewrite bool_decide_eq_false_2 by lia. done.
    - rewrite bool_decide_eq_true_2 by done. simpl.
      rewrite bool_decide_eq_false_2 by lia. done. }
  split; [done|]. rewrite Heq. by apply resolve_move_spec.
Qed.

Lemma move_player_stairs_at_the_ends_witness :
  let m := DungeonManager.set_player_pos (Some (10, 11)) world7 in
  DungeonManager.move_player 1 0 m =
    DungeonManager.resolve_move 11 11 (tile (level_of m) (11, 11)) (level_of m) m ∧
  ∃ r m', DungeonManager.move_player 1 0 m = Some (r, m') ∧
    DungeonManager.current_area m' = DungeonManager.current_area m ∧
    DungeonManager.player_pos m' = Some (11, 11).
Proof.
  intros m.
  apply (move_player_stairs_at_the_ends m 1 0 (level_of m) (10, 11)).
  - apply (some_eta1 (DungeonManager.get_current_dungeon m) blank).
    vm_compute. reflexivity.
  - reflexivity.
  - vm_compute. done.
  - left. vm_compute. done.
Defined.

(** ** Trap placement *)

Lemma existsb_false_Forall {A} (p : A → bool) l :
  existsb p l = false → ∀ x, x ∈ l → p x = false.
Proof.
  induction l as [|a l IH]; simpl; intros H x Hx.
  - by apply elem_of_nil in Hx.
  - apply orb_false_iff in H as [Ha Hl].
    apply elem_of_cons in Hx as [->|Hx]; auto.
Qed.

(** One round of attempts leaves the level as it is or turns one trap site
    into a trap. *)
Lemma add_trap_attempts_spec n d g d' g' :
  Dungeon.add_trap_attempts n d g = Some (d', g') →
  d' = d ∨ ∃ c, trap_site d c ∧
                d' = Dungeon.set_grid (<[c := TRAP]> (Dungeon.grid d)) d.
Proof.
  revert g. induction n as [|n IH]; intros g H.
  - rewrite add_trap_attempts_O in H. left. by simplify_eq.
  - rewrite add_trap_attempts_S in H.
    destruct (random.randint 1 _ g) as [[x g1]|] eqn:Ex; simplify_eq/=.
    destruct (random.randint 1 _ g1) as [[y g2]|] eqn:Ey; simplify_eq/=.
    apply randint_range in Ex, Ey.
    assert (Hin : in_bounds d (x, y)) by (split; simpl; lia).
    rewrite (get_in_bounds _ _ _ Hin) in H. simpl in H.
    destruct (decide (tile d (x, y) = FLOOR)) as [Hf|]; [|by eauto].
    destruct (bool_decide (Some (x, y) ≠ Dungeon.entrance d)) eqn:E1;
      simpl in H; [|by eauto].
    destruct (bool_decide (Some (x, y) ≠ Dungeon.exit d)) eqn:E2;
      simpl in H; [|by eauto].
    destruct (Dungeon.enemy_at d (x, y)) eqn:E3; [by eauto|].
    destruct (Dungeon.item_at d (x, y)) eqn:E4; [by eauto|].
    rewrite (put_in_bounds _ _ _ _ Hin) in H. simpl in H. simplify_eq.
    right. exists (x, y). split; [|done].
    apply bool_decide_eq_true_1 in E1, E2.
    repeat split; try done; try (simpl; lia).
    + intros e He Hp.
      pose proof (existsb_false_Forall _ _ E3 e He) as Hb. simpl in Hb.
      by apply bool_decide_eq_false_1 in Hb.
    + intros it Hit Hp.
      pose proof (existsb_false_Forall _ _ E4 it Hit) as Hb. simpl in Hb.
      by apply bool_decide_eq_false_1 in Hb.
Qed.

Lemma trap_site_earlier d c c' :
  trap_site (Dungeon.set_grid (<[c := TRAP]> (Dungeon.grid d)) d) c' →
  trap_site d c' ∧ c' ≠ c.
Proof.
  intros (Hin & Ht & He & Hx & Hen & Hit). unfold tile in Ht. simpl in Ht.
  assert (c' ≠ c) as Hne.
  { intros ->. by rewrite lookup_insert_eq in Ht. }
  rewrite lookup_insert_ne in Ht by done. done.
Qed.

(** The rounds of a pass: the traps it places, one by one. *)
Lemma add_traps_loop_spec n d g d' g' :
  Dungeon.add_traps_loop n d g = Some (d', g') →
  ∃ traps : list coord,
    NoDup traps ∧ (length traps ≤ n)%nat ∧ Forall (trap_site d) traps ∧
    d' = Dungeon.set_grid (foldr (λ c, <[c := TRAP]>) (Dungeon.grid d) traps) d.
Proof.
  revert d g. induction n as [|n IH]; intros d g H.
  - rewrite add_traps_loop_O in H. simplify_eq. exists [].
    repeat split; try constructor.
    by destruct d'.
  - rewrite add_traps_loop_S in H.
    destruct (Dungeon.add_trap_attempts 50 d g) as [[d1 g1]|] eqn:E;
      simplify_eq/=.
    destruct (IH _ _ H) as (traps & Hnd & Hlen & Hall & Hd').
    apply add_trap_attempts_spec in E as [->|(c & Hc & ->)].
    + exists traps. repeat split; auto.
    + exists (traps ++ [c]). split; [|split; [|split]].
      * apply NoDup_app. split; [done|]. split; [|apply NoDup_singleton].
        intros c' Hc' ->%list_elem_of_singleton.
        eapply Forall_forall in Hall; [|done].
        by apply trap_site_earlier in Hall as [_ ?].
      * rewrite length_app. simpl. lia.
      * apply Forall_app. split; [|by apply Forall_singleton].
        eapply Forall_impl; [done|]. intros c' Hc'.
        by apply trap_site_earlier in Hc' as [? _].
      * rewrite foldr_app. by simpl in *.
Qed.

Lemma lookup_foldr_insert (g : gmap coord TileType) v l k :
  foldr (λ c, <[c := v]>) g l !! k = if decide (k ∈ l) then Some v else g !! k.
Proof.
  induction l as [|a l IH].
  - destruct (decide (k ∈ [])) as [H|]; [|done]. by apply elem_of_nil in H.
  - cbn [foldr]. destruct (decide (a = k)) as [->|Hne].
    + rewrite lookup_insert_eq.
      destruct (decide (k ∈ k :: l)) as [|H]; [done|].
      destruct H. apply list_elem_of_here.
    + rewrite lookup_insert_ne by done. rewrite IH.
      destruct (decide (k ∈ l)) as [Hl|Hl].
      * destruct (decide (k ∈ a :: l)) as [|H]; [done|].
        destruct H. by apply list_elem_of_further.
      * destruct (decide (k ∈ a :: l)) as [H|]; [|done].
        apply elem_of_cons in H as [?|?]; by simplify_eq.
Qed.

Lemma randint_eq a b g :
  a ≤ b →
  random.randint a b g =
    Some (a + random.tape g (random.cursor g) `mod` (b - a + 1), skip 1 g).
Proof.
  intros Hab. with_strategy transparent [random.randint] (unfold random.randint).
  rewrite bool_decide_eq_false_2 by lia. unfold random.next, skip. simpl.
  by rewrite N.add_1_r.
Qed.

Lemma randint_nonempty a b g r g' :
  random.randint a b g = Some (r, g') → a ≤ b.
Proof.
  with_strategy transparent [random.randint] (unfold random.randint).
  case_bool_decide; [done|lia].
Qed.

Lemma skip_skip a b g : skip a (skip b g) = skip (b + a) g.
Proof. unfold skip. simpl. by rewrite N.add_assoc. Qed.

Lemma drawn_cell_skip d g k :
  drawn_cell d (skip 2 g) k = drawn_cell d g (S k).
Proof.
  unfold drawn_cell, skip. simpl random.tape. simpl random.cursor.
  replace (random.cursor g + 2 + 2 * N.of_nat k)%N
    with (random.cursor g + 2 * N.of_nat (S k))%N by lia.
  done.
Qed.

Lemma is_trap_site_spec d c :
  in_bounds d c → is_trap_site d c = true ↔ trap_site d c.
Proof.
  intros Hin. unfold is_trap_site, trap_site.
  rewrite !andb_true_iff, !negb_true_iff, !bool_decide_eq_true.
  split.
  - intros ((((Hf & He) & Hx) & Hen) & Hit).
    split; [done|]. split; [done|]. split; [done|]. split; [done|]. split.
    + intros e Hein Hp.
      pose proof (existsb_false_Forall _ _ Hen e Hein) as Hb. simpl in Hb.
      by apply bool_decide_eq_false_1 in Hb.
    + intros it Hitin Hp.
      pose proof (existsb_false_Forall _ _ Hit it Hitin) as Hb. simpl in Hb.
      by apply bool_decide_eq_false_1 in Hb.
  - intros (_ & Hf & He & Hx & Hen & Hit).
    split; [split; [split; [split|]|]|]; try done.
    + unfold Dungeon.enemy_at. apply not_true_is_false.
      intros (e & Hein%list_elem_of_In & Hb)%existsb_exists.
      apply bool_decide_eq_true_1 in Hb. by apply (Hen e).
    + unfold Dungeon.item_at. apply not_true_is_false.
      intros (it & Hitin%list_elem_of_In & Hb)%existsb_exists.
      apply bool_decide_eq_true_1 in Hb. by apply (Hit it).
Qed.

Lemma skip_0 g : skip 0 g = g.
Proof. destruct g. unfold skip. simpl. by rewrite N.add_0_r. Qed.

Lemma attempt_draws d g x g1 y g2 :
  random.randint 1 (Dungeon.width d - 2) g = Some (x, g1) →
  random.randint 1 (Dungeon.height d - 2) g1 = Some (y, g2) →
  (x, y) = drawn_cell d g 0 ∧ g2 = skip 2 g ∧ in_bounds d (x, y).
Proof.
  intros Ex Ey.
  pose proof (randint_nonempty _ _ _ _ _ Ex) as Hw.
  pose proof (randint_nonempty _ _ _ _ _ Ey) as Hh.
  pose proof (randint_range _ _ _ _ _ Ex) as Hx.
  pose proof (randint_range _ _ _ _ _ Ey) as Hy.
  assert (in_bounds d (x, y)) as Hin by (split; simpl; lia).
  rewrite randint_eq in Ex by done. rewrite randint_eq in Ey by done.
  clear Hx Hy. simplify_eq. split; [|split; [|done]].
  - unfold drawn_cell. simpl.
    replace (Dungeon.width d - 2 - 1 + 1) with (Dungeon.width d - 2) by lia.
    replace (Dungeon.height d - 2 - 1 + 1) with (Dungeon.height d - 2) by lia.
    by rewrite N.add_0_r.
  - by rewrite skip_skip.
Qed.

Lemma drawn_cells_S d g n :
  drawn_cell d g <$> seq 0 (S n) =
  drawn_cell d g 0 :: (drawn_cell d (skip 2 g) <$> seq 0 n).
Proof.
  simpl. f_equal. rewrite <- fmap_S_seq, <- list_fmap_compose.
  apply list_fmap_ext. intros i k _. simpl. by rewrite drawn_cell_skip.
Qed.

(** A round of [n] attempts of the source does what the specification
    says of it. *)
Lemma add_trap_attempts_round n : ∀ d g d' g',
  Dungeon.add_trap_attempts n d g = Some (d', g') →
  match list_find (λ c, is_trap_site d c = true)
          (drawn_cell d g <$> seq 0 n) with
  | Some (k, c) =>
      d' = Dungeon.set_grid (<[c := TRAP]> (Dungeon.grid d)) d ∧
      g' = skip (2 * N.of_nat (S k)) g ∧ trap_site d c
  | None => d' = d ∧ g' = skip (2 * N.of_nat n) g
  end.
Proof.
  induction n as [|n IH]; intros d g d' g' H.
  - rewrite add_trap_attempts_O in H. simplify_eq. simpl.
    by rewrite skip_0.
  - rewrite add_trap_attempts_S in H. rewrite drawn_cells_S.
    destruct (random.randint 1 _ g) as [[x g1]|] eqn:Ex; [|done].
    cbn [mbind option_bind] in H.
    destruct (random.randint 1 _ g1) as [[y g2]|] eqn:Ey; [|done].
    cbn [mbind option_bind] in H.
    destruct (attempt_draws d g x g1 y g2 Ex Ey) as (Hc & -> & Hin).
    rewrite (get_in_bounds _ _ _ Hin) in H. cbn [mbind option_bind] in H.
    rewrite <- Hc. cbn [list_find].
    assert (Hmiss : is_trap_site d (x, y) = false →
              Dungeon.add_trap_attempts n d (skip 2 g) = Some (d', g') →
              match
                (if decide (is_trap_site d (x, y) = true)
                 then Some (O, (x, y))
                 else prod_map S id <$>
                      list_find (λ c, is_trap_site d c = true)
                        (drawn_cell d (skip 2 g) <$> seq 0 n))
              with
              | Some (k, c) =>
                  d' = Dungeon.set_grid (<[c := TRAP]> (Dungeon.grid d)) d ∧
                  g' = skip (2 * N.of_nat (S k)) g ∧ trap_site d c
              | None => d' = d ∧ g' = skip (2 * N.of_nat (S n)) g
              end).
    { intros Hs Hrest. rewrite Hs.
      destruct (decide (false = true)); [done|].
      apply IH in Hrest.
      destruct (list_find _ _) as [[k c]|]; simpl.
      - destruct Hrest as (-> & -> & Hsite). split; [done|]. split; [|done].
        rewrite skip_skip. f_equal. lia.
      - destruct Hrest as (-> & ->). split; [done|].
        rewrite skip_skip. f_equal. lia. }
    assert (Hno : ¬ trap_site d (x, y) → is_trap_site d (x, y) = false).
    { intros Hn. apply not_true_is_false. intros Hs. apply Hn.
      by apply is_trap_site_spec. }
    destruct (decide (tile d (x, y) = FLOOR)) as [Hf|Hf].
    2:{ apply Hmiss; [|done]. apply Hno. by intros (_ & ? & _). }
    destruct (bool_decide (Some (x, y) ≠ Dungeon.entrance d)) eqn:E1.
    2:{ apply Hmiss; [|done]. apply Hno. intros (_ & _ & ? & _).
        by apply bool_decide_eq_false_1 in E1. }
    destruct (bool_decide (Some (x, y) ≠ Dungeon.exit d)) eqn:E2.
    2:{ apply Hmiss; [|done]. apply Hno. intros (_ & _ & _ & ? & _).
        by apply bool_decide_eq_false_1 in E2. }
    cbn [andb] in H.
    destruct (Dungeon.enemy_at d (x, y)) eqn:E3.
    { apply Hmiss; [|done]. apply Hno. intros (_ & _ & _ & _ & Hen & _).
      apply existsb_exists in E3 as (e & He%list_elem_of_In & Hb).
      apply bool_decide_eq_true_1 in Hb. by apply (Hen e). }
    destruct (Dungeon.item_at d (x, y)) eqn:E4.
    { apply Hmiss; [|done]. apply Hno. intros (_ & _ & _ & _ & _ & Hit).
      apply existsb_exists in E4 as (it & Hi%list_elem_of_In & Hb).
      apply bool_decide_eq_true_1 in Hb. by apply (Hit it). }
    rewrite (put_in_bounds _ _ _ _ Hin) in H. simpl in H. simplify_eq.
    assert (Hsite : trap_site d (x, y)).
    { apply bool_decide_eq_true_1 in E1, E2.
      split; [done|]. split; [done|]. split; [done|]. split; [done|]. split.
      - intros e He Hp.
        pose proof (existsb_false_Forall _ _ E3 e He) as Hb. simpl in Hb.
        by apply bool_decide_eq_false_1 in Hb.
      - intros it Hit Hp.
        pose proof (existsb_false_Forall _ _ E4 it Hit) as Hb. simpl in Hb.
        by apply bool_decide_eq_false_1 in Hb. }
    rewrite (proj2 (is_trap_site_spec d (x, y) Hin) Hsite).
    destruct (decide (true = true)); [|done].
    split; [done|]. split; [f_equal|done].
Qed.

Lemma length_hits {A} (rounds : list (option A)) :
  (length (omap id rounds) ≤ length rounds)%nat ∧
  (length (omap id rounds) = length rounds ↔ None ∉ rounds).
Proof.
  induction rounds as [|[a|] rounds [IH1 IH2]].
  - split; [done|]. split; [intros _ H; by apply elem_of_nil in H|done].
  - change (omap id (Some a :: rounds)) with (a :: omap id rounds).
    cbn [length]. split; [lia|]. rewrite not_elem_of_cons. split.
    + intros H. split; [done|]. apply IH2. lia.
    + intros [_ H]. f_equal. by apply IH2.
  - change (omap id (None :: rounds)) with (omap id rounds).
    cbn [length]. split; [lia|]. split; [lia|].
    intros H. destruct H. apply list_elem_of_here.
Qed.

(** A pass of the source does what the specification says of it: round by
    round, with the cells converted. *)
Lemma add_traps_loop_pass n : ∀ d g d' g',
  Dungeon.add_traps_loop n d g = Some (d', g') →
  ∃ rounds : list (option coord),
    trap_pass_spec n (d, g) = (rounds, (d', g')) ∧ length rounds = n ∧
    NoDup (omap id rounds) ∧ Forall (trap_site d) (omap id rounds) ∧
    (∀ c, c ∈ omap id rounds → tile d' c = TRAP) ∧
    (∀ c, c ∉ omap id rounds → tile d' c = tile d c) ∧
    d' = Dungeon.set_grid (Dungeon.grid d') d.
Proof.
  induction n as [|n IH]; intros d g d' g' H.
  - rewrite add_traps_loop_O in H. simplify_eq. exists []. simpl.
    split; [done|]. split; [done|]. split; [constructor|].
    split; [constructor|]. split; [by intros c Hc%elem_of_nil|].
    split; [done|by destruct d'].
  - rewrite add_traps_loop_S in H.
    destruct (Dungeon.add_trap_attempts 50 d g) as [[d1 g1]|] eqn:E; [|done].
    cbn [mbind option_bind] in H.
    apply add_trap_attempts_round in E.
    destruct (IH _ _ _ _ H) as (rounds & Hp & Hlen & Hnd & Hall & Ht & Hk & Hd').
    cbn [trap_pass_spec]. unfold trap_round_spec.
    destruct (list_find _ _) as [[k c]|].
    + destruct E as (-> & -> & Hsite). rewrite Hp.
      exists (Some c :: rounds). cbn [omap list_omap id].
      assert (Hc : c ∉ omap id rounds).
      { intros Hc. eapply Forall_forall in Hall; [|done].
        by apply trap_site_earlier in Hall as [_ ?]. }
      split; [done|]. split; [simpl; by rewrite Hlen|].
      split; [by constructor|]. split; [|split; [|split]].
      * constructor; [done|]. eapply Forall_impl; [done|].
        intros c' Hc'. by apply trap_site_earlier in Hc' as [? _].
      * intros c' [->|Hc']%elem_of_cons; [|by apply Ht].
        rewrite (Hk c Hc). unfold tile. simpl. by rewrite lookup_insert_eq.
      * intros c' [Hne Hc']%not_elem_of_cons. rewrite (Hk c' Hc').
        unfold tile. simpl. by rewrite lookup_insert_ne.
      * rewrite Hd' at 1. done.
    + destruct E as (-> & ->).
      change (skip (2 * N.of_nat 50) g) with (skip 100 g) in Hp. rewrite Hp.
      exists (None :: rounds). cbn [omap list_omap id].
      split; [done|]. split; [simpl; by rewrite Hlen|]. done.
Qed.

(** C8, as amended: a pass of trap placement runs 2 + area_index rounds.
    A round draws up to 50 cells and turns the first one that is a floor
    tile of the grid, neither the entrance nor the exit, and free of enemies
    and items, into a trap; it places nothing only when none of its 50
    draws is such a cell.  So the pass turns one cell per round that has
    such a draw: at most 2 + area_index cells, and exactly that many when
    no round misses.  The cells it turns are distinct, each was such a
    floor tile; every other cell, and everything else on the level, stays
    as it was. *)
Theorem add_traps_spec d g d' g' :
  Dungeon.add_traps d g = Some (d', g') →
  ∃ (rounds : list (option coord)) (traps : list coord),
    trap_pass_spec (Z.to_nat (2 + Dungeon.area_index d)) (d, g)
      = (rounds, (d', g')) ∧
    length rounds = Z.to_nat (2 + Dungeon.area_index d) ∧
    traps = omap id rounds ∧
    (length traps = Z.to_nat (2 + Dungeon.area_index d) ↔ None ∉ rounds) ∧
    NoDup traps ∧
    (length traps ≤ Z.to_nat (2 + Dungeon.area_index d))%nat ∧
    (∀ c, c ∈ traps → trap_site d c ∧ tile d' c = TRAP) ∧
    (∀ c, c ∉ traps → tile d' c = tile d c) ∧
    d' = Dungeon.set_grid (Dungeon.grid d') d.
Proof.
  intros H. apply add_traps_loop_pass in H
    as (rounds & Hp & Hlen & Hnd & Hall & Ht & Hk & Hd').
  destruct (length_hits rounds) as [Hle Hiff]. rewrite Hlen in Hle, Hiff.
  exists rounds, (omap id rounds).
  split; [done|]. split; [done|]. split; [done|]. split; [done|].
  split; [done|]. split; [done|]. split; [|done].
  intros c Hc. split; [by eapply Forall_forall in Hall|by apply Ht].
Qed.

Lemma add_traps_spec_witness :
  let d := level_of world_mix in
  let run := Dungeon.add_traps d mixed_tape in
  let d' := (from_option id (blank, random.const 0) run).1 in
  let g' := (from_option id (blank, random.const 0) run).2 in
  (trap_pass_spec 2 (d, mixed_tape)).1 = [Some (6, 6); Some (9, 5)] ∧
  ∃ (rounds : list (option coord)) (traps : list coord),
    trap_pass_spec (Z.to_nat (2 + Dungeon.area_index d)) (d, mixed_tape)
      = (rounds, (d', g')) ∧
    length rounds = Z.to_nat (2 + Dungeon.area_index d) ∧
    traps = omap id rounds ∧
    (length traps = Z.to_nat (2 + Dungeon.area_index d) ↔ None ∉ rounds) ∧
    NoDup traps ∧
    (length traps ≤ Z.to_nat (2 + Dungeon.area_index d))%nat ∧
    (∀ c, c ∈ traps → trap_site d c ∧ tile d' c = TRAP) ∧
    (∀ c, c ∉ traps → tile d' c = tile d c) ∧
    d' = Dungeon.set_grid (Dungeon.grid d') d.
Proof.
  intros d run d' g'. split; [vm_compute; reflexivity|].
  apply (add_traps_spec d mixed_tape d' g').
  apply (some_eta run (blank, random.const 0)).
  vm_compute. reflexivity.
Defined.

(** A pass that leaves no trap tile on the grid has changed no cell. *)
Lemma add_traps_none d g d' g' :
  Dungeon.add_traps d g = Some (d', g') →
  map_Forall (λ _ v, v ≠ TRAP) (Dungeon.grid d') →
  ∀ c, tile d' c = tile d c.
Proof.
  intros H Hnt c.
  apply add_traps_loop_spec in H as (traps & _ & _ & Hall & ->).
  simpl in Hnt. unfold tile at 1. simpl. rewrite lookup_foldr_insert.
  destruct (decide (c ∈ traps)) as [Hin|]; [|done].
  exfalso. apply (Hnt c TRAP); [|done].
  rewrite lookup_foldr_insert. by destruct (decide (c ∈ traps)).
Qed.

Lemma no_exact_count d g d' g' :
  Dungeon.add_traps d g = Some (d', g') →
  Dungeon.area_index d = 0 →
  map_Forall (λ _ v, v ≠ TRAP) (Dungeon.grid d') →
  ¬ ∃ traps : list coord,
      NoDup traps ∧
      length traps = Z.to_nat (2 + Dungeon.area_index d) ∧
      (∀ c, c ∈ traps ↔ tile d' c ≠ tile d c).
Proof.
  intros H Ha Hnt (traps & _ & Hlen & Hiff). rewrite Ha in Hlen.
  destruct traps as [|c traps]; [discriminate Hlen|].
  assert (Hc : tile d' c ≠ tile d c) by (apply Hiff, list_elem_of_here).
  apply Hc. by eapply add_traps_none.
Qed.

(** C8 as stated fails: on the level generated from the tape that repeats
    7, a pass whose draws all give the wall cell (41, 41) places no trap,
    where C8 asks for 2. *)
Lemma add_traps_exact_count_counterexample :
  ¬ (∀ d g d' g',
       Dungeon.add_traps d g = Some (d', g') →
       ∃ traps : list coord,
         NoDup traps ∧
         length traps = Z.to_nat (2 + Dungeon.area_index d) ∧
         (∀ c, c ∈ traps ↔ tile d' c ≠ tile d c)).
Proof.
  intros H.
  assert (Hrun : Dungeon.add_traps level7 (random.const 40)
                 = Some (trapped40.1, trapped40.2)).
  { apply (some_eta (Dungeon.add_traps level7 (random.const 40))
             (blank, random.const 40)). vm_compute. reflexivity. }
  apply (no_exact_count level7 (random.const 40) trapped40.1 trapped40.2 Hrun).
  - vm_compute. reflexivity.
  - apply (bool_decide_eq_true_1
             (map_Forall (λ _ v, v ≠ TRAP) (Dungeon.grid trapped40.1))).
    vm_compute. reflexivity.
  - exact (H level7 (random.const 40) trapped40.1 trapped40.2 Hrun).
Qed.

(** ** Spawns of a room *)

Ltac div_lia := Z.to_euclidean_division_equations; lia.

Lemma heap_ext_refl hp : heap_ext hp hp.
Proof. intros i e H. eauto. Qed.

Lemma heap_ext_trans hp1 hp2 hp3 :
  heap_ext hp1 hp2 → heap_ext hp2 hp3 → heap_ext hp1 hp3.
Proof.
  intros H1 H2 i e H. destruct (H1 i e H) as (e' & H' & Hp).
  destruct (H2 i e' H') as (e'' & H'' & Hp'). exists e''. split; [done|congruence].
Qed.

Lemma heap_ext_app hp new : heap_ext hp (hp ++ new).
Proof. intros i e H. exists e. split; [|done]. by apply lookup_app_l_Some. Qed.

Lemma room_spawns_inside_ext hp hp' room :
  heap_ext hp hp' → room_spawns_inside hp room → room_spawns_inside hp' room.
Proof.
  intros Hext (He & Hi & Hf). split; [|done].
  intros ref Href. destruct (He ref Href) as (e & Hl & Hin).
  destruct (Hext _ _ Hl) as (e' & Hl' & Hp). exists e'. by rewrite Hp.
Qed.

Lemma center_interior room :
  3 ≤ Room.width room → 3 ≤ Room.height room →
  Room.interior room (Room.center room).
Proof. unfold Room.interior, Room.center. simpl. intros. div_lia. Qed.

Lemma room_step_refl room hp : room_step room hp room hp.
Proof.
  split; [done|]. split; [done|]. split; [|done]. exists []. by rewrite app_nil_r.
Qed.

Lemma room_step_trans r1 h1 r2 h2 r3 h3 :
  room_step r1 h1 r2 h2 → room_step r2 h2 r3 h3 → room_step r1 h1 r3 h3.
Proof.
  intros (Hp1 & Hc1 & [n1 ->] & Hs1) (Hp2 & Hc2 & [n2 ->] & Hs2).
  split; [|split; [congruence|split]].
  - unfold same_place in *. intuition congruence.
  - exists (n1 ++ n2). by rewrite app_assoc.
  - auto.
Qed.

Lemma place_enemies_loop_spec n room dl hp g room' hp' g' :
  Room.place_enemies_loop n room dl hp g = Some (room', hp', g') →
  room_step room hp room' hp'.
Proof.
  revert room hp g. induction n as [|n IH]; intros room hp g H.
  - rewrite place_enemies_loop_O in H. simplify_eq. apply room_step_refl.
  - rewrite place_enemies_loop_S in H.
    destruct (random.randint _ _ g) as [[ex g1]|] eqn:Ex; simplify_eq/=.
    destruct (random.randint _ _ g1) as [[ey g2]|] eqn:Ey; simplify_eq/=.
    destruct (random.randint _ _ g2) as [[dl' g3]|] eqn:Ed; simplify_eq/=.
    apply randint_range in Ex, Ey.
    eapply room_step_trans; [|by eapply IH].
    split; [done|]. split; [done|]. split; [by eexists|].
    intros (He & Hi & Hf). split; [|done]. simpl.
    intros ref [Href| ->%list_elem_of_singleton]%elem_of_app.
    + destruct (He ref Href) as (e & Hl & Hin). exists e. split; [|done].
      by apply lookup_app_l_Some.
    + eexists. split; [apply list_lookup_middle; done|].
      unfold Room.interior. simpl. lia.
Qed.

Lemma place_enemies_spec room dl ai hp g room' hp' g' :
  3 ≤ Room.width room → 3 ≤ Room.height room →
  Room.place_enemies room dl ai hp g = Some (room', hp', g') →
  room_step room hp room' hp'.
Proof.
  intros Hw Hh. unfold Room.place_enemies.
  destruct (decide (Room.room_type room = Boss)) as [Hb|Hb].
  - intros H. simplify_eq.
    split; [done|]. split; [done|]. split; [by eexists|].
    intros (He & Hi & Hf). split; [|done]. simpl.
    intros ref [Href| ->%list_elem_of_singleton]%elem_of_app.
    + destruct (He ref Href) as (e & Hl & Hin). exists e. split; [|done].
      by apply lookup_app_l_Some.
    + eexists. split; [apply list_lookup_middle; done|].
      by apply center_interior.
  - intros H.
    destruct (random.randint _ _ g) as [[n g1]|] eqn:En; simplify_eq/=.
    by eapply place_enemies_loop_spec.
Qed.

Lemma place_items_spec room dl g room' g' hp :
  Room.place_items room dl g = Some (room', g') →
  room_step room hp room' hp.
Proof.
  unfold Room.place_items. destruct (random.random g) as [roll g1].
  case_bool_decide as Hroll; [|intros; simplify_eq; apply room_step_refl].
  intros H.
  destruct (random.randint _ _ g1) as [[ix g2]|] eqn:Ex; simplify_eq/=.
  destruct (random.randint _ _ g2) as [[iy g3]|] eqn:Ey; simplify_eq/=.
  destruct (random.random g3) as [rr g4]. simplify_eq.
  apply randint_range in Ex, Ey.
  split; [done|]. split; [done|]. split; [exists []; by rewrite app_nil_r|].
  intros (He & Hi & Hf). split; [done|]. split; [|done]. simpl.
  intros it [Hit| ->%list_elem_of_singleton]%elem_of_app; [exact (Hi it Hit)|].
  unfold Room.interior. simpl. lia.
Qed.

Lemma add_special_feature_spec room ai g room' g' hp :
  3 ≤ Room.width room → 3 ≤ Room.height room →
  Room.add_special_feature room ai g = Some (room', g') →
  room_step room hp room' hp.
Proof.
  intros Hw Hh. unfold Room.add_special_feature.
  destruct (decide _) as [Hs|Hs]; [|intros; simplify_eq; apply room_step_refl].
  intros H. destruct (random.choice _ g) as [[ft g1]|]; simplify_eq/=.
  split; [done|]. split; [done|]. split; [exists []; by rewrite app_nil_r|].
  intros (He & Hi & Hf). split; [done|]. split; [done|]. simpl.
  intros f [Hf'| ->%list_elem_of_singleton]%elem_of_app; [exact (Hf f Hf')|].
  by apply center_interior.
Qed.

(** ** Writing the grid *)

Lemma put_spec x y v d d' :
  Dungeon.put x y v d = Some d' →
  ∃ c, in_bounds d c ∧
       d' = Dungeon.set_grid (<[c := v]> (Dungeon.grid d)) d ∧
       (in_bounds d (x, y) → c = (x, y)).
Proof.
  unfold Dungeon.put, np_index. intros H.
  destruct (bool_decide (0 ≤ y < Dungeon.height d)) eqn:Ey;
    [|destruct (bool_decide (- Dungeon.height d ≤ y < 0)) eqn:Ey'; [|done]];
  (destruct (bool_decide (0 ≤ x < Dungeon.width d)) eqn:Ex;
    [|destruct (bool_decide (- Dungeon.width d ≤ x < 0)) eqn:Ex'; [|done]]);
  simpl in H; simplify_eq;
  repeat match goal with
  | H : bool_decide _ = true |- _ => apply bool_decide_eq_true_1 in H
  | H : bool_decide _ = false |- _ => apply bool_decide_eq_false_1 in H
  end;
  (eexists; split; [|split; [reflexivity|]];
   [split; simpl; lia | intros [? ?]; simpl in *; f_equal; lia]).
Qed.

Lemma grid_grows_refl A d : grid_grows A d d.
Proof. split; [done|]. split; [done|]. by left. Qed.

Lemma grid_grows_trans A d1 d2 d3 :
  grid_grows A d1 d2 → grid_grows A d2 d3 → grid_grows A d1 d3.
Proof.
  intros (Hw1 & Hh1 & H1) (Hw2 & Hh2 & H2).
  split; [congruence|]. split; [congruence|]. intros c.
  destruct (H2 c) as [->|[Hin HA]]; [apply H1|].
  right. split; [|done]. unfold in_bounds in *. by rewrite <- Hw1, <- Hh1.
Qed.

Lemma grid_grows_weaken (A B : TileType → Prop) d d' :
  (∀ v, A v → B v) → grid_grows A d d' → grid_grows B d d'.
Proof.
  intros HAB (Hw & Hh & H). split; [done|]. split; [done|]. intros c.
  destruct (H c) as [?|[? ?]]; auto.
Qed.

Lemma grid_grows_in_bounds A d d' c :
  grid_grows A d d' → in_bounds d' c ↔ in_bounds d c.
Proof. intros (Hw & Hh & _). unfold in_bounds. by rewrite Hw, Hh. Qed.

(** A tile of kind [A] stays of kind [A]. *)
Lemma grid_grows_keeps (A : TileType → Prop) d d' c :
  grid_grows A d d' → A (tile d c) → A (tile d' c).
Proof. intros (_ & _ & H) Ha. destruct (H c) as [->|[_ ?]]; done. Qed.

Lemma put_grows (A : TileType → Prop) x y v d d' :
  Dungeon.put x y v d = Some d' → A v → grid_grows A d d'.
Proof.
  intros (c & Hc & -> & _)%put_spec Hv. split; [done|]. split; [done|].
  intros c'. unfold tile. simpl. destruct (decide (c = c')) as [->|Hne].
  - right. by rewrite lookup_insert_eq.
  - left. by rewrite lookup_insert_ne.
Qed.

Lemma put_tile x y v d d' :
  Dungeon.put x y v d = Some d' → in_bounds d (x, y) → tile d' (x, y) = v.
Proof.
  intros (c & Hc & -> & Heq)%put_spec Hin. rewrite (Heq Hin).
  unfold tile. simpl. by rewrite lookup_insert_eq.
Qed.

Lemma put_frame x y v d d' :
  Dungeon.put x y v d = Some d' → d' = Dungeon.set_grid (Dungeon.grid d') d.
Proof. by intros (c & Hc & -> & _)%put_spec. Qed.

(** A loop whose body only writes tiles equal to [v], and writes the cells
    [cells a] in round [a]. *)
Lemma for_each_writes {B} (cells : B → coord → Prop) v (l : list B)
    (body : B → Dungeon.t → option Dungeon.t) d d' :
  (∀ a d1 d2, a ∈ l → body a d1 = Some d2 →
     grid_grows (eq v) d1 d2 ∧ d2 = Dungeon.set_grid (Dungeon.grid d2) d1 ∧
     ∀ c, cells a c → in_bounds d1 c → tile d2 c = v) →
  for_each l body d = Some d' →
  grid_grows (eq v) d d' ∧ d' = Dungeon.set_grid (Dungeon.grid d') d ∧
  ∀ a c, a ∈ l → cells a c → in_bounds d c → tile d' c = v.
Proof.
  revert d. induction l as [|a l IH]; intros d Hb H.
  - rewrite for_each_nil in H. simplify_eq. split; [apply grid_grows_refl|].
    split; [by destruct d'|]. intros a c Ha. by apply elem_of_nil in Ha.
  - rewrite for_each_cons in H.
    destruct (body a d) as [d1|] eqn:E; simplify_eq/=.
    destruct (Hb a d d1 (list_elem_of_here _ _) E) as (Hg1 & Hf1 & Hc1).
    destruct (IH d1) as (Hg2 & Hf2 & Hc2); [|done|].
    { intros. apply Hb; [by apply list_elem_of_further|done]. }
    split; [by eapply grid_grows_trans|]. split.
    { rewrite Hf2. rewrite Hf1. by destruct d. }
    intros a' c [->|Ha']%elem_of_cons Hcell Hin.
    + symmetry. eapply (grid_grows_keeps (eq v)); [done|].
      symmetry. by apply Hc1.
    + apply (Hc2 a' c Ha' Hcell). by eapply grid_grows_in_bounds.
Qed.

Lemma put_writes v x y d1 d2 :
  Dungeon.put x y v d1 = Some d2 →
  grid_grows (eq v) d1 d2 ∧ d2 = Dungeon.set_grid (Dungeon.grid d2) d1 ∧
  ∀ c, c = (x, y) → in_bounds d1 c → tile d2 c = v.
Proof.
  intros H. split; [by eapply put_grows|]. split; [by eapply put_frame|].
  intros c -> Hin. by eapply put_tile.
Qed.

Lemma fill_floor_spec x y w h d d' :
  Dungeon.fill_floor x y w h d = Some d' →
  grid_grows (eq FLOOR) d d' ∧ d' = Dungeon.set_grid (Dungeon.grid d') d ∧
  ∀ c, x ≤ c.1 < x + w → y ≤ c.2 < y + h → in_bounds d c → tile d' c = FLOOR.
Proof.
  intros H. unfold Dungeon.fill_floor in H.
  apply (for_each_writes (λ row c, c.2 = row ∧ x ≤ c.1 < x + w) FLOOR) in H.
  - destruct H as (Hg & Hf & Hc). split; [done|]. split; [done|].
    intros c Hx Hy Hin. apply (Hc c.2); [|done|done].
    apply elem_of_range. lia.
  - intros row d1 d2 _ Hrow.
    apply (for_each_writes (λ col c, c = (col, row)) FLOOR) in Hrow.
    + destruct Hrow as (Hg & Hf & Hc). split; [done|]. split; [done|].
      intros [cx cy] [Hcy Hcx] Hin. simpl in *. subst cy.
      apply (Hc cx); [|done|done]. apply elem_of_range. lia.
    + intros col d3 d4 _ Hp. by apply put_writes.
Qed.

Lemma fill_floor_guarded_spec x y w h d d' :
  Dungeon.fill_floor_guarded x y w h d = Some d' →
  grid_grows (eq FLOOR) d d' ∧ d' = Dungeon.set_grid (Dungeon.grid d') d ∧
  ∀ c, x ≤ c.1 < x + w → y ≤ c.2 < y + h → in_bounds d c → tile d' c = FLOOR.
Proof.
  intros H. unfold Dungeon.fill_floor_guarded in H.
  apply (for_each_writes (λ row c, c.2 = row ∧ x ≤ c.1 < x + w) FLOOR) in H.
  - destruct H as (Hg & Hf & Hc). split; [done|]. split; [done|].
    intros c Hx Hy Hin. apply (Hc c.2); [|done|done].
    apply elem_of_range. lia.
  - intros row d1 d2 _ Hrow.
    apply (for_each_writes (λ col c, c = (col, row)) FLOOR) in Hrow.
    + destruct Hrow as (Hg & Hf & Hc). split; [done|]. split; [done|].
      intros [cx cy] [Hcy Hcx] Hin. simpl in *. subst cy.
      apply (Hc cx); [|done|done]. apply elem_of_range. lia.
    + intros col d3 d4 _ Hp.
      destruct (bool_decide (0 ≤ col < Dungeon.width d3) &&
                bool_decide (0 ≤ row < Dungeon.height d3)) eqn:Eg.
      * by apply put_writes.
      * simplify_eq. split; [apply grid_grows_refl|]. split; [by destruct d4|].
        intros c -> [Hx Hy]. simpl in *.
        rewrite !bool_decide_eq_true_2 in Eg by done. done.
Qed.

Lemma carve_h_spec y xa xb d d' :
  Dungeon.carve_h y xa xb d = Some d' →
  grid_grows (eq FLOOR) d d' ∧ d' = Dungeon.set_grid (Dungeon.grid d') d ∧
  ∀ x, Z.min xa xb ≤ x ≤ Z.max xa xb → in_bounds d (x, y) →
       tile d' (x, y) = FLOOR.
Proof.
  intros H. unfold Dungeon.carve_h in H.
  apply (for_each_writes (λ col c, c = (col, y)) FLOOR) in H.
  - destruct H as (Hg & Hf & Hc). split; [done|]. split; [done|].
    intros x Hx Hin. apply (Hc x); [|done|done]. apply elem_of_range. lia.
  - intros col d3 d4 _ Hp. by apply put_writes.
Qed.

Lemma carve_v_spec x ya yb d d' :
  Dungeon.carve_v x ya yb d = Some d' →
  grid_grows (eq FLOOR) d d' ∧ d' = Dungeon.set_grid (Dungeon.grid d') d ∧
  ∀ y, Z.min ya yb ≤ y ≤ Z.max ya yb → in_bounds d (x, y) →
       tile d' (x, y) = FLOOR.
Proof.
  intros H. unfold Dungeon.carve_v in H.
  apply (for_each_writes (λ row c, c = (x, row)) FLOOR) in H.
  - destruct H as (Hg & Hf & Hc). split; [done|]. split; [done|].
    intros y Hy Hin. apply (Hc y); [|done|done]. apply elem_of_range. lia.
  - intros row d3 d4 _ Hp. by apply put_writes.
Qed.

(** ** Placing a room *)

Lemma room_spawns_inside_new hp x y w h rt :
  room_spawns_inside hp (Room.new x y w h rt).
Proof.
  split; [|split]; simpl; intros ? Hin; by apply elem_of_nil in Hin.
Qed.

Lemma populate_new_room_spec idx rt d g d' g' room :
  Dungeon.rooms d !! idx = Some room →
  3 ≤ Room.width room → 3 ≤ Room.height room →
  Dungeon.populate_new_room idx rt d g = Some (d', g') →
  ∃ room', room_step room (Dungeon.heap d) room' (Dungeon.heap d') ∧
    d' = Dungeon.set_heap (Dungeon.heap d')
           (Dungeon.set_rooms (<[idx := room']> (Dungeon.rooms d)) d).
Proof.
  intros Hroom Hw Hh. unfold Dungeon.populate_new_room.
  destruct (decide (rt ≠ Entrance)) as [Hrt|Hrt].
  2:{ intros H. simplify_eq. exists room. split; [apply room_step_refl|].
      rewrite list_insert_id by done. by destruct d'. }
  rewrite Hroom. simpl. destruct (random.random g) as [roll g1].
  intros H.
  destruct (if bool_decide (roll < MONSTER_CHANCE) then _ else _)
    as [[[r1 hp1] g2]|] eqn:E1; simplify_eq/=.
  destruct (Room.place_items r1 _ g2) as [[r2 g3]|] eqn:E2; simplify_eq/=.
  destruct (if decide (rt = Special) then _ else _)
    as [[r3 g4]|] eqn:E3; simplify_eq/=.
  exists r3. split; [|done].
  assert (S1 : room_step room (Dungeon.heap d) r1 hp1).
  { destruct (bool_decide (roll < MONSTER_CHANCE)).
    - by eapply place_enemies_spec.
    - simplify_eq. apply room_step_refl. }
  assert (S2 : room_step r1 hp1 r2 hp1) by (by eapply place_items_spec).
  assert (Hp1 : same_place room r1) by apply S1.
  assert (Hp2 : same_place r1 r2) by apply S2.
  assert (S3 : room_step r2 hp1 r3 hp1).
  { destruct (decide (rt = Special)).
    - eapply add_special_feature_spec; [| |done];
        unfold same_place in *; intuition congruence.
    - simplify_eq. apply room_step_refl. }
  eapply room_step_trans; [done|]. by eapply room_step_trans.
Qed.

Lemma gen_frame_refl d : gen_frame d d.
Proof. by repeat split. Qed.

Lemma gen_frame_trans d1 d2 d3 : gen_frame d1 d2 → gen_frame d2 d3 → gen_frame d1 d3.
Proof. unfold gen_frame. intros. intuition congruence. Qed.

Lemma frame_grid d d' :
  d' = Dungeon.set_grid (Dungeon.grid d') d →
  gen_frame d d' ∧ Dungeon.rooms d' = Dungeon.rooms d ∧
  Dungeon.heap d' = Dungeon.heap d ∧ Dungeon.objects d' = Dungeon.objects d.
Proof. intros ->. by repeat split. Qed.

Lemma fits_frame d d' r md :
  Dungeon.rooms d' = Dungeon.rooms d → Dungeon.fits d' r md = Dungeon.fits d r md.
Proof. unfold Dungeon.fits. by intros ->. Qed.

Lemma _add_room_attempts_spec n w h md rt d g placed d' g' :
  5 ≤ w → 5 ≤ h →
  Dungeon._add_room_attempts n w h md rt d g = Some (placed, d', g') →
  (n ≠ O → w + 2 ≤ Dungeon.width d ∧ h + 2 ≤ Dungeon.height d) ∧
  match placed with
  | None => d' = d
  | Some idx =>
      ∃ room, room_added rt d d' idx room ∧
        Room.width room = w ∧ Room.height room = h ∧
        Dungeon.fits d (Room.new (Room.x room) (Room.y room) w h rt) md = true
  end.
Proof.
  intros Hw Hh. revert g. induction n as [|n IH]; intros g H.
  - rewrite _add_room_attempts_O in H. by simplify_eq.
  - rewrite _add_room_attempts_S in H.
    destruct (random.randint 1 _ g) as [[x g1]|] eqn:Ex; simplify_eq/=.
    destruct (random.randint 1 _ g1) as [[y g2]|] eqn:Ey; simplify_eq/=.
    apply randint_range in Ex, Ey. split; [intros _; lia|].
    destruct (Dungeon.fits d (Room.new x y w h rt) md) eqn:Ef.
    2:{ by destruct (IH _ H) as [_ ?]. }
    destruct (Dungeon.fill_floor x y w h d) as [d1|] eqn:Efl; simplify_eq/=.
    destruct (Dungeon.populate_new_room _ _ _ g2) as [[d2 g3]|] eqn:Ep;
      simplify_eq/=.
    apply fill_floor_spec in Efl as (Hg & Hf & Hc).
    apply frame_grid in Hf as (Hfr & F5 & F6 & F9).
    eapply (populate_new_room_spec _ _ _ _ _ _ (Room.new x y w h rt)) in Ep;
      [|simpl; by rewrite list_lookup_middle|simpl; lia|simpl; lia].
    destruct Ep as (room' & Hstep & Hd'). simpl in Hd'.
    rewrite insert_app_r_alt in Hd' by done.
    rewrite Nat.sub_diag in Hd'. simpl in Hd'.
    destruct Hstep as (Hpl & Hcn & Hnew & Hsp).
    destruct Hpl as (P1 & P2 & P3 & P4 & P5). simpl in *.
    exists room'. split; [|split; [done|split; [done|]]].
    2:{ by rewrite P1, P2. }
    assert (Hgrid : Dungeon.grid d' = Dungeon.grid d1) by (by rewrite Hd').
    assert (Hrooms : Dungeon.rooms d' = Dungeon.rooms d ++ [room'])
      by (rewrite Hd'; simpl; by rewrite F5).
    assert (Hfr' : gen_frame d1 d') by (rewrite Hd'; by repeat split).
    unfold room_added. rewrite Hrooms. split; [done|].
    split; [by rewrite F5|]. split; [done|]. split; [done|].
    split; [lia|]. split; [lia|]. split; [|split; [|split; [|split]]].
    + intros c [Hcx Hcy]. unfold tile. rewrite Hgrid. apply Hc; [lia|lia|].
      split; lia.
    + destruct Hg as (G1 & G2 & G3). destruct Hfr' as (W' & H' & _).
      split; [congruence|]. split; [congruence|]. intros c.
      unfold tile at 1 3. rewrite Hgrid. apply G3.
    + destruct Hnew as [new Hn]. exists new. rewrite Hn. by rewrite F6.
    + apply Hsp. apply room_spawns_inside_new.
    + by eapply gen_frame_trans.
Qed.

Lemma fill_floor_room_added x y w h rt d d' :
  0 ≤ x → x + w ≤ Dungeon.width d → 0 ≤ y → y + h ≤ Dungeon.height d →
  5 ≤ w → 5 ≤ h →
  Dungeon.fill_floor x y w h d = Some d' →
  room_added rt d
    (Dungeon.set_rooms (Dungeon.rooms d' ++ [Room.new x y w h rt]) d')
    (length (Dungeon.rooms d')) (Room.new x y w h rt).
Proof.
  intros Hx1 Hx2 Hy1 Hy2 Hw Hh Hfl.
  apply fill_floor_spec in Hfl as (Hg & Hf & Hc).
  apply frame_grid in Hf as (Hfr & F5 & F6 & F9).
  unfold room_added. simpl. rewrite F5. split; [done|].
  split; [done|]. split; [done|]. split; [done|]. split; [lia|].
  split; [lia|]. split; [|split; [|split; [|split]]].
  - intros c [Hcx Hcy]. simpl in *. apply Hc; [lia|lia|]. split; lia.
  - done.
  - exists []. by rewrite app_nil_r.
  - apply room_spawns_inside_new.
  - done.
Qed.

Lemma _add_room_corners_spec corners size rt d placed d' :
  5 ≤ size →
  Forall (λ c : coord, 0 ≤ c.1 ∧ c.1 + size ≤ Dungeon.width d ∧
                       0 ≤ c.2 ∧ c.2 + size ≤ Dungeon.height d) corners →
  Dungeon._add_room_corners corners size rt d = Some (placed, d') →
  match placed with
  | None => d' = d
  | Some idx => ∃ room, room_added rt d d' idx room ∧ Room.width room = size
  end.
Proof.
  intros Hs. induction corners as [|[x y] corners IH]; intros Hall H.
  - rewrite _add_room_corners_nil in H. by simplify_eq.
  - rewrite _add_room_corners_cons in H.
    apply Forall_cons in Hall as [(Hx1 & Hx2 & Hy1 & Hy2) Hall].
    simpl in *.
    destruct (forallb _ _); [|by apply IH].
    destruct (Dungeon.fill_floor x y size size d) as [d1|] eqn:Efl;
      simplify_eq/=.
    exists (Room.new x y size size rt). split; [|done].
    by apply fill_floor_room_added.
Qed.

(** [_add_room]: the room it adds was either accepted by the scan of a
    random attempt or is a 5 x 5 fallback room. *)
Lemma _add_room_spec md rt d g idx d' g' :
  Dungeon._add_room md rt d g = Some (idx, d', g') →
  ∃ room, room_added rt d d' idx room ∧
    (Dungeon.fits d (Room.new (Room.x room) (Room.y room) (Room.width room)
                       (Room.height room) rt) md = true ∨
     Room.width room = 5) ∧
    (rt = Exit → Room.width room ≠ 5 → 6 ≤ Room.width room).
Proof.
  unfold Dungeon._add_room. intros H.
  destruct (if decide (rt = Entrance ∨ rt = Exit) then _ else _)
    as [[[w h] g1]|] eqn:Ewh; simplify_eq/=.
  assert (Hwh : 5 ≤ w ∧ 5 ≤ h ∧ (rt = Exit → 6 ≤ w)).
  { unfold ROOM_MIN_SIZE, ROOM_MAX_SIZE in Ewh.
    destruct (decide (rt = Entrance ∨ rt = Exit)) as [Hrt|Hrt].
    - destruct (random.randint _ _ g) as [[w' g2]|] eqn:E1; simplify_eq/=.
      destruct (random.randint _ _ g2) as [[h' g3]|] eqn:E2; simplify_eq/=.
      apply randint_range in E1, E2. lia.
    - destruct (random.randint _ _ g) as [[w' g2]|] eqn:E1; simplify_eq/=.
      destruct (random.randint _ _ g2) as [[h' g3]|] eqn:E2; simplify_eq/=.
      apply randint_range in E1, E2. split; [lia|]. split; [lia|].
      intros ->. destruct Hrt. by right. }
  destruct Hwh as (Hw & Hh & Hex).
  destruct (Dungeon._add_room_attempts 100 w h md rt d g1)
    as [[[placed d1] g2]|] eqn:Ea; simplify_eq/=.
  apply _add_room_attempts_spec in Ea as [Hdim Hpl]; [|done|done].
  destruct (Hdim ltac:(done)) as [HW HH].
  destruct placed as [i|].
  { simplify_eq. destruct Hpl as (room & Hadd & Hrw & Hrh & Hfits).
    exists room. split; [done|]. split; [left; by rewrite Hrw, Hrh|].
    intros Hrt _. rewrite Hrw. auto. }
  subst d1. unfold ROOM_MIN_SIZE in H.
  destruct (Dungeon._add_room_corners _ 5 rt d) as [[placed d1]|] eqn:Ec;
    simplify_eq/=.
  apply _add_room_corners_spec in Ec; [|done|].
  2:{ repeat (apply Forall_cons; split; [simpl; lia|]). apply Forall_nil_2. }
  destruct placed as [i|].
  { simplify_eq. destruct Ec as (room & Hadd & Hrw).
    exists room. split; [done|]. split; [by right|]. done. }
  subst d1.
  destruct (Dungeon.fill_floor _ _ 5 5 d) as [d1|] eqn:Efl; simplify_eq/=.
  exists (Room.new (Dungeon.width d / 2 - 5 / 2)
            (Dungeon.height d / 2 - 5 / 2) 5 5 rt).
  split; [|split; [by right|done]].
  apply fill_floor_room_added; [| | | |done|done|done];
    Z.to_euclidean_division_equations; lia.
Qed.

(** ** Moving over walkable cells *)

Lemma walkable_cell_mono d d' c :
  grid_grows (λ v, Dungeon.walkable v = true) d d' →
  walkable_cell d c → walkable_cell d' c.
Proof.
  intros Hg [Hin Hw]. split; [by eapply grid_grows_in_bounds|].
  by eapply (grid_grows_keeps (λ v, Dungeon.walkable v = true)).
Qed.

Lemma reachable_mono d d' a b :
  grid_grows (λ v, Dungeon.walkable v = true) d d' →
  reachable d a b → reachable d' a b.
Proof.
  intros Hg H. induction H as [|a b c [Hadj Hw] _ IH]; [apply rtc_refl|].
  eapply rtc_l; [|done]. split; [done|]. by eapply walkable_cell_mono.
Qed.

(** A straight run of walkable cells can be walked in both directions. *)
Lemma reachable_row d y (n : nat) x :
  (∀ k, 0 ≤ k ≤ Z.of_nat n → walkable_cell d (x + k, y)) →
  reachable d (x, y) (x + Z.of_nat n, y) ∧
  reachable d (x + Z.of_nat n, y) (x, y).
Proof.
  induction n as [|n IH]; intros Hc.
  - rewrite Z.add_0_r. split; apply rtc_refl.
  - destruct IH as [IH1 IH2]; [intros k Hk; apply Hc; lia|].
    replace (x + Z.of_nat (S n)) with (x + Z.of_nat n + 1) by lia. split.
    + eapply rtc_r; [done|]. split; [unfold adjacent; simpl; lia|].
      replace (x + Z.of_nat n + 1) with (x + (Z.of_nat n + 1)) by lia.
      apply Hc. lia.
    + eapply rtc_l; [|done]. split; [unfold adjacent; simpl; lia|].
      apply Hc. lia.
Qed.

Lemma reachable_col d x (n : nat) y :
  (∀ k, 0 ≤ k ≤ Z.of_nat n → walkable_cell d (x, y + k)) →
  reachable d (x, y) (x, y + Z.of_nat n) ∧
  reachable d (x, y + Z.of_nat n) (x, y).
Proof.
  induction n as [|n IH]; intros Hc.
  - rewrite Z.add_0_r. split; apply rtc_refl.
  - destruct IH as [IH1 IH2]; [intros k Hk; apply Hc; lia|].
    replace (y + Z.of_nat (S n)) with (y + Z.of_nat n + 1) by lia. split.
    + eapply rtc_r; [done|]. split; [unfold adjacent; simpl; lia|].
      replace (y + Z.of_nat n + 1) with (y + (Z.of_nat n + 1)) by lia.
      apply Hc. lia.
    + eapply rtc_l; [|done]. split; [unfold adjacent; simpl; lia|].
      apply Hc. lia.
Qed.

Lemma reachable_h d y xa xb :
  (∀ x, Z.min xa xb ≤ x ≤ Z.max xa xb → walkable_cell d (x, y)) →
  reachable d (xa, y) (xb, y) ∧ reachable d (xb, y) (xa, y).
Proof.
  intros Hc. destruct (Z.le_ge_cases xa xb) as [Hle|Hle].
  - destruct (reachable_row d y (Z.to_nat (xb - xa)) xa) as [H1 H2].
    { intros k Hk. apply Hc. lia. }
    replace (xa + Z.of_nat (Z.to_nat (xb - xa))) with xb in * by lia. done.
  - destruct (reachable_row d y (Z.to_nat (xa - xb)) xb) as [H1 H2].
    { intros k Hk. apply Hc. lia. }
    replace (xb + Z.of_nat (Z.to_nat (xa - xb))) with xa in * by lia. done.
Qed.

Lemma reachable_v d x ya yb :
  (∀ y, Z.min ya yb ≤ y ≤ Z.max ya yb → walkable_cell d (x, y)) →
  reachable d (x, ya) (x, yb) ∧ reachable d (x, yb) (x, ya).
Proof.
  intros Hc. destruct (Z.le_ge_cases ya yb) as [Hle|Hle].
  - destruct (reachable_col d x (Z.to_nat (yb - ya)) ya) as [H1 H2].
    { intros k Hk. apply Hc. lia. }
    replace (ya + Z.of_nat (Z.to_nat (yb - ya))) with yb in * by lia. done.
  - destruct (reachable_col d x (Z.to_nat (ya - yb)) yb) as [H1 H2].
    { intros k Hk. apply Hc. lia. }
    replace (yb + Z.of_nat (Z.to_nat (ya - yb))) with ya in * by lia. done.
Qed.

(** ** Corridors *)

Lemma walkable_FLOOR v : FLOOR = v → Dungeon.walkable v = true.
Proof. by intros <-. Qed.

Lemma place_door_spec dirs x1 y1 d d' :
  Dungeon.place_door dirs x1 y1 d = Some d' →
  grid_grows (λ v, Dungeon.walkable v = true) d d' ∧ gen_frame d d' ∧
  Dungeon.rooms d' = Dungeon.rooms d ∧ Dungeon.heap d' = Dungeon.heap d.
Proof.
  induction dirs as [|[dx dy] dirs IH]; intros H.
  - rewrite place_door_nil in H. simplify_eq. split; [apply grid_grows_refl|]. split; [apply gen_frame_refl|].
    done.
  - rewrite place_door_cons in H.
    destruct (bool_decide _ && bool_decide _); [|by apply IH].
    destruct (Dungeon.get d _ _) as [v|]; simplify_eq/=.
    destruct (decide (v = FLOOR)); [|by apply IH].
    destruct (Dungeon.put _ _ DOOR d) as [d1|] eqn:Ep; simplify_eq/=.
    pose proof (put_grows (λ v, Dungeon.walkable v = true) _ _ _ _ _ Ep eq_refl)
      as Hg.
    apply put_frame, frame_grid in Ep as (Hfr & F5 & F6 & F9).
    split; [|split; [|done]].
    + destruct Hg as (G1 & G2 & G3). split; [done|]. split; [done|]. apply G3.
    + apply Hfr.
Qed.

Lemma _create_corridor_spec p1 p2 d g d' g' :
  Dungeon._create_corridor p1 p2 d g = Some (d', g') →
  grid_grows (λ v, Dungeon.walkable v = true) d d' ∧ gen_frame d d' ∧
  Dungeon.rooms d' = Dungeon.rooms d ∧ Dungeon.heap d' = Dungeon.heap d ∧
  (in_bounds d p1 → in_bounds d p2 →
   reachable d' p1 p2 ∧ reachable d' p2 p1).
Proof.
  destruct p1 as [x1 y1], p2 as [x2 y2]. unfold Dungeon._create_corridor.
  destruct (random.random g) as [roll g1]. intros H.
  destruct (if bool_decide (roll < 70) then _ else _) as [d2|] eqn:Ec;
    simplify_eq/=.
  destruct (random.random g1) as [roll2 g2].
  assert (Hcarve :
    grid_grows (eq FLOOR) d d2 ∧ d2 = Dungeon.set_grid (Dungeon.grid d2) d ∧
    (in_bounds d (x1, y1) → in_bounds d (x2, y2) →
     reachable d2 (x1, y1) (x2, y2) ∧ reachable d2 (x2, y2) (x1, y1))).
  { destruct (bool_decide (roll < 70)).
    - destruct (Dungeon.carve_h y1 x1 x2 d) as [d1|] eqn:E1; simplify_eq/=.
      apply carve_h_spec in E1 as (G1 & F1 & C1).
      apply carve_v_spec in Ec as (G2 & F2 & C2).
      split; [by eapply grid_grows_trans|]. split.
      { rewrite F2. rewrite F1. by destruct d. }
      intros [Hx1 Hy1] [Hx2 Hy2]. simpl in *.
      assert (Hh : ∀ x, Z.min x1 x2 ≤ x ≤ Z.max x1 x2 → walkable_cell d2 (x, y1)).
      { intros x Hx.
        assert (Hin : in_bounds d (x, y1)) by (split; simpl; lia).
        split.
        - apply (grid_grows_in_bounds _ _ _ _ (grid_grows_trans _ _ _ _ G1 G2)).
          done.
        - apply walkable_FLOOR.
          eapply (grid_grows_keeps (eq FLOOR)); [exact G2|].
          symmetry. by apply C1. }
      assert (Hv : ∀ y, Z.min y1 y2 ≤ y ≤ Z.max y1 y2 → walkable_cell d2 (x2, y)).
      { intros y Hy.
        assert (Hin : in_bounds d (x2, y)) by (split; simpl; lia).
        split.
        - apply (grid_grows_in_bounds _ _ _ _ (grid_grows_trans _ _ _ _ G1 G2)).
          done.
        - apply walkable_FLOOR. symmetry. apply C2; [done|].
          by apply (grid_grows_in_bounds _ _ _ _ G1). }
      destruct (reachable_h d2 y1 x1 x2 Hh) as [R1 R2].
      destruct (reachable_v d2 x2 y1 y2 Hv) as [R3 R4].
      split; by eapply rtc_trans.
    - destruct (Dungeon.carve_v x1 y1 y2 d) as [d1|] eqn:E1; simplify_eq/=.
      apply carve_v_spec in E1 as (G1 & F1 & C1).
      apply carve_h_spec in Ec as (G2 & F2 & C2).
      split; [by eapply grid_grows_trans|]. split.
      { rewrite F2. rewrite F1. by destruct d. }
      intros [Hx1 Hy1] [Hx2 Hy2]. simpl in *.
      assert (Hv : ∀ y, Z.min y1 y2 ≤ y ≤ Z.max y1 y2 → walkable_cell d2 (x1, y)).
      { intros y Hy.
        assert (Hin : in_bounds d (x1, y)) by (split; simpl; lia).
        split.
        - apply (grid_grows_in_bounds _ _ _ _ (grid_grows_trans _ _ _ _ G1 G2)).
          done.
        - apply walkable_FLOOR.
          eapply (grid_grows_keeps (eq FLOOR)); [exact G2|].
          symmetry. by apply C1. }
      assert (Hh : ∀ x, Z.min x1 x2 ≤ x ≤ Z.max x1 x2 → walkable_cell d2 (x, y2)).
      { intros x Hx.
        assert (Hin : in_bounds d (x, y2)) by (split; simpl; lia).
        split.
        - apply (grid_grows_in_bounds _ _ _ _ (grid_grows_trans _ _ _ _ G1 G2)).
          done.
        - apply walkable_FLOOR. symmetry. apply C2; [done|].
          by apply (grid_grows_in_bounds _ _ _ _ G1). }
      destruct (reachable_v d2 x1 y1 y2 Hv) as [R1 R2].
      destruct (reachable_h d2 y2 x1 x2 Hh) as [R3 R4].
      split; by eapply rtc_trans. }
  destruct Hcarve as (Hg & Hf & Hreach).
  apply (grid_grows_weaken _ _ _ _ walkable_FLOOR) in Hg.
  apply frame_grid in Hf as (Hfr & F5 & F6 & F9).
  assert (Hdoor : ∃ d3, (d3 = d2 ∨ Dungeon.place_door Dungeon.directions x1 y1 d2 = Some d3) ∧ d' = d3).
  { destruct (bool_decide (roll2 < 20)); [|exists d2; split; [by left|by simplify_eq]].
    destruct (existsb _ _); [|exists d2; split; [by left|by simplify_eq]].
    destruct (Dungeon.place_door _ _ _ d2) as [d3|] eqn:Ed; simplify_eq/=.
    exists d'. split; [by right|done]. }
  destruct Hdoor as (d3 & [->|Hd] & ->).
  - split; [done|]. split; [done|]. split; [done|]. split; [done|]. done.
  - apply place_door_spec in Hd as (Hg3 & Hfr3 & R3 & H3).
    split; [by eapply grid_grows_trans|]. split; [by eapply gen_frame_trans|].
    split; [congruence|]. split; [congruence|].
    intros Hi1 Hi2. destruct (Hreach Hi1 Hi2) as [Ra Rb].
    split; by eapply reachable_mono.
Qed.

Global Opaque Dungeon._create_corridor Dungeon._add_room.

(** ** Connecting the rooms *)

Lemma room_refs_spec p rs i :
  i ∈ Dungeon.room_refs p rs ↔ ∃ r, rs !! i = Some r ∧ p r = true.
Proof.
  unfold Dungeon.room_refs. rewrite list_elem_of_In, filter_In, <- list_elem_of_In.
  rewrite elem_of_seq. split.
  - intros [Hi Hp]. destruct (rs !! i) as [r|] eqn:E; [|done]. eauto.
  - intros (r & Hr & Hp). rewrite Hr. split; [|done].
    apply lookup_lt_Some in Hr. lia.
Qed.

Lemma closest_pair_in rs unc u c :
  Dungeon.closest_pair rs unc = Some (u, c) →
  u ∈ unc ∧ c ∈ Dungeon.room_refs Room.connected rs.
Proof.
  unfold Dungeon.closest_pair.
  assert (Hgen : ∀ pairs best,
    (∀ dd uc, best = Some (dd, uc) → In uc (list_prod unc (Dungeon.room_refs Room.connected rs))) →
    (∀ uc, In uc pairs → In uc (list_prod unc (Dungeon.room_refs Room.connected rs))) →
    ∀ dd uc, foldl (Dungeon.closest_step rs) best pairs = Some (dd, uc) →
      In uc (list_prod unc (Dungeon.room_refs Room.connected rs))).
  { induction pairs as [|p pairs IH]; simpl; intros best Hb Hp dd uc H.
    - eauto.
    - eapply IH; [| |exact H].
      + intros dd' uc' Hs. unfold Dungeon.closest_step in Hs.
        destruct (rs !! p.1), (rs !! p.2); eauto.
        destruct best as [[bd buc]|].
        * case_bool_decide; simplify_eq; eauto.
        * simplify_eq. eauto.
      + eauto. }
  intros H.
  destruct (foldl _ _ _) as [[dd uc]|] eqn:E; simplify_eq/=.
  eapply Hgen in E; [| done | done].
  apply in_prod_iff in E as [? ?]. by rewrite !list_elem_of_In.
Qed.

Lemma list_remove_first_other a i l :
  i ∈ l → i ≠ a → i ∈ list_remove_first a l.
Proof.
  induction l as [|b l IH]; simpl; [done|]. intros Hi Hne.
  destruct (decide (a = b)) as [->|Hab].
  - apply elem_of_cons in Hi as [?|?]; [done|done].
  - apply elem_of_cons in Hi as [->|?]; [apply list_elem_of_here|].
    apply list_elem_of_further. auto.
Qed.

Lemma list_remove_first_length a l :
  a ∈ l → length l = S (length (list_remove_first a l)).
Proof.
  induction l as [|b l IH]; simpl; intros Ha; [by apply elem_of_nil in Ha|].
  destruct (decide (a = b)) as [->|Hab]; [done|].
  apply elem_of_cons in Ha as [?|Ha]; [done|]. simpl. f_equal. auto.
Qed.

Lemma room_le_refl r : room_le r r.
Proof. by destruct r. Qed.

Lemma room_le_trans r1 r2 r3 : room_le r1 r2 → room_le r2 r3 → room_le r1 r3.
Proof. unfold room_le. intros H1 H2. rewrite H2, H1. done. Qed.

Lemma room_le_center r r' : room_le r r' → Room.center r' = Room.center r.
Proof. by intros ->. Qed.

Lemma Forall2_room_le_refl rs : Forall2 room_le rs rs.
Proof. induction rs; constructor; auto using room_le_refl. Qed.

Lemma Forall2_room_le_trans rs1 rs2 rs3 :
  Forall2 room_le rs1 rs2 → Forall2 room_le rs2 rs3 → Forall2 room_le rs1 rs3.
Proof.
  intros H. revert rs3. induction H; intros rs3 H3; inversion H3; subst;
    constructor; eauto using room_le_trans.
Qed.

Lemma Forall2_room_le_alter rs u :
  Forall2 room_le rs (alter (Room.set_connected true) u rs).
Proof.
  revert u. induction rs as [|r rs IH]; intros u; [constructor|].
  destruct u as [|u]; simpl.
  - constructor; [done|apply Forall2_room_le_refl].
  - constructor; [apply room_le_refl|apply IH].
Qed.

(** The loop of [_connect_rooms]. *)
Lemma connect_loop_spec root fuel unc d g d' g' :
  connect_inv root d unc →
  Dungeon.connect_loop fuel unc d g = Some (d', g') →
  grid_grows (λ v, Dungeon.walkable v = true) d d' ∧ gen_frame d d' ∧
  Dungeon.heap d' = Dungeon.heap d ∧
  Forall2 room_le (Dungeon.rooms d) (Dungeon.rooms d') ∧
  ∀ r, r ∈ Dungeon.rooms d' → reachable d' root (Room.center r).
Proof.
  revert unc d g. induction fuel as [|fuel IH]; intros unc d g Hinv H.
  - destruct unc as [|u0 unc]; [|by rewrite connect_loop_O in H].
    rewrite connect_loop_nil in H. simplify_eq.
    split; [apply grid_grows_refl|]. split; [apply gen_frame_refl|].
    split; [done|]. split; [apply Forall2_room_le_refl|].
    destruct Hinv as (H1 & H2 & _). intros r [i Hi]%list_elem_of_lookup.
    destruct (H1 i r Hi) as [Hn|Hc]; [by apply elem_of_nil in Hn|]. eauto.
  - destruct unc as [|u0 unc].
    { rewrite connect_loop_nil in H. simplify_eq.
      split; [apply grid_grows_refl|]. split; [apply gen_frame_refl|].
      split; [done|]. split; [apply Forall2_room_le_refl|].
      destruct Hinv as (H1 & H2 & _). intros r [i Hi]%list_elem_of_lookup.
      destruct (H1 i r Hi) as [Hn|Hc]; [by apply elem_of_nil in Hn|]. eauto. }
    rewrite connect_loop_S in H.
    destruct (Dungeon.closest_pair _ _) as [[u c]|] eqn:Ecp; simplify_eq/=.
    destruct (Dungeon.rooms d !! u) as [ru|] eqn:Eu; simplify_eq/=.
    destruct (Dungeon.rooms d !! c) as [rc|] eqn:Ec; simplify_eq/=.
    destruct (Dungeon._create_corridor _ _ d g) as [[d1 g1]|] eqn:Eco;
      simplify_eq/=.
    apply closest_pair_in in Ecp as [Hu Hc].
    apply room_refs_spec in Hc as (rc' & Hrc' & Hcon). simplify_eq.
    apply _create_corridor_spec in Eco as (Hg & Hfr & Hrooms & Hheap & Hreach).
    destruct Hinv as (I1 & I2 & I3).
    destruct Hreach as [_ Hback].
    { apply I3. apply list_elem_of_lookup. eauto. }
    { apply I3. apply list_elem_of_lookup. eauto. }
    set (d2 := Dungeon.set_rooms
                 (alter (Room.set_connected true) u (Dungeon.rooms d1)) d1) in *.
    assert (Hg12 : grid_grows (λ v, Dungeon.walkable v = true) d1 d2).
    { split; [done|]. split; [done|]. by left. }
    assert (Hinv2 : connect_inv root d2 (list_remove_first u (u0 :: unc))).
    { split; [|split].
      - intros i r Hi. unfold d2 in Hi. simpl in Hi. rewrite Hrooms in Hi.
        destruct (decide (u = i)) as [->|Hne].
        + rewrite list_lookup_alter_eq, Eu in Hi. simpl in Hi. simplify_eq. by right.
        + rewrite list_lookup_alter_ne in Hi by done.
          destruct (I1 i r Hi) as [Hin|?]; [|by right].
          left. by apply list_remove_first_other.
      - intros i r Hi Hcn. unfold d2 in Hi. simpl in Hi. rewrite Hrooms in Hi.
        apply (reachable_mono d1 d2); [done|].
        destruct (decide (u = i)) as [->|Hne].
        + rewrite list_lookup_alter_eq, Eu in Hi. simpl in Hi. simplify_eq. simpl.
          change (Room.center (Room.set_connected true ru))
            with (Room.center ru).
          apply (rtc_trans _ (Room.center rc') _); [|exact Hback].
          apply (reachable_mono d d1); [exact Hg|]. by eapply I2.
        + rewrite list_lookup_alter_ne in Hi by done.
          apply (reachable_mono d d1); [exact Hg|]. by eapply I2.
      - intros r [i Hi]%list_elem_of_lookup. unfold d2 in Hi. simpl in Hi.
        rewrite Hrooms in Hi.
        assert (Hold : ∃ r0, Dungeon.rooms d !! i = Some r0 ∧
                             Room.center r = Room.center r0).
        { destruct (decide (u = i)) as [->|Hne].
          - rewrite list_lookup_alter_eq, Eu in Hi. simpl in Hi. simplify_eq. eauto.
          - rewrite list_lookup_alter_ne in Hi by done. eauto. }
        destruct Hold as (r0 & Hr0 & ->).
        apply (grid_grows_in_bounds _ _ _ _ (grid_grows_trans _ _ _ _ Hg Hg12)).
        apply I3. apply list_elem_of_lookup. eauto. }
    destruct (IH _ _ _ Hinv2 H) as (Hg2 & Hfr2 & Hheap2 & Hrooms2 & Hall).
    split.
    { apply (grid_grows_trans _ d d1 d'); [exact Hg|].
      apply (grid_grows_trans _ d1 d2 d'); [exact Hg12|exact Hg2]. }
    split.
    { apply (gen_frame_trans d d1 d'); [exact Hfr|].
      apply (gen_frame_trans d1 d2 d'); [by repeat split|exact Hfr2]. }
    split; [rewrite Hheap2; exact Hheap|]. split; [|done].
    apply (Forall2_room_le_trans _ (Dungeon.rooms d2)); [|exact Hrooms2].
    unfold d2. simpl. rewrite Hrooms. apply Forall2_room_le_alter.
Qed.

(** More fuel does not change what the loop gives: the loop never runs out
    of the fuel [_connect_rooms] starts it with. *)
Lemma connect_loop_fuel fuel unc d g :
  (length unc ≤ fuel)%nat →
  Dungeon.connect_loop fuel unc d g = Dungeon.connect_loop (length unc) unc d g.
Proof.
  revert unc d g. induction fuel as [|fuel IH]; intros unc d g Hlen.
  - destruct unc; [done|simpl in Hlen; lia].
  - destruct unc as [|u0 unc]; [by rewrite !connect_loop_nil|].
    simpl length. rewrite !connect_loop_S.
    destruct (Dungeon.closest_pair _ _) as [[u c]|] eqn:Ecp; [|done]. simpl.
    destruct (Dungeon.rooms d !! u) as [ru|]; [|done]. simpl.
    destruct (Dungeon.rooms d !! c) as [rc|]; [|done]. simpl.
    destruct (Dungeon._create_corridor _ _ d g) as [[d1 g1]|]; [|done]. simpl.
    apply closest_pair_in in Ecp as [Hu _].
    apply list_remove_first_length in Hu. simpl in Hu, Hlen.
    rewrite IH by lia. f_equal. lia.
Qed.

(** [_connect_rooms] on a level whose first room is the entrance room and
    whose rooms are all still unconnected: afterwards the centre of every
    room can be reached from the centre of the entrance room. *)
Lemma _connect_rooms_spec d g d' g' r0 rest :
  Dungeon.rooms d = r0 :: rest → Room.room_type r0 = Entrance →
  (∀ r, r ∈ Dungeon.rooms d → Room.connected r = false) →
  (∀ r, r ∈ Dungeon.rooms d → in_bounds d (Room.center r)) →
  Dungeon._connect_rooms d g = Some (d', g') →
  grid_grows (λ v, Dungeon.walkable v = true) d d' ∧ gen_frame d d' ∧
  Dungeon.heap d' = Dungeon.heap d ∧
  Forall2 room_le (Dungeon.rooms d) (Dungeon.rooms d') ∧
  ∀ r, r ∈ Dungeon.rooms d' → reachable d' (Room.center r0) (Room.center r).
Proof.
  intros Hrooms Htype Hunc Hcent H. unfold Dungeon._connect_rooms in H.
  assert (Hrefs : ∃ l, Dungeon.room_refs
            (λ r, bool_decide (Room.room_type r = Entrance)) (Dungeon.rooms d)
            = O :: l).
  { rewrite Hrooms. unfold Dungeon.room_refs. simpl.
    rewrite bool_decide_eq_true_2 by done. eauto. }
  destruct Hrefs as [l Hl]. rewrite Hl in H. simpl in H.
  set (d0 := Dungeon.set_rooms
               (alter (Room.set_connected true) O (Dungeon.rooms d)) d) in *.
  assert (Hg0 : grid_grows (λ v, Dungeon.walkable v = true) d d0).
  { split; [done|]. split; [done|]. by left. }
  assert (Hinv : connect_inv (Room.center r0) d0
            (Dungeon.room_refs (λ r, negb (Room.connected r)) (Dungeon.rooms d0))).
  { split; [|split].
    - intros i r Hi. destruct (Room.connected r) eqn:Ec; [by right|left].
      apply room_refs_spec. exists r. by rewrite Ec.
    - intros i r Hi Hc. unfold d0 in Hi. simpl in Hi. rewrite Hrooms in Hi.
      destruct i as [|i]; simpl in Hi.
      + simplify_eq. apply rtc_refl.
      + assert (Hr : r ∈ Dungeon.rooms d).
        { rewrite Hrooms. apply list_elem_of_further.
          apply list_elem_of_lookup. eauto. }
        apply Hunc in Hr. congruence.
    - intros r [i Hi]%list_elem_of_lookup. unfold d0 in Hi. simpl in Hi.
      rewrite Hrooms in Hi. apply (grid_grows_in_bounds _ _ _ _ Hg0).
      destruct i as [|i]; simpl in Hi.
      + simplify_eq. change (Room.center (Room.set_connected true r0))
          with (Room.center r0).
        apply Hcent. rewrite Hrooms. apply list_elem_of_here.
      + apply Hcent. rewrite Hrooms. apply list_elem_of_further.
        apply list_elem_of_lookup. eauto. }
  destruct (connect_loop_spec _ _ _ _ _ _ _ Hinv H)
    as (Hg & Hfr & Hheap & Hrs & Hall).
  split; [apply (grid_grows_trans _ d d0 d'); [exact Hg0|exact Hg]|].
  split; [apply (gen_frame_trans d d0 d'); [by repeat split|exact Hfr]|].
  split; [exact Hheap|]. split; [|done].
  apply (Forall2_room_le_trans _ (Dungeon.rooms d0)); [|exact Hrs].
  apply Forall2_room_le_alter.
Qed.

Global Opaque Dungeon._connect_rooms.

(** ** The generator: levels other than the last *)

Lemma rect_carved_mono (A : TileType → Prop) d d' r :
  grid_grows A d d' → rect_carved A d r → rect_carved A d' r.
Proof.
  intros Hg Hc c Hr Hin. apply (grid_grows_keeps A d d' c Hg).
  apply Hc; [done|]. by apply (grid_grows_in_bounds A d d' c Hg).
Qed.

Lemma room_ok_mono d d' r :
  grid_grows (λ v, Dungeon.walkable v = true) d d' →
  heap_ext (Dungeon.heap d) (Dungeon.heap d') →
  room_ok d r → room_ok d' r.
Proof.
  intros Hg Hh (Hs & Hsp & Hc). split; [done|].
  split; [by eapply room_spawns_inside_ext|by eapply rect_carved_mono].
Qed.

Lemma room_in_grid_center d r :
  5 ≤ Room.width r → 5 ≤ Room.height r → room_in_grid d r →
  in_bounds d (Room.center r) ∧ in_rect r (Room.center r).
Proof.
  unfold room_in_grid, in_bounds, in_rect, Room.center. simpl. intros.
  Z.to_euclidean_division_equations; lia.
Qed.

Lemma room_added_inv rt d d' idx room :
  rt ≠ Boss → rooms_inv d → room_added rt d d' idx room → rooms_inv d'.
Proof.
  intros Hrt Hinv (Hcn & Hidx & Hrooms & Htype & Hgrid & Hsize & Hfl & Hg &
                   [new Hheap] & Hsp & Hfr).
  assert (Hgw : grid_grows (λ v, Dungeon.walkable v = true) d d')
    by (by eapply grid_grows_weaken; [apply walkable_FLOOR|]).
  destruct Hfr as (HW & HH & _).
  intros r. rewrite Hrooms. intros [Hr| ->%list_elem_of_singleton]%elem_of_app.
  - destruct (Hinv r Hr) as (Hc & Hok & Hig). split; [done|]. split.
    + eapply room_ok_mono; [done| |done]. rewrite Hheap. apply heap_ext_app.
    + unfold room_in_grid in *. rewrite HW, HH. done.
  - split; [done|]. split; [split; [|split]|].
    + split; [lia|]. split; [lia|]. congruence.
    + done.
    + intros c Hc _. rewrite (Hfl c Hc). done.
    + unfold room_in_grid. rewrite HW, HH. done.
Qed.

Lemma room_added_gen_frame rt d d' idx room :
  room_added rt d d' idx room → gen_frame d d'.
Proof. intros H. apply H. Qed.

Lemma room_ok_le d r r' : room_le r r' → room_ok d r → room_ok d r'.
Proof. intros ->. by destruct r. Qed.

Lemma room_in_grid_le d r r' : room_le r r' → room_in_grid d r → room_in_grid d r'.
Proof. intros ->. by destruct r. Qed.

Lemma room_type_le r r' : room_le r r' → Room.room_type r' = Room.room_type r.
Proof. by intros ->. Qed.

Lemma room_width_le r r' : room_le r r' → Room.width r' = Room.width r.
Proof. by intros ->. Qed.

Lemma room_lists_le r r' :
  room_le r r' →
  Room.enemies r' = Room.enemies r ∧ Room.items r' = Room.items r.
Proof. by intros ->. Qed.

(** A candidate room that passed the scan keeps the distance asked for
    from every room scanned. *)
Lemma fits_dist d new_room md r :
  Dungeon.fits d new_room md = true → r ∈ Dungeon.rooms d → 0 < md →
  md * md ≤ dist2 (Room.center new_room) (Room.center r).
Proof.
  unfold Dungeon.fits. intros Hf Hr Hmd.
  rewrite forallb_forall in Hf. apply list_elem_of_In in Hr.
  specialize (Hf r Hr). apply andb_true_iff in Hf as [_ Hf].
  apply negb_true_iff, andb_false_iff in Hf as [Hf|Hf];
    apply bool_decide_eq_false_1 in Hf; lia.
Qed.

(** The loop of [generate] that places the rooms between the entrance room
    and the exit room. *)
Lemma generate_middle_rooms (l : list Z) d g d' g' :
  rooms_inv d →
  for_each l (λ _ '(self, g),
     let '(roll, g) := random.random g in
     let room_type := if bool_decide (roll < 20) then Special else Normal in
     '(_, self, g) ← Dungeon._add_room 0 room_type self g;
     Some (self, g)) (d, g) = Some (d', g') →
  rooms_inv d' ∧ gen_frame d d' ∧
  ∃ more, Dungeon.rooms d' = Dungeon.rooms d ++ more.
Proof.
  intros Hinv H.
  eapply (for_each_inv (λ s, rooms_inv s.1 ∧ gen_frame d s.1 ∧
            ∃ more, Dungeon.rooms s.1 = Dungeon.rooms d ++ more)) in H.
  - exact H.
  - intros a [d1 g1] [d2 g2] _ Hb (I1 & I2 & [more I3]). simpl in *.
    destruct (random.random g1) as [roll g3].
    destruct (Dungeon._add_room _ _ d1 g3) as [[[idx d3] g4]|] eqn:Ea;
      simplify_eq/=.
    apply _add_room_spec in Ea as (room & Hadd & _).
    split; [|split].
    + eapply room_added_inv; [|done|done]. by case_bool_decide.
    + eapply gen_frame_trans; [done|]. apply Hadd.
    + exists (more ++ [room]). destruct Hadd as (_ & _ & -> & _).
      rewrite I3. by rewrite app_assoc.
  - simpl. split; [done|]. split; [apply gen_frame_refl|].
    exists []. by rewrite app_nil_r.
Qed.

Lemma grid_grows_same A d d' :
  Dungeon.width d' = Dungeon.width d → Dungeon.height d' = Dungeon.height d →
  Dungeon.grid d' = Dungeon.grid d → grid_grows A d d'.
Proof.
  intros HW HH Hg. split; [done|]. split; [done|]. intros c. left.
  unfold tile. by rewrite Hg.
Qed.

Lemma rooms_inv_frame d d' :
  Dungeon.rooms d' = Dungeon.rooms d → Dungeon.heap d' = Dungeon.heap d →
  Dungeon.grid d' = Dungeon.grid d → Dungeon.width d' = Dungeon.width d →
  Dungeon.height d' = Dungeon.height d → rooms_inv d → rooms_inv d'.
Proof.
  intros Hr Hh Hg HW HH Hinv r. rewrite Hr. intros Hin.
  destruct (Hinv r Hin) as (Hc & (Hs & Hsp & Hcv) & Hig).
  split; [done|]. split; [split; [done|split]|].
  - by rewrite Hh.
  - intros c Hc' [Hx Hy]. unfold tile. rewrite Hg. apply Hcv; [done|].
    split; [by rewrite <- HW|by rewrite <- HH].
  - unfold room_in_grid. by rewrite HW, HH.
Qed.

(** What [generate] builds for an area that is not the last one. *)
Lemma generate_regular d0 g d g' :
  Dungeon.area_index d0 ≠ 6 → Dungeon.rooms d0 = [] →
  Dungeon.generate d0 g = Some (d, g') →
  ∃ r0 mid rx,
    Dungeon.rooms d = r0 :: mid ++ [rx] ∧
    Room.room_type r0 = Entrance ∧ Room.room_type rx = Exit ∧
    Dungeon.entrance d = Some (Room.center r0) ∧
    Dungeon.exit d = Some (Room.center rx) ∧
    (∀ r, r ∈ Dungeon.rooms d →
       room_ok d r ∧ room_in_grid d r ∧
       reachable d (Room.center r0) (Room.center r)) ∧
    (Room.width rx ≠ 5 →
       6 ≤ Room.width rx ∧
       0 < Z.max (Dungeon.width d) (Dungeon.height d) / 3 ∧
       (Z.max (Dungeon.width d) (Dungeon.height d) / 3) *
       (Z.max (Dungeon.width d) (Dungeon.height d) / 3)
       ≤ dist2 (Room.center rx) (Room.center r0)) ∧
    (Dungeon.width d = Dungeon.width d0 ∧ Dungeon.height d = Dungeon.height d0 ∧
     Dungeon.player_level d = Dungeon.player_level d0 ∧
     Dungeon.area_index d = Dungeon.area_index d0) ∧
    Dungeon.enemies d = concat (Room.enemies <$> Dungeon.rooms d) ∧
    Dungeon.items d = concat (Room.items <$> Dungeon.rooms d).
Proof.
  intros Hai Hrooms0 H. unfold Dungeon.generate in H.
  set (d1 := Dungeon.fill_wall d0) in *.
  change (Dungeon.area_index d1) with (Dungeon.area_index d0) in H.
  destruct (decide (Dungeon.area_index d0 = 6)) as [|_]; [done|].
  destruct (random.randint MIN_ROOMS MAX_ROOMS g) as [[num_rooms g1]|];
    simplify_eq/=.
  destruct (Dungeon._add_room 0 Entrance d1 g1) as [[[e d2] g2]|] eqn:Ee;
    simplify_eq/=.
  apply _add_room_spec in Ee as (r0 & Hadd0 & _).
  assert (Hinv1 : rooms_inv d1).
  { intros r Hr. unfold d1 in Hr. simpl in Hr. rewrite Hrooms0 in Hr.
    by apply elem_of_nil in Hr. }
  pose proof (room_added_inv Entrance _ _ _ _ ltac:(done) Hinv1 Hadd0) as Hinv2.
  destruct Hadd0 as (Hcn0 & He & Hr2 & Ht0 & Hig0 & Hsz0 & _ & _ & _ & _ & Hfr02).
  change (Dungeon.rooms d1) with (Dungeon.rooms d0) in *.
  rewrite Hrooms0 in *. simpl in He, Hr2. subst e.
  rewrite Hr2 in H. simpl in H.
  set (d3 := Dungeon.set_entrance (Some (Room.center r0)) d2) in *.
  destruct (for_each _ _ (d3, g2)) as [[d4 g4]|] eqn:Eloop; simplify_eq/=.
  assert (Hinv3 : rooms_inv d3) by (by apply (rooms_inv_frame d2)).
  apply generate_middle_rooms in Eloop as (Hinv4 & Hfr34 & [more Hr4]);
    [|done].
  change (Dungeon.rooms d3) with (Dungeon.rooms d2) in Hr4. rewrite Hr2 in Hr4.
  destruct (Dungeon._add_room _ Exit d4 g4) as [[[x d5] g5]|] eqn:Ex;
    simplify_eq/=.
  apply _add_room_spec in Ex as (rx & Haddx & Hfits & Hw6).
  pose proof (room_added_inv Exit _ _ _ _ ltac:(done) Hinv4 Haddx) as Hinv5.
  destruct Haddx as (Hcnx & Hx & Hr5 & Htx & Higx & Hszx & _ & _ & _ & _ & Hfr45).
  rewrite Hr4 in Hr5, Hx. subst x.
  rewrite Hr5 in H. rewrite list_lookup_middle in H by done. simpl in H.
  set (d6 := Dungeon.set_exit (Some (Room.center rx)) d5) in *.
  assert (Hinv6 : rooms_inv d6) by (by apply (rooms_inv_frame d5)).
  destruct (Dungeon._connect_rooms d6 g5) as [[d7 g7]|] eqn:Ec; simplify_eq/=.
  assert (Hr6 : Dungeon.rooms d6 = r0 :: more ++ [rx]) by exact Hr5.
  eapply (_connect_rooms_spec _ _ _ _ r0 (more ++ [rx])) in Ec;
    [|done|done|intros r Hr; by apply Hinv6|].
  2:{ intros r Hr. destruct (Hinv6 r Hr) as (_ & ((Hw & Hh & _) & _) & Hig).
      by apply room_in_grid_center. }
  destruct Ec as (Hg67 & Hfr67 & Hheap67 & Hrs67 & Hreach7).
  (* the fields of d7 *)
  assert (Hen7 : Dungeon.entrance d7 = Some (Room.center r0)).
  { destruct Hfr67 as (_ & _ & _ & _ & -> & _). simpl.
    destruct Hfr45 as (_ & _ & _ & _ & -> & _).
    destruct Hfr34 as (_ & _ & _ & _ & -> & _). done. }
  assert (Hex7 : Dungeon.exit d7 = Some (Room.center rx)).
  { destruct Hfr67 as (_ & _ & _ & _ & _ & -> & _). done. }
  rewrite Hen7 in H. simpl in H.
  destruct (Dungeon.put _ _ STAIRS_UP d7) as [d8|] eqn:Ep8; simplify_eq/=.
  assert (Hex8 : Dungeon.exit d8 = Some (Room.center rx)).
  { apply put_frame, frame_grid in Ep8 as ((_ & _ & _ & _ & _ & -> & _) & _).
    done. }
  rewrite Hex8 in H. simpl in H.
  destruct (Dungeon.put _ _ STAIRS_DOWN d8) as [d9|] eqn:Ep9; simplify_eq/=.
  pose proof (put_grows (λ v, Dungeon.walkable v = true) _ _ _ _ _ Ep8 eq_refl)
    as Hg78.
  pose proof (put_grows (λ v, Dungeon.walkable v = true) _ _ _ _ _ Ep9 eq_refl)
    as Hg89.
  apply put_frame, frame_grid in Ep8 as (Hfr78 & Hr8 & Hh8 & _).
  apply put_frame, frame_grid in Ep9 as (Hfr89 & Hr9 & Hh9 & _).
  (* the rooms of d7 *)
  rewrite Hr6 in Hrs67.
  apply Forall2_cons_inv_l in Hrs67 as (r0' & rest' & Hle0 & Hrest & Hr7).
  apply Forall2_app_inv_l in Hrest as (mid' & last' & Hmid & Hlast & ->).
  apply Forall2_cons_inv_l in Hlast as (rx' & nil' & Hlex & Hnil & ->).
  apply Forall2_nil_inv_l in Hnil as ->.
  exists r0', mid', rx'. simpl. rewrite Hr9, Hr8, Hr7.
  rewrite (room_le_center _ _ Hle0), (room_le_center _ _ Hlex).
  rewrite (room_type_le _ _ Hle0), (room_type_le _ _ Hlex).
  rewrite (room_width_le _ _ Hlex).
  assert (Hg69 : grid_grows (λ v, Dungeon.walkable v = true) d6 d9).
  { apply (grid_grows_trans _ d6 d7 d9); [done|].
    by apply (grid_grows_trans _ d7 d8 d9). }
  assert (Hfr09 : Dungeon.width d4 = Dungeon.width d0 ∧
                  Dungeon.height d4 = Dungeon.height d0 ∧
                  Dungeon.player_level d4 = Dungeon.player_level d0 ∧
                  Dungeon.area_index d4 = Dungeon.area_index d0).
  { destruct Hfr34 as (-> & -> & -> & -> & _). simpl.
    destruct Hfr02 as (-> & -> & -> & -> & _). done. }
  assert (HW9 : Dungeon.width d9 = Dungeon.width d0 ∧
                Dungeon.height d9 = Dungeon.height d0 ∧
                Dungeon.player_level d9 = Dungeon.player_level d0 ∧
                Dungeon.area_index d9 = Dungeon.area_index d0).
  { destruct Hfr89 as (-> & -> & -> & -> & _).
    destruct Hfr78 as (-> & -> & -> & -> & _).
    destruct Hfr67 as (-> & -> & -> & -> & _). simpl.
    destruct Hfr45 as (-> & -> & -> & -> & _).
    exact Hfr09. }
  split; [done|]. split; [done|]. split; [done|].
  split. { simpl. destruct Hfr89 as (_ & _ & _ & _ & -> & _).
           by destruct Hfr78 as (_ & _ & _ & _ & -> & _). }
  split. { simpl. by destruct Hfr89 as (_ & _ & _ & _ & _ & -> & _). }
  split; [|split; [|split; [exact HW9|by simpl]]].
  - intros r' Hr'.
    assert (Hold : ∃ r, r ∈ Dungeon.rooms d6 ∧ room_le r r').
    { change (Dungeon.rooms d6) with (Dungeon.rooms d5). rewrite Hr6.
      assert (HF : Forall2 room_le (r0 :: more ++ [rx]) (r0' :: mid' ++ [rx'])).
      { constructor; [done|]. apply Forall2_app; [done|]. by constructor. }
      apply list_elem_of_lookup in Hr' as [i Hi].
      destruct (Forall2_lookup_r _ _ _ _ _ HF Hi) as (r & Hr & Hle).
      exists r. split; [|done]. apply list_elem_of_lookup. eauto. }
    destruct Hold as (r & Hr & Hle).
    destruct (Hinv6 r Hr) as (_ & Hok & Hig).
    split; [|split].
    + apply (room_ok_le _ r r' Hle).
      destruct Hok as (Hs & Hsp & Hcv). split; [done|]. split.
      * simpl. rewrite Hh9, Hh8, Hheap67. done.
      * intros c Hc Hin.
        apply (rect_carved_mono _ d6 d9 r Hg69 Hcv c Hc). exact Hin.
    + apply (room_in_grid_le _ r r' Hle). unfold room_in_grid in *. simpl.
      destruct Hg69 as (-> & -> & _). done.
    + assert (Hr7' : r' ∈ Dungeon.rooms d7).
      { rewrite Hr7. done. }
      apply Hreach7 in Hr7'.
      assert (Hg79 : grid_grows (λ v, Dungeon.walkable v = true) d7 d9)
        by apply (grid_grows_trans _ d7 d8 d9 Hg78 Hg89).
      apply (reachable_mono d9); [by apply grid_grows_same|].
      by apply (reachable_mono d7).
  - intros Hw5. split; [by apply Hw6|].
    destruct HW9 as (HW & HH & _). simpl.
    destruct Hfr09 as (HW4 & HH4 & _). rewrite HW, HH.
    rewrite HW4, HH4 in Hfits, Higx.
    assert (Hmd : 0 < Z.max (Dungeon.width d0) (Dungeon.height d0) / 3).
    { destruct Higx as (? & ? & ? & ?). destruct Hszx.
      Z.to_euclidean_division_equations; lia. }
    split; [done|].
    destruct Hfits as [Hfits|?]; [|done].
    apply (fits_dist d4 _ _ r0) in Hfits; [|rewrite Hr4; apply list_elem_of_here|done].
    exact Hfits.
Qed.

(** ** The generator: the last level *)

Lemma add_side_room_spec room d g d' g' :
  5 ≤ Room.width room → 5 ≤ Room.height room → Room.room_type room ≠ Boss →
  Room.enemies room = [] → Room.items room = [] → Room.features room = [] →
  (∀ r, r ∈ Dungeon.rooms d → room_ok d r) →
  Dungeon.add_side_room room (d, g) = Some (d', g') →
  ∃ room',
    Dungeon.rooms d' = Dungeon.rooms d ++ [room'] ∧ same_place room room' ∧
    (∀ r, r ∈ Dungeon.rooms d' → room_ok d' r) ∧
    gen_frame d d' ∧ grid_grows (λ v, Dungeon.walkable v = true) d d'.
Proof.
  intros Hw Hh Hrt He Hi Hf Hinv H. unfold Dungeon.add_side_room in H.
  destruct (Dungeon.fill_floor_guarded _ _ _ _ _) as [d1|] eqn:Efl;
    simplify_eq/=.
  apply fill_floor_guarded_spec in Efl as (Hg & Hfr & Hc).
  apply frame_grid in Hfr as (Hfr & F5 & F6 & F9). simpl in *.
  apply (grid_grows_weaken _ _ _ _ walkable_FLOOR) in Hg.
  assert (Hg' : grid_grows (λ v, Dungeon.walkable v = true) d d1).
  { destruct Hg as (A1 & A2 & A3). split; [done|]. split; [done|]. exact A3. }
  assert (Hstep : ∃ room' hp', room_step room (Dungeon.heap d) room' hp' ∧
            d' = Dungeon.set_heap hp'
                   (Dungeon.set_rooms (Dungeon.rooms d ++ [room']) d1)).
  { destruct (decide (Room.room_type room ≠ Entrance)) as [Hne|Hne].
    - rewrite F5 in H. rewrite list_lookup_middle in H by done. simpl in H.
      destruct (Room.place_enemies room _ _ _ g) as [[[r1 hp1] g1]|] eqn:E1;
        simplify_eq/=.
      destruct (Room.place_items r1 _ g1) as [[r2 g2]|] eqn:E2; simplify_eq/=.
      destruct (Room.add_special_feature r2 _ g2) as [[r3 g3]|] eqn:E3;
        simplify_eq/=.
      rewrite F6 in E1.
      apply place_enemies_spec in E1; [|lia|lia].
      apply (place_items_spec _ _ _ _ _ hp1) in E2.
      assert (Hp1 : same_place room r1) by apply E1.
      assert (Hp2 : same_place r1 r2) by apply E2.
      apply (add_special_feature_spec _ _ _ _ _ hp1) in E3;
        [|unfold same_place in *; intuition lia
         |unfold same_place in *; intuition lia].
      exists r3, hp1. split.
      + eapply room_step_trans; [done|]. by eapply room_step_trans.
      + rewrite insert_app_r_alt by done. rewrite Nat.sub_diag. done.
    - assert (d' = d1) as -> by congruence.
      exists room, (Dungeon.heap d). split; [apply room_step_refl|].
      clear -F5 F6. destruct d1. simpl in *. by subst. }
  destruct Hstep as (room' & hp' & (Hpl & Hcn & [new Hnew] & Hsp) & ->).
  exists room'. simpl. split; [done|]. split; [done|]. split; [|split].
  - intros r [Hr| ->%list_elem_of_singleton]%elem_of_app.
    + destruct (Hinv r Hr) as (Hs & Hspr & Hcv). split; [done|]. split.
      * simpl. eapply room_spawns_inside_ext; [|done]. rewrite Hnew.
        apply heap_ext_app.
      * intros c Hc' Hin. apply (rect_carved_mono _ d d1 r Hg' Hcv c Hc' Hin).
    + destruct Hpl as (P1 & P2 & P3 & P4 & P5). split; [|split].
      * split; [lia|]. split; [lia|]. congruence.
      * simpl. apply Hsp. split; [|split]; intros ? Hin.
        -- rewrite He in Hin. by apply elem_of_nil in Hin.
        -- rewrite Hi in Hin. by apply elem_of_nil in Hin.
        -- rewrite Hf in Hin. by apply elem_of_nil in Hin.
      * intros c [Hcx Hcy] Hin. apply walkable_FLOOR. symmetry.
        apply Hc; [lia|lia|].
        apply (grid_grows_in_bounds _ _ _ c Hg). exact Hin.
  - destruct Hfr as (A1 & A2 & A3 & A4 & A5 & A6 & A7 & A8). by repeat split.
  - destruct Hg' as (A1 & A2 & A3). split; [done|]. split; [done|]. exact A3.
Qed.

Lemma for_each_3 {A S} (a b c : A) (body : A → S → option S) s :
  for_each [a; b; c] body s =
    (s ← body a s; s ← body b s; s ← body c s; Some s).
Proof. reflexivity. Qed.

(** What [generate] builds for the last area: the throne room and its three
    antechambers on fixed places; on a grid of at least 21 x 20 the centres
    of all four rooms lie on the grid and can be reached from the entrance. *)
Lemma generate_final d0 g d g' :
  Dungeon.area_index d0 = 6 → Dungeon.rooms d0 = [] →
  Dungeon.generate d0 g = Some (d, g') →
  ∃ throne s1 s2 s3,
    Dungeon.rooms d = [throne; s1; s2; s3] ∧
    same_place (Room.new (Dungeon.width d0 / 2 - 5) (Dungeon.height d0 / 2 - 5)
                  10 10 Boss) throne ∧
    same_place (Room.new (Dungeon.width d0 / 2 - 5 - 8)
                  (Dungeon.height d0 / 2 - 5) 6 6 Special) s1 ∧
    same_place (Room.new (Dungeon.width d0 / 2 - 5 + 10 + 2)
                  (Dungeon.height d0 / 2 - 5) 6 6 Special) s2 ∧
    same_place (Room.new (Dungeon.width d0 / 2 - 5)
                  (Dungeon.height d0 / 2 - 5 - 8) 6 6 Entrance) s3 ∧
    Dungeon.entrance d = Some (Room.center s3) ∧
    Dungeon.exit d = Dungeon.exit d0 ∧
    (∀ r, r ∈ Dungeon.rooms d → room_ok d r) ∧
    (21 ≤ Dungeon.width d0 → 20 ≤ Dungeon.height d0 →
     ∀ r, r ∈ Dungeon.rooms d →
       in_bounds d (Room.center r) ∧
       reachable d (Room.center s3) (Room.center r)) ∧
    (Dungeon.width d = Dungeon.width d0 ∧ Dungeon.height d = Dungeon.height d0 ∧
     Dungeon.player_level d = Dungeon.player_level d0 ∧
     Dungeon.area_index d = Dungeon.area_index d0) ∧
    Dungeon.enemies d = concat (Room.enemies <$> Dungeon.rooms d) ∧
    Dungeon.items d = concat (Room.items <$> Dungeon.rooms d).
Proof.
  intros Hai Hrooms0 H. unfold Dungeon.generate in H.
  set (d1 := Dungeon.fill_wall d0) in *.
  change (Dungeon.area_index d1) with (Dungeon.area_index d0) in H.
  destruct (decide (Dungeon.area_index d0 = 6)) as [_|]; [|done].
  unfold Dungeon._generate_final_area in H.
  change (Dungeon.rooms d1) with (Dungeon.rooms d0) in H.
  change (Dungeon.width d1) with (Dungeon.width d0) in H.
  change (Dungeon.height d1) with (Dungeon.height d0) in H.
  rewrite Hrooms0 in H. cbn [app length] in H.
  set (W := Dungeon.width d0) in *. set (Ht := Dungeon.height d0) in *.
  set (throne := Room.new (W / 2 - 5) (Ht / 2 - 5) 10 10 Boss) in *.
  destruct (Dungeon.fill_floor_guarded _ _ _ _ _) as [d2|] eqn:Efl;
    [|done].
  cbn [mbind option_bind] in H.
  apply fill_floor_guarded_spec in Efl as (Hg12 & Hfr12 & Hc12).
  apply frame_grid in Hfr12 as (Hfr12 & R2 & Hp2 & _). cbn in R2, Hp2.
  rewrite R2 in H. cbn [alter list_alter] in H.
  set (boss_ref := length (Dungeon.heap d2)) in *.
  set (throne' := Room.set_enemies (Room.enemies throne ++ [boss_ref]) throne) in *.
  set (d3 := Dungeon.set_heap _ (Dungeon.set_rooms [throne'] d2)) in H.
  assert (Hinv3 : ∀ r, r ∈ Dungeon.rooms d3 → room_ok d3 r).
  { intros r ->%list_elem_of_singleton. split; [|split].
    - split; [done|]. split; [done|]. done.
    - split; [|split]; intros ? Hin; simpl in Hin;
        [|by apply elem_of_nil in Hin..].
      apply list_elem_of_singleton in Hin as ->.
      eexists. split; [unfold d3; simpl; apply list_lookup_middle; done|].
      simpl. apply (center_interior throne); simpl; lia.
    - intros c [Hcx Hcy] Hin. apply walkable_FLOOR. symmetry.
      change (tile d3 c) with (tile d2 c). apply Hc12; [exact Hcx|exact Hcy|].
      apply (grid_grows_in_bounds _ _ _ c Hg12). exact Hin. }
  set (s1 := Room.new (Room.x throne - 8) _ 6 6 Special) in H.
  set (s2 := Room.new (Room.x throne + Room.width throne + 2) _ 6 6 Special)
    in H.
  set (s3 := Room.new _ _ 6 6 Entrance) in H.
  rewrite for_each_3 in H.
  destruct (Dungeon.add_side_room s1 (d3, g)) as [[d4 g4]|] eqn:E1; [|done].
  cbn [mbind option_bind] in H.
  destruct (Dungeon.add_side_room s2 (d4, g4)) as [[d5 g5]|] eqn:E2; [|done].
  cbn [mbind option_bind] in H.
  destruct (Dungeon.add_side_room s3 (d5, g5)) as [[d6 g6]|] eqn:E3; [|done].
  cbn [mbind option_bind] in H.
  apply add_side_room_spec in E1
    as (s1' & R4 & P1 & Hinv4 & Hfr34 & Hg34); [|done..].
  apply add_side_room_spec in E2
    as (s2' & R5 & P2 & Hinv5 & Hfr45 & Hg45); [|done..].
  apply add_side_room_spec in E3
    as (s3' & R6 & P3 & Hinv6 & Hfr56 & Hg56); [|done..].
  rewrite for_each_3 in H.
  destruct (Dungeon._create_corridor (Room.center s1) _ d6 g6)
    as [[d7 g7]|] eqn:C1; [|done].
  cbn [mbind option_bind] in H.
  destruct (Dungeon._create_corridor (Room.center s2) _ d7 g7)
    as [[d8 g8]|] eqn:C2; [|done].
  cbn [mbind option_bind] in H.
  destruct (Dungeon._create_corridor (Room.center s3) _ d8 g8)
    as [[d9 g9]|] eqn:C3; [|done].
  cbn [mbind option_bind lookup list_lookup] in H.
  apply _create_corridor_spec in C1 as (Hg67 & Hfr67 & R7 & Hp7 & Hre7).
  apply _create_corridor_spec in C2 as (Hg78 & Hfr78 & R8 & Hp8 & Hre8).
  apply _create_corridor_spec in C3 as (Hg89 & Hfr89 & R9 & Hp9 & Hre9).
  destruct (Dungeon.put _ _ STAIRS_UP _) as [d10|] eqn:Ep; [|done].
  cbn [mbind option_bind] in H. simplify_eq.
  pose proof (put_grows (λ v, Dungeon.walkable v = true) _ _ _ _ _ Ep eq_refl)
    as Hg910.
  apply put_frame, frame_grid in Ep as (Hfr910 & R10 & Hp10 & _).
  cbn in R10, Hp10.
  assert (Hrooms : Dungeon.rooms d10 = [throne'; s1'; s2'; s3']).
  { rewrite R10, R9, R8, R7, R6, R5, R4. done. }
  assert (Hg69 : grid_grows (λ v, Dungeon.walkable v = true) d6 d9).
  { apply (grid_grows_trans _ d6 d7 d9); [done|].
    by apply (grid_grows_trans _ d7 d8 d9). }
  assert (Hg610 : grid_grows (λ v, Dungeon.walkable v = true) d6 d10).
  { apply (grid_grows_trans _ d6 d9 d10); [done|].
    destruct Hg910 as (A1 & A2 & A3). split; [done|]. split; [done|]. exact A3. }
  assert (Hdims : Dungeon.width d10 = W ∧ Dungeon.height d10 = Ht ∧
                  Dungeon.player_level d10 = Dungeon.player_level d0 ∧
                  Dungeon.area_index d10 = Dungeon.area_index d0 ∧
                  Dungeon.exit d10 = Dungeon.exit d0).
  { destruct Hfr910 as (-> & -> & -> & -> & _ & -> & _). cbn.
    destruct Hfr89 as (-> & -> & -> & -> & _ & -> & _).
    destruct Hfr78 as (-> & -> & -> & -> & _ & -> & _).
    destruct Hfr67 as (-> & -> & -> & -> & _ & -> & _).
    destruct Hfr56 as (-> & -> & -> & -> & _ & -> & _).
    destruct Hfr45 as (-> & -> & -> & -> & _ & -> & _).
    destruct Hfr34 as (-> & -> & -> & -> & _ & -> & _). cbn.
    destruct Hfr12 as (-> & -> & -> & -> & _ & -> & _). done. }
  exists throne', s1', s2', s3'. cbn. rewrite Hrooms.
  destruct Hdims as (HW & HH & HPL & HAI & HEX).
  split; [done|]. split; [done|]. split; [exact P1|]. split; [exact P2|].
  split; [exact P3|].
  assert (Hc3 : Room.center s3' = Room.center s3).
  { destruct P3 as (A1 & A2 & A3 & A4 & _). unfold Room.center.
    by rewrite A1, A2, A3, A4. }
  assert (Hc2 : Room.center s2' = Room.center s2).
  { destruct P2 as (A1 & A2 & A3 & A4 & _). unfold Room.center.
    by rewrite A1, A2, A3, A4. }
  assert (Hc1 : Room.center s1' = Room.center s1).
  { destruct P1 as (A1 & A2 & A3 & A4 & _). unfold Room.center.
    by rewrite A1, A2, A3, A4. }
  split. { destruct Hfr910 as (_ & _ & _ & _ & -> & _). cbn. by rewrite Hc3. }
  split; [exact HEX|]. split; [|split; [|by repeat split]].
  - intros r Hr.
    assert (Hr6 : r ∈ Dungeon.rooms d6) by (rewrite R6, R5, R4; exact Hr).
    destruct (Hinv6 r Hr6) as (Hs & Hsp & Hcv). split; [done|]. split.
    + cbn. by rewrite Hp10, Hp9, Hp8, Hp7.
    + intros c Hc Hin. apply (rect_carved_mono _ d6 d10 r Hg610 Hcv c Hc Hin).
  - intros HW21 HH20.
    assert (Hb : ∀ x y, 0 ≤ x < W → 0 ≤ y < Ht → ∀ dd,
              Dungeon.width dd = W → Dungeon.height dd = Ht →
              in_bounds dd (x, y)).
    { intros x y Hx Hy dd Hdw Hdh. split; simpl; by rewrite ?Hdw, ?Hdh. }
    assert (HW6 : Dungeon.width d6 = W ∧ Dungeon.height d6 = Ht).
    { destruct Hg610 as (A1 & A2 & _). split; congruence. }
    destruct HW6 as [HW6 HH6].
    assert (HW7 : Dungeon.width d7 = W ∧ Dungeon.height d7 = Ht).
    { destruct Hg67 as (A1 & A2 & _). split; congruence. }
    destruct HW7 as [HW7 HH7].
    assert (HW8 : Dungeon.width d8 = W ∧ Dungeon.height d8 = Ht).
    { destruct Hg78 as (A1 & A2 & _). split; congruence. }
    destruct HW8 as [HW8 HH8].
    assert (Bt : ∀ dd, Dungeon.width dd = W → Dungeon.height dd = Ht →
                       in_bounds dd (Room.center throne)).
    { intros dd ? ?. apply Hb; [| |done|done]; simpl;
        Z.to_euclidean_division_equations; lia. }
    assert (B1 : ∀ dd, Dungeon.width dd = W → Dungeon.height dd = Ht →
                       in_bounds dd (Room.center s1)).
    { intros dd ? ?. apply Hb; [| |done|done]; simpl;
        Z.to_euclidean_division_equations; lia. }
    assert (B2 : ∀ dd, Dungeon.width dd = W → Dungeon.height dd = Ht →
                       in_bounds dd (Room.center s2)).
    { intros dd ? ?. apply Hb; [| |done|done]; simpl;
        Z.to_euclidean_division_equations; lia. }
    assert (B3 : ∀ dd, Dungeon.width dd = W → Dungeon.height dd = Ht →
                       in_bounds dd (Room.center s3)).
    { intros dd ? ?. apply Hb; [| |done|done]; simpl;
        Z.to_euclidean_division_equations; lia. }
    destruct (Hre7 (B1 _ HW6 HH6) (Bt _ HW6 HH6)) as [_ Rt1].
    destruct (Hre8 (B2 _ HW7 HH7) (Bt _ HW7 HH7)) as [_ Rt2].
    destruct (Hre9 (B3 _ HW8 HH8) (Bt _ HW8 HH8)) as [R3t Rt3].
    assert (Hg810 : grid_grows (λ v, Dungeon.walkable v = true) d8 d10).
    { apply (grid_grows_trans _ d8 d9 d10); [done|].
      destruct Hg910 as (A1 & A2 & A3). split; [done|]. split; [done|].
      exact A3. }
    assert (Hg710 : grid_grows (λ v, Dungeon.walkable v = true) d7 d10)
      by (by apply (grid_grows_trans _ d7 d8 d10)).
    assert (Hg9_10 : grid_grows (λ v, Dungeon.walkable v = true) d9 d10).
    { destruct Hg910 as (A1 & A2 & A3). split; [done|]. split; [done|].
      exact A3. }
    apply (reachable_mono d7 d10) in Rt1; [|done].
    apply (reachable_mono d8 d10) in Rt2; [|done].
    apply (reachable_mono d9 d10) in Rt3, R3t; [|done..].
    assert (Hpop : ∀ a b, reachable d10 a b →
              reachable (Dungeon._populate_dungeon d10) a b).
    { intros a b. apply reachable_mono. by apply grid_grows_same. }
    intros r Hr. rewrite Hc3.
    assert (Hcases : Room.center r = Room.center throne ∨
                     Room.center r = Room.center s1 ∨
                     Room.center r = Room.center s2 ∨
                     Room.center r = Room.center s3).
    { apply elem_of_cons in Hr as [->|Hr]; [by left|].
      apply elem_of_cons in Hr as [->|Hr]; [right; by left|].
      apply elem_of_cons in Hr as [->|Hr]; [right; right; by left|].
      apply list_elem_of_singleton in Hr as ->. by right; right; right. }
    destruct Hcases as [-> | [-> | [-> | ->]]].
    + split; [by apply Bt|]. by apply Hpop.
    + split; [by apply B1|]. apply Hpop. by eapply rtc_trans.
    + split; [by apply B2|]. apply Hpop. by eapply rtc_trans.
    + split; [by apply B3|]. apply rtc_refl.
Qed.

(** ** The heat modifiers *)

Lemma spawns_inv_heap d d' :
  Dungeon.rooms d' = Dungeon.rooms d → Dungeon.enemies d' = Dungeon.enemies d →
  Dungeon.items d' = Dungeon.items d → Dungeon.grid d' = Dungeon.grid d →
  Dungeon.width d' = Dungeon.width d → Dungeon.height d' = Dungeon.height d →
  heap_ext (Dungeon.heap d) (Dungeon.heap d') →
  spawns_inv d → spawns_inv d'.
Proof.
  intros Hr He Hi Hg HW HH Hext (I1 & I2 & I3). split; [|split].
  - intros room. rewrite Hr. intros Hin.
    destruct (I1 room Hin) as (Hs & Hsp & Hcv). split; [done|]. split.
    + by eapply room_spawns_inside_ext.
    + intros c Hc [Hx Hy]. unfold tile. rewrite Hg. apply Hcv; [done|].
      split; [by rewrite <- HW|by rewrite <- HH].
  - intros ref. rewrite He, Hr. intros Hin.
    destruct (I2 ref Hin) as (e & room & Hl & Hroom & Hint).
    destruct (Hext _ _ Hl) as (e' & Hl' & Hp). exists e', room.
    by rewrite Hp.
  - intros it. rewrite Hi, Hr. apply I3.
Qed.

Lemma add_enemy_inv d g d' g' :
  DungeonManager.add_enemy d g = Some (d', g') → spawns_inv d → spawns_inv d'.
Proof.
  unfold DungeonManager.add_enemy. intros H Hinv.
  destruct (List.find _ _) as [room|] eqn:Ef; [|by simplify_eq].
  apply find_some in Ef as [Hroom _]. apply list_elem_of_In in Hroom.
  destruct (random.randint _ _ g) as [[x g1]|] eqn:Ex; simplify_eq/=.
  destruct (random.randint _ _ g1) as [[y g2]|] eqn:Ey; simplify_eq/=.
  destruct (random.randint _ _ g2) as [[dl g3]|] eqn:Ed; simplify_eq/=.
  apply randint_range in Ex, Ey.
  destruct Hinv as (I1 & I2 & I3). split; [|split]; simpl.
  - intros r Hr. destruct (I1 r Hr) as (Hs & Hsp & Hcv). split; [done|].
    split; [|done]. eapply room_spawns_inside_ext; [|done]. apply heap_ext_app.
  - intros ref [Hin| ->%list_elem_of_singleton]%elem_of_app.
    + destruct (I2 ref Hin) as (e & r & Hl & Hr & Hint). exists e, r.
      split; [by apply lookup_app_l_Some|done].
    + eexists _, room. split; [by apply list_lookup_middle|].
      split; [done|]. unfold Room.interior. simpl. lia.
  - done.
Qed.

Lemma raise_levels_heap_ext k refs hp :
  heap_ext hp (foldl (λ hp ref,
     alter (λ e, {| e_type := e_type e; e_pos := e_pos e;
                    e_level := e_level e + k |}) ref hp) hp refs).
Proof.
  revert hp. induction refs as [|ref refs IH]; intros hp; simpl.
  - apply heap_ext_refl.
  - eapply heap_ext_trans; [|apply IH].
    intros i e Hl. destruct (decide (ref = i)) as [->|Hne].
    + rewrite list_lookup_alter_eq, Hl. simpl. eauto.
    + rewrite list_lookup_alter_ne by done. eauto.
Qed.

Lemma raise_levels_inv k d :
  spawns_inv d → spawns_inv (DungeonManager.raise_levels k d).
Proof.
  apply spawns_inv_heap; try done. apply raise_levels_heap_ext.
Qed.

Lemma add_traps_inv d g d' g' :
  Dungeon.add_traps d g = Some (d', g') → spawns_inv d → spawns_inv d'.
Proof.
  unfold Dungeon.add_traps.
  intros (traps & _ & _ & _ & ->)%add_traps_loop_spec (I1 & I2 & I3).
  split; [|split]; simpl; [|done|done].
  intros room Hroom. destruct (I1 room Hroom) as (Hs & Hsp & Hcv).
  split; [done|]. split; [done|]. intros c Hc Hin. unfold tile. simpl.
  rewrite lookup_foldr_insert. destruct (decide (c ∈ traps)); [done|].
  by apply Hcv.
Qed.

Lemma list_pop_subseteq {A} i (l : list A) x : x ∈ list_pop i l → x ∈ l.
Proof.
  unfold list_pop. intros [H|H]%elem_of_app.
  - by apply (subseteq_take i l).
  - by apply (subseteq_drop (S i) l).
Qed.

Lemma remove_item_inv d g d' g' :
  DungeonManager.remove_item (d, g) = Some (d', g') →
  spawns_inv d → spawns_inv d'.
Proof.
  unfold DungeonManager.remove_item. intros H Hinv.
  destruct (Dungeon.items d) as [|it0 its] eqn:Ei; [by simplify_eq|].
  destruct (random.randrange _ g) as [[i g1]|]; simplify_eq/=.
  destruct Hinv as (I1 & I2 & I3). split; [|split]; simpl; [done|done|].
  intros it Hit. apply I3. rewrite Ei. by eapply list_pop_subseteq.
Qed.

Lemma make_elite_inv d g d' g' :
  DungeonManager.make_elite (d, g) = Some (d', g') →
  spawns_inv d → spawns_inv d'.
Proof.
  unfold DungeonManager.make_elite. intros H Hinv.
  destruct (Dungeon.enemies d) as [|e0 es] eqn:Ee; [by simplify_eq|].
  destruct (random.randrange _ g) as [[i g1]|]; simplify_eq/=.
  destruct (_ !! Z.to_nat i) as [ref|]; simplify_eq/=.
  destruct (Dungeon.heap d !! ref) as [enemy|] eqn:El; simplify_eq/=.
  destruct (decide (e_type enemy ≠ enemy_boss)); simplify_eq; [|done].
  eapply (spawns_inv_heap d); try done. simpl.
  intros j e Hl. destruct (decide (ref = j)) as [->|Hne].
  - rewrite list_lookup_insert_eq by (by eapply lookup_lt_Some).
    simplify_eq. eauto.
  - rewrite list_lookup_insert_ne by done. eauto.
Qed.

Lemma second_boss_inv room d g d' g' :
  room ∈ Dungeon.rooms d →
  DungeonManager.second_boss room (d, g) = Some (d', g') →
  spawns_inv d → spawns_inv d' ∧ Dungeon.rooms d' = Dungeon.rooms d.
Proof.
  unfold DungeonManager.second_boss. intros Hroom H Hinv.
  destruct (decide (Room.room_type room = Boss)) as [Hb|]; [|by simplify_eq].
  destruct (List.find _ _) as [enemy|]; [|by simplify_eq].
  destruct (Room.center room) as [cx cy] eqn:Ec.
  destruct (random.randint _ _ g) as [[ox g1]|] eqn:Ex; simplify_eq/=.
  destruct (random.randint _ _ g1) as [[oy g2]|] eqn:Ey; simplify_eq/=.
  apply randint_range in Ex, Ey. split; [|done].
  destruct Hinv as (I1 & I2 & I3). split; [|split]; simpl.
  - intros r Hr. destruct (I1 r Hr) as (Hs & Hsp & Hcv). split; [done|].
    split; [|done]. eapply room_spawns_inside_ext; [|done]. apply heap_ext_app.
  - intros ref [Hin| ->%list_elem_of_singleton]%elem_of_app.
    + destruct (I2 ref Hin) as (e & r & Hl & Hr & Hint). exists e, r.
      split; [by apply lookup_app_l_Some|done].
    + eexists _, room. split; [by apply list_lookup_middle|].
      split; [done|]. destruct (I1 room Hroom) as ((_ & _ & Hsz) & _).
      destruct (Hsz Hb) as [Hw Hh]. unfold Room.center in Ec.
      unfold Room.interior. simpl. simplify_eq. rewrite Hw, Hh.
      change (10 / 2) with 5. lia.
  - done.
Qed.

Lemma same_rooms_refl d : same_rooms d d.
Proof. done. Qed.

Lemma same_rooms_trans d1 d2 d3 :
  same_rooms d1 d2 → same_rooms d2 d3 → same_rooms d1 d3.
Proof. intros (?&?&?) (?&?&?). repeat split; congruence. Qed.

Lemma add_traps_rooms d g d' g' :
  Dungeon.add_traps d g = Some (d', g') → same_rooms d d'.
Proof.
  unfold Dungeon.add_traps.
  by intros (traps & _ & _ & _ & ->)%add_traps_loop_spec.
Qed.

Lemma add_enemy_rooms d g d' g' :
  DungeonManager.add_enemy d g = Some (d', g') → same_rooms d d'.
Proof.
  unfold DungeonManager.add_enemy. intros H.
  destruct (List.find _ _) as [room|]; [|by simplify_eq].
  destruct (random.randint _ _ g) as [[x g1]|]; simplify_eq/=.
  destruct (random.randint _ _ g1) as [[y g2]|]; simplify_eq/=.
  destruct (random.randint _ _ g2) as [[dl g3]|]; simplify_eq/=. done.
Qed.

Lemma remove_item_rooms d g d' g' :
  DungeonManager.remove_item (d, g) = Some (d', g') → same_rooms d d'.
Proof.
  unfold DungeonManager.remove_item. intros H.
  destruct (Dungeon.items d) as [|it0 its]; [by simplify_eq|].
  destruct (random.randrange _ g) as [[i g1]|]; simplify_eq/=. done.
Qed.

Lemma make_elite_rooms d g d' g' :
  DungeonManager.make_elite (d, g) = Some (d', g') → same_rooms d d'.
Proof.
  unfold DungeonManager.make_elite. intros H.
  destruct (Dungeon.enemies d) as [|e0 es]; [by simplify_eq|].
  destruct (random.randrange _ g) as [[i g1]|]; simplify_eq/=.
  destruct (_ !! Z.to_nat i) as [ref|]; simplify_eq/=.
  destruct (Dungeon.heap d !! ref) as [enemy|]; simplify_eq/=.
  by destruct (decide (e_type enemy ≠ enemy_boss)); simplify_eq.
Qed.

Lemma second_boss_rooms room d g d' g' :
  DungeonManager.second_boss room (d, g) = Some (d', g') → same_rooms d d'.
Proof.
  unfold DungeonManager.second_boss. intros H.
  destruct (decide (Room.room_type room = Boss)) as [Hb|]; [|by simplify_eq].
  destruct (List.find _ _) as [enemy|]; [|by simplify_eq].
  destruct (Room.center room) as [cx cy].
  destruct (random.randint _ _ g) as [[ox g1]|]; simplify_eq/=.
  destruct (random.randint _ _ g1) as [[oy g2]|]; simplify_eq/=. done.
Qed.

Lemma repeat_m_modifier_inv n
    (body : Dungeon.t * random.state → option (Dungeon.t * random.state))
    d g d' g' :
  (∀ d1 g1 d2 g2, body (d1, g1) = Some (d2, g2) →
     (spawns_inv d1 → spawns_inv d2) ∧ same_rooms d1 d2) →
  repeat_m n body (d, g) = Some (d', g') →
  spawns_inv d → spawns_inv d' ∧ same_rooms d d'.
Proof.
  intros Hbody H Hinv.
  apply (repeat_m_inv (modifier_inv d) n body (d, g) (d', g')); [|done|done].
  intros [d1 g1] [d2 g2] Hb [I R].
  destruct (Hbody _ _ _ _ Hb) as [HI HR].
  split; [by apply HI|by eapply same_rooms_trans].
Qed.

(** Every modifier keeps the spawns inside the rooms, and the rooms. *)
Lemma apply_modifier_inv modifier d g d' g' :
  DungeonManager.apply_modifier modifier (d, g) = Some (d', g') →
  spawns_inv d → spawns_inv d' ∧ same_rooms d d'.
Proof.
  unfold DungeonManager.apply_modifier. intros H Hinv.
  repeat match type of H with
  | (if decide ?P then _ else _) = _ => destruct (decide P) as [_|_]
  end.
  - eapply repeat_m_modifier_inv in H; [done| |done].
    intros d1 g1 d2 g2 Hb.
    split; [by eapply add_enemy_inv|by eapply add_enemy_rooms].
  - simplify_eq. split; [by apply raise_levels_inv|done].
  - destruct (Dungeon.add_traps d g) as [[d1 g1]|] eqn:E1; simplify_eq/=.
    split.
    + eapply add_traps_inv; [done|]. by eapply add_traps_inv.
    + apply add_traps_rooms in E1, H. by eapply same_rooms_trans.
  - eapply repeat_m_modifier_inv in H; [done| |done].
    intros d1 g1 d2 g2 Hb.
    split; [by eapply remove_item_inv|by eapply remove_item_rooms].
  - eapply repeat_m_modifier_inv in H; [done| |done].
    intros d1 g1 d2 g2 Hb.
    split; [by eapply make_elite_inv|by eapply make_elite_rooms].
  - apply (for_each_inv (modifier_inv d) _ _ (d, g) (d', g')) in H;
      [done| |done].
    intros room [d1 g1] [d2 g2] Hroom Hb [I R]. simpl in *.
    destruct R as (R1 & R2 & R3). rewrite <- R1 in Hroom.
    destruct (second_boss_inv _ _ _ _ _ Hroom Hb I) as [? _].
    apply second_boss_rooms in Hb.
    split; [done|]. by apply (same_rooms_trans d d1 d2).
  - destruct (Dungeon.add_traps d g) as [[d1 g1]|] eqn:E1; simplify_eq/=.
    destruct (Dungeon.add_traps d1 g1) as [[d2 g2]|] eqn:E2; simplify_eq/=.
    eapply repeat_m_modifier_inv in H.
    + destruct H as [HI HR]. split; [done|].
      apply add_traps_rooms in E1, E2.
      apply (same_rooms_trans d d2 d'); [|done].
      by apply (same_rooms_trans d d1 d2).
    + intros d3 g3 d4 g4 Hb.
      split; [by eapply remove_item_inv|by eapply remove_item_rooms].
    + apply raise_levels_inv. eapply add_traps_inv; [done|].
      by eapply add_traps_inv.
  - by simplify_eq.
Qed.

Lemma _apply_heat_modifiers_inv m d g d' g' :
  DungeonManager._apply_heat_modifiers m d g = Some (d', g') →
  spawns_inv d → spawns_inv d' ∧ same_rooms d d'.
Proof.
  unfold DungeonManager._apply_heat_modifiers. intros H Hinv.
  apply (for_each_inv (modifier_inv d) _ _ (d, g) (d', g')) in H;
    [done| |done].
  intros md [d1 g1] [d2 g2] _ Hb [I R]. simpl in *.
  destruct (apply_modifier_inv _ _ _ _ _ Hb I) as [? ?].
  split; [done|]. by apply (same_rooms_trans d d1 d2).
Qed.

(** ** Spawns lie inside the rooms *)

Lemma rect_carved_weaken (A B : TileType → Prop) d r :
  (∀ v, A v → B v) → rect_carved A d r → rect_carved B d r.
Proof. intros HAB Hc c Hr Hin. apply HAB. by apply Hc. Qed.

Lemma elem_of_concat {A} (x : A) (ls : list (list A)) :
  x ∈ concat ls → ∃ l, x ∈ l ∧ l ∈ ls.
Proof.
  induction ls as [|l ls IH]; simpl.
  - by intros ?%elem_of_nil.
  - intros [H|H]%elem_of_app.
    + exists l. split; [done|apply list_elem_of_here].
    + destruct (IH H) as (l' & ? & ?). exists l'.
      split; [done|by apply list_elem_of_further].
Qed.

Lemma walkable_not_wall v : Dungeon.walkable v = true → v ≠ WALL.
Proof. by intros H ->. Qed.

(** A level whose rooms are fine and whose spawn lists are those of its
    rooms satisfies the invariant. *)
Lemma populated_spawns_inv d :
  (∀ r, r ∈ Dungeon.rooms d → room_ok d r) →
  Dungeon.enemies d = concat (Room.enemies <$> Dungeon.rooms d) →
  Dungeon.items d = concat (Room.items <$> Dungeon.rooms d) →
  spawns_inv d.
Proof.
  intros Hok He Hi. split; [|split].
  - intros room Hroom. destruct (Hok room Hroom) as (Hs & Hsp & Hc).
    split; [done|]. split; [done|].
    by apply (rect_carved_weaken _ _ d room walkable_not_wall).
  - intros ref Href. rewrite He in Href.
    apply elem_of_concat in Href as (refs & Href & Hrefs).
    apply list_elem_of_fmap in Hrefs as (room & -> & Hroom).
    destruct (Hok room Hroom) as (_ & (Hen & _ & _) & _).
    destruct (Hen ref Href) as (e & Hl & Hint). by exists e, room.
  - intros it Hit. rewrite Hi in Hit.
    apply elem_of_concat in Hit as (its & Hit & Hits).
    apply list_elem_of_fmap in Hits as (room & -> & Hroom).
    destruct (Hok room Hroom) as (_ & (_ & Hitm & _) & _).
    exists room. split; [done|]. by apply Hitm.
Qed.

Lemma generate_spawns_inv d0 g d g' :
  Dungeon.rooms d0 = [] → Dungeon.generate d0 g = Some (d, g') →
  spawns_inv d ∧
  (Dungeon.area_index d0 ≠ 6 →
   ∀ r, r ∈ Dungeon.rooms d → room_in_grid d r).
Proof.
  intros Hr H. destruct (decide (Dungeon.area_index d0 = 6)) as [Hai|Hai].
  - destruct (generate_final d0 g d g' Hai Hr H)
      as (t & s1 & s2 & s3 & _ & _ & _ & _ & _ & _ & _ & Hok & _ & _ & He & Hi).
    split; [by apply populated_spawns_inv|done].
  - destruct (generate_regular d0 g d g' Hai Hr H)
      as (r0 & mid & rx & _ & _ & _ & _ & _ & Hok & _ & _ & He & Hi).
    split.
    + apply populated_spawns_inv; [|done|done].
      intros r Hin. by destruct (Hok r Hin).
    + intros _ r Hin. by destruct (Hok r Hin) as (_ & ? & _).
Qed.

Lemma interior_in_rect room p : Room.interior room p → in_rect room p.
Proof. unfold Room.interior, in_rect. lia. Qed.

(** C9: on every level the manager generates (the rooms populated, then the
    active modifiers applied), every enemy, item and feature of a room lies
    strictly inside that room, x in [x+1, x+width-2] and y in
    [y+1, y+height-2]; every enemy and item of the level, those the
    modifiers add included, lies strictly inside one of the rooms; no cell
    strictly inside a room is a wall; and on the levels before the last
    one these cells all lie on the grid. *)
Theorem spawns_inside_rooms area_index player_level m g d g' :
  DungeonManager.generate_area area_index player_level m g = Some (d, g') →
  (∀ room, room ∈ Dungeon.rooms d →
     (∀ ref, ref ∈ Room.enemies room →
        ∃ e, Dungeon.heap d !! ref = Some e ∧ Room.interior room (e_pos e)) ∧
     (∀ it, it ∈ Room.items room → Room.interior room (i_pos it)) ∧
     (∀ f, f ∈ Room.features room → Room.interior room (f_pos f))) ∧
  (∀ e, e ∈ Dungeon.deref (Dungeon.heap d) (Dungeon.enemies d) →
     ∃ room, room ∈ Dungeon.rooms d ∧ Room.interior room (e_pos e)) ∧
  (∀ it, it ∈ Dungeon.items d →
     ∃ room, room ∈ Dungeon.rooms d ∧ Room.interior room (i_pos it)) ∧
  (∀ room p, room ∈ Dungeon.rooms d → Room.interior room p →
     in_bounds d p → tile d p ≠ WALL) ∧
  (area_index ≠ 6 →
   ∀ room p, room ∈ Dungeon.rooms d → Room.interior room p → in_bounds d p).
Proof.
  unfold DungeonManager.generate_area. intros H.
  destruct (Dungeon.new _ _ _ _) as [d0|] eqn:E0; simplify_eq/=.
  destruct (Dungeon.generate d0 g) as [[d1 g1]|] eqn:E1; simplify_eq/=.
  assert (Dungeon.rooms d0 = [] ∧ Dungeon.area_index d0 = area_index)
    as [Hr0 Hai0].
  { unfold Dungeon.new in E0. case_bool_decide; [done|].
    destruct (Dungeon._get_theme_for_area area_index); by simplify_eq/=. }
  destruct (generate_spawns_inv _ _ _ _ Hr0 E1) as [Hinv1 Hgrid1].
  destruct (_apply_heat_modifiers_inv _ _ _ _ _ H Hinv1)
    as [(I1 & I2 & I3) (R1 & R2 & R3)].
  split; [|split; [|split; [|split]]].
  - intros room Hroom. by destruct (I1 room Hroom) as (_ & ? & _).
  - intros e He. apply list_elem_of_omap in He as (ref & Href & Hl).
    destruct (I2 ref Href) as (e' & room & Hl' & Hroom & Hint).
    exists room. by simplify_eq.
  - done.
  - intros room p Hroom Hint Hin.
    destruct (I1 room Hroom) as (_ & _ & Hc).
    apply Hc; [by apply interior_in_rect|done].
  - intros Hai room p Hroom Hint. rewrite R1 in Hroom.
    rewrite <- Hai0 in Hai.
    destruct (Hgrid1 Hai room Hroom) as (?&?&?&?).
    unfold in_bounds. rewrite R2, R3.
    unfold Room.interior in Hint. lia.
Qed.

Lemma spawns_inside_rooms_witness :
  let m := DungeonManager.set_active_modifiers
             DungeonManager.potential_modifiers manager0 in
  let run := DungeonManager.generate_area 0 1 m mixed_tape in
  let d := (from_option id (blank, random.const 0) run).1 in
  (length (concat (Room.enemies <$> Dungeon.rooms d)) = 8%nat ∧
   length (concat (Room.items <$> Dungeon.rooms d)) = 3%nat ∧
   length (concat (Room.features <$> Dungeon.rooms d)) = 2%nat ∧
   length (Dungeon.enemies d) = 12%nat ∧
   length (Dungeon.items d) = 1%nat) ∧
  (∀ room, room ∈ Dungeon.rooms d →
     (∀ ref, ref ∈ Room.enemies room →
        ∃ e, Dungeon.heap d !! ref = Some e ∧ Room.interior room (e_pos e)) ∧
     (∀ it, it ∈ Room.items room → Room.interior room (i_pos it)) ∧
     (∀ f, f ∈ Room.features room → Room.interior room (f_pos f))) ∧
  (∀ e, e ∈ Dungeon.deref (Dungeon.heap d) (Dungeon.enemies d) →
     ∃ room, room ∈ Dungeon.rooms d ∧ Room.interior room (e_pos e)) ∧
  (∀ it, it ∈ Dungeon.items d →
     ∃ room, room ∈ Dungeon.rooms d ∧ Room.interior room (i_pos it)) ∧
  (∀ room p, room ∈ Dungeon.rooms d → Room.interior room p →
     in_bounds d p → tile d p ≠ WALL) ∧
  (0 ≠ 6 →
   ∀ room p, room ∈ Dungeon.rooms d → Room.interior room p → in_bounds d p).
Proof.
  intros m run d.
  split; [split; [|split; [|split; [|split]]]; vm_compute; reflexivity|].
  apply (spawns_inside_rooms 0 1 m mixed_tape d
           (from_option id (blank, random.const 0) run).2).
  apply (some_eta run (blank, random.const 0)).
  vm_compute. reflexivity.
Defined.

(** ** The exit room of a regular level *)

(** When the exit room is not one of the 5 x 5 fallback rooms, it was placed
    by one of the 100 attempts, which check the distance: its centre is at
    least [max width height // 3] away from the centre of the entrance room,
    and the exit is not the entrance. *)
Lemma generate_exit_far d0 g d g' :
  Dungeon.area_index d0 ≠ 6 → Dungeon.rooms d0 = [] →
  Dungeon.generate d0 g = Some (d, g') →
  ∃ r0 rx,
    r0 ∈ Dungeon.rooms d ∧ rx ∈ Dungeon.rooms d ∧
    Room.room_type r0 = Entrance ∧ Room.room_type rx = Exit ∧
    Dungeon.entrance d = Some (Room.center r0) ∧
    Dungeon.exit d = Some (Room.center rx) ∧
    (Room.width rx ≠ 5 →
       (Z.max (Dungeon.width d) (Dungeon.height d) / 3) *
       (Z.max (Dungeon.width d) (Dungeon.height d) / 3)
       ≤ dist2 (Room.center rx) (Room.center r0) ∧
       Dungeon.entrance d ≠ Dungeon.exit d).
Proof.
  intros Hai Hr H.
  destruct (generate_regular d0 g d g' Hai Hr H)
    as (r0 & mid & rx & Hrooms & Ht0 & Htx & Hen & Hex & _ & Hfar & _).
  exists r0, rx. rewrite Hrooms.
  split; [apply list_elem_of_here|].
  split; [apply list_elem_of_further, elem_of_app; right;
          apply list_elem_of_here|].
  do 4 (split; [done|]).
  intros Hw. destruct (Hfar Hw) as (_ & Hpos & Hd). split; [done|].
  rewrite Hen, Hex. intros Heq.
  assert (Room.center rx = Room.center r0) as Hc by congruence.
  rewrite Hc in Hd. unfold dist2 in Hd. rewrite !Z.sub_diag in Hd. simpl in Hd. nia.
Qed.

(** C7: on the 50 x 50 grid, area 0, with the draws 0, 5, 5 and then 19 for
    ever, the entrance room is 11 x 11 at (20, 20); every later room misses
    its 100 attempts; four rooms go to the corners and the others, the exit
    room among them, to the centre of the grid: the exit is the entrance
    cell, at distance 0, where [max 50 50 / 3] is 16. *)
Theorem generate_exit_on_entrance :
  let run := d0 ← Dungeon.new 50 50 1 0;
             Dungeon.generate d0 (random.of_list [0; 5; 5] 19) in
  ∃ d g', run = Some (d, g') ∧
    Dungeon.area_index d = 0 ∧
    Dungeon.entrance d = Some (25, 25) ∧ Dungeon.exit d = Some (25, 25) ∧
    (Room.room_type <$> Dungeon.rooms d) =
      [Entrance; Special; Special; Special; Special; Special; Special; Exit] ∧
    (Room.center <$> Dungeon.rooms d) =
      [(25, 25); (3, 3); (3, 46); (46, 3); (46, 46); (25, 25); (25, 25);
       (25, 25)] ∧
    Z.max (Dungeon.width d) (Dungeon.height d) / 3 = 16.
Proof.
  intros run.
  exists (from_option id (blank, random.const 0) run).1,
         (from_option id (blank, random.const 0) run).2.
  split; [apply (some_eta run (blank, random.const 0)); vm_compute; reflexivity|].
  repeat split; vm_compute; reflexivity.
Qed.

(** ** The pathfinder *)

(** *** Neighbours *)

Lemma neighbors_spec d c n :
  n ∈ Dungeon.get_walkable_neighbors d c.1 c.2 ↔ step d c n.
Proof.
  destruct c as [x y], n as [nx ny]. unfold Dungeon.get_walkable_neighbors.
  rewrite list_elem_of_omap. unfold step, adjacent, walkable_cell. simpl.
  split.
  - intros ([dx dy] & Hdir & H).
    destruct (bool_decide (0 ≤ x + dx < Dungeon.width d)) eqn:Ex; [|done].
    destruct (bool_decide (0 ≤ y + dy < Dungeon.height d)) eqn:Ey; [|done].
    apply bool_decide_eq_true_1 in Ex, Ey. simpl in H.
    assert (Hin : in_bounds d (x + dx, y + dy)) by done.
    rewrite (get_in_bounds d _ _ Hin) in H. simpl in H.
    destruct (Dungeon.walkable (tile d (x + dx, y + dy))) eqn:Ew; [|done].
    simplify_eq. split; [|done].
    unfold Dungeon.directions in Hdir.
    repeat (apply elem_of_cons in Hdir as [Hdir|Hdir]; [simplify_eq; lia|]).
    by apply elem_of_nil in Hdir.
  - intros (Hadj & Hin & Hw). exists (nx - x, ny - y). split.
    + unfold Dungeon.directions.
      assert ((nx - x = 0 ∧ ny - y = 1) ∨ (nx - x = 1 ∧ ny - y = 0) ∨
              (nx - x = 0 ∧ ny - y = -1) ∨ (nx - x = -1 ∧ ny - y = 0))
        as [[-> ->] | [[-> ->] | [[-> ->] | [-> ->]]]] by lia;
        repeat first [apply list_elem_of_here | apply list_elem_of_further].
    + replace (x + (nx - x)) with nx by lia.
      replace (y + (ny - y)) with ny by lia.
      destruct Hin as [Hx Hy]; simpl in *.
      rewrite !bool_decide_eq_true_2 by done. simpl.
      rewrite (get_in_bounds d nx ny) by done. simpl. by rewrite Hw.
Qed.

(** *** Sorting *)

Lemma insert_by_perm lt e l : Dungeon.insert_by lt e l ≡ₚ e :: l.
Proof.
  induction l as [|e' l IH]; simpl; [done|].
  destruct (lt e.2 e'.2); [done|]. rewrite IH. apply Permutation_swap.
Qed.

Lemma sort_by_perm lt l : Dungeon.sort_by lt l ≡ₚ l.
Proof.
  unfold Dungeon.sort_by.
  assert (∀ acc, foldl (λ acc e, Dungeon.insert_by lt e acc) acc l ≡ₚ acc ++ l)
    as H; [|apply (H [])].
  induction l as [|e l IH]; intros acc; simpl.
  - by rewrite app_nil_r.
  - rewrite IH, insert_by_perm. simpl. apply Permutation_middle.
Qed.

(** *** Sums over the cells *)

Lemma elem_of_cells d c : c ∈ cells d ↔ in_bounds d c.
Proof.
  destruct c as [x y]. unfold cells, in_bounds. simpl.
  rewrite list_elem_of_In.
  rewrite (in_prod_iff (seqZ 0 (Dungeon.width d)) (seqZ 0 (Dungeon.height d))).
  rewrite <- !list_elem_of_In, !elem_of_seqZ. lia.
Qed.

Lemma length_cells d :
  0 ≤ Dungeon.width d → 0 ≤ Dungeon.height d →
  Z.of_nat (length (cells d)) = Dungeon.width d * Dungeon.height d.
Proof.
  intros.
  pose proof (length_prod (seqZ 0 (Dungeon.width d))
                (seqZ 0 (Dungeon.height d))) as E.
  rewrite !length_seqZ in E.
  assert (length (cells d)
          = (Z.to_nat (Dungeon.width d) * Z.to_nat (Dungeon.height d))%nat)
    as -> by exact E.
  lia.
Qed.

Lemma sum_over_le f f' l :
  (∀ c, c ∈ l → f' c ≤ f c) → sum_over f' l ≤ sum_over f l.
Proof.
  induction l as [|a l IH]; intros H; simpl; [done|].
  pose proof (H a (list_elem_of_here _ _)).
  assert (sum_over f' l ≤ sum_over f l); [|lia].
  apply IH. intros c Hc. by apply H, list_elem_of_further.
Qed.

Lemma sum_over_lt f f' l n k :
  n ∈ l → (∀ c, c ∈ l → f' c ≤ f c) → f' n + k ≤ f n →
  sum_over f' l + k ≤ sum_over f l.
Proof.
  induction l as [|a l IH]; intros Hn H Hk; simpl.
  - by apply elem_of_nil in Hn.
  - pose proof (H a (list_elem_of_here _ _)).
    assert (Hl : ∀ c, c ∈ l → f' c ≤ f c).
    { intros c Hc. by apply H, list_elem_of_further. }
    apply elem_of_cons in Hn as [->|Hn].
    + pose proof (sum_over_le f f' l Hl). lia.
    + pose proof (IH Hn Hl Hk). lia.
Qed.

Lemma sum_over_const k l : sum_over (λ _, k) l = k * Z.of_nat (length l).
Proof. induction l as [|a l IH]; simpl; lia. Qed.

Lemma seen_insert d g n v :
  in_bounds d n →
  seen d g + match g !! n with Some _ => 0 | None => 1 end
  ≤ seen d (<[n := v]> g).
Proof.
  intros Hn. unfold seen. apply (sum_over_lt _ _ (cells d) n).
  - by apply elem_of_cells.
  - intros c _. destruct (decide (c = n)) as [->|Hc].
    + rewrite lookup_insert_eq. by destruct (g !! n).
    + by rewrite lookup_insert_ne.
  - rewrite lookup_insert_eq. by destruct (g !! n).
Qed.

Lemma seen_le_cells d g : seen d g ≤ Z.of_nat (length (cells d)).
Proof.
  unfold seen. pose proof (sum_over_const 1 (cells d)) as E.
  assert (sum_over (λ c, match g !! c with Some _ => 1 | None => 0 end)
            (cells d) ≤ sum_over (λ _, 1) (cells d)); [|lia].
  apply sum_over_le. intros c _. by destruct (g !! c).
Qed.

Lemma potential_insert d g n v k :
  0 ≤ k → in_bounds d n →
  (∀ old, g !! n = Some old → v + k ≤ old) →
  (g !! n = None → v + k ≤ Dungeon.width d * Dungeon.height d) →
  potential d (<[n := v]> g) + k ≤ potential d g.
Proof.
  intros Hk Hn Hold Hnew. unfold potential.
  apply (sum_over_lt _ _ (cells d) n).
  - by apply elem_of_cells.
  - intros c _. destruct (decide (c = n)) as [->|Hc].
    + rewrite lookup_insert_eq. simpl.
      destruct (g !! n) as [old|] eqn:E; simpl.
      * specialize (Hold old eq_refl). lia.
      * specialize (Hnew eq_refl). lia.
    + by rewrite lookup_insert_ne.
  - rewrite lookup_insert_eq. simpl.
    destruct (g !! n) as [old|] eqn:E; simpl; auto.
Qed.

Lemma potential_nonneg d g :
  0 ≤ Dungeon.width d → 0 ≤ Dungeon.height d →
  (∀ c v, g !! c = Some v → 0 ≤ v) → 0 ≤ potential d g.
Proof.
  intros Hw Hh Hg. unfold potential.
  pose proof (sum_over_const 0 (cells d)) as E.
  assert (sum_over (λ _, 0) (cells d)
          ≤ sum_over (λ c, default (Dungeon.width d * Dungeon.height d)
                             (g !! c)) (cells d)); [|lia].
  apply sum_over_le. intros c _.
  destruct (g !! c) as [v|] eqn:Ec; simpl; [by eapply Hg|nia].
Qed.

(** *** One neighbour *)

Lemma adjacent_ne a b : adjacent a b → a ≠ b.
Proof. unfold adjacent. intros H ->. lia. Qed.

(** The update of [relax], when the score is new or lower. *)
Lemma relax_update d start end_ current st n gc :
  search_inv d start end_ (Some current) st →
  Dungeon.g_score st !! current = Some gc →
  step d current n →
  (∀ gn, Dungeon.g_score st !! n = Some gn → gc + 1 < gn) →
  let st' :=
    {| Dungeon.came_from := <[n := current]> (Dungeon.came_from st);
       Dungeon.g_score := <[n := gc + 1]> (Dungeon.g_score st);
       Dungeon.open_set := Dungeon.open_set st ++
         [(n, (gc + 1, dist2 n end_))] |} in
  search_inv d start end_ (Some current) st' ∧
  search_measure d st' + 1 ≤ search_measure d st + 1.
Proof.
  intros [I1 I2 I3 I4 I5 I6 I7] Hgc Hstep Hlow st'.
  assert (Hin : in_bounds d n) by (by destruct Hstep as [_ [? _]]).
  assert (Hne : current ≠ n) by (by apply adjacent_ne; destruct Hstep).
  destruct (I2 _ _ Hgc) as [Hcin Hgcb].
  assert (Hns : n ≠ start).
  { intros ->. specialize (Hlow 0 I1). lia. }
  pose proof (seen_insert d (Dungeon.g_score st) n (gc + 1) Hin) as Hseen.
  pose proof (seen_le_cells d (<[n := gc + 1]> (Dungeon.g_score st))) as HK.
  rewrite length_cells in HK by (destruct Hin; lia).
  assert (Hnew : gc + 1 < seen d (<[n := gc + 1]> (Dungeon.g_score st))).
  { destruct (Dungeon.g_score st !! n) as [gn|] eqn:E; [|lia].
    specialize (Hlow gn eq_refl). destruct (I2 _ _ E). lia. }
  assert (Hmono : seen d (Dungeon.g_score st)
                  ≤ seen d (<[n := gc + 1]> (Dungeon.g_score st))).
  { destruct (Dungeon.g_score st !! n); lia. }
  split.
  - split; simpl.
    + by rewrite lookup_insert_ne.
    + intros c v Hl. destruct (decide (c = n)) as [->|Hc].
      * rewrite lookup_insert_eq in Hl. simplify_eq. split; [done|lia].
      * rewrite lookup_insert_ne in Hl by done.
        destruct (I2 _ _ Hl). split; [done|lia].
    + intros c p [Hc|Hc]%elem_of_app.
      * destruct (decide (c = n)) as [->|Hcn].
        -- rewrite lookup_insert_eq. by eexists.
        -- rewrite lookup_insert_ne by done. by eapply I3.
      * apply list_elem_of_singleton in Hc. simplify_eq.
        rewrite lookup_insert_eq. by eexists.
    + intros m c Hl. destruct (decide (m = n)) as [->|Hm].
      * rewrite lookup_insert_eq in Hl. simplify_eq. split; [done|].
        exists (gc + 1), gc. rewrite lookup_insert_eq.
        rewrite lookup_insert_ne by done. split; [done|]. split; [done|lia].
      * rewrite lookup_insert_ne in Hl by done.
        destruct (I4 _ _ Hl) as (Hst & vn & vc & Hvn & Hvc & Hlt).
        split; [done|]. rewrite (lookup_insert_ne _ n m) by done.
        destruct (decide (c = n)) as [->|Hc].
        -- exists vn, (gc + 1). rewrite lookup_insert_eq.
           split; [done|]. split; [done|]. specialize (Hlow vc Hvc). lia.
        -- exists vn, vc. by rewrite lookup_insert_ne.
    + intros c Hc. destruct (decide (c = n)) as [->|Hcn].
      * right. rewrite lookup_insert_eq. by eexists.
      * rewrite lookup_insert_ne in Hc by done.
        destruct (I5 c Hc) as [?|?]; [by left|right].
        by rewrite lookup_insert_ne.
    + intros c Hc. destruct (decide (c = n)) as [->|Hcn].
      * left. eexists. apply elem_of_app. right. apply list_elem_of_here.
      * rewrite lookup_insert_ne in Hc by done.
        destruct (I6 c Hc) as [[p Hp]|[Hcl|Hb]].
        -- left. exists p. apply elem_of_app. by left.
        -- right. left. intros m Hm. destruct (decide (m = n)) as [->|Hmn].
           ++ rewrite lookup_insert_eq. by eexists.
           ++ rewrite lookup_insert_ne by done. by apply Hcl.
        -- by right; right.
    + intros He. destruct (decide (end_ = n)) as [->|Hen].
      * eexists. apply elem_of_app. right. apply list_elem_of_here.
      * rewrite lookup_insert_ne in He by done.
        destruct (I7 He) as [p Hp]. exists p. apply elem_of_app. by left.
  - unfold search_measure. simpl. rewrite length_app. simpl.
    pose proof (potential_insert d (Dungeon.g_score st) n (gc + 1) 1
                  ltac:(lia) Hin) as Hp.
    assert (potential d (<[n := gc + 1]> (Dungeon.g_score st)) + 1
            ≤ potential d (Dungeon.g_score st)); [|lia].
    apply Hp.
    + intros old Ho. specialize (Hlow old Ho). lia.
    + intros _. lia.
Qed.

Lemma relax_spec d start end_ current st n :
  search_inv d start end_ (Some current) st →
  is_Some (Dungeon.g_score st !! current) →
  step d current n →
  ∃ st', Dungeon.relax current end_ st n = Some st' ∧
    search_inv d start end_ (Some current) st' ∧
    is_Some (Dungeon.g_score st' !! n) ∧
    (∀ c, is_Some (Dungeon.g_score st !! c) →
          is_Some (Dungeon.g_score st' !! c)) ∧
    search_measure d st' ≤ search_measure d st.
Proof.
  intros Hinv [gc Hgc] Hstep. unfold Dungeon.relax. rewrite Hgc. simpl.
  destruct (Dungeon.g_score st !! n) as [gn|] eqn:Egn;
    [case_bool_decide as Hlt|].
  - destruct (relax_update d start end_ current st n gc Hinv Hgc Hstep)
      as [Hinv' Hm].
    { intros gn' E. rewrite Egn in E. by simplify_eq. }
    eexists. split; [done|]. split; [done|]. simpl.
    split; [rewrite lookup_insert_eq; by eexists|]. split; [|lia].
    intros c Hc. destruct (decide (c = n)) as [->|Hcn].
    + rewrite lookup_insert_eq. by eexists.
    + by rewrite lookup_insert_ne.
  - exists st. split; [done|]. split; [done|].
    split; [by eexists|]. split; [done|lia].
  - destruct (relax_update d start end_ current st n gc Hinv Hgc Hstep)
      as [Hinv' Hm].
    { intros gn' E. rewrite Egn in E. by simplify_eq. }
    eexists. split; [done|]. split; [done|]. simpl.
    split; [rewrite lookup_insert_eq; by eexists|]. split; [|lia].
    intros c Hc. destruct (decide (c = n)) as [->|Hcn].
    + rewrite lookup_insert_eq. by eexists.
    + by rewrite lookup_insert_ne.
Qed.

Lemma seen_nonneg d g : 0 ≤ seen d g.
Proof.
  unfold seen. pose proof (sum_over_const 0 (cells d)) as E.
  assert (sum_over (λ _, 0) (cells d)
          ≤ sum_over (λ c, match g !! c with Some _ => 1 | None => 0 end)
              (cells d)); [|lia].
  apply sum_over_le. intros c _. by destruct (g !! c).
Qed.

(** *** All the neighbours of a cell *)

Lemma relax_all d start end_ current nbrs st :
  (∀ n, n ∈ nbrs → step d current n) →
  search_inv d start end_ (Some current) st →
  is_Some (Dungeon.g_score st !! current) →
  ∃ st',
    foldl (λ st neighbor, st ← st; Dungeon.relax current end_ st neighbor)
      (Some st) nbrs = Some st' ∧
    search_inv d start end_ (Some current) st' ∧
    (∀ n, n ∈ nbrs → is_Some (Dungeon.g_score st' !! n)) ∧
    (∀ c, is_Some (Dungeon.g_score st !! c) →
          is_Some (Dungeon.g_score st' !! c)) ∧
    search_measure d st' ≤ search_measure d st.
Proof.
  revert st. induction nbrs as [|n nbrs IH]; intros st Hn Hinv Hcur.
  - exists st. split; [done|]. split; [done|].
    split; [by intros n ?%elem_of_nil|]. split; [done|lia].
  - destruct (relax_spec d start end_ current st n Hinv Hcur)
      as (st1 & Hr & Hinv1 & Hn1 & Hmono1 & Hm1).
    { apply Hn, list_elem_of_here. }
    destruct (IH st1) as (st' & Hf & Hinv' & Hall & Hmono & Hm).
    { intros m Hm. by apply Hn, list_elem_of_further. }
    { done. }
    { by apply Hmono1. }
    exists st'. split; [|split; [done|split; [|split]]].
    + simpl. by rewrite Hr.
    + intros m [->|Hm']%elem_of_cons; [by apply Hmono|by apply Hall].
    + intros c Hc. by apply Hmono, Hmono1.
    + lia.
Qed.

(** Taking the first entry of the sorted open set. *)
Lemma search_pop lt d start end_ st current p rest :
  search_inv d start end_ None st →
  Dungeon.sort_by lt (Dungeon.open_set st) = (current, p) :: rest →
  current ≠ end_ →
  let st0 := {| Dungeon.open_set := rest;
                Dungeon.came_from := Dungeon.came_from st;
                Dungeon.g_score := Dungeon.g_score st |} in
  search_inv d start end_ (Some current) st0 ∧
  is_Some (Dungeon.g_score st !! current) ∧
  search_measure d st0 + 1 = search_measure d st.
Proof.
  intros [I1 I2 I3 I4 I5 I6 I7] Hs Hne st0.
  pose proof (sort_by_perm lt (Dungeon.open_set st)) as Hperm.
  rewrite Hs in Hperm.
  assert (Hmem : ∀ x, x ∈ Dungeon.open_set st ↔ x ∈ (current, p) :: rest).
  { intros x. by rewrite Hperm. }
  split; [|split].
  - split; simpl; try done.
    + intros c q Hc. apply (I3 c q), Hmem. by apply list_elem_of_further.
    + intros c Hc. destruct (I6 c Hc) as [[q Hq]|[Hcl|Hb]]; [| |done].
      * apply Hmem, elem_of_cons in Hq as [Hq|Hq].
        -- right. right. by simplify_eq.
        -- left. by exists q.
      * right. by left.
    + intros He. destruct (I7 He) as [q Hq].
      apply Hmem, elem_of_cons in Hq as [Hq|Hq]; [by simplify_eq|].
      by exists q.
  - apply (I3 current p), Hmem, list_elem_of_here.
  - unfold search_measure. simpl.
    apply Permutation_length in Hperm. simpl in Hperm. lia.
Qed.

(** *** Walks *)

Lemma is_walk_cons d a b p :
  is_walk d (a :: b :: p) ↔ step d a b ∧ is_walk d (b :: p).
Proof. done. Qed.

Lemma is_walk_snoc d l a b :
  is_walk d (l ++ [a]) → step d a b → is_walk d ((l ++ [a]) ++ [b]).
Proof.
  intros Hw Hs. induction l as [|x l IH].
  - simpl. done.
  - destruct l as [|y l].
    + simpl in *. destruct Hw as [Hxa _]. done.
    + change (is_walk d (x :: y :: (l ++ [a]))) in Hw.
      apply is_walk_cons in Hw as [Hxy Hw].
      change (is_walk d (x :: y :: ((l ++ [a]) ++ [b]))).
      apply is_walk_cons. split; [done|]. by apply IH.
Qed.

Lemma is_walk_reachable d p a b :
  is_walk d p → head p = Some a → last p = Some b → reachable d a b.
Proof.
  revert a. induction p as [|x p IH]; intros a Hw Hh Hl; [done|].
  simpl in Hh. simplify_eq. destruct p as [|y p].
  - simpl in Hl. simplify_eq. apply rtc_refl.
  - apply is_walk_cons in Hw as [Hs Hw].
    eapply rtc_l; [done|]. apply IH; done.
Qed.

Lemma reconstruct_spec d start end_ busy st :
  search_inv d start end_ busy st →
  ∀ fuel current v acc,
    Dungeon.g_score st !! current = Some v → v < Z.of_nat fuel →
    ∃ chain,
      Dungeon.reconstruct fuel (Dungeon.came_from st) current acc
        = Some (acc ++ chain) ∧
      is_walk d (reverse chain ++ [current]) ∧
      last (current :: chain) = Some start.
Proof.
  intros [I1 I2 I3 I4 I5 I6 I7] fuel.
  induction fuel as [|fuel IH]; intros current v acc Hv Hf.
  - destruct (I2 _ _ Hv). lia.
  - simpl. destruct (Dungeon.came_from st !! current) as [prev|] eqn:Ep.
    + destruct (I4 _ _ Ep) as (Hstep & vn & vc & Hvn & Hvc & Hlt).
      rewrite Hv in Hvn. simplify_eq.
      destruct (IH prev vc (acc ++ [prev]) Hvc ltac:(lia))
        as (chain & Hr & Hw & Hl).
      exists (prev :: chain). split; [|split].
      * rewrite Hr. by rewrite <- app_assoc.
      * rewrite reverse_cons. by apply is_walk_snoc.
      * done.
    + exists []. rewrite app_nil_r. split; [done|]. split; [done|].
      simpl. destruct (I5 current) as [->|[? ?]]; [by eexists|done|].
      congruence.
Qed.

(** *** The search loop *)

Lemma search_loop_eq lt fuel d end_ st :
  Dungeon.search_loop lt fuel d end_ st =
  match Dungeon.sort_by lt (Dungeon.open_set st) with
  | [] => Dungeon.NoPath
  | (current, _) :: rest =>
      match fuel with
      | O => Dungeon.NoResult
      | S fuel =>
          if decide (current = end_) then
            match Dungeon.reconstruct
                    (Z.to_nat (Dungeon.width d * Dungeon.height d))
                    (Dungeon.came_from st) current [current] with
            | Some path => Dungeon.Found (reverse path)
            | None => Dungeon.NoResult
            end
          else
            match foldl (λ st neighbor,
                          st ← st; Dungeon.relax current end_ st neighbor)
                    (Some {| Dungeon.open_set := rest;
                             Dungeon.came_from := Dungeon.came_from st;
                             Dungeon.g_score := Dungeon.g_score st |})
                    (Dungeon.get_walkable_neighbors d current.1 current.2) with
            | Some st => Dungeon.search_loop lt fuel d end_ st
            | None => Dungeon.NoResult
            end
      end
  end.
Proof. destruct fuel; reflexivity. Qed.

(** When the open set is empty, every cell that can be reached has a
    score, and the end has none. *)
Lemma search_done d start end_ st :
  search_inv d start end_ None st → [] = Dungeon.open_set st →
  ¬ reachable d start end_.
Proof.
  intros [I1 I2 I3 I4 I5 I6 I7] Ho Hr.
  assert (Hdom : is_Some (Dungeon.g_score st !! end_)).
  { revert Hr. apply (rtc_ind_r (λ c, is_Some (Dungeon.g_score st !! c))).
    - by eexists.
    - intros b c _ Hbc Hb.
      destruct (I6 b Hb) as [[q Hq]|[Hcl|?]]; [|by apply Hcl|done].
      rewrite <- Ho in Hq. by apply elem_of_nil in Hq. }
  destruct (I7 Hdom) as [q Hq]. rewrite <- Ho in Hq.
  by apply elem_of_nil in Hq.
Qed.

(** With the invariant and fuel above the measure, the loop ends with a
    walk from [start] to [end_], or with "no path" when there is none. *)
Lemma search_loop_spec lt d start end_ fuel st :
  search_inv d start end_ None st →
  search_measure d st < Z.of_nat fuel →
  (∃ path, Dungeon.search_loop lt fuel d end_ st = Dungeon.Found path ∧
           head path = Some start ∧ last path = Some end_ ∧ is_walk d path) ∨
  (Dungeon.search_loop lt fuel d end_ st = Dungeon.NoPath ∧
   ¬ reachable d start end_).
Proof.
  revert st. induction fuel as [|fuel IH]; intros st Hinv Hm;
    rewrite search_loop_eq;
    pose proof (sort_by_perm lt (Dungeon.open_set st)) as Hperm;
    destruct (Dungeon.sort_by lt (Dungeon.open_set st))
      as [|[current p] rest] eqn:Es.
  1, 3: right; split; [done|];
    apply Permutation_nil_l in Hperm; by apply (search_done d start end_ st).
  - (* no fuel: the measure is positive *)
    exfalso. destruct Hinv as [I1 I2 I3 I4 I5 I6 I7].
    destruct (I2 _ _ I1) as [[? ?] _].
    pose proof (potential_nonneg d (Dungeon.g_score st)
                  ltac:(lia) ltac:(lia)) as Hp.
    unfold search_measure in Hm. apply Permutation_length in Hperm.
    simpl in Hperm.
    assert (0 ≤ potential d (Dungeon.g_score st)); [|lia].
    apply Hp. intros c v Hv. destruct (I2 _ _ Hv). lia.
  - destruct (decide (current = end_)) as [->|Hne].
    + (* the end is taken from the open set *)
      left.
      assert (Hin : (end_, p) ∈ Dungeon.open_set st).
      { rewrite <- Hperm. apply list_elem_of_here. }
      destruct (inv_open _ _ _ _ _ Hinv _ _ Hin) as [v Hv].
      destruct (inv_score _ _ _ _ _ Hinv _ _ Hv) as [[? ?] Hvb].
      pose proof (seen_le_cells d (Dungeon.g_score st)) as HK.
      rewrite length_cells in HK by lia.
      destruct (reconstruct_spec d start end_ None st Hinv
                  (Z.to_nat (Dungeon.width d * Dungeon.height d))
                  end_ v [end_] Hv ltac:(lia)) as (chain & Hr & Hw & Hl).
      rewrite Hr. eexists. split; [done|].
      change ([end_] ++ chain) with (end_ :: chain). split; [|split].
      * by rewrite head_reverse.
      * by rewrite last_reverse.
      * by rewrite reverse_cons.
    + destruct (search_pop lt d start end_ st current p rest Hinv Es Hne)
        as (Hinv0 & Hcur & Hm0).
      destruct (relax_all d start end_ current
                  (Dungeon.get_walkable_neighbors d current.1 current.2)
                  _ (λ n, proj1 (neighbors_spec d current n)) Hinv0 Hcur)
        as (st' & Hf & Hinv' & Hall & Hmono & Hm').
      rewrite Hf. apply IH; [|lia].
      destruct Hinv' as [I1 I2 I3 I4 I5 I6 I7]. split; try done.
      intros c Hc. destruct (I6 c Hc) as [?|[?|Hb]]; [by left|by right; left|].
      right. left. simplify_eq. intros n Hn.
      by apply Hall, neighbors_spec.
Qed.

(** *** [find_path] *)

Lemma find_path_guard d start end_ :
  (bool_decide (start.1 < 0) || bool_decide (start.1 >= Dungeon.width d) ||
   bool_decide (start.2 < 0) || bool_decide (start.2 >= Dungeon.height d) ||
   bool_decide (end_.1 < 0) || bool_decide (end_.1 >= Dungeon.width d) ||
   bool_decide (end_.2 < 0) || bool_decide (end_.2 >= Dungeon.height d) ||
   bool_decide (Dungeon.get d start.1 start.2 = Some WALL) ||
   bool_decide (Dungeon.get d end_.1 end_.2 = Some WALL)) = false ↔
  in_bounds d start ∧ in_bounds d end_ ∧
  tile d start ≠ WALL ∧ tile d end_ ≠ WALL.
Proof.
  destruct start as [sx sy], end_ as [ex ey]. simpl.
  rewrite !orb_false_iff, !bool_decide_eq_false. unfold in_bounds. simpl.
  split.
  - intros (((((((((?&?)&?)&?)&?)&?)&?)&?)&Hs)&He).
    assert (Hsin : in_bounds d (sx, sy)) by (unfold in_bounds; simpl; lia).
    assert (Hein : in_bounds d (ex, ey)) by (unfold in_bounds; simpl; lia).
    rewrite (get_in_bounds d sx sy Hsin) in Hs.
    rewrite (get_in_bounds d ex ey Hein) in He.
    split; [done|]. split; [done|]. split; congruence.
  - intros (Hsin & Hein & Hs & He).
    rewrite (get_in_bounds d sx sy Hsin), (get_in_bounds d ex ey Hein).
    destruct Hsin, Hein. simpl in *.
    repeat split; try lia; congruence.
Qed.

Lemma search_inv_init d start end_ :
  in_bounds d start →
  let st := {| Dungeon.open_set := [(start, (0, 0))];
               Dungeon.came_from := ∅;
               Dungeon.g_score := {[ start := 0 ]} |} in
  search_inv d start end_ None st ∧
  search_measure d st
  < Z.of_nat (S (Z.to_nat (Dungeon.width d * Dungeon.height d) *
                 Z.to_nat (Dungeon.width d * Dungeon.height d))).
Proof.
  intros Hin st.
  pose proof (seen_insert d ∅ start 0 Hin) as Hseen.
  rewrite lookup_empty, insert_empty in Hseen.
  pose proof (seen_nonneg d ∅).
  split.
  - split; simpl.
    + apply lookup_singleton_eq.
    + intros c v [<- <-]%lookup_singleton_Some. split; [done|lia].
    + intros c p ?%list_elem_of_singleton. simplify_eq.
      rewrite lookup_singleton_eq. by eexists.
    + intros n c Hl. by rewrite lookup_empty in Hl.
    + intros c [v [<- <-]%lookup_singleton_Some]. by left.
    + intros c [v [<- <-]%lookup_singleton_Some]. left.
      eexists. apply list_elem_of_here.
    + intros [v [<- <-]%lookup_singleton_Some].
      eexists. apply list_elem_of_here.
  - set (K := Dungeon.width d * Dungeon.height d).
    assert (HK : 1 ≤ K) by (destruct Hin; unfold K; nia).
    assert (Z.of_nat (S (Z.to_nat K * Z.to_nat K)) = 1 + K * K) as ->.
    { rewrite Nat2Z.inj_succ, Nat2Z.inj_mul, Z2Nat.id by lia. lia. }
    unfold search_measure. simpl.
    pose proof (potential_insert d ∅ start 0 K ltac:(lia) Hin) as Hp.
    rewrite insert_empty in Hp.
    assert (Hp0 : potential d ∅ ≤ K * K).
    { unfold potential. pose proof (sum_over_const K (cells d)) as E.
      rewrite length_cells in E by (destruct Hin; lia). fold K in E.
      rewrite <- E. apply sum_over_le. intros c _.
      rewrite lookup_empty. simpl. fold K. lia. }
    assert (potential d {[start := 0]} + K ≤ potential d ∅).
    { apply Hp; [by intros old; rewrite lookup_empty|]. intros _. fold K. lia. }
    lia.
Qed.

Lemma find_path_outcome_spec lt d start end_ :
  (Dungeon.find_path_outcome lt d start end_ = Dungeon.NoPath ∧
   ¬ (in_bounds d start ∧ in_bounds d end_ ∧
      tile d start ≠ WALL ∧ tile d end_ ≠ WALL ∧
      reachable d start end_)) ∨
  (∃ path, Dungeon.find_path_outcome lt d start end_ = Dungeon.Found path ∧
     in_bounds d start ∧ in_bounds d end_ ∧
     tile d start ≠ WALL ∧ tile d end_ ≠ WALL ∧
     head path = Some start ∧ last path = Some end_ ∧ is_walk d path).
Proof.
  unfold Dungeon.find_path_outcome.
  pose proof (find_path_guard d start end_) as Hg.
  match type of Hg with ?b = false ↔ _ => destruct b end.
  - left. split; [done|]. intros (?&?&?&?&_).
    assert (true = false); [|done]. by apply Hg.
  - destruct Hg as [Hg _]. destruct (Hg eq_refl) as (Hs & He & Hts & Hte).
    destruct (search_inv_init d start end_ Hs) as [Hinv Hm].
    destruct (search_loop_spec lt d start end_ _ _ Hinv Hm)
      as [(path & Hr & Hh & Hl & Hw)|[Hr Hn]].
    + right. exists path. by rewrite Hr.
    + left. split; [done|]. by intros (_&_&_&_&?).
Qed.

(** The pathfinder finds a walk whenever there is one. *)
Lemma find_path_complete lt d start end_ :
  in_bounds d start → in_bounds d end_ →
  tile d start ≠ WALL → tile d end_ ≠ WALL → reachable d start end_ →
  ∃ path, Dungeon.find_path_by lt d start end_ = Some path ∧
    head path = Some start ∧ last path = Some end_ ∧ is_walk d path.
Proof.
  intros Hs He Hts Hte Hr. unfold Dungeon.find_path_by.
  destruct (find_path_outcome_spec lt d start end_)
    as [[_ Hn]|(path & -> & _ & _ & _ & _ & Hh & Hl & Hw)].
  - by destruct Hn.
  - by exists path.
Qed.

(** A path it returns starts on a cell of the grid. *)
Lemma find_path_in_bounds lt d start end_ path :
  Dungeon.find_path_by lt d start end_ = Some path → in_bounds d start.
Proof.
  unfold Dungeon.find_path_by.
  destruct (find_path_outcome_spec lt d start end_)
    as [[-> _]|(path' & -> & Hs & _)]; [done|]. done.
Qed.

(** C6, as amended: whatever the order in which equal or rounded
    priorities are compared, [find_path] returns [None] exactly when the
    start or the end is off the grid or on a wall tile, or the end cannot
    be reached from the start by moves onto neighbouring walkable cells;
    otherwise it returns a sequence of cells that begins with the start,
    ends with the end, and in which every cell after the first is a
    walkable cell of the grid next to the cell before it.  (The start
    itself need not be walkable: it is only required not to be a wall.) *)
Theorem find_path_spec lt d start end_ :
  (Dungeon.find_path_by lt d start end_ = None ↔
     ¬ in_bounds d start ∨ ¬ in_bounds d end_ ∨
     tile d start = WALL ∨ tile d end_ = WALL ∨
     ¬ reachable d start end_) ∧
  (∀ path, Dungeon.find_path_by lt d start end_ = Some path →
     head path = Some start ∧ last path = Some end_ ∧ is_walk d path).
Proof.
  unfold Dungeon.find_path_by.
  destruct (find_path_outcome_spec lt d start end_)
    as [[-> Hn]|(path & -> & Hs & He & Hts & Hte & Hh & Hl & Hw)].
  - split; [|done]. split; [intros _|done].
    destruct (decide (0 ≤ start.1 < Dungeon.width d ∧
                      0 ≤ start.2 < Dungeon.height d)) as [Hs|Hs];
      [|by left].
    destruct (decide (0 ≤ end_.1 < Dungeon.width d ∧
                      0 ≤ end_.2 < Dungeon.height d)) as [He|He];
      [|by right; left].
    destruct (decide (tile d start = WALL)) as [Hts|Hts];
      [by right; right; left|].
    destruct (decide (tile d end_ = WALL)) as [Hte|Hte];
      [by right; right; right; left|].
    right. right. right. right. intros Hr. by apply Hn.
  - split.
    + split; [done|]. intros [H|[H|[H|[H|H]]]]; try done.
      destruct H. by eapply is_walk_reachable.
    + intros path' [= <-]. done.
Qed.

(** A path of two or more cells that begins on a cell that is not walkable
    refutes C6 as stated. *)
Lemma path_from_unwalkable d start end_ a b path :
  Dungeon.find_path d start end_ = Some (a :: b :: path) →
  Dungeon.walkable (tile d a) = false →
  ¬ (∀ d start end_ path,
       Dungeon.find_path d start end_ = Some path →
       head path = Some start ∧ last path = Some end_ ∧
       ∀ i a b, path !! i = Some a → path !! S i = Some b →
                adjacent a b ∧ walkable_cell d a ∧ walkable_cell d b).
Proof.
  intros Hp Hw H.
  destruct (H d start end_ _ Hp) as (_ & _ & Hpairs).
  destruct (Hpairs 0%nat a b eq_refl eq_refl) as (_ & [_ Ha] & _).
  congruence.
Qed.

(** C6 as stated fails: on the level generated from the tape that repeats
    7, after a pass of trap placement whose draws are all 9, the cell
    (10, 10) of the entrance room is a trap; the path from it to its
    neighbour (11, 10) is returned, and begins on the trap, which is not a
    walkable cell. *)
Lemma find_path_from_trap_counterexample :
  ¬ (∀ d start end_ path,
       Dungeon.find_path d start end_ = Some path →
       head path = Some start ∧ last path = Some end_ ∧
       ∀ i a b, path !! i = Some a → path !! S i = Some b →
                adjacent a b ∧ walkable_cell d a ∧ walkable_cell d b).
Proof.
  apply (path_from_unwalkable trapped9 (10, 10) (11, 10) (10, 10) (11, 10) []).
  - vm_compute. reflexivity.
  - vm_compute. reflexivity.
Qed.

(** ** Every room can be reached from the entrance *)

Lemma center_in_rect room :
  room_size_ok room → in_rect room (Room.center room).
Proof.
  intros (Hw & Hh & _). unfold in_rect, Room.center. simpl.
  pose proof (Z.div_pos (Room.width room) 2).
  pose proof (Z.div_lt_upper_bound (Room.width room) 2 (Room.width room)).
  pose proof (Z.div_pos (Room.height room) 2).
  pose proof (Z.div_lt_upper_bound (Room.height room) 2 (Room.height room)).
  lia.
Qed.

(** The centre of a room that is fine is not a wall, when it is on the
    grid. *)
Lemma center_not_wall d room :
  room_ok d room → in_bounds d (Room.center room) →
  tile d (Room.center room) ≠ WALL.
Proof.
  intros (Hs & _ & Hc) Hin. apply walkable_not_wall, Hc; [|done].
  by apply center_in_rect.
Qed.

(** C1, as amended: on every level [generate] produces for an area other
    than the last one, and on the level of the last area when the grid is
    at least 21 wide and 20 high, the centre of every room can be reached
    from the entrance by moves onto neighbouring walkable cells, and
    [find_path] (whatever the order of equal priorities) returns a walk from
    the entrance to it. *)
Theorem generated_rooms_reachable lt width height player_level area_index
    g d g' :
  (d0 ← Dungeon.new width height player_level area_index;
   Dungeon.generate d0 g) = Some (d, g') →
  area_index ≠ 6 ∨ (21 ≤ width ∧ 20 ≤ height) →
  ∃ entrance, Dungeon.entrance d = Some entrance ∧
    ∀ room, room ∈ Dungeon.rooms d →
      reachable d entrance (Room.center room) ∧
      ∃ path,
        Dungeon.find_path_by lt d entrance (Room.center room) = Some path ∧
        head path = Some entrance ∧ last path = Some (Room.center room) ∧
        is_walk d path.
Proof.
  intros H Hsize.
  destruct (Dungeon.new _ _ _ _) as [d0|] eqn:E0; simplify_eq/=.
  assert (Dungeon.rooms d0 = [] ∧ Dungeon.area_index d0 = area_index ∧
          Dungeon.width d0 = width ∧ Dungeon.height d0 = height)
    as (Hr0 & Hai0 & Hw0 & Hh0).
  { unfold Dungeon.new in E0. case_bool_decide; [done|].
    destruct (Dungeon._get_theme_for_area area_index); by simplify_eq/=. }
  destruct (decide (area_index = 6)) as [Hai|Hai].
  - destruct Hsize as [?|[Hw Hh]]; [done|].
    rewrite <- Hai0 in Hai. rewrite <- Hw0 in Hw. rewrite <- Hh0 in Hh.
    destruct (generate_final d0 g d g' Hai Hr0 H)
      as (t & s1 & s2 & s3 & Hrooms & _ & _ & _ & _ & Hen & _ & Hok & Hre & _).
    exists (Room.center s3). split; [done|]. intros room Hroom.
    destruct (Hre Hw Hh room Hroom) as [Hin Hreach]. split; [done|].
    assert (Hs3 : s3 ∈ Dungeon.rooms d).
    { rewrite Hrooms. do 3 apply list_elem_of_further. apply list_elem_of_here. }
    destruct (Hre Hw Hh s3 Hs3) as [Hin3 _].
    apply find_path_complete; try done.
    + apply center_not_wall; [by apply Hok|done].
    + apply center_not_wall; [by apply Hok|done].
  - rewrite <- Hai0 in Hai.
    destruct (generate_regular d0 g d g' Hai Hr0 H)
      as (r0 & mid & rx & Hrooms & _ & _ & Hen & _ & Hok & _).
    exists (Room.center r0). split; [done|]. intros room Hroom.
    destruct (Hok room Hroom) as (Hrok & Hgrid & Hreach). split; [done|].
    assert (Hr0in : r0 ∈ Dungeon.rooms d).
    { rewrite Hrooms. apply list_elem_of_here. }
    destruct (Hok r0 Hr0in) as (Hrok0 & Hgrid0 & _).
    assert (Hc : ∀ r, room_ok d r → room_in_grid d r →
                      in_bounds d (Room.center r)).
    { intros r Hro (?&?&?&?).
      pose proof (center_in_rect r ltac:(by destruct Hro)) as [? ?].
      unfold in_bounds. lia. }
    apply find_path_complete; try done.
    + by apply Hc.
    + by apply Hc.
    + apply center_not_wall; [done|by apply Hc].
    + apply center_not_wall; [done|by apply Hc].
Qed.

Lemma generated_rooms_reachable_witness :
  let run := d0 ← Dungeon.new 50 50 1 0;
             Dungeon.generate d0 (random.const 7) in
  let d := (from_option id (blank, random.const 7) run).1 in
  ∃ entrance, Dungeon.entrance d = Some entrance ∧
    ∀ room, room ∈ Dungeon.rooms d →
      reachable d entrance (Room.center room) ∧
      ∃ path,
        Dungeon.find_path d entrance (Room.center room) = Some path ∧
        head path = Some entrance ∧ last path = Some (Room.center room) ∧
        is_walk d path.
Proof.
  intros run d.
  apply (generated_rooms_reachable Dungeon.prio_lt 50 50 1 0 (random.const 7)
           d (from_option id (blank, random.const 7) run).2).
  - apply (some_eta run (blank, random.const 7)). vm_compute. reflexivity.
  - left. lia.
Defined.

(** A level whose entrance is off the grid refutes C1 as stated. *)
Lemma entrance_off_grid width height player_level area_index g d g' entrance :
  (d0 ← Dungeon.new width height player_level area_index;
   Dungeon.generate d0 g) = Some (d, g') →
  Dungeon.entrance d = Some entrance → entrance.2 < 0 →
  (0 < length (Dungeon.rooms d))%nat →
  ¬ (∀ width height player_level area_index g d g',
       (d0 ← Dungeon.new width height player_level area_index;
        Dungeon.generate d0 g) = Some (d, g') →
       ∃ entrance, Dungeon.entrance d = Some entrance ∧
         ∀ room, room ∈ Dungeon.rooms d →
           reachable d entrance (Room.center room) ∧
           ∃ path,
             Dungeon.find_path d entrance (Room.center room) = Some path).
Proof.
  intros Hrun Hen Hneg Hrooms H.
  destruct (H _ _ _ _ _ _ _ Hrun) as (e & He & Hall).
  rewrite Hen in He. simplify_eq.
  destruct (Dungeon.rooms d) as [|room rooms]; [simpl in Hrooms; lia|].
  destruct (Hall room (list_elem_of_here _ _)) as (_ & path & Hp).
  apply find_path_in_bounds in Hp as [_ ?]. lia.
Qed.

(** C1 as stated fails: the level of the last area on a grid 30 wide and
    10 high has its entrance room at (10, -8); the entrance (13, -5) is
    off the grid and the pathfinder finds no path from it. *)
Lemma final_area_entrance_counterexample :
  ¬ (∀ width height player_level area_index g d g',
       (d0 ← Dungeon.new width height player_level area_index;
        Dungeon.generate d0 g) = Some (d, g') →
       ∃ entrance, Dungeon.entrance d = Some entrance ∧
         ∀ room, room ∈ Dungeon.rooms d →
           reachable d entrance (Room.center room) ∧
           ∃ path,
             Dungeon.find_path d entrance (Room.center room) = Some path).
Proof.
  apply (entrance_off_grid 30 10 1 6 (random.const 0)
           (from_option id (blank, random.const 0)
              (d0 ← Dungeon.new 30 10 1 6;
               Dungeon.generate d0 (random.const 0))).1
           (from_option id (blank, random.const 0)
              (d0 ← Dungeon.new 30 10 1 6;
               Dungeon.generate d0 (random.const 0))).2
           (13, -5)).
  - apply (some_eta (d0 ← Dungeon.new 30 10 1 6;
                     Dungeon.generate d0 (random.const 0))
             (blank, random.const 0)).
    vm_compute. reflexivity.
  - vm_compute. reflexivity.
  - simpl. lia.
  - vm_compute. lia.
Qed.

(** ** Moving the player *)

Lemma some_eta_fst {A B} (o : option (A * B)) (dflt : A * B) (a : A) :
  bool_decide (is_Some o) = true → (from_option id dflt o).1 = a →
  o = Some (a, (from_option id dflt o).2).
Proof.
  destruct o as [[a' b]|]; [by intros _ <-|]. intros H.
  apply bool_decide_eq_true_1 in H. by destruct H.
Qed.

Lemma py_index_np {A} (l : list A) i x :
  py_index l i = Some x →
  ∃ k, np_index (Z.of_nat (length l)) i = Some k ∧
       0 ≤ k < Z.of_nat (length l) ∧ l !! Z.to_nat k = Some x.
Proof.
  unfold py_index, np_index. intros H.
  case_bool_decide as H1; [by exists i|].
  case_bool_decide as H2; [|done].
  exists (i + Z.of_nat (length l)). split; [done|]. split; [lia|done].
Qed.

Lemma py_index_insert {A} (l : list A) i k y :
  np_index (Z.of_nat (length l)) i = Some k →
  py_index (<[Z.to_nat k := y]> l) i = Some y.
Proof.
  unfold py_index, np_index. rewrite length_insert. intros H.
  case_bool_decide as H1; simplify_eq.
  - apply list_lookup_insert_eq. lia.
  - case_bool_decide as H2; simplify_eq. apply list_lookup_insert_eq. lia.
Qed.

(** The level written back by [move_player] is the current level
    afterwards. *)
Lemma get_store_dungeon m d0 d' p :
  DungeonManager.get_current_dungeon m = Some d0 →
  DungeonManager.get_current_dungeon
    (DungeonManager.store_dungeon (DungeonManager.current_area m) d'
       (DungeonManager.set_player_pos p m)) = Some d'.
Proof.
  unfold DungeonManager.get_current_dungeon, DungeonManager.store_dungeon.
  intros (k & Hk & _ & _)%py_index_np. simpl. rewrite Hk. simpl.
  by apply py_index_insert.
Qed.

(** [move_player] from its guard on. *)
Lemma move_player_cases dx dy m d pos :
  DungeonManager.get_current_dungeon m = Some d →
  DungeonManager.player_pos m = Some pos →
  DungeonManager.move_player dx dy m =
  if decide (in_bounds d (target pos dx dy) ∧ tile d (target pos dx dy) ≠ WALL)
  then
    let tile_type := tile d (target pos dx dy) in
    let new_x := pos.1 + dx in
    let new_y := pos.2 + dy in
    if decide (tile_type = DOOR) then
      dungeon ← DungeonManager.open_door (new_x, new_y) d;
      DungeonManager.resolve_move new_x new_y tile_type dungeon m
    else if decide (tile_type = STAIRS_UP) then
      if bool_decide (DungeonManager.current_area m > 0) then
        '(_, self) ← DungeonManager.enter_area
                       (DungeonManager.current_area m - 1) m;
        Some (Moved, self)
      else DungeonManager.resolve_move new_x new_y tile_type d m
    else if decide (tile_type = STAIRS_DOWN) then
      if bool_decide (DungeonManager.current_area m
                      < Z.of_nat (length (DungeonManager.dungeons m)) - 1)
      then
        '(_, self) ← DungeonManager.enter_area
                       (DungeonManager.current_area m + 1) m;
        Some (Moved, self)
      else DungeonManager.resolve_move new_x new_y tile_type d m
    else DungeonManager.resolve_move new_x new_y tile_type d m
  else Some (Blocked, m).
Proof.
  intros Hd Hp. unfold DungeonManager.move_player, target.
  unfold DungeonManager.get_current_dungeon in Hd. rewrite Hd, Hp. simpl.
  destruct (decide _) as [[Hin Ht]|Hno].
  - destruct Hin as [Hx Hy]; simpl in *.
    rewrite (get_in_bounds d (pos.1 + dx) (pos.2 + dy)) by done.
    rewrite (bool_decide_eq_true_2 (0 ≤ pos.1 + dx < Dungeon.width d)) by done.
    rewrite (bool_decide_eq_true_2 (0 ≤ pos.2 + dy < Dungeon.height d)) by done.
    rewrite (bool_decide_eq_true_2 (Some (tile d (pos.1 + dx, pos.2 + dy))
                                    ≠ Some WALL)).
    2: { congruence. }
    reflexivity.
  - destruct (bool_decide (0 ≤ pos.1 + dx < Dungeon.width d)) eqn:E1; [|done].
    destruct (bool_decide (0 ≤ pos.2 + dy < Dungeon.height d)) eqn:E2; [|done].
    apply bool_decide_eq_true_1 in E1, E2. simpl.
    rewrite (get_in_bounds d (pos.1 + dx) (pos.2 + dy)) by done.
    case_bool_decide as Hw; [|done]. destruct Hno. split; [done|].
    unfold target. congruence.
Qed.

(** Entering an area of the list: the player is put on the entrance of
    area 0, and on the exit of every other area (the test
    [area_index > self.current_area] comes after the assignment of
    [current_area]). *)
Lemma enter_area_valid idx m :
  0 ≤ idx < Z.of_nat (length (DungeonManager.dungeons m)) →
  ∃ t, DungeonManager.dungeons m !! Z.to_nat idx = Some t ∧
    DungeonManager.enter_area idx m =
      Some (true,
            DungeonManager.set_player_pos
              (if decide (idx = 0 ∨ DungeonManager.player_pos m = None)
               then Dungeon.entrance t else Dungeon.exit t)
              (DungeonManager.set_current_area idx m)).
Proof.
  intros Hidx. unfold DungeonManager.enter_area.
  rewrite (bool_decide_eq_true_2
             (0 ≤ idx < Z.of_nat (length (DungeonManager.dungeons m)))) by done.
  simpl.
  destruct (DungeonManager.dungeons m !! Z.to_nat idx) as [t|] eqn:Et.
  2: { apply lookup_ge_None in Et. lia. }
  unfold py_index.
  rewrite (bool_decide_eq_true_2
             (0 ≤ idx < Z.of_nat (length (DungeonManager.dungeons m)))) by done.
  rewrite Et. simpl. exists t. split; [done|].
  destruct (decide (idx = 0 ∨ DungeonManager.player_pos m = None)) as [Hc|Hc].
  - assert (bool_decide (idx = 0)
            || bool_decide (DungeonManager.player_pos m = None) = true) as ->.
    { destruct Hc; [rewrite (bool_decide_eq_true_2 (idx = 0)) by done; done|].
      rewrite (bool_decide_eq_true_2 (DungeonManager.player_pos m = None))
        by done. apply orb_true_r. }
    done.
  - rewrite !bool_decide_eq_false_2 by tauto. simpl.
    by rewrite bool_decide_eq_false_2 by lia.
Qed.

Lemma current_area_in_range m d :
  DungeonManager.get_current_dungeon m = Some d →
  0 ≤ DungeonManager.current_area m →
  DungeonManager.current_area m < Z.of_nat (length (DungeonManager.dungeons m)).
Proof.
  unfold DungeonManager.get_current_dungeon, py_index. intros H Hc.
  case_bool_decide; [lia|]. case_bool_decide; [lia|done].
Qed.

(** The door branch: the level keeps its size and spawns; the grid and the
    objects change only when the first object of the cell is a closed
    door. *)
Lemma open_door_spec p d :
  in_bounds d p →
  ∃ d', DungeonManager.open_door p d = Some d' ∧
    Dungeon.width d' = Dungeon.width d ∧ Dungeon.height d' = Dungeon.height d ∧
    Dungeon.items d' = Dungeon.items d ∧ Dungeon.enemies d' = Dungeon.enemies d ∧
    Dungeon.heap d' = Dungeon.heap d ∧
    (d' = d ∨
     ∃ i obj, list_find (λ obj, o_pos obj = p) (Dungeon.objects d) = Some (i, obj) ∧
       o_state obj = closed ∧
       Dungeon.objects d' =
         <[i := {| o_pos := o_pos obj; o_state := open |}]> (Dungeon.objects d) ∧
       Dungeon.grid d' = <[p := FLOOR]> (Dungeon.grid d)).
Proof.
  intros Hin. unfold DungeonManager.open_door.
  destruct (list_find _ _) as [[i obj]|] eqn:Ef; [|by exists d; auto 10].
  destruct (decide (o_state obj = closed)) as [Hc|Hc]; [|by exists d; auto 10].
  destruct p as [x y]. simpl.
  rewrite put_in_bounds by done. eexists. split; [done|]. simpl.
  do 5 (split; [done|]). right. by exists i, obj.
Qed.

(** A move that is not blocked goes to a cell of the grid that is not a
    wall; it puts the player there, in the same area, or it takes the
    stairs to the neighbouring area and changes no level. *)
Theorem move_player_lands m dx dy r m' d pos :
  DungeonManager.get_current_dungeon m = Some d →
  DungeonManager.player_pos m = Some pos →
  0 ≤ DungeonManager.current_area m →
  DungeonManager.move_player dx dy m = Some (r, m') → r ≠ Blocked →
  in_bounds d (target pos dx dy) ∧ tile d (target pos dx dy) ≠ WALL ∧
  ((DungeonManager.current_area m' = DungeonManager.current_area m ∧
    DungeonManager.player_pos m' = Some (target pos dx dy)) ∨
   (r = Moved ∧ DungeonManager.dungeons m' = DungeonManager.dungeons m ∧
    ((tile d (target pos dx dy) = STAIRS_UP ∧
      DungeonManager.current_area m' = DungeonManager.current_area m - 1) ∨
     (tile d (target pos dx dy) = STAIRS_DOWN ∧
      DungeonManager.current_area m' = DungeonManager.current_area m + 1)))).
Proof.
  intros Hd Hp Hc H Hr. rewrite (move_player_cases dx dy m d pos Hd Hp) in H.
  destruct (decide _) as [[Hin Ht]|_]; [|by simplify_eq].
  split; [done|]. split; [done|]. simpl in H.
  pose proof (current_area_in_range m d Hd Hc) as Hlt.
  assert (Hres : ∀ v d1, in_bounds d1 (target pos dx dy) →
            DungeonManager.resolve_move (pos.1 + dx) (pos.2 + dy) v d1 m
              = Some (r, m') →
            DungeonManager.current_area m' = DungeonManager.current_area m ∧
            DungeonManager.player_pos m' = Some (target pos dx dy)).
  { intros v d1 Hin1 Hrm.
    destruct (resolve_move_spec _ _ v d1 m Hin1) as (r1 & m1 & E & ? & ?).
    unfold target in *. rewrite E in Hrm. by simplify_eq. }
  destruct (decide (tile d (target pos dx dy) = DOOR)) as [Hdoor|_].
  { destruct (open_door_spec (target pos dx dy) d Hin)
      as (d1 & Ho & Hw & Hh & _).
    unfold target in Ho. simpl in Ho. rewrite Ho in H. simpl in H. left.
    eapply (Hres _ d1); [|done]. unfold in_bounds. by rewrite Hw, Hh. }
  destruct (decide (tile d (target pos dx dy) = STAIRS_UP)) as [Hup|_].
  { case_bool_decide as Hgt; [|left; by eapply Hres].
    destruct (enter_area_valid (DungeonManager.current_area m - 1) m)
      as (t & _ & E); [lia|].
    rewrite E in H. simpl in H. simplify_eq. right. auto. }
  destruct (decide (tile d (target pos dx dy) = STAIRS_DOWN)) as [Hdown|_].
  { case_bool_decide as Hgt; [|left; by eapply Hres].
    destruct (enter_area_valid (DungeonManager.current_area m + 1) m)
      as (t & _ & E); [lia|].
    rewrite E in H. simpl in H. simplify_eq. right. auto. }
  left. by eapply Hres.
Qed.

Lemma move_player_lands_witness :
  let m := DungeonManager.set_player_pos (Some (37, 27)) world_mix in
  let run := DungeonManager.move_player 1 0 m in
  let r := (from_option id (Blocked, m) run).1 in
  let m' := (from_option id (Blocked, m) run).2 in
  let d := level_of m in
  in_bounds d (target (37, 27) 1 0) ∧ tile d (target (37, 27) 1 0) ≠ WALL ∧
  ((DungeonManager.current_area m' = DungeonManager.current_area m ∧
    DungeonManager.player_pos m' = Some (target (37, 27) 1 0)) ∨
   (r = Moved ∧ DungeonManager.dungeons m' = DungeonManager.dungeons m ∧
    ((tile d (target (37, 27) 1 0) = STAIRS_UP ∧
      DungeonManager.current_area m' = DungeonManager.current_area m - 1) ∨
     (tile d (target (37, 27) 1 0) = STAIRS_DOWN ∧
      DungeonManager.current_area m' = DungeonManager.current_area m + 1)))).
Proof.
  intros m run r m' d.
  apply (move_player_lands m 1 0 r m' d (37, 27)).
  - apply (some_eta1 (DungeonManager.get_current_dungeon m) blank).
    vm_compute. reflexivity.
  - reflexivity.
  - vm_compute. discriminate.
  - apply (some_eta run (Blocked, m)). vm_compute. reflexivity.
  - vm_compute. discriminate.
Defined.

(** What happens on the cell the player is moved to. *)
Lemma resolve_move_inv x y v d1 m d0 r m' :
  DungeonManager.get_current_dungeon m = Some d0 →
  DungeonManager.resolve_move x y v d1 m = Some (r, m') →
  DungeonManager.player_pos m' = Some (x, y) ∧
  DungeonManager.current_area m' = DungeonManager.current_area m ∧
  ∃ d', DungeonManager.get_current_dungeon m' = Some d' ∧
    match r with
    | ItemEvent it =>
        ∃ i, list_find (λ it, i_pos it = (x, y)) (Dungeon.items d1) = Some (i, it) ∧
             d' = Dungeon.set_items (list_pop i (Dungeon.items d1)) d1
    | EnemyEvent e =>
        list_find (λ it, i_pos it = (x, y)) (Dungeon.items d1) = None ∧
        List.find (λ e, bool_decide (e_pos e = (x, y)))
          (Dungeon.deref (Dungeon.heap d1) (Dungeon.enemies d1)) = Some e ∧
        d' = d1
    | TrapEvent =>
        v = TRAP ∧
        list_find (λ it, i_pos it = (x, y)) (Dungeon.items d1) = None ∧
        List.find (λ e, bool_decide (e_pos e = (x, y)))
          (Dungeon.deref (Dungeon.heap d1) (Dungeon.enemies d1)) = None ∧
        Dungeon.put x y FLOOR d1 = Some d'
    | Moved =>
        v ≠ TRAP ∧
        list_find (λ it, i_pos it = (x, y)) (Dungeon.items d1) = None ∧
        List.find (λ e, bool_decide (e_pos e = (x, y)))
          (Dungeon.deref (Dungeon.heap d1) (Dungeon.enemies d1)) = None ∧
        d' = d1
    | Blocked => False
    end.
Proof.
  intros Hd H. unfold DungeonManager.resolve_move in H.
  destruct (list_find _ _) as [[i it]|] eqn:Ei.
  { simplify_eq. rewrite (get_store_dungeon m d0 _ _ Hd).
    destruct (store_dungeon_fields (DungeonManager.current_area m)
      (Dungeon.set_items (list_pop i (Dungeon.items d1)) d1)
      (DungeonManager.set_player_pos (Some (x, y)) m)) as [-> ->].
    split; [done|]. split; [done|]. eexists. split; [done|]. by exists i. }
  destruct (List.find _ _) as [e|] eqn:Ee.
  { simplify_eq. rewrite (get_store_dungeon m d0 _ _ Hd).
    destruct (store_dungeon_fields (DungeonManager.current_area m) d1
      (DungeonManager.set_player_pos (Some (x, y)) m)) as [-> ->].
    split; [done|]. split; [done|]. by eexists. }
  destruct (decide (v = TRAP)) as [Hv|Hv].
  - destruct (Dungeon.put x y FLOOR d1) as [d2|] eqn:Ep; simplify_eq/=.
    rewrite (get_store_dungeon m d0 _ _ Hd).
    destruct (store_dungeon_fields (DungeonManager.current_area m) d2
      (DungeonManager.set_player_pos (Some (x, y)) m)) as [-> ->].
    split; [done|]. split; [done|]. by eexists.
  - simplify_eq. rewrite (get_store_dungeon m d0 _ _ Hd).
    destruct (store_dungeon_fields (DungeonManager.current_area m) d1
      (DungeonManager.set_player_pos (Some (x, y)) m)) as [-> ->].
    split; [done|]. split; [done|]. by eexists.
Qed.

(** The events come from [resolve_move] only: a move that returns one was
    resolved on the target cell, on the level as the door branch left it. *)
Lemma move_player_event dx dy m d pos r m' :
  DungeonManager.get_current_dungeon m = Some d →
  DungeonManager.player_pos m = Some pos →
  DungeonManager.move_player dx dy m = Some (r, m') →
  r ≠ Blocked → r ≠ Moved →
  in_bounds d (target pos dx dy) ∧
  ∃ d1, (if decide (tile d (target pos dx dy) = DOOR)
         then DungeonManager.open_door (target pos dx dy) d = Some d1
         else d1 = d) ∧
    DungeonManager.resolve_move (pos.1 + dx) (pos.2 + dy)
      (tile d (target pos dx dy)) d1 m = Some (r, m').
Proof.
  intros Hd Hp H Hb Hm. rewrite (move_player_cases dx dy m d pos Hd Hp) in H.
  destruct (decide _) as [[Hin Ht]|_]; [|by simplify_eq].
  split; [done|]. simpl in H.
  destruct (decide (tile d (target pos dx dy) = DOOR)) as [Hdoor|_].
  { destruct (DungeonManager.open_door _ d) as [d1|] eqn:Ho; simplify_eq/=.
    by exists d1. }
  exists d.
  destruct (decide (tile d (target pos dx dy) = STAIRS_UP)) as [Hup|_].
  { case_bool_decide; [|done].
    destruct (DungeonManager.enter_area _ m) as [[b m1]|]; by simplify_eq/=. }
  destruct (decide (tile d (target pos dx dy) = STAIRS_DOWN)) as [Hdown|_].
  { case_bool_decide; [|done].
    destruct (DungeonManager.enter_area _ m) as [[b m1]|]; by simplify_eq/=. }
  done.
Qed.

(** A trap is sprung once: the move that returns "trap" went onto a trap
    tile that holds no item and no enemy, and it turns that tile, and
    nothing else of the level, into floor. *)
Theorem move_player_trap m dx dy m' d pos :
  DungeonManager.get_current_dungeon m = Some d →
  DungeonManager.player_pos m = Some pos →
  DungeonManager.move_player dx dy m = Some (TrapEvent, m') →
  in_bounds d (target pos dx dy) ∧ tile d (target pos dx dy) = TRAP ∧
  (∀ it, it ∈ Dungeon.items d → i_pos it ≠ target pos dx dy) ∧
  (∀ e, e ∈ Dungeon.deref (Dungeon.heap d) (Dungeon.enemies d) →
        e_pos e ≠ target pos dx dy) ∧
  DungeonManager.player_pos m' = Some (target pos dx dy) ∧
  DungeonManager.current_area m' = DungeonManager.current_area m ∧
  ∃ d', DungeonManager.get_current_dungeon m' = Some d' ∧
    tile d' (target pos dx dy) = FLOOR ∧
    (∀ c, c ≠ target pos dx dy → tile d' c = tile d c) ∧
    d' = Dungeon.set_grid (Dungeon.grid d') d.
Proof.
  intros Hd Hp H.
  destruct (move_player_event dx dy m d pos _ _ Hd Hp H) as (Hin & d1 & Hd1 & Hr);
    [done|done|].
  destruct (resolve_move_inv _ _ _ _ _ _ _ _ Hd Hr)
    as (Hpos & Hca & d' & Hd' & Hv & Hi & He & Hput).
  rewrite Hv in Hd1. destruct (decide (TRAP = DOOR)); [done|]. subst d1.
  split; [done|]. split; [done|]. split; [|split].
  - intros it Hit. apply list_find_None in Hi.
    by eapply Forall_forall in Hi.
  - intros e Hin' Hpe.
    eapply find_none in He; [|by apply list_elem_of_In].
    by apply bool_decide_eq_false_1 in He.
  - split; [done|]. split; [done|]. exists d'. split; [done|].
    rewrite put_in_bounds in Hput by done. simplify_eq.
    split; [|split; [|done]].
    + unfold tile. simpl. by rewrite lookup_insert_eq.
    + intros c Hc. unfold tile. simpl. by rewrite lookup_insert_ne.
Qed.

Lemma move_player_trap_witness :
  let m := DungeonManager.set_player_pos (Some (3, 22)) world_hot in
  let run := DungeonManager.move_player (-1) 0 m in
  let m' := (from_option id (Blocked, m) run).2 in
  let d := level_of m in
  in_bounds d (target (3, 22) (-1) 0) ∧ tile d (target (3, 22) (-1) 0) = TRAP ∧
  (∀ it, it ∈ Dungeon.items d → i_pos it ≠ target (3, 22) (-1) 0) ∧
  (∀ e, e ∈ Dungeon.deref (Dungeon.heap d) (Dungeon.enemies d) →
        e_pos e ≠ target (3, 22) (-1) 0) ∧
  DungeonManager.player_pos m' = Some (target (3, 22) (-1) 0) ∧
  DungeonManager.current_area m' = DungeonManager.current_area m ∧
  ∃ d', DungeonManager.get_current_dungeon m' = Some d' ∧
    tile d' (target (3, 22) (-1) 0) = FLOOR ∧
    (∀ c, c ≠ target (3, 22) (-1) 0 → tile d' c = tile d c) ∧
    d' = Dungeon.set_grid (Dungeon.grid d') d.
Proof.
  intros m run m' d.
  apply (move_player_trap m (-1) 0 m' d (3, 22)).
  - apply (some_eta1 (DungeonManager.get_current_dungeon m) blank).
    vm_compute. reflexivity.
  - reflexivity.
  - apply (some_eta_fst run (Blocked, m) TrapEvent); vm_compute; reflexivity.
Defined.

(** Picking up: the move that returns an item returns the first item of
    the level that lies on the target cell and takes that one entry out of
    the list of items; the enemies stay, and unless the cell was a door the
    grid stays too (a trap under the item is not sprung). *)
Theorem move_player_item m dx dy it m' d pos :
  DungeonManager.get_current_dungeon m = Some d →
  DungeonManager.player_pos m = Some pos →
  DungeonManager.move_player dx dy m = Some (ItemEvent it, m') →
  in_bounds d (target pos dx dy) ∧ i_pos it = target pos dx dy ∧
  DungeonManager.player_pos m' = Some (target pos dx dy) ∧
  DungeonManager.current_area m' = DungeonManager.current_area m ∧
  ∃ i d', Dungeon.items d !! i = Some it ∧
    (∀ j it', Dungeon.items d !! j = Some it' → (j < i)%nat →
              i_pos it' ≠ target pos dx dy) ∧
    DungeonManager.get_current_dungeon m' = Some d' ∧
    Dungeon.items d' = take i (Dungeon.items d) ++ drop (S i) (Dungeon.items d) ∧
    Dungeon.enemies d' = Dungeon.enemies d ∧ Dungeon.heap d' = Dungeon.heap d ∧
    (tile d (target pos dx dy) ≠ DOOR → Dungeon.grid d' = Dungeon.grid d).
Proof.
  intros Hd Hp H.
  destruct (move_player_event dx dy m d pos _ _ Hd Hp H) as (Hin & d1 & Hd1 & Hr);
    [done|done|].
  destruct (resolve_move_inv _ _ _ _ _ _ _ _ Hd Hr)
    as (Hpos & Hca & d' & Hd' & i & Hf & ->).
  assert (Dungeon.items d1 = Dungeon.items d ∧
          Dungeon.enemies d1 = Dungeon.enemies d ∧
          Dungeon.heap d1 = Dungeon.heap d ∧
          (tile d (target pos dx dy) ≠ DOOR → d1 = d)) as (Ei & Ee & Eh & Eg).
  { destruct (decide (tile d (target pos dx dy) = DOOR)); [|by subst].
    destruct (open_door_spec _ d Hin) as (d2 & Ho & _ & _ & ? & ? & ? & _).
    rewrite Ho in Hd1. by simplify_eq. }
  rewrite Ei in Hf. apply list_find_Some in Hf as (Hl & Hpi & Hfirst).
  split; [done|]. split; [done|]. split; [done|]. split; [done|].
  exists i, (Dungeon.set_items (list_pop i (Dungeon.items d1)) d1).
  split; [done|]. split; [done|]. split; [done|]. simpl.
  split; [by rewrite Ei|]. split; [done|]. split; [done|].
  intros Hnd. by rewrite (Eg Hnd).
Qed.

Lemma move_player_item_witness :
  let m := DungeonManager.set_player_pos (Some (31, 13)) world_mix in
  let run := DungeonManager.move_player 1 0 m in
  let m' := (from_option id (Blocked, m) run).2 in
  let d := level_of m in
  let it := {| i_type := common; i_pos := (32, 13); i_level := 1 |} in
  in_bounds d (target (31, 13) 1 0) ∧ i_pos it = target (31, 13) 1 0 ∧
  DungeonManager.player_pos m' = Some (target (31, 13) 1 0) ∧
  DungeonManager.current_area m' = DungeonManager.current_area m ∧
  ∃ i d', Dungeon.items d !! i = Some it ∧
    (∀ j it', Dungeon.items d !! j = Some it' → (j < i)%nat →
              i_pos it' ≠ target (31, 13) 1 0) ∧
    DungeonManager.get_current_dungeon m' = Some d' ∧
    Dungeon.items d' = take i (Dungeon.items d) ++ drop (S i) (Dungeon.items d) ∧
    Dungeon.enemies d' = Dungeon.enemies d ∧ Dungeon.heap d' = Dungeon.heap d ∧
    (tile d (target (31, 13) 1 0) ≠ DOOR → Dungeon.grid d' = Dungeon.grid d).
Proof.
  intros m run m' d it.
  apply (move_player_item m 1 0 it m' d (31, 13)).
  - apply (some_eta1 (DungeonManager.get_current_dungeon m) blank).
    vm_compute. reflexivity.
  - reflexivity.
  - apply (some_eta_fst run (Blocked, m) (ItemEvent it));
      vm_compute; reflexivity.
Defined.

(** Meeting an enemy: the move that returns an enemy returns the first
    enemy of the level on the target cell, where no item lies; the player
    stands on that cell and the enemy stays on the level. *)
Theorem move_player_enemy m dx dy e m' d pos :
  DungeonManager.get_current_dungeon m = Some d →
  DungeonManager.player_pos m = Some pos →
  DungeonManager.move_player dx dy m = Some (EnemyEvent e, m') →
  in_bounds d (target pos dx dy) ∧ e_pos e = target pos dx dy ∧
  e ∈ Dungeon.deref (Dungeon.heap d) (Dungeon.enemies d) ∧
  (∀ it, it ∈ Dungeon.items d → i_pos it ≠ target pos dx dy) ∧
  DungeonManager.player_pos m' = Some (target pos dx dy) ∧
  DungeonManager.current_area m' = DungeonManager.current_area m ∧
  ∃ d', DungeonManager.get_current_dungeon m' = Some d' ∧
    Dungeon.enemies d' = Dungeon.enemies d ∧ Dungeon.heap d' = Dungeon.heap d ∧
    Dungeon.items d' = Dungeon.items d.
Proof.
  intros Hd Hp H.
  destruct (move_player_event dx dy m d pos _ _ Hd Hp H) as (Hin & d1 & Hd1 & Hr);
    [done|done|].
  destruct (resolve_move_inv _ _ _ _ _ _ _ _ Hd Hr)
    as (Hpos & Hca & d' & Hd' & Hi & He & ->).
  assert (Dungeon.items d1 = Dungeon.items d ∧
          Dungeon.enemies d1 = Dungeon.enemies d ∧
          Dungeon.heap d1 = Dungeon.heap d) as (Ei & Ee & Eh).
  { destruct (decide (tile d (target pos dx dy) = DOOR)); [|by subst].
    destruct (open_door_spec _ d Hin) as (d2 & Ho & _ & _ & ? & ? & ? & _).
    rewrite Ho in Hd1. by simplify_eq. }
  rewrite Ei in Hi. rewrite Ee, Eh in He.
  apply find_some in He as [Hin' Hpe]. apply bool_decide_eq_true_1 in Hpe.
  split; [done|]. split; [done|]. split; [by apply list_elem_of_In|].
  split.
  { intros it Hit. apply list_find_None in Hi. by eapply Forall_forall in Hi. }
  split; [done|]. split; [done|]. by exists d1.
Qed.

Lemma move_player_enemy_witness :
  let m := DungeonManager.set_player_pos (Some (28, 13)) world_mix in
  let run := DungeonManager.move_player 1 0 m in
  let m' := (from_option id (Blocked, m) run).2 in
  let d := level_of m in
  let e := {| e_type := enemy_normal; e_pos := (29, 13); e_level := 1 |} in
  in_bounds d (target (28, 13) 1 0) ∧ e_pos e = target (28, 13) 1 0 ∧
  e ∈ Dungeon.deref (Dungeon.heap d) (Dungeon.enemies d) ∧
  (∀ it, it ∈ Dungeon.items d → i_pos it ≠ target (28, 13) 1 0) ∧
  DungeonManager.player_pos m' = Some (target (28, 13) 1 0) ∧
  DungeonManager.current_area m' = DungeonManager.current_area m ∧
  ∃ d', DungeonManager.get_current_dungeon m' = Some d' ∧
    Dungeon.enemies d' = Dungeon.enemies d ∧ Dungeon.heap d' = Dungeon.heap d ∧
    Dungeon.items d' = Dungeon.items d.
Proof.
  intros m run m' d e.
  apply (move_player_enemy m 1 0 e m' d (28, 13)).
  - apply (some_eta1 (DungeonManager.get_current_dungeon m) blank).
    vm_compute. reflexivity.
  - reflexivity.
  - apply (some_eta_fst run (Blocked, m) (EnemyEvent e));
      vm_compute; reflexivity.
Defined.

(** Going through a closed door opens it: the door object of the cell is
    marked open and the door tile becomes floor, for good; the player
    stands on the cell. *)
Theorem move_player_opens_door m dx dy d pos i obj :
  DungeonManager.get_current_dungeon m = Some d →
  DungeonManager.player_pos m = Some pos →
  in_bounds d (target pos dx dy) → tile d (target pos dx dy) = DOOR →
  list_find (λ obj, o_pos obj = target pos dx dy) (Dungeon.objects d)
    = Some (i, obj) →
  o_state obj = closed →
  ∃ r m' d', DungeonManager.move_player dx dy m = Some (r, m') ∧
    r ≠ Blocked ∧ r ≠ TrapEvent ∧
    DungeonManager.player_pos m' = Some (target pos dx dy) ∧
    DungeonManager.get_current_dungeon m' = Some d' ∧
    tile d' (target pos dx dy) = FLOOR ∧
    (∀ c, c ≠ target pos dx dy → tile d' c = tile d c) ∧
    Dungeon.objects d' =
      <[i := {| o_pos := target pos dx dy; o_state := open |}]>
        (Dungeon.objects d).
Proof.
  intros Hd Hp Hin Ht Hf Hc.
  rewrite (move_player_cases dx dy m d pos Hd Hp).
  destruct (decide _) as [_|Hno]; [|destruct Hno; split; [done|congruence]].
  simpl. destruct (decide (tile d (target pos dx dy) = DOOR)) as [_|]; [|done].
  unfold DungeonManager.open_door.
  change (pos.1 + dx, pos.2 + dy) with (target pos dx dy). rewrite Hf.
  destruct (decide (o_state obj = closed)) as [_|]; [|done].
  apply list_find_Some in Hf as (_ & Hop & _).
  change ((target pos dx dy).1) with (pos.1 + dx).
  change ((target pos dx dy).2) with (pos.2 + dy).
  rewrite put_in_bounds by done. simpl.
  set (d1 := Dungeon.set_grid _ _).
  assert (Hin1 : in_bounds d1 (pos.1 + dx, pos.2 + dy)) by done.
  destruct (resolve_move_spec _ _ (tile d (target pos dx dy)) d1 m Hin1)
    as (r & m' & Hr & _ & _).
  rewrite Hr.
  destruct (resolve_move_inv _ _ _ _ _ _ _ _ Hd Hr) as (Hpos & _ & d' & Hd' & Hcase).
  assert (Dungeon.grid d' = Dungeon.grid d1 ∧
          Dungeon.objects d' = Dungeon.objects d1 ∧
          r ≠ Blocked ∧ r ≠ TrapEvent) as (Hg & Hobj & Hb & Htr).
  { destruct r; try done.
    - by destruct Hcase as (_ & _ & _ & ->).
    - by destruct Hcase as (j & _ & ->).
    - by destruct Hcase as (_ & _ & ->).
    - destruct Hcase as (Hv & _). congruence. }
  exists r, m', d'. split; [done|]. do 4 (split; [done|]).
  split; [|split].
  - unfold tile. rewrite Hg. simpl. by rewrite lookup_insert_eq.
  - intros c Hne. unfold tile. rewrite Hg. simpl.
    by rewrite lookup_insert_ne.
  - rewrite Hobj. simpl. by rewrite Hop.
Qed.

Lemma move_player_opens_door_witness :
  let m := DungeonManager.set_player_pos (Some (3, 3)) world_mix in
  let d := level_of m in
  ∃ r m' d', DungeonManager.move_player 0 1 m = Some (r, m') ∧
    r ≠ Blocked ∧ r ≠ TrapEvent ∧
    DungeonManager.player_pos m' = Some (target (3, 3) 0 1) ∧
    DungeonManager.get_current_dungeon m' = Some d' ∧
    tile d' (target (3, 3) 0 1) = FLOOR ∧
    (∀ c, c ≠ target (3, 3) 0 1 → tile d' c = tile d c) ∧
    Dungeon.objects d' =
      <[1%nat := {| o_pos := target (3, 3) 0 1; o_state := open |}]>
        (Dungeon.objects d).
Proof.
  intros m d.
  apply (move_player_opens_door m 0 1 d (3, 3) 1%nat
           {| o_pos := (3, 4); o_state := closed |}).
  - apply (some_eta1 (DungeonManager.get_current_dungeon m) blank).
    vm_compute. reflexivity.
  - reflexivity.
  - vm_compute. repeat split; discriminate.
  - vm_compute. reflexivity.
  - vm_compute. reflexivity.
  - reflexivity.
Defined.

(** Taking the stairs: a step onto stairs up in an area above 0, or onto
    stairs down in an area before the last, enters the neighbouring area
    and returns [True]; the player is put on the entrance of area 0 and on
    the exit of every other area, whichever way the stairs went. *)
Theorem move_player_takes_stairs m dx dy d pos idx :
  DungeonManager.get_current_dungeon m = Some d →
  DungeonManager.player_pos m = Some pos →
  0 ≤ DungeonManager.current_area m →
  in_bounds d (target pos dx dy) →
  (tile d (target pos dx dy) = STAIRS_UP ∧ 0 < DungeonManager.current_area m ∧
   idx = DungeonManager.current_area m - 1) ∨
  (tile d (target pos dx dy) = STAIRS_DOWN ∧
   DungeonManager.current_area m
     < Z.of_nat (length (DungeonManager.dungeons m)) - 1 ∧
   idx = DungeonManager.current_area m + 1) →
  ∃ t, DungeonManager.dungeons m !! Z.to_nat idx = Some t ∧
    DungeonManager.move_player dx dy m =
      Some (Moved,
            DungeonManager.set_player_pos
              (if decide (idx = 0) then Dungeon.entrance t else Dungeon.exit t)
              (DungeonManager.set_current_area idx m)).
Proof.
  intros Hd Hp Hc Hin Hcase.
  pose proof (current_area_in_range m d Hd Hc) as Hlt.
  rewrite (move_player_cases dx dy m d pos Hd Hp).
  destruct (decide _) as [_|Hno].
  2: { destruct Hno. split; [done|]. destruct Hcase as [[-> _]|[-> _]]; done. }
  simpl. destruct (enter_area_valid idx m) as (t & Ht & E); [lia|].
  exists t. split; [done|].
  assert (Hpos : (if decide (idx = 0 ∨ DungeonManager.player_pos m = None)
                  then Dungeon.entrance t else Dungeon.exit t)
                 = (if decide (idx = 0) then Dungeon.entrance t
                    else Dungeon.exit t)).
  { rewrite Hp.
    destruct (decide (idx = 0 ∨ Some pos = None)) as [[Hi|Hi]|Hi];
      destruct (decide (idx = 0)) as [Hz|Hz]; try done.
    destruct Hi. by left. }
  rewrite Hpos in E.
  destruct Hcase as [(Ht' & Hgt & ->)|(Ht' & Hgt & ->)]; rewrite Ht'; simpl.
  - rewrite bool_decide_eq_true_2 by lia. by rewrite E.
  - rewrite bool_decide_eq_true_2 by lia. by rewrite E.
Qed.

Lemma move_player_takes_stairs_witness :
  let m := DungeonManager.set_player_pos (Some (3, 2)) world_mix in
  ∃ t, DungeonManager.dungeons m !! Z.to_nat 1 = Some t ∧
    DungeonManager.move_player 0 1 m =
      Some (Moved,
            DungeonManager.set_player_pos
              (if decide (1 = 0) then Dungeon.entrance t else Dungeon.exit t)
              (DungeonManager.set_current_area 1 m)).
Proof.
  intros m.
  apply (move_player_takes_stairs m 0 1 (level_of m) (3, 2) 1).
  - apply (some_eta1 (DungeonManager.get_current_dungeon m) blank).
    vm_compute. reflexivity.
  - reflexivity.
  - vm_compute. discriminate.
  - vm_compute. repeat split; discriminate.
  - right. split; [vm_compute; reflexivity|].
    split; [vm_compute; reflexivity|reflexivity].
Defined.

(** ** The world of seven areas *)

Lemma level_frame_refl d : level_frame d d.
Proof. repeat split; auto. Qed.

Lemma level_frame_trans d1 d2 d3 :
  level_frame d1 d2 → level_frame d2 d3 → level_frame d1 d3.
Proof.
  intros (E1&E2&E3&E4&E5&E6&E7&E8&G) (F1&F2&F3&F4&F5&F6&F7&F8&G').
  repeat split; try congruence.
  intros c. destruct (G c) as [Hc|(Hf&Ht&Hen&Hex)];
    destruct (G' c) as [Hc'|(Hf'&Ht'&Hen'&Hex')].
  - left. congruence.
  - right. rewrite <- Hc, <- E5, <- E6. done.
  - right. rewrite Hc'. done.
  - congruence.
Qed.

(** Steps that keep the grid. *)
Lemma level_frame_same_grid d d' :
  Dungeon.width d' = Dungeon.width d → Dungeon.height d' = Dungeon.height d →
  Dungeon.player_level d' = Dungeon.player_level d →
  Dungeon.area_index d' = Dungeon.area_index d →
  Dungeon.entrance d' = Dungeon.entrance d → Dungeon.exit d' = Dungeon.exit d →
  Dungeon.rooms d' = Dungeon.rooms d → Dungeon.objects d' = Dungeon.objects d →
  Dungeon.grid d' = Dungeon.grid d → level_frame d d'.
Proof.
  intros. repeat split; try done. intros c. left. unfold tile. congruence.
Qed.

Lemma add_traps_frame d g d' g' :
  Dungeon.add_traps d g = Some (d', g') → level_frame d d'.
Proof.
  unfold Dungeon.add_traps.
  intros (traps & _ & _ & Hall & ->)%add_traps_loop_spec.
  do 8 (split; [done|]). intros c.
  assert (Ht : tile (Dungeon.set_grid
                       (foldr (λ c, <[c := TRAP]>) (Dungeon.grid d) traps) d) c
               = if decide (c ∈ traps) then TRAP else tile d c).
  { unfold tile. simpl. rewrite lookup_foldr_insert.
    by destruct (decide (c ∈ traps)). }
  rewrite Ht. destruct (decide (c ∈ traps)) as [Hc|Hc]; [|by left].
  right. eapply Forall_forall in Hall; [|done].
  destruct Hall as (_ & Hf & Hen & Hex & _). done.
Qed.

Lemma add_enemy_frame d g d' g' :
  DungeonManager.add_enemy d g = Some (d', g') → level_frame d d'.
Proof.
  unfold DungeonManager.add_enemy. intros H.
  destruct (List.find _ _) as [room|];
    [|simplify_eq; apply level_frame_refl].
  destruct (random.randint _ _ g) as [[x g1]|]; simplify_eq/=.
  destruct (random.randint _ _ g1) as [[y g2]|]; simplify_eq/=.
  destruct (random.randint _ _ g2) as [[dl g3]|]; simplify_eq/=.
  by apply level_frame_same_grid.
Qed.

Lemma remove_item_frame d g d' g' :
  DungeonManager.remove_item (d, g) = Some (d', g') → level_frame d d'.
Proof.
  unfold DungeonManager.remove_item. intros H.
  destruct (Dungeon.items d) as [|it0 its];
    [simplify_eq; apply level_frame_refl|].
  destruct (random.randrange _ g) as [[i g1]|]; simplify_eq/=.
  by apply level_frame_same_grid.
Qed.

Lemma make_elite_frame d g d' g' :
  DungeonManager.make_elite (d, g) = Some (d', g') → level_frame d d'.
Proof.
  unfold DungeonManager.make_elite. intros H.
  destruct (Dungeon.enemies d) as [|e0 es];
    [simplify_eq; apply level_frame_refl|].
  destruct (random.randrange _ g) as [[i g1]|]; simplify_eq/=.
  destruct (_ !! Z.to_nat i) as [ref|]; simplify_eq/=.
  destruct (Dungeon.heap d !! ref) as [enemy|]; simplify_eq/=.
  destruct (decide (e_type enemy ≠ enemy_boss)); simplify_eq;
    [by apply level_frame_same_grid|apply level_frame_refl].
Qed.

Lemma second_boss_frame room d g d' g' :
  DungeonManager.second_boss room (d, g) = Some (d', g') → level_frame d d'.
Proof.
  unfold DungeonManager.second_boss. intros H.
  destruct (decide (Room.room_type room = Boss)) as [Hb|];
    [|simplify_eq; apply level_frame_refl].
  destruct (List.find _ _) as [enemy|];
    [|simplify_eq; apply level_frame_refl].
  destruct (Room.center room) as [cx cy].
  destruct (random.randint _ _ g) as [[ox g1]|]; simplify_eq/=.
  destruct (random.randint _ _ g1) as [[oy g2]|]; simplify_eq/=.
  by apply level_frame_same_grid.
Qed.

Lemma repeat_m_frame n
    (body : Dungeon.t * random.state → option (Dungeon.t * random.state))
    d g d' g' :
  (∀ d1 g1 d2 g2, body (d1, g1) = Some (d2, g2) → level_frame d1 d2) →
  repeat_m n body (d, g) = Some (d', g') → level_frame d d'.
Proof.
  intros Hbody H.
  apply (repeat_m_inv (λ s, level_frame d s.1) n body (d, g) (d', g'));
    [|apply level_frame_refl|done].
  intros [d1 g1] [d2 g2] Hb I. simpl in I.
  eapply level_frame_trans; [done|]. by eapply Hbody.
Qed.

Lemma apply_modifier_frame modifier d g d' g' :
  DungeonManager.apply_modifier modifier (d, g) = Some (d', g') →
  level_frame d d'.
Proof.
  unfold DungeonManager.apply_modifier. intros H.
  repeat match type of H with
  | (if decide ?P then _ else _) = _ => destruct (decide P) as [_|_]
  end.
  - eapply repeat_m_frame in H; [done|].
    intros d1 g1 d2 g2 Hb. by eapply add_enemy_frame.
  - simplify_eq. unfold DungeonManager.raise_levels.
    apply level_frame_same_grid; reflexivity.
  - destruct (Dungeon.add_traps d g) as [[d1 g1]|] eqn:E1; simplify_eq/=.
    apply add_traps_frame in E1, H. by eapply level_frame_trans.
  - eapply repeat_m_frame in H; [done|].
    intros d1 g1 d2 g2 Hb. by eapply remove_item_frame.
  - eapply repeat_m_frame in H; [done|].
    intros d1 g1 d2 g2 Hb. by eapply make_elite_frame.
  - apply (for_each_inv (λ s, level_frame d s.1) _ _ (d, g) (d', g')) in H;
      [done| |apply level_frame_refl].
    intros room [d1 g1] [d2 g2] _ Hb I. simpl in I.
    eapply level_frame_trans; [done|]. by eapply second_boss_frame.
  - destruct (Dungeon.add_traps d g) as [[d1 g1]|] eqn:E1; simplify_eq/=.
    destruct (Dungeon.add_traps d1 g1) as [[d2 g2]|] eqn:E2; simplify_eq/=.
    apply add_traps_frame in E1, E2.
    eapply repeat_m_frame in H.
    + apply (level_frame_trans d d2 d'); [|].
      * by apply (level_frame_trans d d1 d2).
      * eapply level_frame_trans; [|done].
        unfold DungeonManager.raise_levels.
        apply level_frame_same_grid; reflexivity.
    + intros d3 g3 d4 g4 Hb. by eapply remove_item_frame.
  - simplify_eq. apply level_frame_refl.
Qed.

Lemma _apply_heat_modifiers_frame m d g d' g' :
  DungeonManager._apply_heat_modifiers m d g = Some (d', g') →
  level_frame d d'.
Proof.
  unfold DungeonManager._apply_heat_modifiers. intros H.
  apply (for_each_inv (λ s, level_frame d s.1) _ _ (d, g) (d', g')) in H;
    [done| |apply level_frame_refl].
  intros md [d1 g1] [d2 g2] _ Hb I. simpl in I.
  eapply level_frame_trans; [done|]. by eapply apply_modifier_frame.
Qed.

(** A level as [generate_area] returns it. *)
Lemma generate_area_spec i pl m g d g' :
  DungeonManager.generate_area i pl m g = Some (d, g') →
  Dungeon.area_index d = i ∧
  Dungeon.width d = DungeonManager.width m ∧
  Dungeon.height d = DungeonManager.height m ∧
  Dungeon.player_level d = pl ∧
  (i = 6 → Dungeon.exit d = None ∧ is_Some (Dungeon.entrance d)) ∧
  (i ≠ 6 → ∃ en ex,
     Dungeon.entrance d = Some en ∧ Dungeon.exit d = Some ex ∧
     in_bounds d en ∧ in_bounds d ex ∧
     Dungeon.walkable (tile d en) = true ∧ Dungeon.walkable (tile d ex) = true).
Proof.
  unfold DungeonManager.generate_area. intros H.
  destruct (Dungeon.new _ _ _ _) as [d0|] eqn:E0; simplify_eq/=.
  destruct (Dungeon.generate d0 g) as [[d1 g1]|] eqn:E1; simplify_eq/=.
  assert (Dungeon.rooms d0 = [] ∧ Dungeon.area_index d0 = i ∧
          Dungeon.width d0 = DungeonManager.width m ∧
          Dungeon.height d0 = DungeonManager.height m ∧
          Dungeon.player_level d0 = pl ∧ Dungeon.exit d0 = None)
    as (Hr0 & Hai0 & Hw0 & Hh0 & Hpl0 & Hex0).
  { unfold Dungeon.new in E0. case_bool_decide; [done|].
    destruct (Dungeon._get_theme_for_area i); by simplify_eq/=. }
  apply _apply_heat_modifiers_frame in H
    as (Fw & Fh & Fpl & Fai & Fen & Fex & _ & _ & Fg).
  destruct (decide (i = 6)) as [Hi|Hi].
  - rewrite <- Hai0 in Hi.
    destruct (generate_final d0 g d1 g1 Hi Hr0 E1)
      as (t & s1 & s2 & s3 & _ & _ & _ & _ & _ & Hen & Hex & _ & _ &
          (Hw & Hh & Hpl & Hai) & _).
    split; [congruence|]. split; [congruence|]. split; [congruence|].
    split; [congruence|]. split; [|intros Hn; congruence].
    intros _. split; [congruence|]. rewrite Fen, Hen. by eexists.
  - rewrite <- Hai0 in Hi.
    destruct (generate_regular d0 g d1 g1 Hi Hr0 E1)
      as (r0 & mid & rx & Hrooms & _ & _ & Hen & Hex & Hok & _ &
          (Hw & Hh & Hpl & Hai) & _).
    split; [congruence|]. split; [congruence|]. split; [congruence|].
    split; [congruence|]. split; [intros Hn; congruence|]. intros _.
    exists (Room.center r0), (Room.center rx).
    split; [congruence|]. split; [congruence|].
    assert (Hc : ∀ r, r ∈ Dungeon.rooms d1 →
              in_bounds d (Room.center r) ∧
              Dungeon.walkable (tile d1 (Room.center r)) = true).
    { intros r Hr. destruct (Hok r Hr) as ((Hsz & _ & Hcv) & Hig & _).
      destruct Hsz as (Hsw & Hsh & _).
      destruct (room_in_grid_center d1 r Hsw Hsh Hig) as [Hin Hrect].
      split; [|by apply Hcv]. unfold in_bounds. by rewrite Fw, Fh. }
    assert (H0 : r0 ∈ Dungeon.rooms d1) by (rewrite Hrooms; apply list_elem_of_here).
    assert (Hx : rx ∈ Dungeon.rooms d1).
    { rewrite Hrooms. apply list_elem_of_further, elem_of_app. right.
      apply list_elem_of_here. }
    destruct (Hc r0 H0) as [Hin0 Hw0']. destruct (Hc rx Hx) as [Hinx Hwx].
    split; [done|]. split; [done|]. split.
    + destruct (Fg (Room.center r0)) as [->|(_ & _ & Hne & _)]; [done|].
      by rewrite Hen in Hne.
    + destruct (Fg (Room.center rx)) as [->|(_ & _ & _ & Hne)]; [done|].
      by rewrite Hex in Hne.
Qed.

Lemma generate_area_ext i pl m1 m g :
  DungeonManager.width m1 = DungeonManager.width m →
  DungeonManager.height m1 = DungeonManager.height m →
  DungeonManager.active_modifiers m1 = DungeonManager.active_modifiers m →
  DungeonManager.generate_area i pl m1 g = DungeonManager.generate_area i pl m g.
Proof.
  intros Hw Hh Ha.
  unfold DungeonManager.generate_area, DungeonManager._apply_heat_modifiers.
  by rewrite Hw, Hh, Ha.
Qed.

(** The loop of [generate_all_areas]: one level per index, appended in
    order; nothing else of the manager changes. *)
Lemma generate_areas_loop pl l m g m' g' :
  for_each l (λ i '(self, g),
     '(dungeon, g) ← DungeonManager.generate_area i pl self g;
     Some (DungeonManager.set_dungeons
             (DungeonManager.dungeons self ++ [dungeon]) self, g))
    (m, g) = Some (m', g') →
  ∃ ds, m' = DungeonManager.set_dungeons (DungeonManager.dungeons m ++ ds) m ∧
    Forall2 (λ i d, ∃ g1 g2,
               DungeonManager.generate_area i pl m g1 = Some (d, g2)) l ds.
Proof.
  revert m g. induction l as [|i l IH]; intros m g H.
  - rewrite for_each_nil in H. simplify_eq. exists []. split; [|constructor].
    rewrite app_nil_r. by destruct m'.
  - rewrite for_each_cons in H.
    destruct (DungeonManager.generate_area i pl m g) as [[d g1]|] eqn:E;
      simplify_eq/=.
    apply IH in H as (ds & -> & HF). simpl. exists (d :: ds). split.
    + by rewrite <- app_assoc.
    + constructor; [by eauto|].
      eapply Forall2_impl; [done|]. intros j dj (g2 & g3 & Hj).
      exists g2, g3. rewrite <- Hj. symmetry. by apply generate_area_ext.
Qed.

Lemma range_0_7 : range 0 7 = [0; 1; 2; 3; 4; 5; 6].
Proof. vm_compute. reflexivity. Qed.

(** The world [generate_all_areas] builds. *)
Lemma generate_all_areas_spec pl m g m' g' :
  DungeonManager.generate_all_areas pl m g = Some (m', g') →
  ∃ d0 d1 d2 d3 d4 d5 d6,
    m' = DungeonManager.set_player_pos (Dungeon.entrance d0)
           (DungeonManager.set_current_area 0
              (DungeonManager.set_dungeons [d0; d1; d2; d3; d4; d5; d6]
                 (DungeonManager.set_player_level pl
                    (DungeonManager.set_dungeons [] m)))) ∧
    Forall2 (λ i d, ∃ g1 g2,
               DungeonManager.generate_area i pl m g1 = Some (d, g2))
      [0; 1; 2; 3; 4; 5; 6] [d0; d1; d2; d3; d4; d5; d6].
Proof.
  unfold DungeonManager.generate_all_areas. rewrite range_0_7. intros H.
  destruct (for_each _ _ _) as [[m1 g1]|] eqn:E; simplify_eq/=.
  apply generate_areas_loop in E as (ds & -> & HF). simpl in *.
  assert (HF' := HF).
  do 7 (apply Forall2_cons_inv_l in HF' as (? & ? & _ & HF' & ->)).
  apply Forall2_nil_inv_l in HF' as ->.
  unfold py_index in H. simpl in H. simplify_eq.
  eexists _, _, _, _, _, _, _. split; [done|].
  eapply Forall2_impl; [exact HF|]. intros j dj (g2 & g3 & Hj).
  exists g2, g3. rewrite <- Hj. symmetry. by apply generate_area_ext.
Qed.

(** [generate_all_areas] builds exactly seven levels, level i for area i
    on the grid size of the manager and for the player level given; it
    puts the player in area 0 on the entrance of that level, a walkable
    cell of its grid; heat and active modifiers stay as they were. *)
Theorem generate_all_areas_world pl m g m' g' :
  DungeonManager.generate_all_areas pl m g = Some (m', g') →
  length (DungeonManager.dungeons m') = 7%nat ∧
  (∀ i d, DungeonManager.dungeons m' !! i = Some d →
     Dungeon.area_index d = Z.of_nat i ∧
     Dungeon.width d = DungeonManager.width m ∧
     Dungeon.height d = DungeonManager.height m ∧
     Dungeon.player_level d = pl) ∧
  DungeonManager.current_area m' = 0 ∧
  DungeonManager.player_level m' = pl ∧
  DungeonManager.heat_level m' = DungeonManager.heat_level m ∧
  DungeonManager.active_modifiers m' = DungeonManager.active_modifiers m ∧
  ∃ d0 en, DungeonManager.get_current_dungeon m' = Some d0 ∧
    Dungeon.entrance d0 = Some en ∧ DungeonManager.player_pos m' = Some en ∧
    in_bounds d0 en ∧ Dungeon.walkable (tile d0 en) = true.
Proof.
  intros H.
  apply generate_all_areas_spec in H
    as (d0 & d1 & d2 & d3 & d4 & d5 & d6 & -> & HF). simpl.
  split; [done|]. split; [|split; [done|split; [done|split; [done|split; [done|]]]]].
  - intros i d Hi.
    destruct (Forall2_lookup_r _ _ _ _ _ HF Hi) as (j & Hj & g1 & g2 & Hg).
    apply generate_area_spec in Hg as (Hai & Hw & Hh & Hpl & _).
    split; [|done]. rewrite Hai.
    do 7 (destruct i as [|i]; [by simplify_eq/=|]). done.
  - apply Forall2_cons_1 in HF as [(g1 & g2 & Hg) _].
    apply generate_area_spec in Hg as (_ & _ & _ & _ & _ & Hreg).
    destruct Hreg as (en & ex & Hen & _ & Hin & _ & Hw & _); [done|].
    exists d0, en. unfold DungeonManager.get_current_dungeon. simpl.
    by rewrite Hen.
Qed.

Lemma generate_all_areas_world_witness :
  let run := DungeonManager.generate_all_areas 1 manager0 mixed_tape in
  let m' := (from_option id (manager0, random.const 0) run).1 in
  length (DungeonManager.dungeons m') = 7%nat ∧
  (∀ i d, DungeonManager.dungeons m' !! i = Some d →
     Dungeon.area_index d = Z.of_nat i ∧
     Dungeon.width d = DungeonManager.width manager0 ∧
     Dungeon.height d = DungeonManager.height manager0 ∧
     Dungeon.player_level d = 1) ∧
  DungeonManager.current_area m' = 0 ∧
  DungeonManager.player_level m' = 1 ∧
  DungeonManager.heat_level m' = DungeonManager.heat_level manager0 ∧
  DungeonManager.active_modifiers m' = DungeonManager.active_modifiers manager0 ∧
  ∃ d0 en, DungeonManager.get_current_dungeon m' = Some d0 ∧
    Dungeon.entrance d0 = Some en ∧ DungeonManager.player_pos m' = Some en ∧
    in_bounds d0 en ∧ Dungeon.walkable (tile d0 en) = true.
Proof.
  intros run m'.
  apply (generate_all_areas_world 1 manager0 mixed_tape m'
           (from_option id (manager0, random.const 0) run).2).
  apply (some_eta run (manager0, random.const 0)). vm_compute. reflexivity.
Defined.

(** The last area has no exit, and [enter_area] puts the player on the
    exit of every area but 0: entering area 6 of a generated world leaves
    the player without a position, and every [move_player] after that
    raises. *)
Theorem enter_final_area_loses_player pl m0 g w g' m :
  DungeonManager.generate_all_areas pl m0 g = Some (w, g') →
  DungeonManager.dungeons m = DungeonManager.dungeons w →
  DungeonManager.player_pos m ≠ None →
  ∃ m', DungeonManager.enter_area 6 m = Some (true, m') ∧
    DungeonManager.current_area m' = 6 ∧
    DungeonManager.player_pos m' = None ∧
    ∀ dx dy, DungeonManager.move_player dx dy m' = None.
Proof.
  intros H Hds Hp.
  apply generate_all_areas_spec in H
    as (d0 & d1 & d2 & d3 & d4 & d5 & d6 & -> & HF). simpl in Hds.
  assert (Hex : Dungeon.exit d6 = None).
  { assert (Hl : [d0; d1; d2; d3; d4; d5; d6] !! 6%nat = Some d6) by done.
    destruct (Forall2_lookup_r _ _ _ _ _ HF Hl) as (j & Hj & g1 & g2 & Hg).
    simpl in Hj. simplify_eq.
    apply generate_area_spec in Hg as (_ & _ & _ & _ & Hfin & _).
    by destruct Hfin. }
  destruct (enter_area_valid 6 m) as (t & Ht & E).
  { rewrite Hds. simpl. lia. }
  rewrite Hds in Ht. simpl in Ht. simplify_eq.
  eexists. split; [exact E|]. simpl. split; [done|].
  destruct (decide (6 = 0 ∨ DungeonManager.player_pos m = None)) as [[?|?]|_];
    [done|done|].
  split; [done|]. intros dx dy. unfold DungeonManager.move_player. simpl.
  rewrite Hds, Hex.
  by destruct (py_index _ _).
Qed.

Lemma enter_final_area_loses_player_witness :
  let run := DungeonManager.generate_all_areas 1 manager0 mixed_tape in
  let w := (from_option id (manager0, random.const 0) run).1 in
  ∃ m', DungeonManager.enter_area 6 w = Some (true, m') ∧
    DungeonManager.current_area m' = 6 ∧
    DungeonManager.player_pos m' = None ∧
    ∀ dx dy, DungeonManager.move_player dx dy m' = None.
Proof.
  intros run w.
  apply (enter_final_area_loses_player 1 manager0 mixed_tape w
           (from_option id (manager0, random.const 0) run).2 w).
  - apply (some_eta run (manager0, random.const 0)). vm_compute. reflexivity.
  - reflexivity.
  - vm_compute. discriminate.
Defined.

(** ** Heat, one step at a time *)

Lemma find_all_false {A} (f : A → bool) l :
  (∀ x, x ∈ l → f x = false) → List.find f l = None.
Proof.
  induction l as [|a l IH]; intros H; [done|]. simpl.
  rewrite (H a (list_elem_of_here _ _)). apply IH.
  intros x Hx. by apply H, list_elem_of_further.
Qed.

(** With the first k modifiers active, heat k + 1 unlocks modifier k. *)
Lemma first_new_modifier_take k :
  DungeonManager.first_new_modifier (Z.of_nat k + 1)
    (take k DungeonManager.potential_modifiers)
  = DungeonManager.potential_modifiers !! k.
Proof.
  do 10 (destruct k as [|k]; [vm_compute; reflexivity|]).
  rewrite take_ge by (simpl; lia).
  rewrite (lookup_ge_None_2 DungeonManager.potential_modifiers) by (simpl; lia).
  unfold DungeonManager.first_new_modifier. apply find_all_false.
  intros md Hmd. rewrite (bool_decide_eq_false_2 (md ∉ _)) by tauto.
  apply andb_false_r.
Qed.

Lemma increase_heat_step k m g m' g' :
  DungeonManager.heat_level m = Z.of_nat k →
  DungeonManager.active_modifiers m = take k DungeonManager.potential_modifiers →
  DungeonManager.increase_heat 1 m g = Some (m', g') →
  DungeonManager.heat_level m' = Z.of_nat (S k) ∧
  DungeonManager.active_modifiers m'
    = take (S k) DungeonManager.potential_modifiers.
Proof.
  intros Hh Ha H. unfold DungeonManager.increase_heat in H. simpl in H.
  rewrite Hh, Ha, first_new_modifier_take in H.
  destruct (DungeonManager.potential_modifiers !! k) as [md|] eqn:Ek.
  - apply generate_all_areas_fields in H as [-> ->].
    split; [simpl; lia|]. symmetry. by apply take_S_r.
  - simplify_eq. split; [simpl; lia|].
    change (DungeonManager.active_modifiers m
            = take (S k) DungeonManager.potential_modifiers).
    rewrite Ha. apply lookup_ge_None in Ek. by rewrite !take_ge by lia.
Qed.

Lemma increase_heat_seq_ones n : ∀ k m g m' g',
  DungeonManager.heat_level m = Z.of_nat k →
  DungeonManager.active_modifiers m = take k DungeonManager.potential_modifiers →
  increase_heat_seq (replicate n 1) m g = Some (m', g') →
  DungeonManager.heat_level m' = Z.of_nat (k + n) ∧
  DungeonManager.active_modifiers m'
    = take (k + n) DungeonManager.potential_modifiers.
Proof.
  induction n as [|n IH]; intros k m g m' g' Hh Ha H; simpl in H.
  - simplify_eq. by rewrite Nat.add_0_r.
  - destruct (DungeonManager.increase_heat 1 m g) as [[m1 g1]|] eqn:E;
      simplify_eq/=.
    destruct (increase_heat_step k m g m1 g1 Hh Ha E) as [Hh1 Ha1].
    destruct (IH (S k) m1 g1 m' g' Hh1 Ha1 H) as [? ?].
    by rewrite Nat.add_succ_r.
Qed.

(** Raising the heat by one at a time, as the game does, unlocks the
    modifiers one per call in the order of the table: after n calls on a
    fresh manager the heat is n and the active modifiers are the first n of
    the table (all ten from the tenth call on). *)
Theorem increase_heat_one_by_one n width height g m' g' :
  increase_heat_seq (replicate n 1) (DungeonManager.new width height) g
    = Some (m', g') →
  DungeonManager.heat_level m' = Z.of_nat n ∧
  DungeonManager.active_modifiers m'
    = take n DungeonManager.potential_modifiers.
Proof.
  intros H.
  by apply (increase_heat_seq_ones n 0 (DungeonManager.new width height) g m' g').
Qed.

Lemma increase_heat_one_by_one_witness :
  let run := increase_heat_seq (replicate 3 1) (DungeonManager.new 50 50)
               mixed_tape in
  let m' := (from_option id (manager0, random.const 0) run).1 in
  DungeonManager.heat_level m' = Z.of_nat 3 ∧
  DungeonManager.active_modifiers m'
    = take 3 DungeonManager.potential_modifiers.
Proof.
  intros run m'.
  apply (increase_heat_one_by_one 3 50 50 mixed_tape m'
           (from_option id (manager0, random.const 0) run).2).
  apply (some_eta run (manager0, random.const 0)). vm_compute. reflexivity.
Defined.

(** ** The layout of a regular level *)

Lemma length_range a b : length (range a b) = Z.to_nat (b - a).
Proof. with_strategy transparent [range] (unfold range). apply length_seqZ. Qed.

(** [generate] for an area other than the last, step by step. *)
Lemma generate_trace d0 g d g' :
  Dungeon.area_index d0 ≠ 6 →
  Dungeon.generate d0 g = Some (d, g') →
  ∃ num_rooms g1 e d2 g2 r0 d4 g4 x d5 g5 rx d7 en d8 ex d9,
    random.randint MIN_ROOMS MAX_ROOMS g = Some (num_rooms, g1) ∧
    Dungeon._add_room 0 Entrance (Dungeon.fill_wall d0) g1 = Some (e, d2, g2) ∧
    Dungeon.rooms d2 !! e = Some r0 ∧
    for_each (range 1 (num_rooms - 1)) (λ _ '(self, g),
       let '(roll, g) := random.random g in
       let room_type := if bool_decide (roll < 20) then Special else Normal in
       '(_, self, g) ← Dungeon._add_room 0 room_type self g;
       Some (self, g))
      (Dungeon.set_entrance (Some (Room.center r0)) d2, g2) = Some (d4, g4) ∧
    Dungeon._add_room (Z.max (Dungeon.width d4) (Dungeon.height d4) / 3)
      Exit d4 g4 = Some (x, d5, g5) ∧
    Dungeon.rooms d5 !! x = Some rx ∧
    Dungeon._connect_rooms (Dungeon.set_exit (Some (Room.center rx)) d5) g5
      = Some (d7, g') ∧
    Dungeon.entrance d7 = Some en ∧
    Dungeon.put en.1 en.2 STAIRS_UP d7 = Some d8 ∧
    Dungeon.exit d8 = Some ex ∧
    Dungeon.put ex.1 ex.2 STAIRS_DOWN d8 = Some d9 ∧
    d = Dungeon._populate_dungeon d9.
Proof.
  intros Hai H. unfold Dungeon.generate in H.
  change (Dungeon.area_index (Dungeon.fill_wall d0))
    with (Dungeon.area_index d0) in H.
  destruct (decide (Dungeon.area_index d0 = 6)) as [|_]; [done|].
  destruct (random.randint MIN_ROOMS MAX_ROOMS g) as [[num_rooms g1]|];
    simplify_eq/=.
  destruct (Dungeon._add_room 0 Entrance _ g1) as [[[e d2] g2]|] eqn:Ee;
    simplify_eq/=.
  destruct (Dungeon.rooms d2 !! e) as [r0|] eqn:Er0; simplify_eq/=.
  destruct (for_each _ _ _) as [[d4 g4]|] eqn:Eloop; simplify_eq/=.
  destruct (Dungeon._add_room _ Exit d4 g4) as [[[x d5] g5]|] eqn:Ex;
    simplify_eq/=.
  destruct (Dungeon.rooms d5 !! x) as [rx|] eqn:Erx; simplify_eq/=.
  destruct (Dungeon._connect_rooms _ g5) as [[d7 g7]|] eqn:Ec; simplify_eq/=.
  destruct (Dungeon.entrance d7) as [en|] eqn:Een; simplify_eq/=.
  destruct (Dungeon.put _ _ STAIRS_UP d7) as [d8|] eqn:Ep8; simplify_eq/=.
  destruct (Dungeon.exit d8) as [ex|] eqn:Eex; simplify_eq/=.
  destruct (Dungeon.put _ _ STAIRS_DOWN d8) as [d9|] eqn:Ep9; simplify_eq/=.
  exists num_rooms, g1, e, d2, g2, r0, d4, g4, x, d5, g5, rx, d7, en, d8, ex, d9.
  repeat (split; [done|]). done.
Qed.

Lemma intersects_place r r' o o' :
  same_place r r' → same_place o o' →
  Room.intersects r' o' = Room.intersects r o.
Proof.
  intros (E1&E2&E3&E4&_) (F1&F2&F3&F4&_). unfold Room.intersects.
  by rewrite E1, E2, E3, E4, F1, F2, F3, F4.
Qed.

Lemma room_le_same_place r r' : room_le r r' → same_place r r'.
Proof. by intros ->. Qed.

Lemma fits_apart d new_room md r :
  Dungeon.fits d new_room md = true → r ∈ Dungeon.rooms d →
  Room.intersects new_room r = false.
Proof.
  unfold Dungeon.fits. rewrite forallb_forall. intros H Hr.
  apply list_elem_of_In, H in Hr. apply andb_true_iff in Hr as [Hr _].
  by apply negb_true_iff in Hr.
Qed.

(** One more room keeps the rooms apart. *)
Lemma rooms_apart_add md rt d g idx d' g' :
  Dungeon._add_room md rt d g = Some (idx, d', g') →
  rooms_apart (Dungeon.rooms d) →
  ∃ room, Dungeon.rooms d' = Dungeon.rooms d ++ [room] ∧
    idx = length (Dungeon.rooms d) ∧ Room.room_type room = rt ∧
    rooms_apart (Dungeon.rooms d').
Proof.
  intros H Hap. apply _add_room_spec in H as (room & Hadd & Hfits & _).
  destruct Hadd as (_ & Hidx & Hrooms & Hrt & _).
  exists room. split; [done|]. split; [done|]. split; [done|].
  rewrite Hrooms. intros i j ri rj Hij Hi Hj Hw.
  destruct (decide (j < length (Dungeon.rooms d))%nat) as [Hlt|Hge].
  - rewrite lookup_app_l in Hi by lia. rewrite lookup_app_l in Hj by lia.
    by apply (Hap i j ri rj).
  - assert (j = length (Dungeon.rooms d)) as ->.
    { apply lookup_lt_Some in Hj. rewrite length_app in Hj. simpl in Hj. lia. }
    rewrite list_lookup_middle in Hj by done. simplify_eq.
    rewrite lookup_app_l in Hi by lia.
    destruct Hfits as [Hfits|?]; [|done].
    apply (fits_apart d _ _ ri) in Hfits; [|by eapply list_elem_of_lookup_2].
    rewrite <- Hfits. unfold Room.intersects. done.
Qed.

(** The loop that adds the middle rooms: one room per round, normal or
    special. *)
Lemma middle_rooms_spec (l : list Z) d g d' g' :
  for_each l (λ _ '(self, g),
     let '(roll, g) := random.random g in
     let room_type := if bool_decide (roll < 20) then Special else Normal in
     '(_, self, g) ← Dungeon._add_room 0 room_type self g;
     Some (self, g)) (d, g) = Some (d', g') →
  rooms_apart (Dungeon.rooms d) →
  ∃ more, Dungeon.rooms d' = Dungeon.rooms d ++ more ∧
    length more = length l ∧
    Forall (λ r, Room.room_type r = Normal ∨ Room.room_type r = Special) more ∧
    rooms_apart (Dungeon.rooms d').
Proof.
  revert d g. induction l as [|a l IH]; intros d g H Hap.
  - rewrite for_each_nil in H. simplify_eq. exists [].
    rewrite app_nil_r. by repeat split.
  - rewrite for_each_cons in H. simpl in H.
    destruct (random.random g) as [roll g1].
    destruct (Dungeon._add_room 0 _ d g1) as [[[idx d1] g2]|] eqn:E;
      simplify_eq/=.
    apply rooms_apart_add in E as (room & Hr1 & _ & Hrt & Hap1); [|done].
    apply IH in H as (more & Hr & Hlen & Hty & Hap'); [|done].
    rewrite Hr, Hr1, <- app_assoc in Hap'.
    exists (room :: more). rewrite Hr, Hr1, <- app_assoc.
    split; [done|]. split; [simpl; lia|]. split; [|done].
    constructor; [|done]. rewrite Hrt. case_bool_decide; auto.
Qed.

Lemma rooms_apart_le rs rs' :
  Forall2 room_le rs rs' → rooms_apart rs → rooms_apart rs'.
Proof.
  intros HF Hap i j ri' rj' Hij Hi Hj Hw.
  destruct (Forall2_lookup_r _ _ _ _ _ HF Hi) as (ri & Hri & Hlei).
  destruct (Forall2_lookup_r _ _ _ _ _ HF Hj) as (rj & Hrj & Hlej).
  rewrite (intersects_place rj rj' ri ri')
    by (by apply room_le_same_place).
  apply (Hap i j ri rj Hij Hri Hrj). by rewrite <- (room_width_le rj rj').
Qed.

(** A regular level has between 8 and 12 rooms: the entrance room first,
    the exit room last, normal and special rooms between them.  The
    entrance and the exit are the centres of the first and the last room;
    the exit cell holds the stairs down, and the entrance cell the stairs
    up unless it is the exit cell as well.  No room that is not 5 wide
    overlaps or touches a room placed before it. *)
Theorem generate_regular_layout d0 g d g' :
  Dungeon.area_index d0 ≠ 6 → Dungeon.rooms d0 = [] →
  Dungeon.generate d0 g = Some (d, g') →
  ∃ r0 mid rx,
    Dungeon.rooms d = r0 :: mid ++ [rx] ∧
    8 ≤ Z.of_nat (length (Dungeon.rooms d)) ≤ 12 ∧
    Room.room_type r0 = Entrance ∧ Room.room_type rx = Exit ∧
    Forall (λ r, Room.room_type r = Normal ∨ Room.room_type r = Special) mid ∧
    Dungeon.entrance d = Some (Room.center r0) ∧
    Dungeon.exit d = Some (Room.center rx) ∧
    tile d (Room.center rx) = STAIRS_DOWN ∧
    (Room.center r0 ≠ Room.center rx → tile d (Room.center r0) = STAIRS_UP) ∧
    rooms_apart (Dungeon.rooms d).
Proof.
  intros Hai Hr0 H.
  destruct (generate_trace d0 g d g' Hai H)
    as (num & g1 & e & d2 & g2 & r0 & d4 & g4 & x & d5 & g5 & rx & d7 & en &
        d8 & ex & d9 & Hnum & Ee & Er0 & Eloop & Ex & Erx & Ec & Een & Ep8 &
        Eex & Ep9 & ->).
  apply randint_range in Hnum. unfold MIN_ROOMS, MAX_ROOMS in Hnum.
  set (d1 := Dungeon.fill_wall d0) in *.
  assert (Hinv1 : rooms_inv d1).
  { intros r Hr. unfold d1 in Hr. simpl in Hr. rewrite Hr0 in Hr.
    by apply elem_of_nil in Hr. }
  assert (Hap1 : rooms_apart (Dungeon.rooms d1)).
  { unfold d1. simpl. rewrite Hr0. by intros i j ri rj _ Hi. }
  (* the entrance room *)
  destruct (rooms_apart_add _ _ _ _ _ _ _ Ee Hap1)
    as (r0' & Hr2 & He & Ht0 & Hap2).
  apply _add_room_spec in Ee as (r0'' & Hadd0 & _).
  pose proof (room_added_inv Entrance _ _ _ _ ltac:(done) Hinv1 Hadd0) as Hinv2.
  change (Dungeon.rooms d1) with (Dungeon.rooms d0) in *.
  rewrite Hr0 in *. simpl in Hr2, He. subst e. rewrite Hr2 in Er0.
  simpl in Er0. simplify_eq.
  set (d3 := Dungeon.set_entrance (Some (Room.center r0)) d2) in *.
  assert (Hinv3 : rooms_inv d3) by (by apply (rooms_inv_frame d2)).
  (* the middle rooms *)
  pose proof Eloop as Eloop'.
  apply generate_middle_rooms in Eloop' as (Hinv4 & Hfr34 & _); [|done].
  apply middle_rooms_spec in Eloop as (more & Hr4 & Hlen & Hty & Hap4);
    [|done].
  change (Dungeon.rooms d3) with (Dungeon.rooms d2) in Hr4. rewrite Hr2 in Hr4.
  rewrite length_range in Hlen.
  (* the exit room *)
  destruct (rooms_apart_add _ _ _ _ _ _ _ Ex Hap4)
    as (rx' & Hr5 & Hx & Htx & Hap5).
  apply _add_room_spec in Ex as (rx'' & Haddx & _).
  pose proof (room_added_inv Exit _ _ _ _ ltac:(done) Hinv4 Haddx) as Hinv5.
  subst x. rewrite Hr5 in Erx. rewrite list_lookup_middle in Erx by done.
  simplify_eq. rewrite Hr5, Hr4 in Hap5. rewrite Hr4 in Hr5.
  set (d6 := Dungeon.set_exit (Some (Room.center rx)) d5) in *.
  assert (Hinv6 : rooms_inv d6) by (by apply (rooms_inv_frame d5)).
  assert (Hr6 : Dungeon.rooms d6 = r0 :: more ++ [rx]) by exact Hr5.
  assert (Hc6 : ∀ r, r ∈ Dungeon.rooms d6 → in_bounds d6 (Room.center r)).
  { intros r Hr. destruct (Hinv6 r Hr) as (_ & ((Hw & Hh & _) & _) & Hig).
    by apply room_in_grid_center. }
  pose proof Ec as Ec'.
  eapply (_connect_rooms_spec _ _ _ _ r0 (more ++ [rx])) in Ec';
    [|done|done|intros r Hr; by apply Hinv6|done].
  destruct Ec' as (Hg67 & Hfr67 & _ & Hrs67 & _).
  (* entrance and exit *)
  assert (Hen7 : en = Room.center r0).
  { destruct Hfr67 as (_ & _ & _ & _ & Hen & _). rewrite Hen in Een.
    simpl in Een. destruct Haddx as (_&_&_&_&_&_&_&_&_&_&Hfr45).
    destruct Hfr45 as (_ & _ & _ & _ & Hen5 & _). rewrite Hen5 in Een.
    destruct Hfr34 as (_ & _ & _ & _ & Hen4 & _). rewrite Hen4 in Een.
    simpl in Een. by simplify_eq. }
  assert (Hin7 : ∀ r, r ∈ Dungeon.rooms d6 → in_bounds d7 (Room.center r)).
  { intros r Hr. apply (grid_grows_in_bounds _ d6 d7 _ Hg67). by apply Hc6. }
  assert (H0in : r0 ∈ Dungeon.rooms d6) by (rewrite Hr6; apply list_elem_of_here).
  assert (Hxin : rx ∈ Dungeon.rooms d6).
  { rewrite Hr6. apply list_elem_of_further, elem_of_app. right.
    apply list_elem_of_here. }
  subst en.
  pose proof (put_tile _ _ _ _ _ Ep8 (Hin7 r0 H0in)) as Ht8.
  apply put_spec in Ep8 as (c8 & _ & -> & _).
  assert (Hex8 : ex = Room.center rx).
  { simpl in Eex. destruct Hfr67 as (_ & _ & _ & _ & _ & Hex & _).
    rewrite Hex in Eex. simpl in Eex. by simplify_eq. }
  subst ex.
  assert (Hin8 : in_bounds (Dungeon.set_grid (<[c8 := STAIRS_UP]> (Dungeon.grid d7)) d7)
                   (Room.center rx)) by apply (Hin7 rx Hxin).
  pose proof (put_tile _ _ _ _ _ Ep9 Hin8) as Ht9.
  apply put_spec in Ep9 as (c9 & _ & -> & Hc9). specialize (Hc9 Hin8).
  simpl in Hc9. subst c9.
  (* the rooms *)
  rewrite Hr6 in Hrs67.
  pose proof (rooms_apart_le _ _ Hrs67 Hap5) as Hap7.
  pose proof (Forall2_length _ _ _ Hrs67) as Hlen7.
  apply Forall2_cons_inv_l in Hrs67 as (r0' & rest' & Hle0 & Hrest & Hr7).
  apply Forall2_app_inv_l in Hrest as (mid' & last' & Hmid & Hlast & ->).
  apply Forall2_cons_inv_l in Hlast as (rx' & nil' & Hlex & Hnil & ->).
  apply Forall2_nil_inv_l in Hnil as ->.
  exists r0', mid', rx'. simpl. rewrite Hr7.
  rewrite (room_le_center _ _ Hle0), (room_le_center _ _ Hlex).
  rewrite (room_type_le _ _ Hle0), (room_type_le _ _ Hlex).
  split; [done|]. split.
  { rewrite Hr7 in Hlen7. rewrite <- Hlen7. simpl. rewrite length_app. simpl.
    lia. }
  split; [done|]. split; [done|]. split.
  { clear -Hmid Hty. induction Hmid as [|a b l l' Hab _ IH]; [constructor|].
    apply Forall_cons in Hty as [Ha Hty]. constructor; [|by apply IH].
    by rewrite (room_type_le _ _ Hab). }
  split; [exact Een|]. split; [exact Eex|].
  split; [exact Ht9|]. split; [|by rewrite <- Hr7].
  intros Hne. unfold tile. simpl. rewrite lookup_insert_ne by done.
  exact Ht8.
Qed.

(** ** Rooms, corridors and neighbours *)

Lemma some_eta3 {A B C} (o : option (A * B * C)) (dflt : A * B * C) :
  bool_decide (is_Some o) = true →
  o = Some ((from_option id dflt o).1.1, (from_option id dflt o).1.2,
            (from_option id dflt o).2).
Proof.
  destruct o as [[[a b] c]|]; [reflexivity|]. intros H.
  apply bool_decide_eq_true_1 in H. by destruct H.
Qed.

Lemma generate_regular_layout_witness :
  let d0 := from_option id blank (Dungeon.new 50 50 1 0) in
  let run := Dungeon.generate d0 mixed_tape in
  let d := (from_option id (blank, random.const 0) run).1 in
  ∃ r0 mid rx,
    Dungeon.rooms d = r0 :: mid ++ [rx] ∧
    8 ≤ Z.of_nat (length (Dungeon.rooms d)) ≤ 12 ∧
    Room.room_type r0 = Entrance ∧ Room.room_type rx = Exit ∧
    Forall (λ r, Room.room_type r = Normal ∨ Room.room_type r = Special) mid ∧
    Dungeon.entrance d = Some (Room.center r0) ∧
    Dungeon.exit d = Some (Room.center rx) ∧
    tile d (Room.center rx) = STAIRS_DOWN ∧
    (Room.center r0 ≠ Room.center rx → tile d (Room.center r0) = STAIRS_UP) ∧
    rooms_apart (Dungeon.rooms d).
Proof.
  intros d0 run d.
  apply (generate_regular_layout d0 mixed_tape d
           (from_option id (blank, random.const 0) run).2).
  - vm_compute. discriminate.
  - reflexivity.
  - apply (some_eta run (blank, random.const 0)). vm_compute. reflexivity.
Defined.

(** [_add_room] always places a room: when it returns, exactly one room of
    the kind asked for has been appended; it lies on the grid, is at least
    5 x 5 and all floor, with its spawns inside; every other cell keeps its
    tile or has become floor; the room passed the scan of the existing
    rooms or is one of the 5 wide fallback rooms. *)
Theorem add_room_places_a_room md rt d g idx d' g' :
  Dungeon._add_room md rt d g = Some (idx, d', g') →
  ∃ room,
    Dungeon.rooms d' = Dungeon.rooms d ++ [room] ∧
    idx = length (Dungeon.rooms d) ∧
    Room.room_type room = rt ∧ Room.connected room = false ∧
    room_in_grid d' room ∧ 5 ≤ Room.width room ∧ 5 ≤ Room.height room ∧
    (∀ c, in_rect room c → tile d' c = FLOOR) ∧
    (∀ c, tile d' c = tile d c ∨ tile d' c = FLOOR) ∧
    room_spawns_inside (Dungeon.heap d') room ∧
    Dungeon.enemies d' = Dungeon.enemies d ∧ Dungeon.items d' = Dungeon.items d ∧
    (Dungeon.fits d (Room.new (Room.x room) (Room.y room) (Room.width room)
                       (Room.height room) rt) md = true ∨
     Room.width room = 5).
Proof.
  intros H. apply _add_room_spec in H as (room & Hadd & Hfits & _).
  destruct Hadd as (Hcn & Hidx & Hrooms & Hrt & Hig & (Hw & Hh) & Hfl & Hg &
                    _ & Hsp & Hfr).
  destruct Hfr as (HW & HH & _ & _ & _ & _ & Hen & Hit).
  exists room. do 4 (split; [done|]).
  split; [unfold room_in_grid; by rewrite HW, HH|].
  do 3 (split; [done|]). split; [|done].
  intros c. destruct Hg as (_ & _ & Hg). destruct (Hg c) as [?|[_ ?]]; auto.
Qed.

Lemma add_room_places_a_room_witness :
  let run := Dungeon._add_room 0 Entrance empty50 mixed_tape in
  let idx := (from_option id (O, blank, random.const 0) run).1.1 in
  let d' := (from_option id (O, blank, random.const 0) run).1.2 in
  ∃ room,
    Dungeon.rooms d' = Dungeon.rooms empty50 ++ [room] ∧
    idx = length (Dungeon.rooms empty50) ∧
    Room.room_type room = Entrance ∧ Room.connected room = false ∧
    room_in_grid d' room ∧ 5 ≤ Room.width room ∧ 5 ≤ Room.height room ∧
    (∀ c, in_rect room c → tile d' c = FLOOR) ∧
    (∀ c, tile d' c = tile empty50 c ∨ tile d' c = FLOOR) ∧
    room_spawns_inside (Dungeon.heap d') room ∧
    Dungeon.enemies d' = Dungeon.enemies empty50 ∧
    Dungeon.items d' = Dungeon.items empty50 ∧
    (Dungeon.fits empty50
       (Room.new (Room.x room) (Room.y room) (Room.width room)
          (Room.height room) Entrance) 0 = true ∨
     Room.width room = 5).
Proof.
  intros run idx d'.
  apply (add_room_places_a_room 0 Entrance empty50 mixed_tape idx d'
           (from_option id (O, blank, random.const 0) run).2).
  apply (some_eta3 run (O, blank, random.const 0)). vm_compute. reflexivity.
Defined.

(** A corridor joins its two ends: when both lie on the grid, each can be
    reached from the other afterwards, whichever leg is dug first and
    whether or not a door is placed.  Digging never closes a cell: every
    cell keeps its tile or holds a walkable one; rooms and spawns stay. *)
Theorem create_corridor_connects p1 p2 d g d' g' :
  Dungeon._create_corridor p1 p2 d g = Some (d', g') →
  in_bounds d p1 → in_bounds d p2 →
  reachable d' p1 p2 ∧ reachable d' p2 p1 ∧
  (∀ c, tile d' c = tile d c ∨ Dungeon.walkable (tile d' c) = true) ∧
  Dungeon.rooms d' = Dungeon.rooms d ∧ Dungeon.heap d' = Dungeon.heap d ∧
  Dungeon.enemies d' = Dungeon.enemies d ∧ Dungeon.items d' = Dungeon.items d.
Proof.
  intros H H1 H2.
  apply _create_corridor_spec in H as (Hg & Hfr & Hr & Hh & Hreach).
  destruct (Hreach H1 H2) as [R1 R2]. split; [done|]. split; [done|].
  destruct Hfr as (_ & _ & _ & _ & _ & _ & He & Hi).
  split; [|done].
  intros c. destruct Hg as (_ & _ & Hg). destruct (Hg c) as [?|[_ ?]]; auto.
Qed.

Lemma create_corridor_connects_witness :
  let d := level_of world_mix in
  let run := Dungeon._create_corridor (5, 45) (40, 5) d mixed_tape in
  let d' := (from_option id (blank, random.const 0) run).1 in
  reachable d' (5, 45) (40, 5) ∧ reachable d' (40, 5) (5, 45) ∧
  (∀ c, tile d' c = tile d c ∨ Dungeon.walkable (tile d' c) = true) ∧
  Dungeon.rooms d' = Dungeon.rooms d ∧ Dungeon.heap d' = Dungeon.heap d ∧
  Dungeon.enemies d' = Dungeon.enemies d ∧ Dungeon.items d' = Dungeon.items d.
Proof.
  intros d run d'.
  apply (create_corridor_connects (5, 45) (40, 5) d mixed_tape d'
           (from_option id (blank, random.const 0) run).2).
  - apply (some_eta run (blank, random.const 0)). vm_compute. reflexivity.
  - vm_compute. repeat split; discriminate.
  - vm_compute. repeat split; discriminate.
Defined.

(** [intersects] is symmetric, and it counts rooms that merely touch as
    intersecting: two rooms that do not intersect have no cell in common
    and no two neighbouring cells (at least one free row or column lies
    between them). *)
Theorem intersects_gap r1 r2 :
  Room.intersects r1 r2 = Room.intersects r2 r1 ∧
  (Room.intersects r1 r2 = false →
   ∀ c1 c2, in_rect r1 c1 → in_rect r2 c2 → c1 ≠ c2 ∧ ¬ adjacent c1 c2).
Proof.
  unfold Room.intersects. split.
  - apply eq_true_iff_eq. rewrite !andb_true_iff, !bool_decide_eq_true.
    split; intros (((?&?)&?)&?); repeat split; lia.
  - intros H [x1 y1] [x2 y2] [Hx1 Hy1] [Hx2 Hy2]. unfold adjacent.
    simpl in *. split.
    + intros [= -> ->]. revert H.
      rewrite !bool_decide_eq_true_2 by lia. done.
    + intros Hadj. revert H. rewrite !bool_decide_eq_true_2 by lia. done.
Qed.

Lemma length_omap_le {A B} (f : A → option B) l :
  (length (omap f l) ≤ length l)%nat.
Proof.
  induction l as [|a l IH]; [done|]. simpl.
  destruct (f a); simpl; [apply le_n_S|apply Nat.le_le_succ_r]; exact IH.
Qed.

(** [get_walkable_neighbors] returns exactly the cells next to (x, y), in
    one of the four directions, that lie on the grid and hold floor, a
    door or stairs; there are at most four. *)
Theorem get_walkable_neighbors_spec d x y :
  (∀ n, n ∈ Dungeon.get_walkable_neighbors d x y ↔
        adjacent (x, y) n ∧ in_bounds d n ∧ Dungeon.walkable (tile d n) = true) ∧
  (length (Dungeon.get_walkable_neighbors d x y) ≤ 4)%nat.
Proof.
  split.
  - intros n. apply (neighbors_spec d (x, y) n).
  - unfold Dungeon.get_walkable_neighbors.
    etrans; [apply length_omap_le|]. done.
Qed.

(** ** Populating a room *)

Lemma random_range g r g' : random.random g = (r, g') → 0 ≤ r < 100.
Proof.
  with_strategy transparent [random.random] (unfold random.random).
  destruct (random.next g) as [v g1]. intros [= <- <-].
  apply Z.mod_pos_bound. lia.
Qed.

(** The enemies the loop of [place_enemies] adds. *)
Lemma place_enemies_loop_count n room dl hp g room' hp' g' :
  Room.place_enemies_loop n room dl hp g = Some (room', hp', g') →
  ∃ new, hp' = hp ++ new ∧ length new = n ∧
    Room.enemies room' = Room.enemies room ++ seq (length hp) n ∧
    Forall (λ e, e_type e = enemy_normal ∧ Room.interior room (e_pos e) ∧
                 1 ≤ e_level e ∧ dl - 1 ≤ e_level e ≤ Z.max 1 (dl + 1)) new ∧
    same_place room room' ∧
    Room.items room' = Room.items room ∧
    Room.features room' = Room.features room.
Proof.
  revert room hp g. induction n as [|n IH]; intros room hp g H.
  - rewrite place_enemies_loop_O in H. simplify_eq. exists [].
    rewrite !app_nil_r. by repeat split.
  - rewrite place_enemies_loop_S in H.
    destruct (random.randint _ _ g) as [[ex g1]|] eqn:Ex; simplify_eq/=.
    destruct (random.randint _ _ g1) as [[ey g2]|] eqn:Ey; simplify_eq/=.
    destruct (random.randint _ _ g2) as [[dl' g3]|] eqn:Ed; simplify_eq/=.
    apply randint_range in Ex, Ey, Ed.
    apply IH in H as (new & -> & Hlen & Hen & Hall & Hsp & Hit & Hft).
    eexists (_ :: new). split; [by rewrite <- app_assoc|].
    split; [simpl; lia|]. split; [|split; [|done]].
    + rewrite Hen. simpl. rewrite <- app_assoc, length_app. simpl.
      by rewrite Nat.add_1_r.
    + constructor; [|done]. simpl.
      split; [done|]. split; [unfold Room.interior; simpl; lia|]. lia.
Qed.

(** [place_enemies] on a room that is not a boss room adds between
    max(0, base - 1) and base + difficulty_mod enemies, where base is
    max(1, area // 25) and difficulty_mod is min(3, max(0, level +
    area_index // 2)); all of them are normal enemies strictly inside the
    room, of a level that is at least 1 and within one of the dungeon
    level.  On a boss room it adds exactly one boss, on the centre, of
    level dungeon_level + 2 + area_index.  Items and features stay. *)
Theorem place_enemies_count room dl ai hp g room' hp' g' :
  Room.place_enemies room dl ai hp g = Some (room', hp', g') →
  ∃ new, hp' = hp ++ new ∧
    Room.enemies room' = Room.enemies room ++ seq (length hp) (length new) ∧
    Room.items room' = Room.items room ∧
    Room.features room' = Room.features room ∧
    if decide (Room.room_type room = Boss) then
      new = [{| e_type := enemy_boss; e_pos := Room.center room;
                e_level := dl + 2 + ai |}]
    else
      let base := Z.max 1 (Room.width room * Room.height room / 25) in
      let difficulty_mod := Z.min 3 (Z.max 0 (dl + ai / 2)) in
      Z.max 0 (base - 1) ≤ Z.of_nat (length new) ≤ base + difficulty_mod ∧
      Forall (λ e, e_type e = enemy_normal ∧ Room.interior room (e_pos e) ∧
                   1 ≤ e_level e ∧ dl - 1 ≤ e_level e ≤ Z.max 1 (dl + 1)) new.
Proof.
  unfold Room.place_enemies. intros H.
  destruct (decide (Room.room_type room = Boss)) as [Hb|Hb].
  - simplify_eq. eexists. split; [done|]. simpl. by repeat split.
  - destruct (random.randint _ _ g) as [[num g1]|] eqn:En; simplify_eq/=.
    apply randint_range in En.
    apply place_enemies_loop_count in H
      as (new & -> & Hlen & Hen & Hall & _ & Hit & Hft).
    exists new. rewrite Hlen. split; [done|]. split; [done|].
    split; [done|]. split; [done|]. split; [lia|done].
Qed.

Lemma place_enemies_count_witness :
  let room := Room.new 28 12 9 9 Normal in
  let run := Room.place_enemies room 1 0 [] mixed_tape in
  let room' := (from_option id (room, [], random.const 0) run).1.1 in
  let hp' := (from_option id (room, [], random.const 0) run).1.2 in
  ∃ new, hp' = [] ++ new ∧
    Room.enemies room' = Room.enemies room ++ seq (length ([] : list Enemy))
                                                (length new) ∧
    Room.items room' = Room.items room ∧
    Room.features room' = Room.features room ∧
    if decide (Room.room_type room = Boss) then
      new = [{| e_type := enemy_boss; e_pos := Room.center room;
                e_level := 1 + 2 + 0 |}]
    else
      let base := Z.max 1 (Room.width room * Room.height room / 25) in
      let difficulty_mod := Z.min 3 (Z.max 0 (1 + 0 / 2)) in
      Z.max 0 (base - 1) ≤ Z.of_nat (length new) ≤ base + difficulty_mod ∧
      Forall (λ e, e_type e = enemy_normal ∧ Room.interior room (e_pos e) ∧
                   1 ≤ e_level e ∧ 1 - 1 ≤ e_level e ≤ Z.max 1 (1 + 1)) new.
Proof.
  intros room run room' hp'.
  apply (place_enemies_count room 1 0 [] mixed_tape room' hp'
           (from_option id (room, [], random.const 0) run).2).
  apply (some_eta3 run (room, [], random.const 0)). vm_compute. reflexivity.
Defined.

(** [place_items] adds at most one item, strictly inside the room and of
    the dungeon level; a boss room always gets one (its chance is 1.0).
    Enemies and features stay. *)
Theorem place_items_at_most_one room dl g room' g' :
  Room.place_items room dl g = Some (room', g') →
  Room.enemies room' = Room.enemies room ∧
  Room.features room' = Room.features room ∧ same_place room room' ∧
  (Room.items room' = Room.items room ∧ Room.room_type room ≠ Boss ∨
   ∃ it, Room.items room' = Room.items room ++ [it] ∧
         i_level it = dl ∧ Room.interior room (i_pos it)).
Proof.
  unfold Room.place_items. intros H.
  destruct (random.random g) as [roll g1] eqn:Er.
  apply random_range in Er.
  case_bool_decide as Hroll.
  - destruct (random.randint _ _ g1) as [[ix g2]|] eqn:Ex; simplify_eq/=.
    destruct (random.randint _ _ g2) as [[iy g3]|] eqn:Ey; simplify_eq/=.
    destruct (random.random g3) as [rr g4]. simplify_eq/=.
    apply randint_range in Ex, Ey.
    do 3 (split; [done|]). right. eexists. split; [done|]. split; [done|].
    unfold Room.interior. simpl. lia.
  - assert (room' = room) as -> by congruence.
    do 3 (split; [done|]). left. split; [done|].
    intros Hb. destruct (decide (Room.room_type room = Boss)); [lia|done].
Qed.

Lemma place_items_at_most_one_witness :
  let room := Room.new 28 12 9 9 Boss in
  let run := Room.place_items room 1 mixed_tape in
  let room' := (from_option id (room, random.const 0) run).1 in
  Room.enemies room' = Room.enemies room ∧
  Room.features room' = Room.features room ∧ same_place room room' ∧
  (Room.items room' = Room.items room ∧ Room.room_type room ≠ Boss ∨
   ∃ it, Room.items room' = Room.items room ++ [it] ∧
         i_level it = 1 ∧ Room.interior room (i_pos it)).
Proof.
  intros room run room'.
  apply (place_items_at_most_one room 1 mixed_tape room'
           (from_option id (room, random.const 0) run).2).
  apply (some_eta run (room, random.const 0)). vm_compute. reflexivity.
Defined.

(** ** What the heat modifiers do *)

(** Select the branch of [apply_modifier] for a known effect. *)
Ltac pick_effect H :=
  repeat match type of H with
  | (if decide (?a = ?b) then _ else _) = _ =>
      destruct (decide (a = b)) as [?|?]; [try discriminate|try done]
  end.

Lemma raise_levels_lookup k (refs : list nat) : ∀ (hp : list Enemy) (ref : nat),
  NoDup refs →
  foldl (λ hp ref,
     alter (λ e, {| e_type := e_type e; e_pos := e_pos e;
                    e_level := e_level e + k |}) ref hp) hp refs !! ref
  = if decide (ref ∈ refs) then bump k <$> hp !! ref else hp !! ref.
Proof.
  induction refs as [|r refs IH]; intros hp ref Hnd; simpl.
  - destruct (decide (ref ∈ [])) as [H|]; [by apply elem_of_nil in H|done].
  - apply NoDup_cons in Hnd as [Hr Hnd]. rewrite IH by done.
    destruct (decide (ref = r)) as [->|Hne].
    + destruct (decide (r ∈ refs)); [done|].
      destruct (decide (r ∈ r :: refs)) as [_|Hn];
        [|destruct Hn; apply list_elem_of_here].
      by rewrite list_lookup_alter_eq.
    + rewrite list_lookup_alter_ne by done.
      destruct (decide (ref ∈ refs)) as [Hin|Hin].
      * destruct (decide (ref ∈ r :: refs)) as [_|Hn]; [done|].
        destruct Hn. by apply list_elem_of_further.
      * destruct (decide (ref ∈ r :: refs)) as [Hn|_]; [|done].
        apply elem_of_cons in Hn as [?|?]; done.
Qed.

Lemma length_raise_levels k (refs : list nat) : ∀ hp : list Enemy,
  length (foldl (λ hp ref,
     alter (λ e, {| e_type := e_type e; e_pos := e_pos e;
                    e_level := e_level e + k |}) ref hp) hp refs) = length hp.
Proof.
  induction refs as [|r refs IH]; intros hp; simpl; [done|].
  rewrite IH. apply length_alter.
Qed.

(** "Stronger Enemies" raises the level of every enemy of the level by
    exactly 2, once, and changes nothing else: kinds, positions, the lists
    and the grid stay, and no random draw is made. *)
Theorem stronger_enemies_raises_levels md d g d' g' :
  effect md = "stronger_enemies" →
  NoDup (Dungeon.enemies d) →
  DungeonManager.apply_modifier md (d, g) = Some (d', g') →
  g' = g ∧ d' = Dungeon.set_heap (Dungeon.heap d') d ∧
  length (Dungeon.heap d') = length (Dungeon.heap d) ∧
  ∀ ref e, Dungeon.heap d !! ref = Some e →
    Dungeon.heap d' !! ref =
      Some (if decide (ref ∈ Dungeon.enemies d) then bump 2 e else e).
Proof.
  intros Heff Hnd H. unfold DungeonManager.apply_modifier in H.
  rewrite Heff in H. pick_effect H. simplify_eq.
  split; [done|]. split; [done|]. simpl. split.
  - apply length_raise_levels.
  - intros ref e He. rewrite raise_levels_lookup by done. rewrite He.
    by destruct (decide _).
Qed.

Lemma stronger_enemies_raises_levels_witness :
  let md := modifier_of "stronger_enemies" in
  let d := level_of world_mix in
  let run := DungeonManager.apply_modifier md (d, mixed_tape) in
  let d' := (from_option id (blank, random.const 0) run).1 in
  let g' := (from_option id (blank, random.const 0) run).2 in
  g' = mixed_tape ∧ d' = Dungeon.set_heap (Dungeon.heap d') d ∧
  length (Dungeon.heap d') = length (Dungeon.heap d) ∧
  ∀ ref e, Dungeon.heap d !! ref = Some e →
    Dungeon.heap d' !! ref =
      Some (if decide (ref ∈ Dungeon.enemies d) then bump 2 e else e).
Proof.
  intros md d run d' g'.
  apply (stronger_enemies_raises_levels md d mixed_tape d' g').
  - reflexivity.
  - apply (bool_decide_eq_true_1 (NoDup (Dungeon.enemies d))).
    vm_compute. reflexivity.
  - apply (some_eta run (blank, random.const 0)). vm_compute. reflexivity.
Defined.

Lemma list_pop_sublist {A} i (l : list A) : sublist (list_pop i l) l.
Proof.
  unfold list_pop. destruct (l !! i) as [x|] eqn:E.
  - rewrite <- (take_drop_middle l i x E) at 3.
    apply sublist_app; [done|]. by apply sublist_cons.
  - apply lookup_ge_None in E. rewrite take_ge, drop_ge by lia.
    by rewrite app_nil_r.
Qed.

Lemma length_list_pop {A} i (l : list A) :
  (i < length l)%nat → S (length (list_pop i l)) = length l.
Proof.
  intros Hi. unfold list_pop. rewrite length_app, length_take, length_drop. lia.
Qed.

Lemma remove_items_spec n : ∀ d g d' g',
  repeat_m n DungeonManager.remove_item (d, g) = Some (d', g') →
  (n ≤ length (Dungeon.items d))%nat →
  d' = Dungeon.set_items (Dungeon.items d') d ∧
  (length (Dungeon.items d') + n = length (Dungeon.items d))%nat ∧
  sublist (Dungeon.items d') (Dungeon.items d).
Proof.
  induction n as [|n IH]; intros d g d' g' H Hn.
  - rewrite repeat_m_O in H. simplify_eq. split; [by destruct d'|].
    split; [lia|done].
  - rewrite repeat_m_S in H.
    destruct (DungeonManager.remove_item (d, g)) as [[d1 g1]|] eqn:E;
      simplify_eq/=.
    unfold DungeonManager.remove_item in E.
    destruct (Dungeon.items d) as [|it0 its] eqn:Ei; [simpl in Hn; lia|].
    destruct (random.randrange _ g) as [[i g2]|] eqn:Er; simplify_eq/=.
    apply randrange_range in Er.
    apply IH in H as (Hd' & Hlen & Hsub).
    + simpl in *. split; [by rewrite Hd'|].
      pose proof (length_list_pop (Z.to_nat i) (it0 :: its)) as Hp.
      simpl in Hp. split; [lia|].
      etrans; [done|]. apply list_pop_sublist.
    + simpl. pose proof (length_list_pop (Z.to_nat i) (it0 :: its)) as Hp.
      simpl in Hp. lia.
Qed.

(** "Less Items" removes exactly half of the items, rounded down: of n
    items, n - n // 2 stay, in their order; nothing else of the level
    changes. *)
Theorem less_items_halves md d g d' g' :
  effect md = "less_items" →
  DungeonManager.apply_modifier md (d, g) = Some (d', g') →
  d' = Dungeon.set_items (Dungeon.items d') d ∧
  length (Dungeon.items d')
    = (length (Dungeon.items d) - length (Dungeon.items d) `div` 2)%nat ∧
  sublist (Dungeon.items d') (Dungeon.items d).
Proof.
  intros Heff H. unfold DungeonManager.apply_modifier in H.
  rewrite Heff in H. pick_effect H.
  pose proof (Nat.Div0.div_le_upper_bound (length (Dungeon.items d)) 2
                (length (Dungeon.items d)) ltac:(lia)) as Hle.
  apply remove_items_spec in H as (Hd' & Hlen & Hsub); [|done].
  split; [done|]. split; [lia|done].
Qed.

Lemma less_items_halves_witness :
  let md := modifier_of "less_items" in
  let d := level_of world_mix in
  let run := DungeonManager.apply_modifier md (d, mixed_tape) in
  let d' := (from_option id (blank, random.const 0) run).1 in
  d' = Dungeon.set_items (Dungeon.items d') d ∧
  length (Dungeon.items d')
    = (length (Dungeon.items d) - length (Dungeon.items d) `div` 2)%nat ∧
  sublist (Dungeon.items d') (Dungeon.items d).
Proof.
  intros md d run d'.
  apply (less_items_halves md d mixed_tape d'
           (from_option id (blank, random.const 0) run).2).
  - reflexivity.
  - apply (some_eta run (blank, random.const 0)). vm_compute. reflexivity.
Defined.

Lemma elite_step_trans e1 e2 e3 :
  elite_step e1 e2 → elite_step e2 e3 → elite_step e1 e3.
Proof.
  intros [P1 [->|(B1 & T1 & L1)]] [P2 [->|(B2 & T2 & L2)]].
  - split; [done|by left].
  - split; [done|]. right. done.
  - split; [done|]. right. done.
  - split; [congruence|]. right. split; [done|]. split; [done|lia].
Qed.

Lemma make_elites_spec n : ∀ d g d' g',
  repeat_m n DungeonManager.make_elite (d, g) = Some (d', g') →
  d' = Dungeon.set_heap (Dungeon.heap d') d ∧
  length (Dungeon.heap d') = length (Dungeon.heap d) ∧
  ∀ ref e, Dungeon.heap d !! ref = Some e →
    ∃ e', Dungeon.heap d' !! ref = Some e' ∧ elite_step e e'.
Proof.
  induction n as [|n IH]; intros d g d' g' H.
  - rewrite repeat_m_O in H. simplify_eq. split; [by destruct d'|].
    split; [done|]. intros ref e He. exists e. split; [done|].
    split; [done|by left].
  - rewrite repeat_m_S in H.
    destruct (DungeonManager.make_elite (d, g)) as [[d1 g1]|] eqn:E;
      simplify_eq/=.
    apply IH in H as (Hd' & Hlen & Hall).
    assert (d1 = Dungeon.set_heap (Dungeon.heap d1) d ∧
            length (Dungeon.heap d1) = length (Dungeon.heap d) ∧
            ∀ ref e, Dungeon.heap d !! ref = Some e →
              ∃ e', Dungeon.heap d1 !! ref = Some e' ∧ elite_step e e')
      as (Hd1 & Hlen1 & Hall1).
    { assert (Hid : ∀ ref e, Dungeon.heap d !! ref = Some e →
                ∃ e', Dungeon.heap d !! ref = Some e' ∧ elite_step e e').
      { intros ref e He. exists e. split; [done|]. split; [done|by left]. }
      unfold DungeonManager.make_elite in E.
      destruct (Dungeon.enemies d) as [|e0 es]; [by simplify_eq; destruct d1|].
      destruct (random.randrange _ g) as [[i g2]|]; simplify_eq/=.
      destruct (_ !! Z.to_nat i) as [r|]; simplify_eq/=.
      destruct (Dungeon.heap d !! r) as [enemy|] eqn:Er; simplify_eq/=.
      destruct (decide (e_type enemy ≠ enemy_boss)) as [Hnb|Hb];
        simplify_eq; [|by destruct d1].
      simpl. split; [done|]. split; [by rewrite length_insert|].
      intros ref e He. destruct (decide (ref = r)) as [->|Hne].
      - rewrite list_lookup_insert_eq by (by eapply lookup_lt_Some).
        eexists. split; [done|]. simplify_eq. split; [done|]. right.
        simpl. split; [done|]. split; [done|lia].
      - rewrite list_lookup_insert_ne by done. by apply Hid. }
    split; [rewrite Hd', Hd1; done|]. split; [lia|].
    intros ref e He. destruct (Hall1 ref e He) as (e1 & He1 & S1).
    destruct (Hall ref e1 He1) as (e' & He' & S').
    exists e'. split; [done|]. by eapply elite_step_trans.
Qed.

(** "Elite Enemies" keeps every enemy in place: an enemy is unchanged, or
    it has become elite with at least 3 more levels; a boss is never
    changed.  Lists, items and grid stay. *)
Theorem elite_enemies_spares_bosses md d g d' g' :
  effect md = "elite_enemies" →
  DungeonManager.apply_modifier md (d, g) = Some (d', g') →
  d' = Dungeon.set_heap (Dungeon.heap d') d ∧
  length (Dungeon.heap d') = length (Dungeon.heap d) ∧
  ∀ ref e, Dungeon.heap d !! ref = Some e →
    ∃ e', Dungeon.heap d' !! ref = Some e' ∧ e_pos e' = e_pos e ∧
      (e_type e = enemy_boss → e' = e) ∧
      (e' = e ∨ e_type e' = enemy_elite ∧ e_level e + 3 ≤ e_level e').
Proof.
  intros Heff H. unfold DungeonManager.apply_modifier in H.
  rewrite Heff in H. pick_effect H.
  apply make_elites_spec in H as (Hd' & Hlen & Hall).
  split; [done|]. split; [done|]. intros ref en Hen.
  destruct (Hall ref en Hen) as (en' & Hen' & Hp & Hs).
  exists en'. split; [done|]. split; [done|].
  destruct Hs as [->|(Hb & Ht & Hl)]; [by split; [|left]|].
  split; [done|]. by right.
Qed.

Lemma elite_enemies_spares_bosses_witness :
  let md := modifier_of "elite_enemies" in
  let d := level_of world_mix in
  let run := DungeonManager.apply_modifier md (d, mixed_tape) in
  let d' := (from_option id (blank, random.const 0) run).1 in
  d' = Dungeon.set_heap (Dungeon.heap d') d ∧
  length (Dungeon.heap d') = length (Dungeon.heap d) ∧
  ∀ ref e, Dungeon.heap d !! ref = Some e →
    ∃ e', Dungeon.heap d' !! ref = Some e' ∧ e_pos e' = e_pos e ∧
      (e_type e = enemy_boss → e' = e) ∧
      (e' = e ∨ e_type e' = enemy_elite ∧ e_level e + 3 ≤ e_level e').
Proof.
  intros md d run d'.
  apply (elite_enemies_spares_bosses md d mixed_tape d'
           (from_option id (blank, random.const 0) run).2).
  - reflexivity.
  - apply (some_eta run (blank, random.const 0)). vm_compute. reflexivity.
Defined.

Lemma add_enemies_spec n room : ∀ d g d' g',
  List.find (λ room,
     bool_decide (Room.room_type room ≠ Entrance) &&
     bool_decide (Room.room_type room ≠ Exit)) (Dungeon.rooms d) = Some room →
  repeat_m n (λ '(d, g), DungeonManager.add_enemy d g) (d, g) = Some (d', g') →
  ∃ new, length new = n ∧
    d' = Dungeon.set_enemies
           (Dungeon.enemies d ++ seq (length (Dungeon.heap d)) n)
           (Dungeon.set_heap (Dungeon.heap d ++ new) d) ∧
    Forall (λ e, e_type e = enemy_normal ∧ Room.interior room (e_pos e) ∧
                 1 ≤ e_level e) new.
Proof.
  induction n as [|n IH]; intros d g d' g' Hroom H.
  - rewrite repeat_m_O in H. simplify_eq. exists [].
    rewrite !app_nil_r. split; [done|]. split; [by destruct d'|done].
  - rewrite repeat_m_S in H.
    destruct (DungeonManager.add_enemy d g) as [[d1 g1]|] eqn:E;
      simplify_eq/=.
    unfold DungeonManager.add_enemy in E. rewrite Hroom in E.
    destruct (random.randint _ _ g) as [[x g2]|] eqn:Ex; simplify_eq/=.
    destruct (random.randint _ _ g2) as [[y g3]|] eqn:Ey; simplify_eq/=.
    destruct (random.randint _ _ g3) as [[dl g4]|] eqn:Ed; simplify_eq/=.
    apply randint_range in Ex, Ey.
    apply IH in H as (new & Hlen & -> & Hall); [|done].
    eexists (_ :: new). split; [simpl; lia|]. simpl. split.
    + rewrite <- !app_assoc, length_app. simpl.
      by rewrite Nat.add_1_r.
    + constructor; [|done]. simpl. split; [done|].
      split; [unfold Room.interior; simpl; lia|lia].
Qed.

(** "More Enemies" adds exactly len(enemies) // 2 enemies when the level
    has a room that is neither the entrance nor the exit room: all are
    normal enemies of level at least 1, strictly inside the first such
    room; the old enemies, the items, the rooms and the grid stay.  With
    no such room it adds nothing. *)
Theorem increase_enemies_adds_half md d g d' g' :
  effect md = "increase_enemies" →
  DungeonManager.apply_modifier md (d, g) = Some (d', g') →
  match List.find (λ room,
          bool_decide (Room.room_type room ≠ Entrance) &&
          bool_decide (Room.room_type room ≠ Exit)) (Dungeon.rooms d) with
  | Some room =>
      ∃ new, length new = (length (Dungeon.enemies d) `div` 2)%nat ∧
        d' = Dungeon.set_enemies
               (Dungeon.enemies d ++
                seq (length (Dungeon.heap d)) (length new))
               (Dungeon.set_heap (Dungeon.heap d ++ new) d) ∧
        Forall (λ e, e_type e = enemy_normal ∧ Room.interior room (e_pos e) ∧
                     1 ≤ e_level e) new
  | None => d' = d
  end.
Proof.
  intros Heff H. unfold DungeonManager.apply_modifier in H.
  rewrite Heff in H. pick_effect H.
  destruct (List.find _ (Dungeon.rooms d)) as [room|] eqn:Ef.
  - destruct (add_enemies_spec _ room _ _ _ _ Ef H) as (new & Hlen & Hd & Hall).
    exists new. by rewrite Hlen.
  - revert H. generalize (length (Dungeon.enemies d) `div` 2)%nat. intros n.
    revert g. induction n as [|n IH]; intros g H.
    + rewrite repeat_m_O in H. by simplify_eq.
    + rewrite repeat_m_S in H.
      assert (DungeonManager.add_enemy d g = Some (d, g)) as E
        by (unfold DungeonManager.add_enemy; by rewrite Ef).
      rewrite E in H. simpl in H. by eapply IH.
Qed.

Lemma increase_enemies_adds_half_witness :
  let md := modifier_of "increase_enemies" in
  let d := level_of world_mix in
  let run := DungeonManager.apply_modifier md (d, mixed_tape) in
  let d' := (from_option id (blank, random.const 0) run).1 in
  match List.find (λ room,
          bool_decide (Room.room_type room ≠ Entrance) &&
          bool_decide (Room.room_type room ≠ Exit)) (Dungeon.rooms d) with
  | Some room =>
      ∃ new, length new = (length (Dungeon.enemies d) `div` 2)%nat ∧
        d' = Dungeon.set_enemies
               (Dungeon.enemies d ++
                seq (length (Dungeon.heap d)) (length new))
               (Dungeon.set_heap (Dungeon.heap d ++ new) d) ∧
        Forall (λ e, e_type e = enemy_normal ∧ Room.interior room (e_pos e) ∧
                     1 ≤ e_level e) new
  | None => d' = d
  end.
Proof.
  intros md d run d'.
  apply (increase_enemies_adds_half md d mixed_tape d'
           (from_option id (blank, random.const 0) run).2).
  - reflexivity.
  - apply (some_eta run (blank, random.const 0)). vm_compute. reflexivity.
Defined.

(** ** The enemies of the last level *)

Lemma place_items_enemies room dl g room' g' :
  Room.place_items room dl g = Some (room', g') →
  Room.enemies room' = Room.enemies room ∧
  Room.room_type room' = Room.room_type room.
Proof.
  unfold Room.place_items. intros H.
  destruct (random.random g) as [roll g1].
  case_bool_decide.
  - destruct (random.randint _ _ g1) as [[ix g2]|]; simplify_eq/=.
    destruct (random.randint _ _ g2) as [[iy g3]|]; simplify_eq/=.
    destruct (random.random g3) as [rr g4]. by simplify_eq/=.
  - by assert (room' = room) as -> by congruence.
Qed.

Lemma add_special_feature_enemies room ai g room' g' :
  Room.add_special_feature room ai g = Some (room', g') →
  Room.enemies room' = Room.enemies room ∧
  Room.room_type room' = Room.room_type room.
Proof.
  unfold Room.add_special_feature. intros H.
  destruct (decide (Room.room_type room = Special)).
  - destruct (random.choice _ g) as [[ft g1]|]; by simplify_eq/=.
  - by assert (room' = room) as -> by congruence.
Qed.

(** The enemies an antechamber of the last level brings. *)
Lemma add_side_room_heap room d g d' g' :
  Room.room_type room ≠ Boss → Room.enemies room = [] →
  Dungeon.add_side_room room (d, g) = Some (d', g') →
  ∃ room' new,
    Dungeon.rooms d' = Dungeon.rooms d ++ [room'] ∧
    Dungeon.heap d' = Dungeon.heap d ++ new ∧
    Room.enemies room' = seq (length (Dungeon.heap d)) (length new) ∧
    Room.room_type room' = Room.room_type room ∧
    Dungeon.player_level d' = Dungeon.player_level d ∧
    Forall (λ e, e_type e = enemy_normal) new.
Proof.
  intros Hb Hen H. unfold Dungeon.add_side_room in H.
  destruct (Dungeon.fill_floor_guarded _ _ _ _ _) as [d1|] eqn:Efl;
    simplify_eq/=.
  apply fill_floor_guarded_spec in Efl as (_ & Hfr & _).
  apply frame_grid in Hfr as (Hfr & R1 & P1 & _). simpl in R1, P1.
  assert (L1 : Dungeon.player_level d1 = Dungeon.player_level d)
    by apply Hfr.
  destruct (decide (Room.room_type room ≠ Entrance)) as [Hne|Hne].
  - rewrite R1 in H. rewrite list_lookup_middle in H by done. simpl in H.
    destruct (Room.place_enemies room _ _ _ g) as [[[r1 hp1] g1]|] eqn:E1;
      simplify_eq/=.
    destruct (Room.place_items r1 _ g1) as [[r2 g2]|] eqn:E2; simplify_eq/=.
    destruct (Room.add_special_feature r2 _ g2) as [[r3 g3]|] eqn:E3;
      simplify_eq/=.
    apply place_items_enemies in E2 as [E2 T2].
    apply add_special_feature_enemies in E3 as [E3 T3].
    unfold Room.place_enemies in E1.
    destruct (decide (Room.room_type room = Boss)); [done|].
    destruct (random.randint _ _ g) as [[num g4]|]; simplify_eq/=.
    apply place_enemies_loop_count in E1
      as (new & -> & Hlen & Hr1 & Hall & Hsp & _).
    exists r3, new. rewrite insert_app_r_alt by done.
    rewrite Nat.sub_diag. simpl. split; [done|]. rewrite P1.
    split; [done|]. split; [|split; [|split; [done|]]].
    + rewrite E3, E2, Hr1, Hen, Hlen, ?P1. done.
    + rewrite T3, T2. apply Hsp.
    + eapply Forall_impl; [exact Hall|]. by intros e (? & _).
  - assert (d' = d1) as -> by congruence.
    exists room, []. rewrite app_nil_r. by rewrite Hen.
Qed.

Lemma seq_normal (hp new tl : list Enemy) :
  Forall (λ e, e_type e = enemy_normal) new →
  Forall (λ ref, ∃ e, (hp ++ new ++ tl) !! ref = Some e ∧
                      e_type e = enemy_normal)
    (seq (length hp) (length new)).
Proof.
  intros Hall. apply Forall_forall. intros ref Hin.
  apply elem_of_seq in Hin as [Hlo Hhi].
  destruct (lookup_lt_is_Some_2 new (ref - length hp)%nat) as [e He];
    [lia|].
  exists e. split.
  - rewrite lookup_app_r by lia. by rewrite lookup_app_l by lia.
  - by apply (Forall_lookup_1 _ _ _ _ Hall He).
Qed.

(** The rooms and the enemies of the last level. *)
Lemma generate_final_enemies d0 g d g' :
  Dungeon.area_index d0 = 6 → Dungeon.rooms d0 = [] →
  Dungeon.generate d0 g = Some (d, g') →
  ∃ throne s1 s2 s3 new rest,
    Dungeon.rooms d = [throne; s1; s2; s3] ∧
    Room.room_type throne = Boss ∧
    Room.center throne = (Dungeon.width d0 / 2, Dungeon.height d0 / 2) ∧
    Room.enemies throne = [length (Dungeon.heap d0)] ∧
    Room.room_type s1 = Special ∧ Room.room_type s2 = Special ∧
    Room.room_type s3 = Entrance ∧
    Dungeon.player_level d = Dungeon.player_level d0 ∧
    Dungeon.heap d =
      Dungeon.heap d0 ++
      {| e_type := enemy_boss;
         e_pos := (Dungeon.width d0 / 2, Dungeon.height d0 / 2);
         e_level := Dungeon.player_level d0 + 5 |} :: new ∧
    Dungeon.enemies d = length (Dungeon.heap d0) :: rest ∧
    Forall (λ ref, ∃ e, Dungeon.heap d !! ref = Some e ∧
                        e_type e = enemy_normal) rest.
Proof.
  intros Hai Hrooms0 H. unfold Dungeon.generate in H.
  set (d1 := Dungeon.fill_wall d0) in *.
  change (Dungeon.area_index d1) with (Dungeon.area_index d0) in H.
  destruct (decide (Dungeon.area_index d0 = 6)) as [_|]; [|done].
  unfold Dungeon._generate_final_area in H.
  change (Dungeon.rooms d1) with (Dungeon.rooms d0) in H.
  change (Dungeon.width d1) with (Dungeon.width d0) in H.
  change (Dungeon.height d1) with (Dungeon.height d0) in H.
  rewrite Hrooms0 in H. cbn [app length] in H.
  set (W := Dungeon.width d0) in *. set (Ht := Dungeon.height d0) in *.
  set (throne := Room.new (W / 2 - 5) (Ht / 2 - 5) 10 10 Boss) in *.
  destruct (Dungeon.fill_floor_guarded _ _ _ _ _) as [d2|] eqn:Efl;
    [|done].
  cbn [mbind option_bind] in H.
  apply fill_floor_guarded_spec in Efl as (_ & Hfr12 & _).
  apply frame_grid in Hfr12 as (Hfr12 & R2 & Hp2 & _). cbn in R2, Hp2.
  change (Dungeon.heap d1) with (Dungeon.heap d0) in Hp2.
  assert (Hpl : Dungeon.player_level d2 = Dungeon.player_level d0)
    by apply Hfr12.
  rewrite R2, Hp2, Hpl in H. cbn [alter list_alter] in H.
  set (hp0 := Dungeon.heap d0) in *.
  set (the_boss := {| e_type := enemy_boss; e_pos := Room.center throne;
                      e_level := Dungeon.player_level d0 + 5 |}) in *.
  set (throne' := Room.set_enemies (Room.enemies throne ++ [length hp0])
                    throne) in *.
  set (d3 := Dungeon.set_heap _ (Dungeon.set_rooms [throne'] d2)) in H.
  set (s1 := Room.new (Room.x throne - 8) _ 6 6 Special) in H.
  set (s2 := Room.new (Room.x throne + Room.width throne + 2) _ 6 6 Special)
    in H.
  set (s3 := Room.new _ _ 6 6 Entrance) in H.
  rewrite for_each_3 in H.
  destruct (Dungeon.add_side_room s1 (d3, g)) as [[d4 g4]|] eqn:E1; [|done].
  cbn [mbind option_bind] in H.
  destruct (Dungeon.add_side_room s2 (d4, g4)) as [[d5 g5]|] eqn:E2; [|done].
  cbn [mbind option_bind] in H.
  destruct (Dungeon.add_side_room s3 (d5, g5)) as [[d6 g6]|] eqn:E3; [|done].
  cbn [mbind option_bind] in H.
  apply add_side_room_heap in E1 as (s1' & n1 & R4 & P4 & N1 & T1 & L4 & A1);
    [|done..].
  apply add_side_room_heap in E2 as (s2' & n2 & R5 & P5 & N2 & T2 & L5 & A2);
    [|done..].
  apply add_side_room_heap in E3 as (s3' & n3 & R6 & P6 & N3 & T3 & L6 & A3);
    [|done..].
  rewrite for_each_3 in H.
  destruct (Dungeon._create_corridor (Room.center s1) _ d6 g6)
    as [[d7 g7]|] eqn:C1; [|done].
  cbn [mbind option_bind] in H.
  destruct (Dungeon._create_corridor (Room.center s2) _ d7 g7)
    as [[d8 g8]|] eqn:C2; [|done].
  cbn [mbind option_bind] in H.
  destruct (Dungeon._create_corridor (Room.center s3) _ d8 g8)
    as [[d9 g9]|] eqn:C3; [|done].
  cbn [mbind option_bind lookup list_lookup] in H.
  apply _create_corridor_spec in C1 as (_ & F7 & R7 & Hp7 & _).
  apply _create_corridor_spec in C2 as (_ & F8 & R8 & Hp8 & _).
  apply _create_corridor_spec in C3 as (_ & F9 & R9 & Hp9 & _).
  destruct (Dungeon.put _ _ STAIRS_UP _) as [d10|] eqn:Ep; [|done].
  cbn [mbind option_bind] in H.
  assert (d = Dungeon._populate_dungeon d10) as -> by congruence. clear H.
  apply put_frame, frame_grid in Ep as (Hfr10 & R10 & Hp10 & _).
  cbn in R10, Hp10.
  assert (Hpl10 : Dungeon.player_level d10 = Dungeon.player_level d0).
  { destruct Hfr10 as (_ & _ & -> & _). cbn.
    destruct F9 as (_ & _ & -> & _). destruct F8 as (_ & _ & -> & _).
    destruct F7 as (_ & _ & -> & _). rewrite L6, L5, L4. exact Hpl. }
  assert (Hcen : Room.center throne = (W / 2, Ht / 2)).
  { unfold throne, Room.center. cbn. change (10 `div` 2) with 5.
    f_equal; lia. }
  assert (Hrooms : Dungeon.rooms d10 = [throne'; s1'; s2'; s3']).
  { rewrite R10, R9, R8, R7, R6, R5, R4. done. }
  assert (Hheap : Dungeon.heap d10 = hp0 ++ [the_boss] ++ n1 ++ n2 ++ n3).
  { rewrite Hp10, Hp9, Hp8, Hp7, P6, P5, P4. unfold d3. simpl.
    by rewrite <- !app_assoc. }
  exists throne', s1', s2', s3', (n1 ++ n2 ++ n3),
    (Room.enemies s1' ++ Room.enemies s2' ++ Room.enemies s3').
  cbn. rewrite Hrooms, Hheap. cbn. rewrite app_nil_r.
  split; [done|]. split; [done|]. split; [exact Hcen|]. split; [done|].
  split; [by rewrite T1|]. split; [by rewrite T2|]. split; [by rewrite T3|].
  split; [exact Hpl10|]. split; [unfold the_boss; by rewrite Hcen|].
  split; [done|].
  - rewrite N1, N2, N3, P5, P4. unfold d3. cbn.
    rewrite !length_app. cbn.
    apply Forall_app. split; [|apply Forall_app; split].
    + pose proof (seq_normal (hp0 ++ [the_boss]) n1 (n2 ++ n3) A1) as S.
      rewrite length_app in S. cbn in S. by rewrite <- !app_assoc in S.
    + pose proof (seq_normal ((hp0 ++ [the_boss]) ++ n1) n2 n3 A2) as S.
      rewrite !length_app in S. cbn in S. by rewrite <- !app_assoc in S.
    + pose proof (seq_normal (((hp0 ++ [the_boss]) ++ n1) ++ n2) n3 [] A3)
        as S.
      rewrite !length_app in S. cbn in S. rewrite app_nil_r in S.
      by rewrite <- !app_assoc in S.
Qed.

(** The last level holds exactly one boss.  It is the first enemy of the
    level, stands on the centre (width // 2, height // 2) of the throne
    room and is five levels above the player; every other enemy of the
    level is a normal enemy. *)
Theorem final_area_boss d0 g d g' :
  Dungeon.area_index d0 = 6 → Dungeon.rooms d0 = [] →
  Dungeon.generate d0 g = Some (d, g') →
  ∃ rest,
    Dungeon.enemies d = length (Dungeon.heap d0) :: rest ∧
    Dungeon.heap d !! length (Dungeon.heap d0) =
      Some {| e_type := enemy_boss;
              e_pos := (Dungeon.width d0 / 2, Dungeon.height d0 / 2);
              e_level := Dungeon.player_level d0 + 5 |} ∧
    Forall (λ ref, ∃ e, Dungeon.heap d !! ref = Some e ∧
                        e_type e = enemy_normal) rest.
Proof.
  intros Hai Hr0 H.
  destruct (generate_final_enemies d0 g d g' Hai Hr0 H)
    as (throne & s1 & s2 & s3 & new & rest & _ & _ & _ & _ & _ & _ & _ & _ &
        Hheap & Hen & Hall).
  exists rest. split; [done|]. split; [|done].
  rewrite Hheap. by apply list_lookup_middle.
Qed.

Lemma final_area_boss_witness :
  let d0 := from_option id blank (Dungeon.new 50 50 1 6) in
  let run := Dungeon.generate d0 mixed_tape in
  let d := (from_option id (blank, random.const 0) run).1 in
  ∃ rest,
    Dungeon.enemies d = length (Dungeon.heap d0) :: rest ∧
    Dungeon.heap d !! length (Dungeon.heap d0) =
      Some {| e_type := enemy_boss;
              e_pos := (Dungeon.width d0 / 2, Dungeon.height d0 / 2);
              e_level := Dungeon.player_level d0 + 5 |} ∧
    Forall (λ ref, ∃ e, Dungeon.heap d !! ref = Some e ∧
                        e_type e = enemy_normal) rest.
Proof.
  intros d0 run d.
  apply (final_area_boss d0 mixed_tape d
           (from_option id (blank, random.const 0) run).2).
  - reflexivity.
  - reflexivity.
  - apply (some_eta run (blank, random.const 0)). vm_compute. reflexivity.
Defined.

(** ** A second boss *)

Lemma second_boss_skip room d g :
  Room.room_type room ≠ Boss →
  DungeonManager.second_boss room (d, g) = Some (d, g).
Proof.
  intros Hb. unfold DungeonManager.second_boss.
  by destruct (decide (Room.room_type room = Boss)).
Qed.

Lemma second_boss_none rooms : ∀ d g,
  Forall (λ r, Room.room_type r ≠ Boss) rooms →
  for_each rooms DungeonManager.second_boss (d, g) = Some (d, g).
Proof.
  induction rooms as [|r rooms IH]; intros d g Hall.
  - by rewrite for_each_nil.
  - rewrite for_each_cons. apply Forall_cons in Hall as [Hr Hall].
    rewrite second_boss_skip by done. simpl. by apply IH.
Qed.

(** "Double Trouble" on the last level, as [generate] builds it, adds
    exactly one enemy: a second boss one level below the first (four above
    the player), at most two cells from the centre of the throne room in
    each direction.  Nothing else changes. *)
Theorem double_bosses_final_area md d0 g0 d g d' g' :
  effect md = "double_bosses" →
  Dungeon.area_index d0 = 6 → Dungeon.rooms d0 = [] →
  Dungeon.generate d0 g0 = Some (d, g) →
  DungeonManager.apply_modifier md (d, g) = Some (d', g') →
  ∃ pos,
    d' = Dungeon.set_enemies (Dungeon.enemies d ++ [length (Dungeon.heap d)])
           (Dungeon.set_heap
              (Dungeon.heap d ++
               [{| e_type := enemy_boss; e_pos := pos;
                   e_level := Dungeon.player_level d0 + 4 |}]) d) ∧
    Dungeon.width d0 / 2 - 2 ≤ pos.1 ≤ Dungeon.width d0 / 2 + 2 ∧
    Dungeon.height d0 / 2 - 2 ≤ pos.2 ≤ Dungeon.height d0 / 2 + 2.
Proof.
  intros Heff Hai Hr0 Hgen H.
  destruct (generate_final_enemies d0 g0 d g Hai Hr0 Hgen)
    as (throne & s1 & s2 & s3 & new & rest & Hrooms & Tt & Hcen & Het & T1 &
        T2 & T3 & _ & Hheap & _ & _).
  unfold DungeonManager.apply_modifier in H. rewrite Heff in H.
  pick_effect H. rewrite Hrooms in H. rewrite for_each_cons in H.
  destruct (DungeonManager.second_boss throne (d, g)) as [[d1 g1]|] eqn:E;
    [|done].
  cbn [mbind option_bind] in H.
  rewrite second_boss_none in H.
  2:{ repeat constructor; congruence. }
  assert (d' = d1) as -> by congruence. clear H.
  unfold DungeonManager.second_boss in E.
  destruct (decide (Room.room_type throne = Boss)); [|done].
  rewrite Het, Hheap, Hcen in E. unfold Dungeon.deref in E.
  cbn [omap list_omap] in E. rewrite list_lookup_middle in E by done.
  cbn in E.
  rewrite (bool_decide_eq_true_2 (enemy_boss = enemy_boss)) in E by done.
  cbn in E.
  destruct (random.randint _ _ g) as [[ox g2]|] eqn:Ex; [|done].
  cbn in E.
  destruct (random.randint _ _ g2) as [[oy g3]|] eqn:Ey; [|done].
  cbn in E. apply randint_range in Ex, Ey.
  exists (Dungeon.width d0 / 2 + ox, Dungeon.height d0 / 2 + oy).
  split; [|cbn; lia]. rewrite Hheap.
  replace (Dungeon.player_level d0 + 4) with (Dungeon.player_level d0 + 5 - 1)
    by lia.
  congruence.
Qed.

Lemma double_bosses_final_area_witness :
  let md := modifier_of "double_bosses" in
  let d0 := from_option id blank (Dungeon.new 50 50 1 6) in
  let run0 := Dungeon.generate d0 mixed_tape in
  let d := (from_option id (blank, random.const 0) run0).1 in
  let g := (from_option id (blank, random.const 0) run0).2 in
  let run := DungeonManager.apply_modifier md (d, g) in
  let d' := (from_option id (blank, random.const 0) run).1 in
  ∃ pos,
    d' = Dungeon.set_enemies (Dungeon.enemies d ++ [length (Dungeon.heap d)])
           (Dungeon.set_heap
              (Dungeon.heap d ++
               [{| e_type := enemy_boss; e_pos := pos;
                   e_level := Dungeon.player_level d0 + 4 |}]) d) ∧
    Dungeon.width d0 / 2 - 2 ≤ pos.1 ≤ Dungeon.width d0 / 2 + 2 ∧
    Dungeon.height d0 / 2 - 2 ≤ pos.2 ≤ Dungeon.height d0 / 2 + 2.
Proof.
  intros md d0 run0 d g run d'.
  apply (double_bosses_final_area md d0 mixed_tape d g d'
           (from_option id (blank, random.const 0) run).2).
  - reflexivity.
  - reflexivity.
  - reflexivity.
  - apply (some_eta run0 (blank, random.const 0)). vm_compute. reflexivity.
  - apply (some_eta run (blank, random.const 0)). vm_compute. reflexivity.
Defined.

(** A level that is not the last one has no boss room. *)
Lemma generate_regular_kinds d0 g d g' :
  Dungeon.area_index d0 ≠ 6 → Dungeon.rooms d0 = [] →
  Dungeon.generate d0 g = Some (d, g') →
  Forall (λ r, Room.room_type r ≠ Boss) (Dungeon.rooms d).
Proof.
  intros Hai Hr0 H.
  destruct (generate_trace d0 g d g' Hai H)
    as (num & g1 & e & d2 & g2 & r0 & d4 & g4 & x & d5 & g5 & rx & d7 & en &
        d8 & ex & d9 & Hnum & Ee & Er0 & Eloop & Ex & Erx & Ec & Een & Ep8 &
        Eex & Ep9 & ->).
  set (d1 := Dungeon.fill_wall d0) in *.
  assert (Hinv1 : rooms_inv d1).
  { intros r Hr. unfold d1 in Hr. simpl in Hr. rewrite Hr0 in Hr.
    by apply elem_of_nil in Hr. }
  assert (Hap1 : rooms_apart (Dungeon.rooms d1)).
  { unfold d1. simpl. rewrite Hr0. by intros i j ri rj _ Hi. }
  destruct (rooms_apart_add _ _ _ _ _ _ _ Ee Hap1)
    as (r0' & Hr2 & He & Ht0 & Hap2).
  apply _add_room_spec in Ee as (r0'' & Hadd0 & _).
  pose proof (room_added_inv Entrance _ _ _ _ ltac:(done) Hinv1 Hadd0) as Hinv2.
  change (Dungeon.rooms d1) with (Dungeon.rooms d0) in *.
  rewrite Hr0 in *. simpl in Hr2, He. subst e. rewrite Hr2 in Er0.
  simpl in Er0. simplify_eq.
  set (d3 := Dungeon.set_entrance (Some (Room.center r0)) d2) in *.
  assert (Hinv3 : rooms_inv d3) by (by apply (rooms_inv_frame d2)).
  pose proof Eloop as Eloop'.
  apply generate_middle_rooms in Eloop' as (Hinv4 & Hfr34 & _); [|done].
  apply middle_rooms_spec in Eloop as (more & Hr4 & Hlen & Hty & Hap4);
    [|done].
  change (Dungeon.rooms d3) with (Dungeon.rooms d2) in Hr4. rewrite Hr2 in Hr4.
  destruct (rooms_apart_add _ _ _ _ _ _ _ Ex Hap4)
    as (rx' & Hr5 & Hx & Htx & Hap5).
  apply _add_room_spec in Ex as (rx'' & Haddx & _).
  pose proof (room_added_inv Exit _ _ _ _ ltac:(done) Hinv4 Haddx) as Hinv5.
  subst x. rewrite Hr5 in Erx. rewrite list_lookup_middle in Erx by done.
  simplify_eq. rewrite Hr4 in Hr5.
  set (d6 := Dungeon.set_exit (Some (Room.center rx)) d5) in *.
  assert (Hinv6 : rooms_inv d6) by (by apply (rooms_inv_frame d5)).
  assert (Hr6 : Dungeon.rooms d6 = r0 :: more ++ [rx]) by exact Hr5.
  assert (Hc6 : ∀ r, r ∈ Dungeon.rooms d6 → in_bounds d6 (Room.center r)).
  { intros r Hr. destruct (Hinv6 r Hr) as (_ & ((Hw & Hh & _) & _) & Hig).
    by apply room_in_grid_center. }
  eapply (_connect_rooms_spec _ _ _ _ r0 (more ++ [rx])) in Ec;
    [|done|done|intros r Hr; by apply Hinv6|done].
  destruct Ec as (_ & _ & _ & Hrs67 & _).
  apply put_spec in Ep8 as (c8 & _ & -> & _).
  apply put_spec in Ep9 as (c9 & _ & -> & _).
  simpl. rewrite Hr6 in Hrs67.
  assert (Hall : Forall (λ r, Room.room_type r ≠ Boss) (r0 :: more ++ [rx])).
  { constructor; [by rewrite Ht0|]. apply Forall_app. split.
    - eapply Forall_impl; [exact Hty|]. intros r [-> | ->]; done.
    - constructor; [by rewrite Htx|constructor]. }
  clear -Hall Hrs67. induction Hrs67 as [|a b l l' Hab _ IH]; [constructor|].
  apply Forall_cons in Hall as [Ha Hall]. constructor; [|by apply IH].
  by rewrite (room_type_le _ _ Hab).
Qed.

(** "Double Trouble" changes nothing on a level that is not the last one:
    such a level has no boss room. *)
Theorem double_bosses_regular_level md d0 g0 d g d' g' :
  effect md = "double_bosses" →
  Dungeon.area_index d0 ≠ 6 → Dungeon.rooms d0 = [] →
  Dungeon.generate d0 g0 = Some (d, g) →
  DungeonManager.apply_modifier md (d, g) = Some (d', g') →
  d' = d ∧ g' = g.
Proof.
  intros Heff Hai Hr0 Hgen H.
  pose proof (generate_regular_kinds d0 g0 d g Hai Hr0 Hgen) as Hall.
  unfold DungeonManager.apply_modifier in H. rewrite Heff in H.
  pick_effect H. rewrite second_boss_none in H by done. by simplify_eq.
Qed.

Lemma double_bosses_regular_level_witness :
  let md := modifier_of "double_bosses" in
  let d0 := from_option id blank (Dungeon.new 50 50 1 0) in
  let run0 := Dungeon.generate d0 mixed_tape in
  let d := (from_option id (blank, random.const 0) run0).1 in
  let g := (from_option id (blank, random.const 0) run0).2 in
  let run := DungeonManager.apply_modifier md (d, g) in
  (from_option id (blank, random.const 0) run).1 = d ∧
  (from_option id (blank, random.const 0) run).2 = g.
Proof.
  intros md d0 run0 d g run.
  apply (double_bosses_regular_level md d0 mixed_tape d g
           (from_option id (blank, random.const 0) run).1
           (from_option id (blank, random.const 0) run).2).
  - reflexivity.
  - vm_compute. lia.
  - reflexivity.
  - apply (some_eta run0 (blank, random.const 0)). vm_compute. reflexivity.
  - apply (some_eta run (blank, random.const 0)). vm_compute. reflexivity.
Defined.

(** ** The camera and what is drawn *)

Lemma view_axis size v vw x :
  Z.max 0 (v / TILE_SIZE) ≤ x < Z.min size ((v + vw) / TILE_SIZE + 1) ↔
  0 ≤ x < size ∧ - TILE_SIZE < x * TILE_SIZE - v ≤ vw.
Proof.
  unfold TILE_SIZE.
  pose proof (Z.div_mod v 32 ltac:(lia)).
  pose proof (Z.mod_pos_bound v 32 ltac:(lia)).
  pose proof (Z.div_mod (v + vw) 32 ltac:(lia)).
  pose proof (Z.mod_pos_bound (v + vw) 32 ltac:(lia)).
  lia.
Qed.

Lemma in_view_spec d vx vy vw vh c :
  (Z.max 0 (vx / TILE_SIZE) ≤ c.1 <
     Z.min (Dungeon.width d) ((vx + vw) / TILE_SIZE + 1) ∧
   Z.max 0 (vy / TILE_SIZE) ≤ c.2 <
     Z.min (Dungeon.height d) ((vy + vh) / TILE_SIZE + 1)) ↔
  in_view d (vx, vy) vw vh c.
Proof.
  unfold in_view, in_bounds, screen_pos. simpl.
  rewrite (view_axis (Dungeon.width d)), (view_axis (Dungeon.height d)).
  tauto.
Qed.

Lemma elem_of_render_cells sx ex sy ey (c : coord) :
  c ∈ (y ← range sy ey; x ← range sx ex; [(x, y)]) ↔
  sx ≤ c.1 < ex ∧ sy ≤ c.2 < ey.
Proof.
  rewrite list_elem_of_bind. split.
  - intros (y & (x & ->%list_elem_of_singleton & Hx)%list_elem_of_bind & Hy).
    apply elem_of_range in Hx, Hy. done.
  - intros [Hx Hy]. exists c.2. split; [|by apply elem_of_range].
    apply list_elem_of_bind. exists c.1. split; [|by apply elem_of_range].
    destruct c. apply list_elem_of_singleton. done.
Qed.

(** The shapes [render] draws for a player position, part by part. *)
Lemma render_parts d vx vy vw vh p :
  ∃ cells enemies items,
    render d (vx, vy, vw, vh) (Some p) =
      Some (((λ c, draw_tile (tile d c) (screen_pos (vx, vy) c)) <$> cells) ++
            [draw_player (screen_pos (vx, vy) p)] ++ enemies ++ items) ∧
    (∀ c, c ∈ cells ↔ in_view d (vx, vy) vw vh c) ∧
    (∀ x, x ∈ enemies ↔
       ∃ e, x = draw_enemy e (screen_pos (vx, vy) (e_pos e)) ∧
            e ∈ Dungeon.deref (Dungeon.heap d) (Dungeon.enemies d) ∧
            in_view d (vx, vy) vw vh (e_pos e)) ∧
    (∀ x, x ∈ items ↔
       ∃ it, x = draw_item it (screen_pos (vx, vy) (i_pos it)) ∧
             it ∈ Dungeon.items d ∧ in_view d (vx, vy) vw vh (i_pos it)).
Proof.
  unfold render.
  set (cells := (y ← range _ _; x ← range _ _; [(x, y)]) : list coord).
  set (f := λ c : coord, tile_type ← Dungeon.get d c.1 c.2;
                         Some (draw_tile tile_type
                                 (c.1 * TILE_SIZE - vx, c.2 * TILE_SIZE - vy))).
  assert (Hcells : ∀ c, c ∈ cells ↔ in_view d (vx, vy) vw vh c).
  { intros c. unfold cells. rewrite elem_of_render_cells.
    apply in_view_spec. }
  assert (Hf : ∀ c, c ∈ cells →
            f c = Some (draw_tile (tile d c) (screen_pos (vx, vy) c))).
  { intros [x y] Hc. apply Hcells in Hc as [Hb _]. unfold f. simpl.
    by rewrite get_in_bounds. }
  assert (Hm : mapM f cells =
               Some ((λ c, draw_tile (tile d c) (screen_pos (vx, vy) c))
                       <$> cells)).
  { apply mapM_Some. apply Forall2_fmap_r, Forall_Forall2_diag.
    apply Forall_forall. exact Hf. }
  change (mapM _ cells) with (mapM f cells). rewrite Hm. simpl.
  eexists cells, _, _. split; [done|]. split; [exact Hcells|]. split.
  - intros x. rewrite list_elem_of_omap. split.
    + intros (e & He & Hx). case_bool_decide as Hv; [|done]. simplify_eq.
      exists e. split; [done|]. split; [done|]. by apply in_view_spec.
    + intros (e & -> & He & Hv). exists e. split; [done|].
      apply in_view_spec in Hv. by rewrite bool_decide_eq_true_2.
  - intros x. rewrite list_elem_of_omap. split.
    + intros (it & Hi & Hx). case_bool_decide as Hv; [|done]. simplify_eq.
      exists it. split; [done|]. split; [done|]. by apply in_view_spec.
    + intros (it & -> & Hi & Hv). exists it. split; [done|].
      apply in_view_spec in Hv. by rewrite bool_decide_eq_true_2.
Qed.

(** [render] never reads the grid out of range, whatever the viewport, and
    so raises only when there is no player position.  Its tile loop draws
    exactly the cells of the grid whose square lies within one tile of the
    viewport, each with the tile of the grid at its place on the screen;
    enemies and items are drawn under the same condition, the player
    always. *)
Theorem render_draws_what_is_in_view d vx vy vw vh p :
  ∃ draws, render d (vx, vy, vw, vh) (Some p) = Some draws ∧
    draw_player (screen_pos (vx, vy) p) ∈ draws ∧
    (∀ v s, draw_tile v s ∈ draws ↔
       ∃ c, in_view d (vx, vy) vw vh c ∧ v = tile d c ∧
            s = screen_pos (vx, vy) c) ∧
    (∀ e s, draw_enemy e s ∈ draws ↔
       e ∈ Dungeon.deref (Dungeon.heap d) (Dungeon.enemies d) ∧
       in_view d (vx, vy) vw vh (e_pos e) ∧ s = screen_pos (vx, vy) (e_pos e)) ∧
    (∀ it s, draw_item it s ∈ draws ↔
       it ∈ Dungeon.items d ∧
       in_view d (vx, vy) vw vh (i_pos it) ∧ s = screen_pos (vx, vy) (i_pos it)).
Proof.
  destruct (render_parts d vx vy vw vh p)
    as (cells & enemies & items & -> & Hcells & Hen & Hit).
  eexists. split; [done|]. split; [|split; [|split]].
  - apply elem_of_app. right. apply list_elem_of_here.
  - intros v s. rewrite !elem_of_app, list_elem_of_singleton,
      list_elem_of_fmap, Hen, Hit. split.
    + intros [(c & [= -> ->] & Hc)|[?|[(e & ? & _)|(it & ? & _)]]];
        [|done..].
      exists c. by rewrite <- Hcells.
    + intros (c & Hc & -> & ->). left. exists c. by rewrite Hcells.
  - intros e s. rewrite !elem_of_app, list_elem_of_singleton,
      list_elem_of_fmap, Hen, Hit. split.
    + intros [(c & ? & _)|[?|[(e' & [= -> ->] & He & Hv)|(it & ? & _)]]];
        done.
    + intros (He & Hv & ->). right. right. left. by exists e.
  - intros it s. rewrite !elem_of_app, list_elem_of_singleton,
      list_elem_of_fmap, Hen, Hit. split.
    + intros [(c & ? & _)|[?|[(e' & ? & _)|(it' & [= -> ->] & Hi & Hv)]]];
        done.
    + intros (Hi & Hv & ->). right. right. right. by exists it.
Qed.

Lemma camera_axis size vw p :
  0 ≤ p < size → 2 * TILE_SIZE ≤ vw →
  let v := Z.min (size * TILE_SIZE - vw)
             (Z.max 0 (Z.max 0 (p * TILE_SIZE - vw / 2))) in
  0 ≤ p * TILE_SIZE - v ≤ vw - TILE_SIZE ∧
  (vw ≤ size * TILE_SIZE → 0 ≤ v ≤ size * TILE_SIZE - vw) ∧
  (size * TILE_SIZE < vw → v = size * TILE_SIZE - vw).
Proof.
  unfold TILE_SIZE. intros Hp Hvw.
  pose proof (Z.div_mod vw 2 ltac:(lia)).
  pose proof (Z.mod_pos_bound vw 2 ltac:(lia)).
  cbv zeta. lia.
Qed.

(** The camera follows the player: with the player on the grid of the
    current level and a viewport of at least two tiles each way, the camera
    step of [update] puts the whole square of the player on the screen,
    and [render] then draws the tile under the player and the player.  On
    a level at least as large as the viewport the camera stays on the
    level; on a smaller one it is negative. *)
Theorem camera_keeps_player_in_view dm d p vw vh :
  DungeonManager.get_current_dungeon dm = Some d →
  DungeonManager.player_pos dm = Some p → in_bounds d p →
  2 * TILE_SIZE ≤ vw → 2 * TILE_SIZE ≤ vh →
  ∃ camera draws,
    update_camera dm vw vh = Some camera ∧
    render d (camera.1, camera.2, vw, vh) (Some p) = Some draws ∧
    0 ≤ (screen_pos camera p).1 ≤ vw - TILE_SIZE ∧
    0 ≤ (screen_pos camera p).2 ≤ vh - TILE_SIZE ∧
    draw_tile (tile d p) (screen_pos camera p) ∈ draws ∧
    draw_player (screen_pos camera p) ∈ draws ∧
    (vw ≤ Dungeon.width d * TILE_SIZE →
     0 ≤ camera.1 ≤ Dungeon.width d * TILE_SIZE - vw) ∧
    (vh ≤ Dungeon.height d * TILE_SIZE →
     0 ≤ camera.2 ≤ Dungeon.height d * TILE_SIZE - vh) ∧
    (Dungeon.width d * TILE_SIZE < vw → camera.1 < 0) ∧
    (Dungeon.height d * TILE_SIZE < vh → camera.2 < 0).
Proof.
  intros Hd Hp [Hx Hy] Hvw Hvh. unfold update_camera. rewrite Hd, Hp.
  destruct p as [px py]. simpl in Hx, Hy. cbn [mbind option_bind].
  destruct (camera_axis (Dungeon.width d) vw px Hx Hvw) as (Sx & Bx & Nx).
  destruct (camera_axis (Dungeon.height d) vh py Hy Hvh) as (Sy & By & Ny).
  cbv zeta in Sx, Bx, Nx, Sy, By, Ny.
  set (cx := Z.min (Dungeon.width d * TILE_SIZE - vw) _) in *.
  set (cy := Z.min (Dungeon.height d * TILE_SIZE - vh) _) in *.
  destruct (render_parts d cx cy vw vh (px, py))
    as (cells & enemies & items & Hr & Hcells & _).
  eexists (cx, cy), _. split; [done|]. split; [exact Hr|].
  split; [exact Sx|]. split; [exact Sy|]. split; [|split].
  - apply elem_of_app. left. apply list_elem_of_fmap. exists (px, py).
    split; [done|]. apply Hcells. split; [by split|].
    unfold screen_pos, TILE_SIZE in *. simpl in *. lia.
  - apply elem_of_app. right. apply list_elem_of_here.
  - split; [exact Bx|]. split; [exact By|].
    unfold TILE_SIZE in *. simpl. split; intros; [rewrite Nx|rewrite Ny]; lia.
Qed.

Lemma camera_keeps_player_in_view_witness :
  let dm := world_mix in
  let d := level_of dm in
  let p := from_option id (0, 0) (DungeonManager.player_pos dm) in
  let vw := SCREEN_WIDTH in
  let vh := SCREEN_HEIGHT in
  ∃ camera draws,
    update_camera dm vw vh = Some camera ∧
    render d (camera.1, camera.2, vw, vh) (Some p) = Some draws ∧
    0 ≤ (screen_pos camera p).1 ≤ vw - TILE_SIZE ∧
    0 ≤ (screen_pos camera p).2 ≤ vh - TILE_SIZE ∧
    draw_tile (tile d p) (screen_pos camera p) ∈ draws ∧
    draw_player (screen_pos camera p) ∈ draws ∧
    (vw ≤ Dungeon.width d * TILE_SIZE →
     0 ≤ camera.1 ≤ Dungeon.width d * TILE_SIZE - vw) ∧
    (vh ≤ Dungeon.height d * TILE_SIZE →
     0 ≤ camera.2 ≤ Dungeon.height d * TILE_SIZE - vh) ∧
    (Dungeon.width d * TILE_SIZE < vw → camera.1 < 0) ∧
    (Dungeon.height d * TILE_SIZE < vh → camera.2 < 0).
Proof.
  intros dm d p vw vh.
  apply (camera_keeps_player_in_view dm d p vw vh).
  - apply (some_eta1 (DungeonManager.get_current_dungeon dm) blank).
    vm_compute. reflexivity.
  - apply (some_eta1 (DungeonManager.player_pos dm) (0, 0)).
    vm_compute. reflexivity.
  - assert (bool_decide (in_bounds d p) = true) as Hb
      by (vm_compute; reflexivity).
    exact (bool_decide_eq_true_1 _ Hb).
  - unfold vw, SCREEN_WIDTH, TILE_SIZE. lia.
  - unfold vh, SCREEN_HEIGHT, TILE_SIZE. lia.
Defined.

(** ** The generator never raises

    The lemmas above say what a call leaves behind when it returns.  The
    ones below say when it does return: every draw has a range that is
    not empty, every index read lies in its list and every cell written
    lies on the grid. *)

Lemma randint_total a b g : a ≤ b → is_Some (random.randint a b g).
Proof.
  intros Hab. with_strategy transparent [random.randint] (unfold random.randint).
  rewrite bool_decide_eq_false_2 by lia. by destruct (random.next g).
Qed.

Lemma randrange_total n g : 0 < n → is_Some (random.randrange n g).
Proof.
  intros Hn.
  with_strategy transparent [random.randrange] (unfold random.randrange).
  rewrite bool_decide_eq_false_2 by lia. by destruct (random.next g).
Qed.

Lemma choice_total {A} (l : list A) g : l ≠ [] → is_Some (random.choice l g).
Proof.
  intros Hl. with_strategy transparent [random.choice] (unfold random.choice).
  assert (0 < Z.of_nat (length l)) as Hn by (destruct l; [done|simpl; lia]).
  destruct (randrange_total (Z.of_nat (length l)) g Hn) as [[i g1] E].
  rewrite E. simpl. apply randrange_range in E.
  destruct (lookup_lt_is_Some_2 l (Z.to_nat i)) as [x Hx]; [lia|].
  by rewrite Hx.
Qed.

(** A loop whose body returns wherever an invariant holds, and keeps the
    invariant, returns. *)
Lemma for_each_total {A S} (P : S → Prop) (l : list A)
    (body : A → S → option S) s :
  (∀ a s, a ∈ l → P s → ∃ s', body a s = Some s' ∧ P s') →
  P s → ∃ s', for_each l body s = Some s' ∧ P s'.
Proof.
  revert s. induction l as [|a l IH]; intros s Hbody Hs.
  - exists s. by rewrite for_each_nil.
  - rewrite for_each_cons.
    destruct (Hbody a s (list_elem_of_here _ _) Hs) as (s1 & E & Hs1).
    rewrite E. simpl. apply IH; [|done].
    intros b s2 Hb. apply Hbody. by apply list_elem_of_further.
Qed.

Lemma repeat_m_total {S} (P : S → Prop) n (body : S → option S) s :
  (∀ s, P s → ∃ s', body s = Some s' ∧ P s') →
  P s → ∃ s', repeat_m n body s = Some s' ∧ P s'.
Proof.
  intros Hbody. revert s. induction n as [|n IH]; intros s Hs.
  - exists s. by rewrite repeat_m_O.
  - rewrite repeat_m_S. destruct (Hbody s Hs) as (s1 & E & Hs1).
    rewrite E. simpl. by apply IH.
Qed.

(** *** Writing rectangles and runs *)

Lemma put_run_total {B} (cell : B → coord) v (l : list B) d :
  (∀ a, a ∈ l → in_bounds d (cell a)) →
  ∃ d', for_each l (λ a, Dungeon.put (cell a).1 (cell a).2 v) d = Some d' ∧
        Dungeon.width d' = Dungeon.width d ∧
        Dungeon.height d' = Dungeon.height d.
Proof.
  intros Hin.
  apply (for_each_total
           (λ s, Dungeon.width s = Dungeon.width d ∧
                 Dungeon.height s = Dungeon.height d)); [|done].
  intros a s Ha [Hw Hh].
  assert (in_bounds s (cell a)) as Hb.
  { destruct (Hin a Ha). split; by rewrite ?Hw, ?Hh. }
  destruct (cell a) as [x y]. simpl. rewrite (put_in_bounds s x y v Hb).
  eexists. split; [done|]. done.
Qed.

Lemma fill_floor_total x y w h d :
  0 ≤ x → x + w ≤ Dungeon.width d → 0 ≤ y → y + h ≤ Dungeon.height d →
  is_Some (Dungeon.fill_floor x y w h d).
Proof.
  intros Hx Hxw Hy Hyh. unfold Dungeon.fill_floor.
  destruct (for_each_total
              (λ s, Dungeon.width s = Dungeon.width d ∧
                    Dungeon.height s = Dungeon.height d)
              (range y (y + h))
              (λ room_y, for_each (range x (x + w))
                 (λ room_x, Dungeon.put room_x room_y FLOOR)) d)
    as (d' & E & _); [|done|by rewrite E].
  intros cy s Hcy%elem_of_range [Hw Hh].
  destruct (put_run_total (λ cx, (cx, cy)) FLOOR (range x (x + w)) s)
    as (s' & E & Hw' & Hh').
  { intros cx Hcx%elem_of_range. split; simpl; lia. }
  exists s'. split; [exact E|]. split; congruence.
Qed.

Lemma fill_floor_guarded_total x y w h d :
  is_Some (Dungeon.fill_floor_guarded x y w h d).
Proof.
  unfold Dungeon.fill_floor_guarded.
  destruct (for_each_total (λ _, True) (range y (y + h))
              (λ cy, for_each (range x (x + w)) (λ cx s,
                 if bool_decide (0 ≤ cx < Dungeon.width s) &&
                    bool_decide (0 ≤ cy < Dungeon.height s)
                 then Dungeon.put cx cy FLOOR s else Some s)) d)
    as (d' & E & _); [|done|by rewrite E].
  intros cy s _ _.
  destruct (for_each_total (λ _, True) (range x (x + w))
              (λ cx s,
                 if bool_decide (0 ≤ cx < Dungeon.width s) &&
                    bool_decide (0 ≤ cy < Dungeon.height s)
                 then Dungeon.put cx cy FLOOR s else Some s) s)
    as (s' & E & _); [|done|by exists s'].
  intros cx s1 _ _.
  destruct (bool_decide (0 ≤ cx < _)) eqn:Bx;
    [|by exists s1].
  destruct (bool_decide (0 ≤ cy < _)) eqn:By;
    [|by exists s1].
  apply bool_decide_eq_true_1 in Bx, By. simpl.
  rewrite (put_in_bounds s1 cx cy FLOOR) by done. by eexists.
Qed.

(** *** Populating a room *)

Lemma place_enemies_loop_total n : ∀ room dl hp g,
  3 ≤ Room.width room → 3 ≤ Room.height room →
  is_Some (Room.place_enemies_loop n room dl hp g).
Proof.
  induction n as [|n IH]; intros room dl hp g Hw Hh.
  - by rewrite place_enemies_loop_O.
  - rewrite place_enemies_loop_S.
    destruct (randint_total (Room.x room + 1)
                (Room.x room + Room.width room - 2) g) as [[ex g1] E1]; [lia|].
    rewrite E1. simpl.
    destruct (randint_total (Room.y room + 1)
                (Room.y room + Room.height room - 2) g1) as [[ey g2] E2];
      [lia|].
    rewrite E2. simpl.
    destruct (randint_total (-1) 1 g2) as [[dl' g3] E3]; [lia|].
    rewrite E3. simpl. by apply IH.
Qed.

Lemma place_enemies_total room dl ai hp g :
  3 ≤ Room.width room → 3 ≤ Room.height room →
  is_Some (Room.place_enemies room dl ai hp g).
Proof.
  intros Hw Hh. unfold Room.place_enemies.
  destruct (decide (Room.room_type room = Boss)); [done|].
  match goal with
  | |- is_Some (mbind _ (random.randint ?a ?b g)) =>
      destruct (randint_total a b g) as [[num g1] E]; [lia|]
  end.
  rewrite E. simpl. by apply place_enemies_loop_total.
Qed.

Lemma place_items_total room dl g :
  3 ≤ Room.width room → 3 ≤ Room.height room →
  is_Some (Room.place_items room dl g).
Proof.
  intros Hw Hh. unfold Room.place_items.
  destruct (random.random g) as [roll g1].
  destruct (bool_decide (roll < _)); [|done].
  destruct (randint_total (Room.x room + 1)
              (Room.x room + Room.width room - 2) g1) as [[ix g2] E1]; [lia|].
  rewrite E1. simpl.
  destruct (randint_total (Room.y room + 1)
              (Room.y room + Room.height room - 2) g2) as [[iy g3] E2]; [lia|].
  rewrite E2. simpl. by destruct (random.random g3).
Qed.

Lemma add_special_feature_total room ai g :
  is_Some (Room.add_special_feature room ai g).
Proof.
  unfold Room.add_special_feature.
  destruct (decide (Room.room_type room = Special)); [|done].
  destruct (choice_total [altar; shrine; fountain; statue; library] g)
    as [[ft g1] E]; [done|].
  by rewrite E.
Qed.

Lemma populate_new_room_total idx rt d g room :
  Dungeon.rooms d !! idx = Some room →
  3 ≤ Room.width room → 3 ≤ Room.height room →
  is_Some (Dungeon.populate_new_room idx rt d g).
Proof.
  intros Hidx Hw Hh. unfold Dungeon.populate_new_room.
  destruct (decide (rt ≠ Entrance)); [|done].
  rewrite Hidx. simpl. destruct (random.random g) as [roll g1].
  assert (∃ r1 hp1 g2,
            (if bool_decide (roll < MONSTER_CHANCE)
             then Room.place_enemies room (Dungeon.player_level d)
                    (Dungeon.area_index d) (Dungeon.heap d) g1
             else Some (room, Dungeon.heap d, g1)) = Some (r1, hp1, g2) ∧
            same_place room r1) as (r1 & hp1 & g2 & E1 & S1).
  { destruct (bool_decide (roll < MONSTER_CHANCE)).
    - destruct (place_enemies_total room (Dungeon.player_level d)
                  (Dungeon.area_index d) (Dungeon.heap d) g1 Hw Hh)
        as [[[r1 hp1] g2] E].
      exists r1, hp1, g2. split; [done|].
      apply place_enemies_spec in E; [|done|done]. apply E.
    - exists room, (Dungeon.heap d), g1. split; [done|]. by repeat split. }
  rewrite E1. simpl.
  destruct S1 as (_ & _ & Hw1 & Hh1 & _).
  destruct (place_items_total r1 (Dungeon.player_level d) g2)
    as [[r2 g3] E2]; [lia|lia|].
  rewrite E2. simpl.
  destruct (decide (rt = Special)); [|done].
  destruct (add_special_feature_total r2 (Dungeon.area_index d) g3)
    as [[r3 g4] E3].
  by rewrite E3.
Qed.

Lemma _add_room_attempts_total n w h md rt : ∀ d g,
  3 ≤ w → 3 ≤ h → w + 2 ≤ Dungeon.width d → h + 2 ≤ Dungeon.height d →
  is_Some (Dungeon._add_room_attempts n w h md rt d g).
Proof.
  induction n as [|n IH]; intros d g Hw Hh HW HH.
  - by rewrite _add_room_attempts_O.
  - rewrite _add_room_attempts_S.
    destruct (randint_total 1 (Dungeon.width d - w - 1) g) as [[x g1] E1];
      [lia|].
    rewrite E1. simpl.
    destruct (randint_total 1 (Dungeon.height d - h - 1) g1) as [[y g2] E2];
      [lia|].
    rewrite E2. simpl. apply randint_range in E1, E2.
    destruct (Dungeon.fits d _ md); [|by apply IH].
    destruct (fill_floor_total x y w h d) as [d1 Ef]; [lia..|].
    rewrite Ef. simpl.
    destruct (populate_new_room_total (length (Dungeon.rooms d1)) rt
                (Dungeon.set_rooms
                   (Dungeon.rooms d1 ++ [Room.new x y w h rt]) d1) g2
                (Room.new x y w h rt)) as [[d2 g3] Ep]; [|done|done|].
    { simpl. by apply list_lookup_middle. }
    by rewrite Ep.
Qed.

Lemma _add_room_corners_total corners size rt : ∀ d,
  Forall (λ c : coord, 0 ≤ c.1 ∧ c.1 + size ≤ Dungeon.width d ∧
                       0 ≤ c.2 ∧ c.2 + size ≤ Dungeon.height d) corners →
  is_Some (Dungeon._add_room_corners corners size rt d).
Proof.
  induction corners as [|[x y] corners IH]; intros d Hall.
  - by rewrite _add_room_corners_nil.
  - rewrite _add_room_corners_cons. apply Forall_cons in Hall as [Hc Hall].
    simpl in Hc. cbv zeta. destruct (forallb _ _); [|by apply IH].
    destruct (fill_floor_total x y size size d) as [d1 Ef]; [lia..|].
    by rewrite Ef.
Qed.

(** [_add_room] returns on every grid of at least 13 x 13: the largest
    room is 11 wide and needs a free cell on either side. *)
Lemma _add_room_total md rt d g :
  13 ≤ Dungeon.width d → 13 ≤ Dungeon.height d →
  is_Some (Dungeon._add_room md rt d g).
Proof.
  intros HW HH.
  with_strategy transparent [Dungeon._add_room] (unfold Dungeon._add_room).
  assert (∃ w h g1,
    (if decide (rt = Entrance ∨ rt = Exit)
     then '(w, g) ← random.randint (ROOM_MIN_SIZE + 1) (ROOM_MAX_SIZE + 1) g;
          '(h, g) ← random.randint (ROOM_MIN_SIZE + 1) (ROOM_MAX_SIZE + 1) g;
          Some (w, h, g)
     else '(w, g) ← random.randint ROOM_MIN_SIZE ROOM_MAX_SIZE g;
          '(h, g) ← random.randint ROOM_MIN_SIZE ROOM_MAX_SIZE g;
          Some (w, h, g)) = Some (w, h, g1) ∧ 5 ≤ w ≤ 11 ∧ 5 ≤ h ≤ 11)
    as (w & h & g1 & Ewh & Hw & Hh).
  { unfold ROOM_MIN_SIZE, ROOM_MAX_SIZE.
    destruct (decide (rt = Entrance ∨ rt = Exit)).
    - destruct (randint_total (5 + 1) (10 + 1) g) as [[w g1] E1]; [lia|].
      destruct (randint_total (5 + 1) (10 + 1) g1) as [[h g2] E2]; [lia|].
      exists w, h, g2. rewrite E1. simpl. rewrite E2. simpl.
      apply randint_range in E1, E2. split; [done|lia].
    - destruct (randint_total 5 10 g) as [[w g1] E1]; [lia|].
      destruct (randint_total 5 10 g1) as [[h g2] E2]; [lia|].
      exists w, h, g2. rewrite E1. simpl. rewrite E2. simpl.
      apply randint_range in E1, E2. split; [done|lia]. }
  rewrite Ewh. simpl.
  destruct (_add_room_attempts_total 100 w h md rt d g1)
    as [[[placed d1] g2] Ea]; [lia..|].
  rewrite Ea. simpl.
  apply _add_room_attempts_spec in Ea as [_ Hpl]; [|lia|lia].
  destruct placed as [idx|]; [done|]. subst d1. unfold ROOM_MIN_SIZE.
  destruct (_add_room_corners_total
              [(1, 1); (1, Dungeon.height d - 5 - 1);
               (Dungeon.width d - 5 - 1, 1);
               (Dungeon.width d - 5 - 1, Dungeon.height d - 5 - 1)] 5 rt d)
    as [[placed d1] Ec].
  { repeat (apply Forall_cons; split; [simpl; lia|]). apply Forall_nil_2. }
  rewrite Ec. simpl. destruct placed as [idx|]; [done|].
  apply _add_room_corners_spec in Ec; [|done|].
  2:{ repeat (apply Forall_cons; split; [simpl; lia|]). apply Forall_nil_2. }
  subst d1.
  destruct (fill_floor_total (Dungeon.width d / 2 - 5 / 2)
              (Dungeon.height d / 2 - 5 / 2) 5 5 d) as [d1 Ef];
    [Z.to_euclidean_division_equations; lia..|].
  by rewrite Ef.
Qed.

(** *** Corridors *)

Lemma carve_h_total y xa xb d :
  in_bounds d (xa, y) → in_bounds d (xb, y) →
  ∃ d', Dungeon.carve_h y xa xb d = Some d' ∧
        Dungeon.width d' = Dungeon.width d ∧
        Dungeon.height d' = Dungeon.height d.
Proof.
  intros [Ha Hy] [Hb _]. simpl in *. unfold Dungeon.carve_h.
  apply (put_run_total (λ x, (x, y)) FLOOR).
  intros x Hx%elem_of_range. split; simpl; lia.
Qed.

Lemma carve_v_total x ya yb d :
  in_bounds d (x, ya) → in_bounds d (x, yb) →
  ∃ d', Dungeon.carve_v x ya yb d = Some d' ∧
        Dungeon.width d' = Dungeon.width d ∧
        Dungeon.height d' = Dungeon.height d.
Proof.
  intros [Hx Ha] [_ Hb]. simpl in *. unfold Dungeon.carve_v.
  apply (put_run_total (λ y, (x, y)) FLOOR).
  intros y Hy%elem_of_range. split; simpl; lia.
Qed.

Lemma place_door_total dirs x1 y1 : ∀ d,
  is_Some (Dungeon.place_door dirs x1 y1 d).
Proof.
  induction dirs as [|[dx dy] dirs IH]; intros d.
  - by rewrite place_door_nil.
  - rewrite place_door_cons.
    destruct (bool_decide (0 ≤ x1 + dx < _)) eqn:Bx; [|by apply IH].
    destruct (bool_decide (0 ≤ y1 + dy < _)) eqn:By; [|by apply IH].
    apply bool_decide_eq_true_1 in Bx, By. simpl.
    assert (in_bounds d (x1 + dx, y1 + dy)) as Hb by done.
    rewrite (get_in_bounds d _ _ Hb). simpl.
    destruct (decide (tile d (x1 + dx, y1 + dy) = FLOOR)); [|by apply IH].
    by rewrite (put_in_bounds d _ _ DOOR Hb).
Qed.

(** [_create_corridor] returns when both ends lie on the grid. *)
Lemma _create_corridor_total p1 p2 d g :
  in_bounds d p1 → in_bounds d p2 →
  is_Some (Dungeon._create_corridor p1 p2 d g).
Proof.
  intros H1 H2. destruct p1 as [x1 y1], p2 as [x2 y2].
  with_strategy transparent [Dungeon._create_corridor]
    (unfold Dungeon._create_corridor).
  destruct (random.random g) as [roll g1].
  assert (∃ d1,
    (if bool_decide (roll < 70)
     then self ← Dungeon.carve_h y1 x1 x2 d; Dungeon.carve_v x2 y1 y2 self
     else self ← Dungeon.carve_v x1 y1 y2 d; Dungeon.carve_h y2 x1 x2 self)
    = Some d1) as [d1 E].
  { destruct H1 as [Hx1 Hy1], H2 as [Hx2 Hy2]. simpl in *.
    destruct (bool_decide (roll < 70)).
    - destruct (carve_h_total y1 x1 x2 d) as (d1 & E1 & Hw & Hh);
        [done|done|].
      rewrite E1. simpl.
      destruct (carve_v_total x2 y1 y2 d1) as (d2 & E2 & _);
        [split; simpl; lia|split; simpl; lia|].
      by exists d2.
    - destruct (carve_v_total x1 y1 y2 d) as (d1 & E1 & Hw & Hh);
        [done|done|].
      rewrite E1. simpl.
      destruct (carve_h_total y2 x1 x2 d1) as (d2 & E2 & _);
        [split; simpl; lia|split; simpl; lia|].
      by exists d2. }
  rewrite E. simpl. destruct (random.random g1) as [roll2 g2].
  destruct (bool_decide (roll2 < 20)); [|done].
  destruct (existsb _ _); [|done].
  destruct (place_door_total Dungeon.directions x1 y1 d1) as [d2 Ed].
  by rewrite Ed.
Qed.

(** *** Connecting the rooms *)

Lemma closest_step_some rs b uc : is_Some (Dungeon.closest_step rs (Some b) uc).
Proof.
  unfold Dungeon.closest_step. destruct (rs !! uc.1); [|done].
  destruct (rs !! uc.2); [|done]. destruct b as [cd p].
  by destruct (bool_decide _).
Qed.

Lemma closest_fold_some rs l : ∀ b,
  is_Some (foldl (Dungeon.closest_step rs) (Some b) l).
Proof.
  induction l as [|uc l IH]; intros b; [done|]. simpl.
  destruct (closest_step_some rs b uc) as [b' ->]. apply IH.
Qed.

Lemma closest_pair_some rs unc u c ru rc :
  u ∈ unc → rs !! u = Some ru →
  rs !! c = Some rc → Room.connected rc = true →
  is_Some (Dungeon.closest_pair rs unc).
Proof.
  intros Hu Hru Hrc Hcon. unfold Dungeon.closest_pair.
  assert ((u, c) ∈ list_prod unc (Dungeon.room_refs Room.connected rs)) as Hin.
  { apply list_elem_of_In, in_prod_iff.
    split; apply list_elem_of_In; [done|]. apply room_refs_spec. eauto. }
  apply fmap_is_Some. revert Hin.
  generalize (list_prod unc (Dungeon.room_refs Room.connected rs)).
  intros l. generalize (@None (Z * (nat * nat))).
  induction l as [|uc l IH]; intros b Hin; [by apply elem_of_nil in Hin|].
  simpl. apply elem_of_cons in Hin as [<-|Hin]; [|by apply IH].
  assert (is_Some (Dungeon.closest_step rs b (u, c))) as [b' ->].
  { destruct b as [b|]; [apply closest_step_some|].
    unfold Dungeon.closest_step. simpl. by rewrite Hru, Hrc. }
  apply closest_fold_some.
Qed.

Lemma list_remove_first_elem a v l : v ∈ list_remove_first a l → v ∈ l.
Proof.
  induction l as [|b l IH]; simpl; [done|].
  destruct (decide (a = b)); [by apply list_elem_of_further|].
  intros [->|Hv]%elem_of_cons; [apply list_elem_of_here|].
  apply list_elem_of_further. by apply IH.
Qed.

(** What the loop of [_connect_rooms] needs to go on: the rooms still to
    connect exist, some room is connected, all centres lie on the grid. *)
Lemma connect_loop_total fuel : ∀ unc d g,
  (length unc ≤ fuel)%nat →
  (∀ u, u ∈ unc → is_Some (Dungeon.rooms d !! u)) →
  (∃ c rc, Dungeon.rooms d !! c = Some rc ∧ Room.connected rc = true) →
  (∀ r, r ∈ Dungeon.rooms d → in_bounds d (Room.center r)) →
  is_Some (Dungeon.connect_loop fuel unc d g).
Proof.
  induction fuel as [|fuel IH]; intros unc d g Hlen Hunc Hcon Hcen.
  - destruct unc; [by rewrite connect_loop_nil|simpl in Hlen; lia].
  - destruct unc as [|u0 unc]; [by rewrite connect_loop_nil|].
    rewrite connect_loop_S.
    destruct Hcon as (c0 & rc0 & Hc0 & Hcc0).
    destruct (Hunc u0 (list_elem_of_here _ _)) as [ru0 Hu0].
    destruct (closest_pair_some (Dungeon.rooms d) (u0 :: unc) u0 c0 ru0 rc0)
      as [[u c] Ecp]; [apply list_elem_of_here|done..|].
    rewrite Ecp. simpl.
    apply closest_pair_in in Ecp as [Hu Hc].
    apply room_refs_spec in Hc as (rc & Hrc & Hrcc).
    destruct (Hunc u Hu) as [ru Hru]. rewrite Hru, Hrc. simpl.
    destruct (_create_corridor_total (Room.center ru) (Room.center rc) d g)
      as [[d1 g1] Ecor].
    { apply Hcen. by eapply list_elem_of_lookup_2. }
    { apply Hcen. by eapply list_elem_of_lookup_2. }
    rewrite Ecor. simpl.
    apply _create_corridor_spec in Ecor as (Hgr & _ & Hrooms & _).
    apply IH.
    + pose proof (list_remove_first_length u (u0 :: unc) Hu) as Hl.
      simpl in Hl, Hlen. lia.
    + intros v Hv. simpl. rewrite Hrooms.
      apply lookup_lt_is_Some. rewrite length_alter.
      apply lookup_lt_is_Some. apply Hunc.
      by apply (list_remove_first_elem u).
    + exists u, (Room.set_connected true ru). simpl. rewrite Hrooms.
      split; [|done]. rewrite list_lookup_alter_eq, Hru. done.
    + intros r Hr. simpl in Hr. rewrite Hrooms in Hr.
      apply list_elem_of_lookup in Hr as [i Hi].
      assert (∃ r0, Dungeon.rooms d !! i = Some r0 ∧
                    Room.center r = Room.center r0) as (r0 & Ei & ->).
      { destruct (decide (u = i)) as [->|Hne].
        - rewrite list_lookup_alter_eq, Hru in Hi. simplify_eq/=.
          by exists ru.
        - rewrite list_lookup_alter_ne in Hi by done. by exists r. }
      apply (grid_grows_in_bounds _ d d1 _ Hgr). apply Hcen.
      by eapply list_elem_of_lookup_2.
Qed.

Lemma alter_connected_center u (rs : list Room.t) r :
  r ∈ alter (Room.set_connected true) u rs →
  ∃ r0, r0 ∈ rs ∧ Room.center r = Room.center r0.
Proof.
  intros [i Hi]%list_elem_of_lookup.
  destruct (decide (u = i)) as [->|Hne].
  - rewrite list_lookup_alter_eq in Hi.
    destruct (rs !! i) as [r0|] eqn:Ei; simplify_eq/=.
    exists r0. split; [by eapply list_elem_of_lookup_2|done].
  - rewrite list_lookup_alter_ne in Hi by done.
    exists r. split; [by eapply list_elem_of_lookup_2|done].
Qed.

(** [_connect_rooms] returns when there is a room and all room centres
    lie on the grid. *)
Lemma _connect_rooms_total d g :
  Dungeon.rooms d ≠ [] →
  (∀ r, r ∈ Dungeon.rooms d → in_bounds d (Room.center r)) →
  is_Some (Dungeon._connect_rooms d g).
Proof.
  intros Hne Hcen.
  with_strategy transparent [Dungeon._connect_rooms]
    (unfold Dungeon._connect_rooms).
  assert (∃ e re,
    match Dungeon.room_refs (λ r, bool_decide (Room.room_type r = Entrance))
            (Dungeon.rooms d) with
    | i :: _ => Some i
    | [] => if decide (Dungeon.rooms d = []) then None else Some O
    end = Some e ∧ Dungeon.rooms d !! e = Some re) as (e & re & -> & He).
  { destruct (Dungeon.room_refs _ _) as [|i l] eqn:Er.
    - destruct (decide (Dungeon.rooms d = [])); [done|].
      destruct (Dungeon.rooms d) as [|r0 rs]; [done|]. by exists O, r0.
    - assert (i ∈ Dungeon.room_refs
                (λ r, bool_decide (Room.room_type r = Entrance))
                (Dungeon.rooms d)) as Hi by (rewrite Er; apply list_elem_of_here).
      apply room_refs_spec in Hi as (r & Hr & _). by exists i, r. }
  simpl. apply connect_loop_total.
  - done.
  - intros u Hu. apply room_refs_spec in Hu as (r & Hr & _). by eexists.
  - exists e, (Room.set_connected true re). simpl.
    by rewrite list_lookup_alter_eq, He.
  - intros r Hr. simpl in Hr.
    apply alter_connected_center in Hr as (r0 & Hr0 & ->). by apply Hcen.
Qed.

(** *** Levels other than the last *)

Lemma generate_regular_total d0 g :
  Dungeon.area_index d0 ≠ 6 → Dungeon.rooms d0 = [] →
  13 ≤ Dungeon.width d0 → 13 ≤ Dungeon.height d0 →
  is_Some (Dungeon.generate d0 g).
Proof.
  intros Hai Hr0 HW HH. unfold Dungeon.generate.
  set (d1 := Dungeon.fill_wall d0).
  change (Dungeon.area_index d1) with (Dungeon.area_index d0).
  destruct (decide (Dungeon.area_index d0 = 6)); [done|].
  destruct (randint_total MIN_ROOMS MAX_ROOMS g) as [[num g1] En];
    [unfold MIN_ROOMS, MAX_ROOMS; lia|].
  rewrite En. cbn [mbind option_bind].
  (* the entrance room *)
  assert (Hinv1 : rooms_inv d1).
  { intros r Hr. unfold d1 in Hr. simpl in Hr. rewrite Hr0 in Hr.
    by apply elem_of_nil in Hr. }
  destruct (_add_room_total 0 Entrance d1 g1) as [[[e d2] g2] Ee];
    [done|done|].
  rewrite Ee. cbn [mbind option_bind].
  apply _add_room_spec in Ee as (r0 & Hadd0 & _).
  pose proof (room_added_inv Entrance _ _ _ _ ltac:(done) Hinv1 Hadd0) as Hinv2.
  pose proof (room_added_gen_frame _ _ _ _ _ Hadd0) as Hfr12.
  destruct Hadd0 as (_ & He & Hr2 & Ht0 & _).
  change (Dungeon.rooms d1) with (Dungeon.rooms d0) in *.
  rewrite Hr0 in Hr2, He. simpl in Hr2, He. rewrite He, Hr2.
  cbn [lookup list_lookup mbind option_bind].
  set (d3 := Dungeon.set_entrance (Some (Room.center r0)) d2).
  assert (Hinv3 : rooms_inv d3) by (by apply (rooms_inv_frame d2)).
  assert (HW3 : Dungeon.width d3 = Dungeon.width d0 ∧
                Dungeon.height d3 = Dungeon.height d0).
  { destruct Hfr12 as (A1 & A2 & _). split; [exact A1|exact A2]. }
  (* the middle rooms *)
  set (body := λ (_ : Z) '(self, g),
         let '(roll, g) := random.random g in
         let room_type := if bool_decide (roll < 20) then Special else Normal in
         '(_, self, g) ← Dungeon._add_room 0 room_type self g;
         Some (self, g)).
  destruct (for_each_total
              (λ s : Dungeon.t * random.state,
                 rooms_inv s.1 ∧ Dungeon.width s.1 = Dungeon.width d0 ∧
                 Dungeon.height s.1 = Dungeon.height d0)
              (range 1 (num - 1)) body (d3, g2))
    as ([d4 g4] & Eloop & Hinv4 & HW4 & HH4); [|done|].
  { intros k [d gg] _ (Hinv & Hw & Hh). simpl in Hinv, Hw, Hh. unfold body.
    destruct (random.random gg) as [roll g'].
    set (rt := if bool_decide (roll < 20) then Special else Normal).
    destruct (_add_room_total 0 rt d g') as [[[i d'] g''] E]; [lia|lia|].
    rewrite E. simpl. exists (d', g''). split; [done|]. simpl.
    apply _add_room_spec in E as (room & Hadd & _).
    split.
    - apply (room_added_inv rt d d' i room); [|done|done].
      unfold rt. by destruct (bool_decide _).
    - destruct (room_added_gen_frame _ _ _ _ _ Hadd) as (A1 & A2 & _).
      split; congruence. }
  change (for_each (range 1 (num - 1)) _ (d3, g2))
    with (for_each (range 1 (num - 1)) body (d3, g2)).
  rewrite Eloop. cbn [mbind option_bind]. simpl in Hinv4, HW4, HH4.
  apply generate_middle_rooms in Eloop as (_ & Hfr34 & more & Hr4); [|done].
  change (Dungeon.rooms d3) with (Dungeon.rooms d2) in Hr4. rewrite Hr2 in Hr4.
  (* the exit room *)
  destruct (_add_room_total
              (Z.max (Dungeon.width d4) (Dungeon.height d4) / 3) Exit d4 g4)
    as [[[x d5] g5] Ex]; [lia|lia|].
  rewrite Ex. cbn [mbind option_bind].
  apply _add_room_spec in Ex as (rx & Haddx & _).
  pose proof (room_added_inv Exit _ _ _ _ ltac:(done) Hinv4 Haddx) as Hinv5.
  pose proof (room_added_gen_frame _ _ _ _ _ Haddx) as Hfr45.
  destruct Haddx as (_ & Hx & Hr5 & Htx & _).
  subst x. rewrite Hr5. rewrite list_lookup_middle by done.
  cbn [mbind option_bind].
  set (d6 := Dungeon.set_exit (Some (Room.center rx)) d5).
  assert (Hinv6 : rooms_inv d6) by (by apply (rooms_inv_frame d5)).
  assert (Hr6 : Dungeon.rooms d6 = r0 :: more ++ [rx])
    by (unfold d6; simpl; by rewrite Hr5, Hr4).
  assert (Hc6 : ∀ r, r ∈ Dungeon.rooms d6 → in_bounds d6 (Room.center r)).
  { intros r Hr. destruct (Hinv6 r Hr) as (_ & ((Hw & Hh & _) & _) & Hig).
    by apply room_in_grid_center. }
  (* the corridors *)
  destruct (_connect_rooms_total d6 g5) as [[d7 g7] Ec];
    [by rewrite Hr6|done|].
  rewrite Ec. cbn [mbind option_bind].
  eapply (_connect_rooms_spec _ _ _ _ r0 (more ++ [rx])) in Ec;
    [|done|done|intros r Hr; by apply Hinv6|done].
  destruct Ec as (Hg67 & Hfr67 & _).
  (* the stairs *)
  assert (Hen7 : Dungeon.entrance d7 = Some (Room.center r0)).
  { destruct Hfr67 as (_ & _ & _ & _ & -> & _). simpl.
    destruct Hfr45 as (_ & _ & _ & _ & -> & _).
    destruct Hfr34 as (_ & _ & _ & _ & -> & _). done. }
  assert (Hex7 : Dungeon.exit d7 = Some (Room.center rx)).
  { destruct Hfr67 as (_ & _ & _ & _ & _ & -> & _). done. }
  assert (Hin7 : ∀ r, r ∈ Dungeon.rooms d6 → in_bounds d7 (Room.center r)).
  { intros r Hr. apply (grid_grows_in_bounds _ d6 d7 _ Hg67). by apply Hc6. }
  rewrite Hen7. cbn [mbind option_bind].
  rewrite (put_in_bounds d7 (Room.center r0).1 (Room.center r0).2 STAIRS_UP).
  2:{ destruct (Room.center r0) eqn:Ec0. simpl. rewrite <- Ec0.
      apply Hin7. rewrite Hr6. apply list_elem_of_here. }
  cbn [mbind option_bind].
  change (Dungeon.exit (Dungeon.set_grid _ d7)) with (Dungeon.exit d7).
  rewrite Hex7. cbn [mbind option_bind].
  rewrite put_in_bounds; [done|].
  destruct (Room.center rx) eqn:Ecx. simpl. rewrite <- Ecx.
  apply (Hin7 rx). rewrite Hr6. apply list_elem_of_further, elem_of_app.
  right. apply list_elem_of_here.
Qed.

(** *** The last level *)

Lemma add_side_room_total room d g :
  3 ≤ Room.width room → 3 ≤ Room.height room →
  ∃ d' g', Dungeon.add_side_room room (d, g) = Some (d', g') ∧
    Dungeon.width d' = Dungeon.width d ∧
    Dungeon.height d' = Dungeon.height d.
Proof.
  intros Hw Hh. unfold Dungeon.add_side_room.
  destruct (fill_floor_guarded_total (Room.x room) (Room.y room)
              (Room.width room) (Room.height room)
              (Dungeon.set_rooms (Dungeon.rooms d ++ [room]) d)) as [d1 Ef].
  rewrite Ef. cbn [mbind option_bind].
  apply fill_floor_guarded_spec in Ef as (_ & Hfr & _).
  apply frame_grid in Hfr as ((HW & HH & _) & R1 & _). simpl in HW, HH, R1.
  destruct (decide (Room.room_type room ≠ Entrance)); [|by exists d1, g].
  rewrite R1. rewrite list_lookup_middle by done. cbn [mbind option_bind].
  destruct (place_enemies_total room (Dungeon.player_level d1)
              (Dungeon.area_index d1) (Dungeon.heap d1) g Hw Hh)
    as [[[r1 hp1] g1] E1].
  rewrite E1. cbn [mbind option_bind].
  apply place_enemies_spec in E1 as ((_ & _ & Hw1 & Hh1 & _) & _);
    [|done|done].
  destruct (place_items_total r1 (Dungeon.player_level d1) g1)
    as [[r2 g2] E2]; [lia|lia|].
  rewrite E2. cbn [mbind option_bind].
  destruct (add_special_feature_total r2 (Dungeon.area_index d1) g2)
    as [[r3 g3] E3].
  rewrite E3. cbn [mbind option_bind]. by eexists _, _.
Qed.

Lemma generate_final_total d0 g :
  Dungeon.area_index d0 = 6 → Dungeon.rooms d0 = [] →
  21 ≤ Dungeon.width d0 → 20 ≤ Dungeon.height d0 →
  is_Some (Dungeon.generate d0 g).
Proof.
  intros Hai Hr0 HW HH. unfold Dungeon.generate.
  set (d1 := Dungeon.fill_wall d0).
  change (Dungeon.area_index d1) with (Dungeon.area_index d0).
  destruct (decide (Dungeon.area_index d0 = 6)) as [_|]; [|done].
  unfold Dungeon._generate_final_area.
  change (Dungeon.rooms d1) with (Dungeon.rooms d0).
  change (Dungeon.width d1) with (Dungeon.width d0).
  change (Dungeon.height d1) with (Dungeon.height d0).
  rewrite Hr0. cbn [app length].
  set (W := Dungeon.width d0) in *. set (Ht := Dungeon.height d0) in *.
  set (throne := Room.new (W / 2 - 5) (Ht / 2 - 5) 10 10 Boss).
  destruct (fill_floor_guarded_total (Room.x throne) (Room.y throne)
              (Room.width throne) (Room.height throne)
              (Dungeon.set_rooms [throne] d1)) as [d2 Efl].
  rewrite Efl. cbn [mbind option_bind].
  apply fill_floor_guarded_spec in Efl as (_ & Hfr12 & _).
  apply frame_grid in Hfr12 as ((HW2 & HH2 & _) & R2 & _).
  cbn in R2, HW2, HH2. rewrite R2. cbn [alter list_alter].
  set (d3 := Dungeon.set_heap _ (Dungeon.set_rooms _ d2)).
  set (s1 := Room.new (Room.x throne - 8) _ 6 6 Special).
  set (s2 := Room.new (Room.x throne + Room.width throne + 2) _ 6 6 Special).
  set (s3 := Room.new _ _ 6 6 Entrance).
  rewrite for_each_3.
  destruct (add_side_room_total s1 d3 g) as (d4 & g4 & E1 & HW4 & HH4);
    [done|done|].
  rewrite E1. cbn [mbind option_bind].
  destruct (add_side_room_total s2 d4 g4) as (d5 & g5 & E2 & HW5 & HH5);
    [done|done|].
  rewrite E2. cbn [mbind option_bind].
  destruct (add_side_room_total s3 d5 g5) as (d6 & g6 & E3 & HW6 & HH6);
    [done|done|].
  rewrite E3. cbn [mbind option_bind].
  assert (HD6 : Dungeon.width d6 = W ∧ Dungeon.height d6 = Ht).
  { rewrite HW6, HW5, HW4, HH6, HH5, HH4. done. }
  assert (Hb : ∀ r dd,
            r = throne ∨ r = s1 ∨ r = s2 ∨ r = s3 →
            Dungeon.width dd = W → Dungeon.height dd = Ht →
            in_bounds dd (Room.center r)).
  { intros r dd Hr Hdw Hdh. unfold in_bounds. rewrite Hdw, Hdh.
    destruct Hr as [->|[->|[->| ->]]];
      unfold Room.center; cbn;
      change (10 `div` 2) with 5; change (6 `div` 2) with 3;
      Z.to_euclidean_division_equations; lia. }
  rewrite for_each_3.
  destruct (_create_corridor_total (Room.center s1) (Room.center throne) d6 g6)
    as [[d7 g7] C1]; [apply Hb; [tauto|apply HD6..]..|].
  rewrite C1. cbn [mbind option_bind].
  apply _create_corridor_spec in C1 as ((HW7 & HH7 & _) & _).
  destruct (_create_corridor_total (Room.center s2) (Room.center throne) d7 g7)
    as [[d8 g8] C2]; [apply Hb; [tauto|lia..]..|].
  rewrite C2. cbn [mbind option_bind].
  apply _create_corridor_spec in C2 as ((HW8 & HH8 & _) & _).
  destruct (_create_corridor_total (Room.center s3) (Room.center throne) d8 g8)
    as [[d9 g9] C3]; [apply Hb; [tauto|lia..]..|].
  rewrite C3. cbn [mbind option_bind lookup list_lookup].
  apply _create_corridor_spec in C3 as ((HW9 & HH9 & _) & _).
  rewrite put_in_bounds; [done|].
  destruct (Room.center s3) eqn:Ec3. simpl. rewrite <- Ec3.
  apply Hb; [tauto|simpl; lia..].
Qed.

(** [generate] returns, whatever numbers are drawn, on a fresh level of at
    least 13 x 13 cells, and of at least 21 x 20 cells for the last area:
    no draw has an empty range, no list is read past its end and no cell
    off the grid is written. *)
Theorem generate_never_raises d0 g :
  Dungeon.rooms d0 = [] →
  13 ≤ Dungeon.width d0 → 13 ≤ Dungeon.height d0 →
  (Dungeon.area_index d0 = 6 →
   21 ≤ Dungeon.width d0 ∧ 20 ≤ Dungeon.height d0) →
  ∃ d g', Dungeon.generate d0 g = Some (d, g').
Proof.
  intros Hr0 HW HH Hlast.
  destruct (decide (Dungeon.area_index d0 = 6)) as [Hai|Hai].
  - destruct (Hlast Hai) as [HW' HH'].
    destruct (generate_final_total d0 g Hai Hr0 HW' HH') as [[d g'] E].
    by exists d, g'.
  - destruct (generate_regular_total d0 g Hai Hr0 HW HH) as [[d g'] E].
    by exists d, g'.
Qed.

(** *** The heat modifiers *)

Lemma add_trap_attempts_total n : ∀ d g,
  3 ≤ Dungeon.width d → 3 ≤ Dungeon.height d →
  is_Some (Dungeon.add_trap_attempts n d g).
Proof.
  induction n as [|n IH]; intros d g HW HH.
  - by rewrite add_trap_attempts_O.
  - rewrite add_trap_attempts_S.
    destruct (randint_total 1 (Dungeon.width d - 2) g) as [[x g1] E1]; [lia|].
    rewrite E1. cbn [mbind option_bind].
    destruct (randint_total 1 (Dungeon.height d - 2) g1) as [[y g2] E2];
      [lia|].
    rewrite E2. cbn [mbind option_bind]. apply randint_range in E1, E2.
    assert (in_bounds d (x, y)) as Hb by (split; simpl; lia).
    rewrite (get_in_bounds d x y Hb). cbn [mbind option_bind].
    destruct (decide (tile d (x, y) = FLOOR)); [|by apply IH].
    destruct (_ && _); [|by apply IH].
    destruct (Dungeon.enemy_at d (x, y)); [by apply IH|].
    destruct (Dungeon.item_at d (x, y)); [by apply IH|].
    by rewrite (put_in_bounds d x y TRAP Hb).
Qed.

Lemma add_traps_loop_total n : ∀ d g,
  3 ≤ Dungeon.width d → 3 ≤ Dungeon.height d →
  is_Some (Dungeon.add_traps_loop n d g).
Proof.
  induction n as [|n IH]; intros d g HW HH.
  - by rewrite add_traps_loop_O.
  - rewrite add_traps_loop_S.
    destruct (add_trap_attempts_total 50 d g HW HH) as [[d1 g1] E].
    rewrite E. cbn [mbind option_bind].
    apply add_trap_attempts_spec in E as [->|(c & _ & ->)]; by apply IH.
Qed.

Lemma add_traps_total d g :
  3 ≤ Dungeon.width d → 3 ≤ Dungeon.height d →
  is_Some (Dungeon.add_traps d g).
Proof. intros. by apply add_traps_loop_total. Qed.

Lemma add_enemy_total d g :
  spawns_inv d → is_Some (DungeonManager.add_enemy d g).
Proof.
  intros (Hrooms & _). unfold DungeonManager.add_enemy.
  destruct (List.find _ (Dungeon.rooms d)) as [room|] eqn:Ef; [|done].
  apply find_some in Ef as [Hin%list_elem_of_In _].
  destruct (Hrooms room Hin) as ((Hw & Hh & _) & _).
  destruct (randint_total (Room.x room + 1)
              (Room.x room + Room.width room - 2) g) as [[x g1] E1]; [lia|].
  rewrite E1. cbn [mbind option_bind].
  destruct (randint_total (Room.y room + 1)
              (Room.y room + Room.height room - 2) g1) as [[y g2] E2]; [lia|].
  rewrite E2. cbn [mbind option_bind].
  destruct (randint_total (-1) 1 g2) as [[dl g3] E3]; [lia|].
  by rewrite E3.
Qed.

Lemma remove_item_total s : is_Some (DungeonManager.remove_item s).
Proof.
  destruct s as [d g]. unfold DungeonManager.remove_item.
  destruct (Dungeon.items d) as [|it its] eqn:Ei; [done|].
  destruct (randrange_total (Z.of_nat (length (it :: its))) g) as [[i g1] E];
    [simpl; lia|].
  by rewrite E.
Qed.

Lemma make_elite_total d g :
  spawns_inv d → is_Some (DungeonManager.make_elite (d, g)).
Proof.
  intros (_ & Hen & _). unfold DungeonManager.make_elite.
  destruct (Dungeon.enemies d) as [|e0 es] eqn:Ee; [done|].
  destruct (randrange_total (Z.of_nat (length (e0 :: es))) g) as [[i g1] E];
    [simpl; lia|].
  rewrite E. cbn [mbind option_bind]. apply randrange_range in E.
  destruct (lookup_lt_is_Some_2 (e0 :: es) (Z.to_nat i)) as [ref Href]; [lia|].
  rewrite Href. cbn [mbind option_bind].
  destruct (Hen ref) as (enemy & _ & Hh & _);
    [by eapply list_elem_of_lookup_2|].
  rewrite Hh. cbn [mbind option_bind]. by destruct (decide _).
Qed.

Lemma second_boss_total room s : is_Some (DungeonManager.second_boss room s).
Proof.
  destruct s as [d g]. unfold DungeonManager.second_boss.
  destruct (decide (Room.room_type room = Boss)); [|done].
  destruct (List.find _ _); [|done].
  destruct (Room.center room) as [cx cy].
  destruct (randint_total (-2) 2 g) as [[ox g1] E1]; [lia|].
  rewrite E1. cbn [mbind option_bind].
  destruct (randint_total (-2) 2 g1) as [[oy g2] E2]; [lia|].
  by rewrite E2.
Qed.

Lemma remove_items_total n s : is_Some (repeat_m n DungeonManager.remove_item s).
Proof.
  destruct (repeat_m_total (λ _, True) n DungeonManager.remove_item s)
    as (s' & E & _); [|done|by rewrite E].
  intros s1 _. destruct (remove_item_total s1) as [s2 E]. by exists s2.
Qed.

(** A modifier returns on every level that satisfies the invariant of the
    generated levels and has at least 3 x 3 cells. *)
Lemma apply_modifier_total md d g :
  spawns_inv d → 3 ≤ Dungeon.width d → 3 ≤ Dungeon.height d →
  is_Some (DungeonManager.apply_modifier md (d, g)).
Proof.
  intros Hinv HW HH. unfold DungeonManager.apply_modifier.
  destruct (decide (effect md = "increase_enemies")).
  { destruct (repeat_m_total (λ s : Dungeon.t * random.state, spawns_inv s.1)
                (length (Dungeon.enemies d) `div` 2)%nat
                (λ '(d, g), DungeonManager.add_enemy d g) (d, g))
      as (s' & E & _); [|done|by rewrite E].
    intros [d1 g1] H1. destruct (add_enemy_total d1 g1 H1) as [[d2 g2] E].
    exists (d2, g2). split; [done|]. by apply (add_enemy_inv d1 g1 d2 g2). }
  destruct (decide (effect md = "stronger_enemies")); [done|].
  destruct (decide (effect md = "more_traps")).
  { destruct (add_traps_total d g HW HH) as [[d1 g1] E1].
    rewrite E1. cbn [mbind option_bind].
    pose proof (add_traps_rooms _ _ _ _ E1) as (_ & HW1 & HH1).
    apply add_traps_total; lia. }
  destruct (decide (effect md = "less_items")); [apply remove_items_total|].
  destruct (decide (effect md = "elite_enemies")).
  { destruct (repeat_m_total (λ s : Dungeon.t * random.state, spawns_inv s.1)
                (Nat.max 1 (length (Dungeon.enemies d) `div` 4))
                DungeonManager.make_elite (d, g))
      as (s' & E & _); [|done|by rewrite E].
    intros [d1 g1] H1. destruct (make_elite_total d1 g1 H1) as [[d2 g2] E].
    exists (d2, g2). split; [done|]. by apply (make_elite_inv d1 g1 d2 g2). }
  destruct (decide (effect md = "double_bosses")).
  { destruct (for_each_total (λ _, True) (Dungeon.rooms d)
                DungeonManager.second_boss (d, g))
      as (s' & E & _); [|done|by rewrite E].
    intros room s _ _. destruct (second_boss_total room s) as [s2 E].
    by exists s2. }
  destruct (decide (effect md = "extreme_mode")); [|done].
  destruct (add_traps_total d g HW HH) as [[d1 g1] E1].
  rewrite E1. cbn [mbind option_bind].
  pose proof (add_traps_rooms _ _ _ _ E1) as (_ & HW1 & HH1).
  destruct (add_traps_total d1 g1) as [[d2 g2] E2]; [lia|lia|].
  rewrite E2. cbn [mbind option_bind]. apply remove_items_total.
Qed.

Lemma _apply_heat_modifiers_total m d g :
  spawns_inv d → 3 ≤ Dungeon.width d → 3 ≤ Dungeon.height d →
  is_Some (DungeonManager._apply_heat_modifiers m d g).
Proof.
  intros Hinv HW HH. unfold DungeonManager._apply_heat_modifiers.
  destruct (for_each_total
              (λ s : Dungeon.t * random.state,
                 spawns_inv s.1 ∧ 3 ≤ Dungeon.width s.1 ∧
                 3 ≤ Dungeon.height s.1)
              (DungeonManager.active_modifiers m)
              DungeonManager.apply_modifier (d, g))
    as (s' & E & _); [|done|by rewrite E].
  intros md [d1 g1] _ (H1 & HW1 & HH1). simpl in H1, HW1, HH1.
  destruct (apply_modifier_total md d1 g1 H1 HW1 HH1) as [[d2 g2] E].
  exists (d2, g2). split; [done|]. simpl.
  destruct (apply_modifier_inv md d1 g1 d2 g2 E H1) as (H2 & _ & HW2 & HH2).
  split; [done|]. lia.
Qed.

(** *** The world *)

Lemma generate_area_total i pl m g :
  0 ≤ i ≤ 6 →
  21 ≤ DungeonManager.width m → 20 ≤ DungeonManager.height m →
  is_Some (DungeonManager.generate_area i pl m g).
Proof.
  intros Hi HW HH. unfold DungeonManager.generate_area, Dungeon.new.
  rewrite bool_decide_eq_false_2 by lia.
  unfold Dungeon._get_theme_for_area, np_index.
  rewrite bool_decide_eq_true_2 by lia. cbn [mbind option_bind].
  set (d0 := {| Dungeon.width := DungeonManager.width m |}).
  assert (∃ d g1, Dungeon.generate d0 g = Some (d, g1) ∧ spawns_inv d ∧
                  Dungeon.width d = DungeonManager.width m ∧
                  Dungeon.height d = DungeonManager.height m)
    as (d & g1 & E & Hinv & HWd & HHd).
  { destruct (decide (i = 6)) as [->|Hne].
    - destruct (generate_final_total d0 g) as [[d g1] E]; [done..|].
      exists d, g1. split; [done|].
      split; [by apply (generate_spawns_inv d0 g d g1)|].
      destruct (generate_final d0 g d g1 eq_refl eq_refl E)
        as (t & s1 & s2 & s3 & _ & _ & _ & _ & _ & _ & _ & _ & _ &
            (A1 & A2 & _) & _).
      done.
    - destruct (generate_regular_total d0 g) as [[d g1] E];
        [done|done|simpl; lia|simpl; lia|].
      exists d, g1. split; [done|].
      split; [by apply (generate_spawns_inv d0 g d g1)|].
      destruct (generate_regular d0 g d g1 Hne eq_refl E)
        as (r0 & mid & rx & _ & _ & _ & _ & _ & _ & _ & (A1 & A2 & _) & _).
      done. }
  rewrite E. cbn [mbind option_bind].
  apply _apply_heat_modifiers_total; [done|lia|lia].
Qed.

Lemma generate_all_areas_total pl m g :
  21 ≤ DungeonManager.width m → 20 ≤ DungeonManager.height m →
  is_Some (DungeonManager.generate_all_areas pl m g).
Proof.
  intros HW HH. unfold DungeonManager.generate_all_areas.
  set (m0 := DungeonManager.set_player_level pl
               (DungeonManager.set_dungeons [] m)).
  set (body := λ (i : Z) '(self, g),
         '(dungeon, g) ← DungeonManager.generate_area i pl self g;
         Some (DungeonManager.set_dungeons
                 (DungeonManager.dungeons self ++ [dungeon]) self, g)).
  destruct (for_each_total
              (λ s : DungeonManager.t * random.state,
                 DungeonManager.width s.1 = DungeonManager.width m ∧
                 DungeonManager.height s.1 = DungeonManager.height m)
              (range 0 7) body (m0, g))
    as ([m1 g1] & E & _); [|done|].
  { intros i [m1 g1] Hi%elem_of_range (Hw & Hh). simpl in Hw, Hh.
    unfold body.
    destruct (generate_area_total i pl m1 g1) as [[d g2] Ea]; [lia..|].
    rewrite Ea. cbn [mbind option_bind]. by eexists. }
  change (for_each (range 0 7) _ (m0, g))
    with (for_each (range 0 7) body (m0, g)).
  rewrite E. cbn [mbind option_bind].
  apply generate_areas_loop in E as (ds & -> & Hds).
  apply Forall2_length in Hds. rewrite length_range in Hds.
  destruct ds as [|d0 ds]; [done|]. done.
Qed.

(** Generating the world never raises: on a manager whose grid has at
    least 21 x 20 cells (the game's has 50 x 50), [generate_all_areas]
    returns for every player level, every list of active modifiers and
    whatever numbers are drawn, and so does [increase_heat]. *)
Theorem world_generation_never_raises pl amount m g :
  21 ≤ DungeonManager.width m → 20 ≤ DungeonManager.height m →
  (∃ m' g', DungeonManager.generate_all_areas pl m g = Some (m', g')) ∧
  (∃ m' g', DungeonManager.increase_heat amount m g = Some (m', g')).
Proof.
  intros HW HH. split.
  - destruct (generate_all_areas_total pl m g HW HH) as [[m' g'] E].
    by exists m', g'.
  - unfold DungeonManager.increase_heat.
    destruct (DungeonManager.first_new_modifier _ _) as [md|];
      [|by eexists _, _].
    match goal with
    | |- ∃ m' g', DungeonManager.generate_all_areas ?p ?m1 g = _ =>
        destruct (generate_all_areas_total p m1 g HW HH) as [[m' g'] E]
    end.
    by exists m', g'.
Qed.

Lemma world_generation_never_raises_witness :
  (∃ m' g', DungeonManager.generate_all_areas 1 manager0 mixed_tape
            = Some (m', g')) ∧
  (∃ m' g', DungeonManager.increase_heat 1 manager0 mixed_tape
            = Some (m', g')).
Proof.
  apply (world_generation_never_raises 1 1 manager0 mixed_tape).
  - simpl. lia.
  - simpl. lia.
Defined.

Lemma generate_never_raises_witness :
  let d0 := from_option id blank (Dungeon.new 50 50 1 6) in
  ∃ d g', Dungeon.generate d0 mixed_tape = Some (d, g').
Proof.
  intros d0. apply (generate_never_raises d0 mixed_tape).
  - reflexivity.
  - vm_compute. discriminate.
  - vm_compute. discriminate.
  - intros _. split; vm_compute; discriminate.
Defined.

(** ** When a move raises *)

Lemma enter_area_total idx m : is_Some (DungeonManager.enter_area idx m).
Proof.
  unfold DungeonManager.enter_area.
  case_bool_decide as Hidx; [|done].
  assert (is_Some (py_index (DungeonManager.dungeons m) idx)) as [t Ht].
  { unfold py_index. rewrite bool_decide_eq_true_2 by done.
    apply lookup_lt_is_Some. lia. }
  simpl. rewrite Ht. simpl.
  destruct (_ || _); [done|]. by destruct (bool_decide _).
Qed.

Lemma open_door_total p d : in_bounds d p → is_Some (DungeonManager.open_door p d).
Proof.
  intros Hb. unfold DungeonManager.open_door.
  destruct (list_find _ _) as [[i obj]|]; [|done].
  destruct (decide (o_state obj = closed)); [|done].
  destruct p as [x y]. simpl.
  by rewrite put_in_bounds.
Qed.

Lemma resolve_move_total x y v d m :
  in_bounds d (x, y) → is_Some (DungeonManager.resolve_move x y v d m).
Proof.
  intros Hb. unfold DungeonManager.resolve_move.
  destruct (list_find _ _) as [[i it]|]; [done|].
  destruct (List.find _ _); [done|].
  destruct (decide (v = TRAP)); [|done].
  by rewrite put_in_bounds.
Qed.

(** [move_player] raises in two cases only: there is no current level
    ([dungeons] is empty or [current_area] is out of range), or there is
    no player position.  In every other state it returns, for every
    direction. *)
Theorem move_player_raises_iff dx dy m :
  DungeonManager.move_player dx dy m = None ↔
  DungeonManager.get_current_dungeon m = None ∨
  DungeonManager.player_pos m = None.
Proof.
  split.
  - intros H.
    destruct (DungeonManager.get_current_dungeon m) as [d|] eqn:Ed;
      [|by left].
    destruct (DungeonManager.player_pos m) as [pos|] eqn:Ep; [|by right].
    exfalso. rewrite (move_player_cases dx dy m d pos Ed Ep) in H.
    destruct (decide _) as [[Hb Hw]|]; [|done].
    cbv zeta in H.
    assert (Hopen : ∀ d1, DungeonManager.open_door (pos.1 + dx, pos.2 + dy) d
                          = Some d1 → in_bounds d1 (pos.1 + dx, pos.2 + dy)).
    { intros d1 Ho. unfold DungeonManager.open_door in Ho.
      destruct (list_find _ _) as [[i obj]|]; [|by simplify_eq].
      destruct (decide (o_state obj = closed)); [|by simplify_eq].
      simpl in Ho. rewrite put_in_bounds in Ho by done. by simplify_eq. }
    destruct (decide (tile d (target pos dx dy) = DOOR)).
    { destruct (open_door_total (pos.1 + dx, pos.2 + dy) d Hb) as [d1 Ho].
      rewrite Ho in H. simpl in H.
      destruct (resolve_move_total (pos.1 + dx) (pos.2 + dy)
                  (tile d (target pos dx dy)) d1 m (Hopen d1 Ho)) as [r Hr].
      by rewrite Hr in H. }
    assert (Hres : DungeonManager.resolve_move (pos.1 + dx) (pos.2 + dy)
                     (tile d (target pos dx dy)) d m ≠ None).
    { intros Hn. destruct (resolve_move_total (pos.1 + dx) (pos.2 + dy)
                  (tile d (target pos dx dy)) d m Hb) as [r Hr].
      by rewrite Hr in Hn. }
    destruct (decide (tile d (target pos dx dy) = STAIRS_UP)).
    { destruct (bool_decide _); [|done].
      destruct (enter_area_total (DungeonManager.current_area m - 1) m)
        as [[b m1] He].
      by rewrite He in H. }
    destruct (decide (tile d (target pos dx dy) = STAIRS_DOWN)); [|done].
    destruct (bool_decide _); [|done].
    destruct (enter_area_total (DungeonManager.current_area m + 1) m)
      as [[b m1] He].
    by rewrite He in H.
  - unfold DungeonManager.move_player, DungeonManager.get_current_dungeon.
    intros [-> | Hp]; [done|].
    rewrite Hp. by destruct (py_index _ _).
Qed.
